(* ===== verification/_CoqProject ===== *)
-Q . S2P
Prelude.v
CString.v
Codec.v
Rfc4648.v
CodecSpec.v
Crypto.v
Config.v
FtSocket.v
FtProto.v
Log.v
FtAuth.v
FtOs.v
FtAddr.v
FtNat.v
FtLan.v
SendQueue.v
RecvBuf.v
Double.v
Json.v
JsonList.v
JsonEdit.v
JsonParse.v
JsonPrint.v
JsonUtf.v
JsonTrip.v
JsonType.v
JsonMinify.v
JsonCopy.v
JsonCompare.v
JsonBuild.v
Msg.v
Http.v
Auth.v
Clip.v
X11.v
FileUri.v
Bits.v
Deflate.v
Inflate.v
Huffman.v
InflateSafe.v
ZlibTrip.v
PngWrite.v
PngRead.v
BmpRead.v
StbLoad.v
PngSafe.v
StbSafe.v
PngTrip.v
Dib.v
BmpTrip.v
Images.v
Client.v
Threads.v
WinClient.v
ClientSafe.v
History.v
WinSafe.v
WinHistory.v
WinMain.v
Sync.v
Deliver.v
