(* ===== verification/Prelude.v ===== *)
(** * SyncClipboard desktop clients: a verification development

    SyncClipboard keeps the clipboards of several devices equal. Each desktop
    client (src/linux/main.c, src/windows/main.c) watches its clipboard,
    encrypts texts and sends them to a server over a WebSocket, offers images
    and files, and transfers these directly from device to device: LAN
    connections and hole-punched ones race, the winner is authenticated by an
    HMAC of the file id, and the server relays when all fail. The code the
    clients share is under src/common/. This development models that code and
    the two clients in Rocq, function by function, and proves what makes them
    correct.

    ** Parts, files, sources

    Foundations
    - [Prelude]: bytes, machine integers ([u32], [i32], ...), list and option
      lemmas, tactics ([boolify], [by_bytes], [dlia]), the hint database [sc];
    - [CString]: C strings in arrays, the string functions of the C library;
    - [Double]: binary64 from the Standard Library's specification, [strtod]
      and [printf("%g")] as exact functions.

    Content
    - [Codec], [CodecSpec] (common/codec.c, common/ft/ft_b64_sha.c): base64,
      hexadecimal, file digests; [Rfc4648], an engine satisfying the laws;
    - [Crypto] (common/crypto.c): AES-256-GCM frames and the legacy CBC pair;
    - [Config] (common/config.c): defaults, line parser, strict validation.

    JSON
    - [Json], [JsonParse], [JsonPrint] (common/cJSON.c): items and accessors,
      the parser over an array with checked reads, the printer over a growing
      buffer with checked writes; [JsonType] what the parser builds, [JsonUtf]
      the \u escapes, [JsonTrip] the two directions together, [JsonMinify]
      [cJSON_Minify] in place;
    - [JsonList], [JsonEdit]: the children as nodes on a heap with [next] and
      [prev], the operations that rewire them, and histories of these;
      [JsonCopy], [JsonCompare]: duplicating and comparing; [JsonBuild]: typed
      arrays, references, hooks;
    - [Msg] (common/msg.c and the builders of linux/main.c): the messages;
    - [Http], [Auth] (common/auth_http.c, common/ws_client.c): the libcurl
      part, login, refresh and token acquisition.

    Logging
    - [Log] (common/log.c and the log of windows/main.c): the level, the file
      and its roll-over, over the disk of [FtProto].

    File transfer (common/ft/)
    - [FtSocket] (ft_socket.c): [ft_send_all] and [ft_recv_all] over class
      [SockOps]; [FtProto] (ft_proto.c): the frame, in memory and streamed;
    - [FtAuth] (ft_auth.c): the handshake;
    - [FtOs]: class [Os], the kernel as a set of open descriptors, and the
      logic [owns]; [FtAddr] (ft_addr.c), [FtNat] (ft_nat.c), [FtLan]
      (ft_lan.c): listening, connecting, hole punching, the candidate races.

    Images (common/stb_image_write.h, common/stb_image.h)
    - [Deflate], [PngWrite]: the compressor behind its bit writer, the PNG
      filters, chunks and checksums; [Bits]: streams of bits;
    - [Inflate], [PngRead], [BmpRead], [StbLoad]: the inflater, the PNG and the
      BMP decoder, [stbi_load_from_memory], over arrays with checked accesses;
    - [Huffman], [InflateSafe], [PngSafe], [StbSafe]: every access of these is
      inside, every loop ends, whatever the input;
    - [ZlibTrip], [PngTrip], [BmpTrip]: what is written is read back, what a
      BMP file shows; [Images]: class [Stb] implemented by all this.

    The Linux client (linux/main.c)
    - [SendQueue]: [queue_send] and the WRITEABLE case on the linked list;
      [RecvBuf]: the reassembly of fragments in the RECEIVE case;
    - [Clip]: the xclip, wl-clipboard and X11 backends; [X11]: how an X11
      selection is read, incremental transfers included, and the event loop of
      the monitor; [FileUri]: copied files, percent decoding;
    - [Client]: the globals ([Client]), the cases of [ws_callback], the parts
      of [process_clipboard_change] and [process_primary_change];
    - [Threads]: [receiver_thread] and [sender_thread];
    - [ClientSafe], [History]: the invariant of the globals, [main]'s loop, the
      interleaving of all threads as the relation [step];
    - [Sync], [Deliver]: text from one device to another; what a receiver
      thread puts on the clipboard.

    The Windows client (windows/main.c)
    - [Dib]: the conversions between PNG, BMP and the DIB on the clipboard;
    - [WinClient]: the globals it adds to those of [Client], its cases of
      [ws_callback], [on_clipboard_changed], its transfer threads; what is the
      same code as in the Linux client is the same definition;
    - [WinSafe], [WinHistory]: the same invariant in every history;
    - [WinMain]: the arguments of [main], the registry entry that starts the
      program at logon, the clipboard viewer chain and [WndProc].

    ** How the code is modelled

    Functions keep their names. A [char] array is a list of exactly its
    declared length, a C string the bytes before its first NUL ([cstr]).
    Integers are [Z] with their wrap-around written out; conversions C leaves
    undefined give the x86-64 result. [malloc_ok] says which allocations
    succeed and [uninit] what a fresh block holds, both arbitrary. Code that
    calls the operating system is a function on a world [W], of which only
    the laws of a class are known: [SockLaws] (streams), [OsLaws]
    (descriptors). Libraries outside src/ are classes too: [Base64Engine],
    [Sha256], [Evp], [Hmac] (OpenSSL), [Curl], [Shell] (commands, X server),
    [Win32], [Viewing] (the reactions of the other clipboard viewers). Every class has a concrete instance for the witnesses:
    [rfc4648], [toy_evp], [toy_hmac], [toy_sha256], [toy_win32], [Sim],
    [Kernel], [example_server], [documented_viewing]. [Stb] is the interface between the clients and
    the image codecs: the clipboard is proved against its laws, [stb_codec]
    implements it by the model of stb; [toy_stb] is a small one for witnesses.
    Files are [Disk]. Undefined behaviour is a value ([Oob], [PrintUB],
    [Overflow], [Invalid], [ZOob], [g_crashed]), proved unreachable or, where the code
    can reach it, proved reachable.

    Loops that are not structural run on fuel. For the parser ([parse_fuel]),
    the growing blocks ([grow_fuel]), the transfers, the file chunks
    ([chunk_fuel]), the connect loops ([steps_fuel]), the configuration lines
    and the decoders the fuel used by the entry point is proved enough; the
    authenticated race has no bound of its own, and [lan_race_terminates]
    proves [timeout_ms + 1] iterations enough when the clock moves. In
    [Threads] the race and the serving loop keep their fuel as a parameter:
    [None] is a thread that has not ended. The inflater's fuel is above
    UINT_MAX, which bounds its output, and above the bits of its input
    ([zlib_fuel]); the chunks of a PNG take one unit for each byte of the file.
    Both are proved enough.

    Critical sections are single steps. What a transfer thread does to the
    globals is one step, taken when it ends; its copy of [g_xfer] and the
    count of active transfers are part of the state while it runs. The wait of
    [process_clipboard_change] for other transfers splits it in two steps,
    because the handlers run in between.

    ** What is proved

    - Content: GCM and CBC round trips, GCM accepts exactly authentic frames;
      codecs are inverse, in every spelling; configuration files mean what
      they say and pass validation exactly when they should.
    - JSON: the parser reads nothing outside its text, always returns, and
      builds well-typed items; the printer writes nothing outside its buffer
      and refines a pure rendering; printing and parsing are inverse on the
      clients' items; every message reads back field by field; token
      acquisition asks only the configured server and stores only what a
      completed response carried; child lists stay linked in every history of
      edits; minifying undoes formatting; copies are separate and equal.
    - Transfer: frames arrive unchanged over any network that cuts streams,
      nothing is allocated or stored beyond the cap, a failed download leaves
      no file; the handshake proves the key; no path leaks a descriptor or
      closes one twice; the races end and hand out only authenticated peers.
    - The client: the queue is a FIFO that drains; fragments reassemble but
      for one length; copied files are found; texts reach the other device
      once; an X11 selection arrives whole unless its owner stalls; only
      authenticated files are delivered, each with one report; in every
      history the globals are consistent and descriptors accounted for, on
      Windows too, where images cross the clipboard pixel by pixel and every
      viewer of the chain handles every change exactly once.
    - Images: PNG files carry the right checksums and every RGBA image is read
      back from them as it was; loading accesses nothing outside its blocks
      and ends on every input, but for one size that wraps; a picture copied on
      one Windows device appears on another.
      [notify_frees_data_being_sent], [reassembly], [file_uri_decoded] and
      [client_invariant] also state where the code goes wrong.

    ** Not modelled

    The X11 display, its window and event masks; the creation of threads and
    windows, signals and shutdown of both clients; of the Windows client the
    WebSocket thread's loop, which is the one of the Linux client; allocator hooks of cJSON other than the default ones; of
    stb the decoders of formats no client produces (JPEG, GIF, PSD, PIC, TGA,
    HDR, PNM: the tests that choose them are modelled, what they return is the
    parameter [load_other], with what the loader relies on as a hypothesis), the writers other than PNG, reading through callbacks and
    files, allocation failures of its growing output buffers, which it only
    asserts, and buffers above INT_MAX bytes, whose length the clients cut to
    an int; the server (Java) and the Android client (Kotlin). The Windows
    branches of common/ft/ are taken to behave like the Linux ones behind the
    same classes. Data races on unlocked globals are not modelled: every step
    is atomic. *)

From stdpp Require Export base list numbers option strings.
From Stdlib Require Export ZArith Lia.
From Stdlib Require Strings.Byte String.
From Corelib Require Export Init.Byte.

#[export] Set Default Goal Selector "!".

(** ** Bytes *)

Abbreviation bytes := (list Byte.byte).
Abbreviation NUL := Byte.x00.

Declare Scope c_scope.
Delimit Scope c_scope with C.

(** The bytes of a C string literal, without its terminator. *)
Definition str (s : string) : bytes := String.list_byte_of_string s.
Arguments str _%_string_scope.

(** The value of an [unsigned char], and the conversion back, modulo 256. *)
Definition bz (b : byte) : Z := Z.of_N (Byte.to_N b).
Definition zb (z : Z) : byte := default NUL (Byte.of_N (Z.to_N (z mod 256))).

#[global] Instance byte_eq_decision : EqDecision byte := Byte.byte_eq_dec.

Definition beq (a b : byte) : bool := Byte.eqb a b.
Infix "=?b" := beq (at level 70) : c_scope.

Section Bytes.
Local Open Scope Z_scope.

Lemma bz_range b : 0 <= bz b < 256.
Proof. unfold bz. pose proof (Byte.to_N_bounded b). lia. Qed.

Lemma zb_bz b : zb (bz b) = b.
Proof. destruct b; reflexivity. Qed.

Lemma bz_zb z : bz (zb z) = z mod 256.
Proof.
  unfold bz, zb. pose proof (Z.mod_pos_bound z 256 ltac:(lia)) as Hz.
  destruct (Byte.of_N (Z.to_N (z mod 256))) as [b|] eqn:E; simpl.
  - apply Byte.to_of_N in E. rewrite E. lia.
  - apply Byte.of_N_None_iff in E. lia.
Qed.

Lemma bz_inj a b : bz a = bz b -> a = b.
Proof. intros H. rewrite <- (zb_bz a), <- (zb_bz b). by rewrite H. Qed.

Lemma zb_mod z : zb (z mod 256) = zb z.
Proof. unfold zb. by rewrite Z.mod_mod by lia. Qed.

Lemma bz_zb_small z : 0 <= z < 256 -> bz (zb z) = z.
Proof. intros H. rewrite bz_zb. by apply Z.mod_small. Qed.

Lemma beq_spec a b : Bool.reflect (a = b) (beq a b).
Proof.
  unfold beq. destruct (Byte.eqb a b) eqn:E; constructor.
  - by apply Byte.byte_dec_bl.
  - intros ->. by rewrite Byte.byte_dec_lb in E.
Qed.

Lemma beq_refl a : beq a a = true.
Proof. by destruct (beq_spec a a). Qed.

Lemma beq_true a b : beq a b = true <-> a = b.
Proof. by destruct (beq_spec a b). Qed.

Lemma beq_false a b : beq a b = false <-> a <> b.
Proof. by destruct (beq_spec a b). Qed.
End Bytes.

(** A boolean predicate that holds of every byte holds of each one: the
    256-fold case analysis is done once, by computation. *)
Definition all_bytes : list byte := map (fun n => zb (Z.of_nat n)) (seq 0 256).

Lemma all_bytes_complete b : b ∈ all_bytes.
Proof.
  unfold all_bytes. apply list_elem_of_fmap. exists (Z.to_nat (bz b)).
  pose proof (bz_range b). split.
  - rewrite Z2Nat.id by lia. by rewrite zb_bz.
  - apply elem_of_seq. lia.
Qed.

Lemma byte_forall (P : byte -> bool) : forallb P all_bytes = true -> forall b, P b = true.
Proof.
  intros H b. rewrite forallb_forall in H. apply H.
  apply list_elem_of_In, all_bytes_complete.
Qed.

(** ** Machine integers *)

Section Integers.
Local Open Scope Z_scope.

Definition INT_MAX : Z := 2147483647.
Definition INT_MIN : Z := -2147483648.
Definition LONG_MAX : Z := 9223372036854775807.
Definition LONG_MIN : Z := -9223372036854775808.

(** Conversions to [int], [uint32_t], [uint64_t] and [int64_t] (two's
    complement wrap-around, as the compilers of both targets define it). *)
Definition i32 (z : Z) : Z := (z + 2 ^ 31) mod 2 ^ 32 - 2 ^ 31.
Definition u32 (z : Z) : Z := z mod 2 ^ 32.
Definition u64 (z : Z) : Z := z mod 2 ^ 64.
Definition i64 (z : Z) : Z := (z + 2 ^ 63) mod 2 ^ 64 - 2 ^ 63.

Lemma i32_id z : INT_MIN <= z <= INT_MAX -> i32 z = z.
Proof. unfold i32, INT_MIN, INT_MAX. intros. rewrite Z.mod_small; lia. Qed.

Lemma i32_range z : INT_MIN <= i32 z <= INT_MAX.
Proof.
  unfold i32, INT_MIN, INT_MAX.
  pose proof (Z.mod_pos_bound (z + 2 ^ 31) (2 ^ 32) ltac:(lia)). lia.
Qed.

Lemma u64_id z : 0 <= z < 2 ^ 64 -> u64 z = z.
Proof. apply Z.mod_small. Qed.

Lemma u64_range z : 0 <= u64 z < 2 ^ 64.
Proof. apply Z.mod_pos_bound. lia. Qed.

Lemma i64_id z : - 2 ^ 63 <= z < 2 ^ 63 -> i64 z = z.
Proof. unfold i64. intros. rewrite Z.mod_small; lia. Qed.
End Integers.

(** ** Lists *)

Fixpoint take_while {A} (f : A -> bool) (l : list A) : list A :=
  match l with
  | [] => []
  | x :: l' => if f x then x :: take_while f l' else []
  end.

Fixpoint drop_while {A} (f : A -> bool) (l : list A) : list A :=
  match l with
  | [] => []
  | x :: l' => if f x then drop_while f l' else l
  end.

(** Index of the first element that satisfies [f]. *)
Fixpoint find_index {A} (f : A -> bool) (l : list A) : option nat :=
  match l with
  | [] => None
  | x :: l' => if f x then Some 0 else S <$> find_index f l'
  end.

Section ListLemmas.
Context {A : Type}.
Implicit Types (f : A -> bool) (l k : list A).

Lemma take_while_all f l : Forall (fun x => f x = true) l -> take_while f l = l.
Proof. induction 1 as [|x l Hx _ IH]; simpl; [done|]. by rewrite Hx, IH. Qed.

Lemma take_while_app_all f l k :
  Forall (fun x => f x = true) l -> take_while f (l ++ k) = l ++ take_while f k.
Proof. induction 1 as [|x l Hx _ IH]; simpl; [done|]. by rewrite Hx, IH. Qed.

Lemma take_while_app_stop f l x k :
  Forall (fun x => f x = true) l -> f x = false -> take_while f (l ++ x :: k) = l.
Proof.
  intros Hl Hx. rewrite take_while_app_all by done. simpl. rewrite Hx. apply app_nil_r.
Qed.

Lemma take_while_Forall f l : Forall (fun x => f x = true) (take_while f l).
Proof. induction l as [|x l IH]; simpl; [done|]. destruct (f x) eqn:E; by constructor. Qed.

Lemma take_while_length f l : length (take_while f l) <= length l.
Proof. induction l as [|x l IH]; simpl; [done|]. destruct (f x); simpl; lia. Qed.

Lemma take_while_idemp f l : take_while f (take_while f l) = take_while f l.
Proof. apply take_while_all, take_while_Forall. Qed.

Lemma take_drop_while f l : take_while f l ++ drop_while f l = l.
Proof. induction l as [|x l IH]; simpl; [done|]. destruct (f x); simpl; by rewrite ?IH. Qed.

Lemma take_while_prefix f l : take (length (take_while f l)) l = take_while f l.
Proof. induction l as [|x l IH]; simpl; [done|]. destruct (f x); simpl; by rewrite ?IH. Qed.

Lemma drop_while_drop f l : drop_while f l = drop (length (take_while f l)) l.
Proof. induction l as [|x l IH]; simpl; [done|]. destruct (f x); simpl; by rewrite ?IH. Qed.

Lemma drop_while_none f l :
  match l with [] => True | x :: _ => f x = false end -> drop_while f l = l.
Proof. destruct l; simpl; [done|]. by intros ->. Qed.

Lemma drop_while_app_all f l k :
  Forall (fun x => f x = true) l -> drop_while f (l ++ k) = drop_while f k.
Proof. induction 1 as [|x l Hx _ IH]; simpl; [done|]. by rewrite Hx, IH. Qed.

Lemma drop_while_all f l : Forall (fun x => f x = true) l -> drop_while f l = [].
Proof. induction 1 as [|x l Hx _ IH]; simpl; [done|]. by rewrite Hx. Qed.

Lemma drop_while_head f l :
  match drop_while f l with [] => True | x :: _ => f x = false end.
Proof. induction l as [|x l IH]; simpl; [done|]. by destruct (f x) eqn:E. Qed.

Lemma drop_while_length f l : length (drop_while f l) <= length l.
Proof. induction l as [|x l IH]; simpl; [done|]. destruct (f x); simpl; lia. Qed.

Lemma find_index_app_stop f l x k :
  Forall (fun x => f x = false) l -> f x = true -> find_index f (l ++ x :: k) = Some (length l).
Proof.
  induction 1 as [|y l Hy _ IH]; simpl; intros Hx; [by rewrite Hx|].
  by rewrite Hy, IH.
Qed.

Lemma find_index_none f l : Forall (fun x => f x = false) l -> find_index f l = None.
Proof. induction 1 as [|y l Hy _ IH]; simpl; [done|]. by rewrite Hy, IH. Qed.

Lemma find_index_Some f l n :
  find_index f l = Some n ->
  exists x, l !! n = Some x /\ f x = true /\ Forall (fun x => f x = false) (take n l).
Proof.
  revert n. induction l as [|y l IH]; simpl; intros n H; [done|].
  destruct (f y) eqn:E.
  - injection H as <-. exists y. simpl. auto.
  - destruct (find_index f l) as [m|] eqn:Em; simplify_option_eq.
    destruct (IH m eq_refl) as (x & Hx & Hf & Hall). exists x. simpl. auto.
Qed.

Lemma take_app_exact n l k : length l = n -> take n (l ++ k) = l.
Proof. intros <-. apply take_app_length. Qed.

Lemma drop_app_exact n l k : length l = n -> drop n (l ++ k) = k.
Proof. intros <-. apply drop_app_length. Qed.
End ListLemmas.

(** ** Lists of lists, and [mapM] *)

Lemma lookup_behind {A} (l k : list A) i : (l ++ k) !! (length l + i)%nat = k !! i.
Proof. rewrite lookup_app_r by lia. f_equal. lia. Qed.

Lemma lookup_concat {A} (n : nat) (rows : list (list A)) i j row :
  Forall (fun r => length r = n) rows -> rows !! i = Some row -> (j < n)%nat ->
  concat rows !! (i * n + j)%nat = row !! j.
Proof.
  intros Hf. revert i. induction Hf as [|r rows Hr Hf IH]; intros i Hi Hj; [done|].
  destruct i as [|i]; cbn [concat lookup list_lookup] in *.
  - injection Hi as ->. rewrite Nat.mul_0_l, Nat.add_0_l. by rewrite lookup_app_l by lia.
  - rewrite lookup_app_r by lia. rewrite <- (IH i Hi Hj). f_equal. lia.
Qed.

Lemma length_concat_same {A} (n : nat) (rows : list (list A)) :
  Forall (fun r => length r = n) rows -> length (concat rows) = (length rows * n)%nat.
Proof. induction 1 as [|r rows Hr _ IH]; [done|]. cbn. rewrite length_app, IH. lia. Qed.

Lemma mapM_seq_total {A} (f : nat -> option A) (n : nat) :
  (forall i, (i < n)%nat -> is_Some (f i)) ->
  exists l, mapM f (seq 0 n) = Some l /\ length l = n /\ forall i, (i < n)%nat -> l !! i = f i.
Proof.
  intros Hf.
  assert (Hs : is_Some (mapM f (seq 0 n))).
  { apply mapM_is_Some_2. apply Forall_forall. intros i Hi%elem_of_seq. apply Hf. lia. }
  destruct Hs as [l Hl]. exists l. split; [done|]. apply mapM_Some_1 in Hl.
  pose proof (Forall2_length _ _ _ Hl) as Hn. rewrite length_seq in Hn. split; [done|].
  intros i Hi. destruct (lookup_lt_is_Some_2 l i) as [x Hx]; [lia|].
  pose proof (Forall2_lookup_r _ _ _ _ _ Hl Hx) as (k & Hk & Hfk).
  apply lookup_seq in Hk as [-> _]. by rewrite Hx.
Qed.

(** ** Tactics *)

(** Case analysis on the scrutinee of a match or an [if], named. *)
Ltac case_test H :=
  match goal with
  | |- context [if ?b then _ else _] => destruct b eqn:H
  | |- context [match ?x with _ => _ end] => destruct x eqn:H
  end.

Ltac case_test_in X H :=
  match type of X with
  | context [if ?b then _ else _] => destruct b eqn:H
  | context [match ?x with _ => _ end] => destruct x eqn:H
  end.

(** Turn boolean comparisons of the context into propositions. *)
Ltac boolify :=
  repeat match goal with
  | H : andb _ _ = true |- _ => apply andb_prop in H; destruct H
  | H : orb _ _ = false |- _ => apply orb_false_elim in H; destruct H
  | H : negb _ = true |- _ => apply negb_true_iff in H
  | H : negb _ = false |- _ => apply negb_false_iff in H
  | H : Z.ltb _ _ = true |- _ => apply Z.ltb_lt in H
  | H : Z.ltb _ _ = false |- _ => apply Z.ltb_ge in H
  | H : Z.leb _ _ = true |- _ => apply Z.leb_le in H
  | H : Z.leb _ _ = false |- _ => apply Z.leb_gt in H
  | H : Z.eqb _ _ = true |- _ => apply Z.eqb_eq in H
  | H : Z.eqb _ _ = false |- _ => apply Z.eqb_neq in H
  | H : Nat.ltb _ _ = true |- _ => apply Nat.ltb_lt in H
  | H : Nat.ltb _ _ = false |- _ => apply Nat.ltb_ge in H
  | H : Nat.leb _ _ = true |- _ => apply Nat.leb_le in H
  | H : Nat.leb _ _ = false |- _ => apply Nat.leb_gt in H
  | H : Nat.eqb _ _ = true |- _ => apply Nat.eqb_eq in H
  | H : Nat.eqb _ _ = false |- _ => apply Nat.eqb_neq in H
  | H : beq _ _ = true |- _ => apply beq_true in H
  | H : beq _ _ = false |- _ => apply beq_false in H
  end.

(** Decide a statement about one byte by evaluating all 256 cases. *)
Ltac by_bytes b := destruct b; try reflexivity; try discriminate; try done.

(** [lia] with [Z.div] and [Z.modulo]. *)
Ltac dlia := Z.div_mod_to_equations; lia.

Create HintDb sc discriminated.
Create Rewrite HintDb sc.
#[export] Hint Rewrite @length_app @length_take @length_drop @length_replicate @length_map
  @length_insert : sc.
#[export] Hint Rewrite zb_bz : sc.
#[export] Hint Resolve bz_range u64_range i32_range take_while_Forall : sc.

(** Length arithmetic: normalise lengths, then [lia]. *)
Ltac len := autorewrite with sc in *; simpl in *; lia.
