(* ===== verification/CString.v ===== *)
(** * C strings and the parts of the C library the clients call

    A [const char *] argument is modelled by the bytes of the array it points
    to; [cstr] is the C string in an array (the bytes before the first NUL).
    [char x[N]] fields are lists of exactly [N] bytes, written by [strncpy].
    The functions below follow glibc, which the Linux client links. *)

From S2P Require Import Prelude.
Local Open Scope Z_scope.

(** ** NUL-terminated strings *)

Definition not_nul (b : byte) : bool := negb (beq b NUL).
Definition cstr (l : bytes) : bytes := take_while not_nul l.
Definition strlen (l : bytes) : nat := length (cstr l).

Definition no_nul (s : bytes) : Prop := Forall (fun b => not_nul b = true) s.
#[global] Instance no_nul_dec s : Decision (no_nul s).
Proof. unfold no_nul. apply _. Defined.

(** [strcmp(a, b) == 0]. *)
Definition streq (a b : bytes) : bool := bool_decide (cstr a = cstr b).

(** [strncmp(s, lit, strlen(lit)) == 0] for a literal [lit]. *)
Definition starts_with (lit s : bytes) : bool := bool_decide (take (length lit) s = lit).

(** [strstr(s, needle)], as the offset of the first occurrence. *)
Fixpoint strstr (s needle : bytes) : option nat :=
  if starts_with needle s then Some 0%nat
  else match s with
       | [] => None
       | _ :: s' => S <$> strstr s' needle
       end.

(** [strchr(s, c)] and [strrchr(s, c)] for [c <> 0], as offsets. *)
Definition strchr (s : bytes) (c : byte) : option nat := find_index (fun b => beq b c) (cstr s).

Definition strrchr (s : bytes) (c : byte) : option nat :=
  let t := cstr s in
  (fun i => length t - 1 - i)%nat <$> find_index (fun b => beq b c) (reverse t).

(** [strncpy(dst, src, n)]: at most [n] bytes of [src], padded with NUL up to
    [n]; the bytes of [dst] from [n] on are untouched. *)
Definition strncpy (dst src : bytes) (n : nat) : bytes :=
  let s := take n (cstr src) in
  s ++ replicate (n - length s) NUL ++ drop n dst.

(** [char x[N]] after [memset(x, 0, N)]. *)
Definition zeros (n : nat) : bytes := replicate n NUL.

(** [snprintf(buf, size, ...)] that prints [text]: what [buf] holds afterwards,
    as a C string, and the returned length. *)
Definition snprintf (size : nat) (text : bytes) : bytes * Z :=
  (take (size - 1) text, Z.of_nat (length text)).

(** ** ctype.h in the C locale *)

Definition isspace (b : byte) : bool :=
  let z := bz b in (z =? 32) || ((9 <=? z) && (z <=? 13)).
Definition isdigit (b : byte) : bool := let z := bz b in (48 <=? z) && (z <=? 57).
Definition isxdigit (b : byte) : bool :=
  let z := bz b in
  isdigit b || ((65 <=? z) && (z <=? 70)) || ((97 <=? z) && (z <=? 102)).
Definition tolower (b : byte) : byte :=
  let z := bz b in if (65 <=? z) && (z <=? 90) then zb (z + 32) else b.

(** [strcasecmp(a, b) == 0]. *)
Definition strcaseeq (a b : bytes) : bool :=
  bool_decide (map tolower (cstr a) = map tolower (cstr b)).

Definition hex_value (b : byte) : Z :=
  let z := bz b in
  if (48 <=? z) && (z <=? 57) then z - 48
  else if (65 <=? z) && (z <=? 70) then z - 55
  else if (97 <=? z) && (z <=? 102) then z - 87
  else 0.

(** ** Number conversions *)

Definition dec_value (ds : bytes) : Z := fold_left (fun a d => 10 * a + (bz d - 48)) ds 0.

(** [atoi(s)]: glibc computes [(int) strtol(s, NULL, 10)], and [strtol]
    saturates at [LONG_MIN] and [LONG_MAX] (64 bits). *)
Definition strtol10 (s : bytes) : Z :=
  let s := drop_while isspace (cstr s) in
  let '(neg, s) :=
    match s with
    | "-"%byte :: s' => (true, s')
    | "+"%byte :: s' => (false, s')
    | _ => (false, s)
    end in
  let v := dec_value (take_while isdigit s) in
  if neg then Z.max LONG_MIN (- v) else Z.min LONG_MAX v.

Definition atoi (s : bytes) : Z := i32 (strtol10 s).

(** [sscanf(s, "%2x", &v)] (also "%02x"): [Some v] when the conversion
    succeeds.  White space is skipped and not counted in the field width; a
    sign and a "0x" prefix are. *)
Definition sscanf_2x (s : bytes) : option Z :=
  match drop_while isspace (cstr s) with
  | [] => None
  | c :: s1 =>
      let '(signed, neg, w, s1) :=
        if beq c "-" then (true, true, 1%nat, s1)
        else if beq c "+" then (true, false, 1%nat, s1)
        else (false, false, 2%nat, c :: s1) in
      (* a leading zero, possibly of a "0x" prefix *)
      let '(zero, w, s1) :=
        match s1 with
        | "0"%byte :: s2 =>
            match w, s2 with
            | S (S w'), x :: s3 => if beq (tolower x) "x" then (true, w', s3) else (true, S w', s2)
            | _, _ => (true, pred w, s2)
            end
        | _ => (false, w, s1)
        end in
      let ds := take w (take_while isxdigit s1) in
      if negb zero && bool_decide (ds = []) then None
      else
        let v := fold_left (fun a d => 16 * a + hex_value d) ds 0 in
        Some (u32 (if neg then - v else v))
  end.

(** "%d" and "%lld": the decimal digits of an integer. *)
Definition digit (z : Z) : byte := zb (48 + z).

Fixpoint dec_digits (fuel : nat) (n : Z) (acc : bytes) : bytes :=
  match fuel with
  | O => acc
  | S f =>
      let acc' := digit (n mod 10) :: acc in
      if n <? 10 then acc' else dec_digits f (n / 10) acc'
  end.

Definition dec_nonneg (n : Z) : bytes := dec_digits (S (Z.to_nat (Z.log2 n))) n [].

Definition print_d (z : Z) : bytes :=
  if z <? 0 then "-"%byte :: dec_nonneg (- z) else dec_nonneg z.

(** "%02x" of one byte. *)
Definition hex_digit (z : Z) : byte := if z <? 10 then zb (48 + z) else zb (87 + z).
Definition print_02x (b : byte) : bytes := [hex_digit (bz b / 16); hex_digit (bz b mod 16)].

(** ** Lemmas on C strings *)

Lemma cstr_no_nul s : no_nul s -> cstr s = s.
Proof. apply take_while_all. Qed.

Lemma no_nul_cstr l : no_nul (cstr l).
Proof. apply take_while_Forall. Qed.

Lemma cstr_idemp l : cstr (cstr l) = cstr l.
Proof. apply cstr_no_nul, no_nul_cstr. Qed.

Lemma cstr_stop s l : no_nul s -> cstr (s ++ NUL :: l) = s.
Proof. intros. by apply take_while_app_stop. Qed.

Lemma no_nul_app s t : no_nul (s ++ t) <-> no_nul s /\ no_nul t.
Proof. unfold no_nul. by rewrite Forall_app. Qed.

Lemma no_nul_cons b s : no_nul (b :: s) <-> not_nul b = true /\ no_nul s.
Proof. unfold no_nul. by rewrite Forall_cons. Qed.

Lemma no_nul_take n s : no_nul s -> no_nul (take n s).
Proof. apply Forall_take. Qed.

Lemma not_nul_true b : not_nul b = true <-> b <> NUL.
Proof. unfold not_nul. rewrite negb_true_iff. apply beq_false. Qed.

Lemma streq_true a b : streq a b = true <-> cstr a = cstr b.
Proof. apply bool_decide_eq_true. Qed.

Lemma streq_refl a : streq a a = true.
Proof. by apply streq_true. Qed.

Lemma length_strncpy dst src n : (n <= length dst)%nat -> length (strncpy dst src n) = length dst.
Proof. unfold strncpy. intros. len. Qed.

(** The idiom of the whole code base, [strncpy(x, s, sizeof(x) - 1)] on an
    array whose last byte is NUL: [x] then holds the longest prefix of [s]
    that fits, still terminated. *)
Lemma cstr_strncpy dst src n :
  (n < length dst)%nat -> last dst = Some NUL -> n = pred (length dst) ->
  cstr (strncpy dst src n) = take n (cstr src).
Proof.
  intros Hn Hlast ->. unfold strncpy.
  set (n := pred (length dst)) in *. set (s := take n (cstr src)).
  assert (Hs : no_nul s) by apply no_nul_take, no_nul_cstr.
  assert (Hd : drop n dst = [NUL]).
  { apply last_Some in Hlast as [l ->]. unfold n. rewrite length_app. simpl.
    apply drop_app_exact. lia. }
  rewrite Hd. destruct (n - length s)%nat as [|k]; simpl; by apply cstr_stop.
Qed.

Lemma last_strncpy dst src n :
  (n < length dst)%nat -> last (strncpy dst src n) = last dst.
Proof.
  intros Hn. unfold strncpy.
  rewrite app_assoc, last_app. destruct (last (drop n dst)) eqn:E.
  - rewrite <- (take_drop n dst), last_app. by rewrite E.
  - apply last_None, (f_equal length) in E. len.
Qed.

Lemma cstr_zeros n : cstr (zeros n) = [].
Proof. by destruct n. Qed.

Lemma length_zeros n : length (zeros n) = n.
Proof. apply length_replicate. Qed.

Lemma last_zeros n : (0 < n)%nat -> last (zeros n) = Some NUL.
Proof.
  intros. destruct n as [|n]; [lia|]. unfold zeros.
  rewrite replicate_S_end. apply last_snoc.
Qed.

#[export] Hint Resolve no_nul_cstr no_nul_take cstr_no_nul : sc.
#[export] Hint Rewrite cstr_idemp cstr_zeros length_zeros : sc.

Lemma starts_with_app lit s : starts_with lit (lit ++ s) = true.
Proof. apply bool_decide_eq_true. apply take_app_length. Qed.

Lemma starts_with_true lit s : starts_with lit s = true <-> exists t, s = lit ++ t.
Proof.
  unfold starts_with. rewrite bool_decide_eq_true. split.
  - intros H. exists (drop (length lit) s). rewrite <- H at 1. by rewrite take_drop.
  - intros [t ->]. apply take_app_length.
Qed.

(** [strstr(s, lit) == s], the test the clients use for a prefix. *)
Lemma strstr_zero s lit : strstr s lit = Some 0%nat <-> starts_with lit s = true.
Proof.
  destruct s as [|b s]; simpl.
  - destruct (starts_with lit []); split; by intros.
  - destruct (starts_with lit (b :: s)); [done|]. split; [|done].
    destruct (strstr s lit); simpl; by intros.
Qed.

(** ** Decimal printing and scanning *)

Lemma digit_value z : 0 <= z < 10 -> bz (digit z) - 48 = z.
Proof. intros. unfold digit. rewrite bz_zb_small; lia. Qed.

Lemma digit_isdigit z : 0 <= z < 10 -> isdigit (digit z) = true.
Proof. intros. unfold isdigit, digit. rewrite bz_zb_small by lia. lia. Qed.

Lemma dec_value_app ds d : dec_value (ds ++ [d]) = 10 * dec_value ds + (bz d - 48).
Proof. unfold dec_value. by rewrite fold_left_app. Qed.

Lemma fold_dec_acc ds a :
  fold_left (fun a d => 10 * a + (bz d - 48)) ds a
  = a * 10 ^ Z.of_nat (length ds) + dec_value ds.
Proof.
  unfold dec_value. revert a. induction ds as [|d ds IH]; intros a.
  - simpl. lia.
  - cbn [fold_left length]. rewrite IH, (IH (10 * 0 + _)).
    rewrite Nat2Z.inj_succ, Z.pow_succ_r by lia. lia.
Qed.

Lemma log2_div10_fuel n f :
  0 <= n -> (Z.to_nat (Z.log2 n) < S f)%nat -> 10 <= n -> (Z.to_nat (Z.log2 (n / 10)) < f)%nat.
Proof.
  intros Hn Hf H10.
  assert (H1 : Z.log2 (n / 10) <= Z.log2 (n / 2)).
  { apply Z.log2_le_mono, Z.div_le_compat_l; lia. }
  assert (H2 : Z.log2 (n / 2) = Z.max 0 (Z.log2 n - 1)).
  { change 2 with (2 ^ 1). rewrite <- Z.shiftr_div_pow2, Z.log2_shiftr; lia. }
  assert (1 <= Z.log2 n); [|lia].
  change 1 with (Z.log2 2). apply Z.log2_le_mono. lia.
Qed.

Lemma dec_digits_spec f n acc :
  0 <= n -> (Z.to_nat (Z.log2 n) < f)%nat ->
  exists ds, dec_digits f n acc = ds ++ acc /\ dec_value ds = n
    /\ Forall (fun b => isdigit b = true) ds /\ ds <> []
    /\ (n <> 0 -> head ds <> Some "0"%byte).
Proof.
  revert n acc. induction f as [|f IH]; intros n acc Hn Hf; [lia|].
  cbn [dec_digits]. pose proof (Z.mod_pos_bound n 10 ltac:(lia)) as Hm.
  destruct (n <? 10) eqn:E; boolify.
  - exists [digit (n mod 10)]. rewrite Z.mod_small in * by lia. repeat split.
    + unfold dec_value. cbn. rewrite digit_value; lia.
    + constructor; [|constructor]. by apply digit_isdigit.
    + done.
    + intros Hn0 H. simpl in H. injection H as H.
      pose proof (digit_value n ltac:(lia)) as Hd. rewrite H in Hd. simpl in Hd.
      change (bz "0") with 48 in Hd. lia.
  - destruct (IH (n / 10) (digit (n mod 10) :: acc)) as (ds & Hds & Hv & Hall & Hne & Hhd).
    + apply Z.div_pos; lia.
    + by apply log2_div10_fuel.
    + exists (ds ++ [digit (n mod 10)]). repeat split.
      * rewrite Hds. by rewrite <- app_assoc.
      * rewrite dec_value_app, Hv, digit_value by lia.
        pose proof (Z.div_mod n 10 ltac:(lia)). lia.
      * apply Forall_app. split; [done|]. constructor; [|constructor]. by apply digit_isdigit.
      * by destruct ds.
      * intros _. assert (n / 10 <> 0) as H%Hhd.
        { pose proof (Z.div_le_lower_bound n 10 1 ltac:(lia) ltac:(lia)). lia. }
        by destruct ds.
Qed.

Lemma dec_nonneg_spec n :
  0 <= n ->
  dec_value (dec_nonneg n) = n /\ Forall (fun b => isdigit b = true) (dec_nonneg n)
  /\ dec_nonneg n <> [] /\ (n <> 0 -> head (dec_nonneg n) <> Some "0"%byte).
Proof.
  intros Hn. unfold dec_nonneg.
  destruct (dec_digits_spec (S (Z.to_nat (Z.log2 n))) n [] Hn ltac:(lia))
    as (ds & -> & H). by rewrite app_nil_r.
Qed.

Lemma isdigit_not_nul b : isdigit b = true -> not_nul b = true.
Proof. by_bytes b. Qed.

Lemma isdigit_not_space b : isdigit b = true -> isspace b = false.
Proof. by_bytes b. Qed.

Lemma digits_no_nul ds : Forall (fun b => isdigit b = true) ds -> no_nul ds.
Proof. intros H. eapply Forall_impl; [exact H|]. exact isdigit_not_nul. Qed.

Lemma print_d_no_nul z : no_nul (print_d z).
Proof.
  unfold print_d. destruct (z <? 0) eqn:E; boolify.
  - apply no_nul_cons. split; [done|]. apply digits_no_nul, dec_nonneg_spec. lia.
  - apply digits_no_nul, dec_nonneg_spec. lia.
Qed.

(** [atoi] reads back what "%d" prints, for every [int]. *)
Lemma atoi_print_d z : INT_MIN <= z <= INT_MAX -> atoi (print_d z) = z.
Proof.
  intros Hz. unfold atoi, strtol10. rewrite (cstr_no_nul _ (print_d_no_nul z)).
  unfold print_d. unfold INT_MIN, INT_MAX in Hz.
  assert (Hl : forall n, 0 <= n <= 2147483648 -> forall s, dec_nonneg n = s ->
    dec_value (take_while isdigit s) = n).
  { intros n Hn s <-. destruct (dec_nonneg_spec n ltac:(lia)) as (Hv & Hall & _).
    by rewrite take_while_all. }
  destruct (z <? 0) eqn:E; boolify.
  - simpl. rewrite (Hl (- z)) by (done || lia).
    rewrite Z.opp_involutive, Z.max_r by (unfold LONG_MIN; lia).
    apply i32_id. unfold INT_MIN, INT_MAX. lia.
  - destruct (dec_nonneg_spec z ltac:(lia)) as (Hv & Hall & Hne & _).
    destruct (dec_nonneg z) as [|d ds] eqn:Ed; [done|].
    assert (Hd : isdigit d = true) by by inversion Hall.
    rewrite drop_while_none by by apply isdigit_not_space.
    assert (Hd2 : match d :: ds with
                  | "-"%byte :: s' => (true, s') | "+"%byte :: s' => (false, s')
                  | _ => (false, d :: ds) end = (false, d :: ds)) by by_bytes d.
    rewrite Hd2, (Hl z) by (done || lia).
    rewrite Z.min_r by (unfold LONG_MAX; lia).
    apply i32_id. unfold INT_MIN, INT_MAX. lia.
Qed.

(** ** Hexadecimal *)

Lemma hex_digit_xdigit z : 0 <= z < 16 -> isxdigit (hex_digit z) = true.
Proof.
  intros Hz. unfold isxdigit, isdigit, hex_digit. destruct (z <? 10) eqn:E; boolify;
    rewrite bz_zb_small by lia; lia.
Qed.

Lemma isxdigit_not_nul b : isxdigit b = true -> not_nul b = true.
Proof. by_bytes b. Qed.

Lemma print_02x_xdigits b : Forall (fun c => isxdigit c = true) (print_02x b).
Proof.
  pose proof (bz_range b). repeat constructor; apply hex_digit_xdigit.
  - pose proof (Z.div_lt_upper_bound (bz b) 16 16). pose proof (Z.div_pos (bz b) 16). lia.
  - apply Z.mod_pos_bound. lia.
Qed.

(** "%2x" on two hexadecimal digits, whatever follows. *)
Lemma sscanf_2x_xdigits h l rest :
  isxdigit h = true -> isxdigit l = true ->
  sscanf_2x (h :: l :: rest) = Some (16 * hex_value h + hex_value l).
Proof.
  intros Hh Hl.
  assert (Hstep : sscanf_2x (h :: l :: rest)
                  = sscanf_2x [h; l]).
  { unfold sscanf_2x, cstr.
    change (h :: l :: rest) with ([h; l] ++ rest).
    rewrite take_while_app_all by (repeat constructor; by apply isxdigit_not_nul).
    rewrite (take_while_all not_nul [h; l]) by (repeat constructor; by apply isxdigit_not_nul).
    assert (Hns : isspace h = false) by by_bytes h. cbn [app drop_while]. rewrite Hns.
    assert (Hm : beq h "-" = false) by by_bytes h. assert (Hp : beq h "+" = false) by by_bytes h.
    rewrite Hm, Hp.
    assert (Hx : beq (tolower l) "x" = false) by by_bytes l.
    by_bytes h; cbn -[take take_while isxdigit]; rewrite ?Hx; cbn [take_while];
      rewrite ?Hl; cbn; rewrite ?take_0; reflexivity. }
  rewrite Hstep. clear Hstep rest. revert Hh Hl.
  set (P := fun h l => negb (isxdigit h && isxdigit l)
    || bool_decide (sscanf_2x [h; l] = Some (16 * hex_value h + hex_value l))).
  assert (HP : forallb (fun h => forallb (P h) all_bytes) all_bytes = true) by (vm_compute; reflexivity).
  intros Hh Hl. pose proof (byte_forall _ (byte_forall (fun h => forallb (P h) all_bytes) HP h) l) as H.
  unfold P in H. rewrite Hh, Hl in H. simpl in H. by apply bool_decide_eq_true in H.
Qed.

Lemma sscanf_2x_print_02x b rest : sscanf_2x (print_02x b ++ rest) = Some (bz b).
Proof.
  pose proof (print_02x_xdigits b) as H. unfold print_02x in *.
  apply Forall_cons in H as [H1 H]. apply Forall_cons in H as [H2 _]. cbn [app].
  rewrite sscanf_2x_xdigits by done. f_equal.
  pose proof (byte_forall (fun b => bool_decide
    (16 * hex_value (hex_digit (bz b / 16)) + hex_value (hex_digit (bz b mod 16)) = bz b))) as HP.
  apply (bool_decide_eq_true_1 _), HP. vm_compute. reflexivity.
Qed.
