(* ===== verification/Codec.v ===== *)
(** * Base64 and hexadecimal codecs: common/codec.c and common/ft/ft_b64_sha.c

    The base64 engines themselves are OpenSSL's ([BIO_f_base64],
    [EVP_EncodeBlock], [EVP_DecodeBlock]); class [Base64Engine] holds them as
    parameters and [Base64Laws] states what their documentation promises.
    [Rfc4648] gives a concrete engine that satisfies the laws. *)

From S2P Require Import Prelude CString.
Local Open Scope Z_scope.

(** ** The OpenSSL base64 interface *)

Class Base64Engine := {
  (** [BIO_write] through a base64 filter into a memory BIO, then [BIO_flush]:
      the contents of the memory BIO, or [None] when [BIO_write] returns <= 0. *)
  bio_b64_write : bytes -> Z -> option bytes;
  (** [BIO_read] of at most [max] bytes through a base64 filter over the first
      [n] bytes of a buffer: [None] when it returns a negative number. *)
  bio_b64_read : bytes -> Z -> Z -> option bytes;
  (** [EVP_EncodeBlock] and [EVP_DecodeBlock] on the first [n] bytes. *)
  evp_encode_block : bytes -> Z -> bytes;
  evp_decode_block : bytes -> Z -> option bytes }.

Definition is_b64_char (b : byte) : bool :=
  let z := bz b in
  ((65 <=? z) && (z <=? 90)) || ((97 <=? z) && (z <=? 122)) || isdigit b
  || beq b "+" || beq b "/".

(** A standard base64 text: [n] bytes take [4 * ceil(n / 3)] characters, the
    last of which are padding. *)
Definition b64_shape (n : nat) (s : bytes) : Prop :=
  exists body, s = body ++ replicate ((3 - n mod 3) mod 3) "="%byte
    /\ Forall (fun b => is_b64_char b = true) body
    /\ length s = (4 * ((n + 2) / 3))%nat.

Class Base64Laws `{Base64Engine} := {
  bio_write_read : forall d, d <> [] -> Z.of_nat (length d) <= INT_MAX ->
    exists s, bio_b64_write d (Z.of_nat (length d)) = Some s /\ b64_shape (length d) s
      /\ forall max, Z.of_nat (length d) <= max ->
         bio_b64_read s (Z.of_nat (length s)) max = Some d;
  evp_block_shape : forall d, Z.of_nat (length d) <= INT_MAX ->
    b64_shape (length d) (evp_encode_block d (Z.of_nat (length d)));
  (** [EVP_DecodeBlock] decodes whole quanta: the padding becomes zero bytes. *)
  evp_block_decode : forall d, Z.of_nat (length d) <= INT_MAX ->
    let s := evp_encode_block d (Z.of_nat (length d)) in
    evp_decode_block s (Z.of_nat (length s))
      = Some (d ++ zeros ((3 - length d mod 3) mod 3)) }.

(** The two tests of [ft_base64_decode] for a padding character at the end of
    [b64]; [n] is the count [EVP_DecodeBlock] returned. *)
Definition ft_unpad (b64 : bytes) (n : nat) : nat :=
  let len := length b64 in
  let n := if (1 <? len)%nat && bool_decide (b64 !! (len - 1)%nat = Some "="%byte)
           then (n - 1)%nat else n in
  if (2 <? len)%nat && bool_decide (b64 !! (len - 2)%nat = Some "="%byte)
  then (n - 1)%nat else n.

Section Codec.
Context `{Base64Engine}.
(** Which allocations [malloc] and [realloc] grant, by size. *)
Context (malloc_ok : Z -> bool).

(** [sc_base64_encode(data, len)]. *)
Definition sc_base64_encode (data : bytes) : option bytes :=
  let len := Z.of_nat (length data) in
  match bio_b64_write data (i32 len) with
  | None => None
  | Some mem => if malloc_ok (Z.of_nat (length mem) + 1) then Some mem else None
  end.

Definition url_to_std (c : byte) : byte :=
  if beq c "-" then "+"%byte else if beq c "_" then "/"%byte else c.

(** The padding loop of [normalise_base64]: [buf] has capacity [cap]. *)
Fixpoint pad_loop (fuel : nat) (buf : bytes) (cap : Z) : option bytes :=
  match fuel with
  | O => None
  | S f =>
      let len := Z.of_nat (length buf) in
      if len mod 4 =? 0 then Some buf
      else if cap <=? len + 1 then
        if malloc_ok (cap * 2) then pad_loop f (buf ++ ["="%byte]) (cap * 2) else None
      else pad_loop f (buf ++ ["="%byte]) cap
  end.

Definition normalise_base64 (input : bytes) : option bytes :=
  let s := cstr input in
  let cap := Z.of_nat (length s) + 4 + 1 in
  if malloc_ok cap then pad_loop 4 (map url_to_std s) cap else None.

(** [sc_base64_decode(input, &out_len)], [input] non-NULL; the result is the
    buffer, [*out_len] its length. *)
Definition sc_base64_decode (input : bytes) : option bytes :=
  match normalise_base64 input with
  | None => None
  | Some normalised =>
      let in_len := Z.of_nat (length normalised) in
      let max_out := in_len * 3 / 4 + 4 in
      if malloc_ok max_out then bio_b64_read normalised (i32 in_len) (i32 max_out) else None
  end.

(** [sc_hex_to_bytes(hex, out, out_len)]: [Some out] when it returns 0. *)
Definition sc_hex_to_bytes (hex : bytes) (out_len : nat) : option bytes :=
  if negb (strlen hex =? out_len * 2)%nat then None
  else mapM (fun i => zb <$> sscanf_2x (drop (2 * i) (cstr hex))) (seq 0 out_len).

(** [sc_bytes_to_hex(bytes, len, out_hex)]: the string left in [out_hex]. *)
Definition sc_bytes_to_hex (bs : bytes) : bytes :=
  let digits := str "0123456789abcdef" in
  concat (map (fun b => [nth (Z.to_nat (Z.land (Z.shiftr (bz b) 4) 15)) digits NUL;
                         nth (Z.to_nat (Z.land (bz b) 15)) digits NUL]) bs).

(** [ft_base64_encode(data, len, &out_len)]. *)
Definition ft_base64_encode (data : bytes) : option bytes :=
  let len := Z.of_nat (length data) in
  let b64_len := 4 * ((len + 2) / 3) + 1 in
  if malloc_ok b64_len then Some (evp_encode_block data (i32 len)) else None.

(** [ft_base64_decode(b64, b64_len, &out_len)]. *)
Definition ft_base64_decode (b64 : bytes) : option bytes :=
  let b64_len := Z.of_nat (length b64) in
  let max_len := 3 * b64_len / 4 + 1 in
  if malloc_ok max_len then
    match evp_decode_block b64 (i32 b64_len) with
    | None => None
    | Some data => Some (take (ft_unpad b64 (length data)) data)
    end
  else None.
End Codec.

(** [ft_sha256]'s rendering of the digest; the hash itself is OpenSSL's. *)
Class Sha256 := {
  sha256 : bytes -> bytes;
  sha256_length : forall d, length (sha256 d) = 32%nat }.

Definition ft_sha256 `{Sha256} (data : bytes) : bytes := concat (map print_02x (sha256 data)).

(** ** Files read in chunks

    A file opened for reading is the bytes [fread] yields before end of file
    or a read error; [fread] returns as many as asked for while they last. *)

Definition FT_CHUNK_SIZE : Z := 256 * 1024.

Definition fread (n : Z) (f : bytes) : bytes * bytes := (take (Z.to_nat n) f, drop (Z.to_nat n) f).

(** The loop of [ft_sha256_file]: the messages [EVP_DigestUpdate] is given. *)
Fixpoint digest_chunks (fuel : nat) (f : bytes) (hashed : bytes) : option bytes :=
  match fuel with
  | O => None
  | S fuel' =>
      let '(buf, f') := fread FT_CHUNK_SIZE f in
      if bool_decide (buf = []) then Some hashed
      else digest_chunks fuel' f' (hashed ++ buf)
  end.

(** [ft_sha256_file(path, out_hex)]; [None] for the file when [fopen] fails. *)
Definition ft_sha256_file `{Sha256} (file : option bytes) : option bytes :=
  match file with
  | None => None
  | Some f =>
      msg ← digest_chunks (S (length f)) f [];
      Some (concat (map print_02x (sha256 msg)))
  end.

Lemma digest_chunks_spec fuel f hashed :
  (length f < fuel)%nat -> digest_chunks fuel f hashed = Some (hashed ++ f).
Proof.
  revert f hashed. induction fuel as [|fuel IH]; intros f hashed Hf; [lia|].
  cbn [digest_chunks fread].
  assert (Hpos : exists k, Z.to_nat FT_CHUNK_SIZE = S k).
  { exists (Z.to_nat (FT_CHUNK_SIZE - 1)). unfold FT_CHUNK_SIZE. lia. }
  destruct Hpos as [k ->]. case_bool_decide as E.
  - destruct f; [by rewrite app_nil_r|done].
  - assert (f <> []) by (intros ->; done).
    rewrite IH by (rewrite length_drop; destruct f; simpl in *; [done|lia]).
    by rewrite <- app_assoc, take_drop.
Qed.

(** ** Hexadecimal *)

Lemma sc_bytes_to_hex_print bs : sc_bytes_to_hex bs = concat (map print_02x bs).
Proof.
  unfold sc_bytes_to_hex. f_equal. apply map_ext. intros b. by_bytes b.
Qed.

Lemma length_concat_print_02x bs : length (concat (map print_02x bs)) = (2 * length bs)%nat.
Proof. induction bs; simpl in *; lia. Qed.

Lemma concat_print_02x_xdigits bs :
  Forall (fun c => isxdigit c = true) (concat (map print_02x bs)).
Proof.
  induction bs as [|b bs IH]; simpl; [done|].
  apply (Forall_app _ (print_02x b)). split; [apply print_02x_xdigits|done].
Qed.

Lemma xdigits_no_nul s : Forall (fun c => isxdigit c = true) s -> no_nul s.
Proof. intros H. eapply Forall_impl; [exact H|]. exact isxdigit_not_nul. Qed.

(** What a string of hexadecimal digit pairs denotes. *)
Fixpoint hex_decode (s : bytes) : bytes :=
  match s with
  | h :: l :: s' => zb (16 * hex_value h + hex_value l) :: hex_decode s'
  | _ => []
  end.

Lemma length_hex_decode s n : length s = (2 * n)%nat -> length (hex_decode s) = n.
Proof.
  revert s. induction n as [|n IH]; intros [|h [|l s]] Hs; simpl in *; try lia.
  f_equal. apply IH. lia.
Qed.

Lemma hex_decode_print bs : hex_decode (concat (map print_02x bs)) = bs.
Proof.
  induction bs as [|b bs IH]; [done|]. cbn -[hex_value Z.div Z.modulo].
  rewrite IH. f_equal.
  refine (bool_decide_eq_true_1 _ (byte_forall (fun b => bool_decide
    (zb (16 * hex_value (hex_digit (bz b / 16)) + hex_value (hex_digit (bz b mod 16))) = b)) _ b)).
  vm_compute. reflexivity.
Qed.

Lemma mapM_seq_shift {A} (f : nat -> option A) k n :
  mapM f (seq (S k) n) = mapM (fun i => f (S i)) (seq k n).
Proof.
  revert k. induction n as [|n IH]; intros k; [done|]. cbn [seq mapM].
  by rewrite IH.
Qed.

(** Scanning digit pairs at even offsets, the loop that [sc_hex_to_bytes],
    [hex_to_bytes] and [ft_compute_hmac] share. *)
Lemma scan_pairs s n :
  Forall (fun c => isxdigit c = true) s -> length s = (2 * n)%nat ->
  mapM (fun i => zb <$> sscanf_2x (drop (2 * i) s)) (seq 0 n) = Some (hex_decode s).
Proof.
  revert s. induction n as [|n IH]; intros s Hs Hlen.
  - by destruct s.
  - destruct s as [|h [|l s]]; simpl in Hlen; try lia.
    apply Forall_cons in Hs as [Hh Hs]. apply Forall_cons in Hs as [Hl Hs].
    cbn [seq mapM]. change (2 * 0)%nat with 0%nat. rewrite drop_0, sscanf_2x_xdigits by done.
    cbn [fmap option_fmap option_map mbind option_bind].
    rewrite mapM_seq_shift.
    assert (Heq : forall i, drop (2 * S i) (h :: l :: s) = drop (2 * i) s).
    { intros i. replace (2 * S i)%nat with (S (S (2 * i))) by lia. reflexivity. }
    erewrite mapM_ext; [|intros i; by rewrite Heq]. by rewrite IH by (done || lia).
Qed.

Lemma sc_hex_to_bytes_xdigits s n :
  Forall (fun c => isxdigit c = true) s -> length s = (2 * n)%nat ->
  sc_hex_to_bytes s n = Some (hex_decode s).
Proof.
  intros Hs Hlen. unfold sc_hex_to_bytes, strlen.
  rewrite cstr_no_nul by by apply xdigits_no_nul.
  rewrite Hlen, Nat.mul_comm, Nat.eqb_refl. by apply scan_pairs.
Qed.

Lemma sc_hex_to_bytes_length s n bs : sc_hex_to_bytes s n = Some bs -> length bs = n.
Proof.
  unfold sc_hex_to_bytes. case_match; [done|]. intros Hm%length_mapM.
  by rewrite length_seq in Hm.
Qed.

(** ** Base64 *)

Lemma b64_char_not_url c : is_b64_char c = true -> url_to_std c = c.
Proof. by_bytes c. Qed.

Lemma b64_char_not_nul c : is_b64_char c = true -> not_nul c = true.
Proof. by_bytes c. Qed.

Lemma b64_shape_no_nul n s : b64_shape n s -> no_nul s.
Proof.
  intros (body & -> & Hb & _). apply no_nul_app. split.
  - eapply Forall_impl; [exact Hb|]. exact b64_char_not_nul.
  - by apply Forall_replicate.
Qed.

(** The URL-safe spelling of a base64 text, with any amount of its padding
    dropped: what [sc_base64_decode] also has to accept. *)
Definition std_to_url (c : byte) : byte :=
  if beq c "+" then "-"%byte else if beq c "/" then "_"%byte else c.

Lemma url_std_url c : is_b64_char c = true -> url_to_std (std_to_url c) = c.
Proof. by_bytes c. Qed.

Lemma std_to_url_not_nul c : is_b64_char c = true -> not_nul (std_to_url c) = true.
Proof. by_bytes c. Qed.

(** The padding loop completes the quantum and never reallocates. *)
Lemma pad_loop_spec malloc_ok fuel buf cap k :
  ((4 - length buf mod 4) mod 4)%nat = k ->
  (k < fuel)%nat -> Z.of_nat (length buf + k) < cap ->
  pad_loop malloc_ok fuel buf cap = Some (buf ++ replicate k "="%byte).
Proof.
  revert buf k. induction fuel as [|fuel IH]; intros buf k Hkd Hk Hcap; [lia|].
  cbn [pad_loop].
  assert (Hm : Z.of_nat (length buf) mod 4 = Z.of_nat (length buf mod 4))
    by (rewrite Nat2Z.inj_mod; done).
  pose proof (Nat.mod_upper_bound (length buf) 4 ltac:(lia)) as Hub.
  destruct (_ =? 0) eqn:E; boolify.
  - assert (length buf mod 4 = 0)%nat as H0 by lia.
    rewrite H0 in Hkd. simpl in Hkd. subst k. simpl. by rewrite app_nil_r.
  - assert (Hk' : k = S ((4 - length (buf ++ ["="%byte]) mod 4) mod 4)%nat).
    { rewrite <- Hkd, length_app. simpl length.
      assert (length buf mod 4 = 1 \/ length buf mod 4 = 2 \/ length buf mod 4 = 3)%nat as Hc by lia.
      rewrite Nat.Div0.add_mod. destruct Hc as [-> | [-> | ->]]; reflexivity. }
    destruct (cap <=? _) eqn:Ec; boolify; [lia|].
    rewrite Hk' in *.
    erewrite IH; [|reflexivity|lia|].
    + by rewrite <- app_assoc.
    + rewrite length_app at 1. simpl length at 2. lia.
Qed.

Lemma b64_body_not_pad body i :
  Forall (fun b => is_b64_char b = true) body -> body !! i <> Some "="%byte.
Proof. intros Hb Hi. by apply (Forall_lookup_1 _ _ _ _ Hb) in Hi. Qed.

(** The padding of a base64 text, recognised from its last two characters. *)
Lemma ft_unpad_spec body p n :
  Forall (fun b => is_b64_char b = true) body -> (p <= 2)%nat ->
  (p = 0 \/ 2 <= length body)%nat ->
  ft_unpad (body ++ replicate p "="%byte) (n + p) = n.
Proof.
  intros Hb Hp Hlen. unfold ft_unpad. rewrite length_app, length_replicate.
  assert (Hpad : forall k, (k < p)%nat ->
    (body ++ replicate p "="%byte) !! (length body + p - S k)%nat = Some "="%byte).
  { intros k Hk. rewrite lookup_app_r by lia. apply lookup_replicate. split; [done|lia]. }
  assert (Hbody : forall k, (p <= k)%nat ->
    (body ++ replicate p "="%byte) !! (length body + p - S k)%nat = Some "="%byte ->
    (length body + p <= k)%nat).
  { intros k Hk Hi. destruct (decide (length body + p <= k)%nat); [done|].
    rewrite lookup_app_l in Hi by lia. by apply b64_body_not_pad in Hi. }
  destruct p as [|[|[|p]]]; [| | |lia].
  - repeat case_bool_decide; rewrite ?andb_false_r, ?andb_true_r;
      repeat match goal with H : _ !! _ = Some _ |- _ => apply Hbody in H; [|lia] end;
      repeat case_match; boolify; lia.
  - pose proof (Hpad 0%nat ltac:(lia)) as H0. rewrite (bool_decide_eq_true_2 _ H0), andb_true_r.
    case_bool_decide as H1; [apply Hbody in H1; lia|].
    rewrite andb_false_r. destruct (1 <? _)%nat eqn:E; boolify; lia.
  - pose proof (Hpad 0%nat ltac:(lia)) as H0. pose proof (Hpad 1%nat ltac:(lia)) as H1.
    rewrite (bool_decide_eq_true_2 _ H0), (bool_decide_eq_true_2 _ H1), !andb_true_r.
    destruct (1 <? _)%nat eqn:E1, (2 <? _)%nat eqn:E2; boolify; lia.
Qed.

Section Base64Proofs.
Context `{HL : Base64Laws}.
Context (malloc_ok : Z -> bool).

Lemma sc_base64_encode_spec d :
  d <> [] -> Z.of_nat (length d) <= INT_MAX -> (forall n, malloc_ok n = true) ->
  exists s, sc_base64_encode malloc_ok d = Some s /\ b64_shape (length d) s
    /\ bio_b64_write d (Z.of_nat (length d)) = Some s.
Proof.
  intros Hd Hlen Hm. destruct (bio_write_read d Hd Hlen) as (s & Hw & Hs & _).
  exists s. unfold sc_base64_encode. rewrite i32_id by (unfold INT_MIN; lia).
  by rewrite Hw, Hm.
Qed.

(** Dropping [k] padding characters of a base64 text leaves a text the
    padding loop completes. *)
Lemma b64_pad_count n body :
  length (body ++ replicate ((3 - n mod 3) mod 3) "="%byte) = (4 * ((n + 2) / 3))%nat ->
  ((4 - length body mod 4) mod 4 = (3 - n mod 3) mod 3)%nat.
Proof.
  rewrite length_app, length_replicate. intros Hlen.
  pose proof (Nat.mod_upper_bound n 3 ltac:(lia)) as Hn.
  set (p := ((3 - n mod 3) mod 3)%nat) in *. set (q := ((n + 2) / 3)%nat) in *.
  assert (Hp : (p <= 2)%nat) by (pose proof (Nat.mod_upper_bound (3 - n mod 3) 3 ltac:(lia)); unfold p; lia).
  destruct q as [|q].
  - assert (length body = 0 /\ p = 0)%nat as [-> ->] by lia. reflexivity.
  - replace (length body) with ((4 - p) + q * 4)%nat by lia.
    rewrite Nat.Div0.mod_add. destruct p as [|[|[|p]]]; [done..|lia].
Qed.

Lemma normalise_base64_variant n s k :
  b64_shape n s -> (k <= (3 - n mod 3) mod 3)%nat -> (forall z, malloc_ok z = true) ->
  forall f, f = id \/ f = std_to_url ->
  normalise_base64 malloc_ok (map f (take (length s - k) s)) = Some s.
Proof.
  intros (body & Hs & Hbody & Hlen) Hk Hm f Hf.
  set (p := ((3 - n mod 3) mod 3)%nat) in *.
  assert (Hsub : map f (take (length s - k) s) = map f body ++ replicate (p - k) "="%byte).
  { rewrite Hs, length_app, length_replicate.
    replace (length body + p - k)%nat with (length body + (p - k))%nat by lia.
    rewrite take_app_add, take_replicate, Nat.min_l by lia. rewrite map_app. f_equal.
    destruct Hf as [-> | ->]; [by rewrite list_fmap_id|]. by rewrite fmap_replicate. }
  rewrite Hsub. unfold normalise_base64. rewrite Hm.
  rewrite cstr_no_nul.
  2:{ apply no_nul_app. split; [|by apply Forall_replicate].
      apply Forall_map. eapply Forall_impl; [exact Hbody|].
      intros c Hc. destruct Hf as [-> | ->]; [by apply b64_char_not_nul|by apply std_to_url_not_nul]. }
  rewrite map_app, map_map.
  change (map url_to_std (replicate (p - k) "="%byte)) with (url_to_std <$> replicate (p - k) "="%byte).
  rewrite fmap_replicate.
  assert (Hmap : map (fun c => url_to_std (f c)) body = body).
  { rewrite <- (list_fmap_id body) at 2. apply map_ext_in. intros c Hc.
    apply list_elem_of_In in Hc. rewrite Forall_forall in Hbody.
    destruct Hf as [-> | ->]; [by apply b64_char_not_url, Hbody|by apply url_std_url, Hbody]. }
  rewrite Hmap. clear Hsub Hmap.
  set (b1 := body ++ replicate (p - k) "="%byte).
  assert (Hb1 : ((4 - length b1 mod 4) mod 4 = k)%nat).
  { unfold b1. rewrite length_app, length_replicate.
    pose proof (Nat.mod_upper_bound (3 - n mod 3) 3 ltac:(lia)) as Hp3. fold p in Hp3.
    assert (Hl4 : ((length body + p) mod 4 = 0)%nat).
    { rewrite <- (length_replicate p "="%byte), <- length_app, <- Hs, Hlen, Nat.mul_comm.
      apply Nat.Div0.mod_mul. }
    replace (length body + (p - k))%nat with ((length body + p) - k)%nat by lia.
    apply Nat.Div0.div_exact in Hl4. set (q := ((length body + p) / 4)%nat) in *.
    rewrite Hl4. destruct k as [|k]; [rewrite Nat.sub_0_r, Nat.mul_comm, Nat.Div0.mod_mul; done|].
    destruct q as [|q]; [lia|].
    replace (4 * S q - S k)%nat with ((4 - S k) + q * 4)%nat by lia.
    rewrite Nat.Div0.mod_add. assert (k = 0 \/ k = 1)%nat as [-> | ->] by lia; done. }
  rewrite (pad_loop_spec _ _ _ _ k Hb1).
  - unfold b1. rewrite <- app_assoc, <- replicate_add. rewrite Hs. do 3 f_equal. lia.
  - pose proof (Nat.mod_upper_bound (3 - n mod 3) 3 ltac:(lia)). lia.
  - pose proof (Nat.mod_upper_bound (3 - n mod 3) 3 ltac:(lia)). unfold b1.
    rewrite !length_app, length_map. lia.
Qed.

Lemma b64_shape_length n s :
  b64_shape n s -> Z.of_nat (length s) = 4 * ((Z.of_nat n + 2) / 3).
Proof.
  intros (_ & _ & _ & ->).
  rewrite Nat2Z.inj_mul, Nat2Z.inj_div, Nat2Z.inj_add. reflexivity.
Qed.

(** Every spelling of the encoded text decodes to the data: standard or
    URL-safe alphabet, with its padding or with any of it missing. *)
Lemma sc_base64_decode_variant d s k f :
  d <> [] -> 4 * ((Z.of_nat (length d) + 2) / 3) <= INT_MAX ->
  bio_b64_write d (Z.of_nat (length d)) = Some s ->
  (k <= (3 - length d mod 3) mod 3)%nat -> (forall z, malloc_ok z = true) ->
  f = id \/ f = std_to_url ->
  sc_base64_decode malloc_ok (map f (take (length s - k) s)) = Some d.
Proof.
  intros Hd Hlen Hw Hk Hm Hf.
  assert (Hdl : Z.of_nat (length d) <= INT_MAX) by dlia.
  destruct (bio_write_read d Hd Hdl) as (s' & Hw' & Hs & Hr). rewrite Hw in Hw'.
  injection Hw' as <-. unfold sc_base64_decode.
  rewrite (normalise_base64_variant (length d) s k) by done.
  pose proof (b64_shape_length _ _ Hs) as Hsl. rewrite Hm.
  rewrite Hsl, !i32_id by (unfold INT_MIN, INT_MAX in *; dlia).
  rewrite <- Hsl. apply Hr. rewrite Hsl. dlia.
Qed.
End Base64Proofs.
