(* ===== verification/Rfc4648.v ===== *)
(** * A base64 engine that satisfies the laws of class [Base64Laws]

    RFC 4648 encoding with padding, used by the witnesses of the theorems
    that take the OpenSSL engine as a parameter. *)

From S2P Require Import Prelude CString Codec.
Local Open Scope Z_scope.

Definition b64_alphabet : bytes :=
  str "ABCDEFGHIJKLMNOPQRSTUVWXYZabcdefghijklmnopqrstuvwxyz0123456789+/".

Definition enc_char (s : Z) : byte := nth (Z.to_nat s) b64_alphabet NUL.
Definition dec_char (c : byte) : option Z :=
  if beq c "=" then Some 0 else Z.of_nat <$> find_index (beq c) b64_alphabet.

Definition enc_quad (a b c : Z) : bytes :=
  [enc_char (a / 4); enc_char (a mod 4 * 16 + b / 16);
   enc_char (b mod 16 * 4 + c / 64); enc_char (c mod 64)].

Fixpoint b64_encode (d : bytes) : bytes :=
  match d with
  | a :: b :: c :: r => enc_quad (bz a) (bz b) (bz c) ++ b64_encode r
  | [a; b] => take 3 (enc_quad (bz a) (bz b) 0) ++ ["="%byte]
  | [a] => take 2 (enc_quad (bz a) 0 0) ++ ["="%byte; "="%byte]
  | [] => []
  end.

Definition dec_quad (p q r s : Z) : bytes :=
  [zb (p * 4 + q / 16); zb (q mod 16 * 16 + r / 4); zb (r mod 4 * 64 + s)].

Fixpoint b64_decode_quads (s : bytes) : option bytes :=
  match s with
  | [] => Some []
  | c0 :: c1 :: c2 :: c3 :: r =>
      p ← dec_char c0; q ← dec_char c1; r' ← dec_char c2; t ← dec_char c3;
      rest ← b64_decode_quads r; Some (dec_quad p q r' t ++ rest)
  | _ => None
  end.

Definition pad_count (s : bytes) : nat :=
  length (take_while (fun c => beq c "=") (reverse s)).

#[export] Instance rfc4648 : Base64Engine := {|
  bio_b64_write d n := if n <=? 0 then None else Some (b64_encode (take (Z.to_nat n) d));
  bio_b64_read s n max :=
    d ← b64_decode_quads (take (Z.to_nat n) s);
    Some (take (Z.to_nat max) (take (length d - pad_count s) d));
  evp_encode_block d n := b64_encode (take (Z.to_nat n) d);
  evp_decode_block s n := b64_decode_quads (take (Z.to_nat n) s) |}.

Lemma dec_enc_char s : 0 <= s < 64 -> dec_char (enc_char s) = Some s.
Proof.
  intros Hs.
  assert (H : forallb (fun n => bool_decide (dec_char (enc_char (Z.of_nat n)) = Some (Z.of_nat n)))
                (seq 0 64) = true) by (vm_compute; reflexivity).
  rewrite forallb_forall in H. specialize (H (Z.to_nat s)).
  rewrite Z2Nat.id in H by lia. apply (bool_decide_eq_true_1 _), H, in_seq. lia.
Qed.

Lemma enc_char_is_b64 s : 0 <= s < 64 -> is_b64_char (enc_char s) = true.
Proof.
  intros Hs.
  assert (H : forallb (fun n => is_b64_char (enc_char (Z.of_nat n))) (seq 0 64) = true)
    by (vm_compute; reflexivity).
  rewrite forallb_forall in H. specialize (H (Z.to_nat s)).
  rewrite Z2Nat.id in H by lia. apply H, in_seq. lia.
Qed.

Lemma b64_ind (P : bytes -> Prop) :
  P [] -> (forall a, P [a]) -> (forall a b, P [a; b]) ->
  (forall a b c r, P r -> P (a :: b :: c :: r)) -> forall d, P d.
Proof.
  intros H0 H1 H2 H3 d. induction d as [d IH] using (induction_ltof1 _ (@length _)).
  unfold ltof in IH. destruct d as [|a [|b [|c r]]]; auto.
  apply H3, IH. simpl. lia.
Qed.

Ltac b64_ranges :=
  repeat match goal with
  | |- context [bz ?b] =>
      lazymatch goal with H : 0 <= bz b < 256 |- _ => fail | _ => pose proof (bz_range b) end
  end.

Lemma dec_enc_quad a b c :
  dec_quad (bz a / 4) (bz a mod 4 * 16 + bz b / 16) (bz b mod 16 * 4 + bz c / 64) (bz c mod 64)
  = [a; b; c].
Proof.
  b64_ranges. unfold dec_quad.
  replace (bz a / 4 * 4 + (bz a mod 4 * 16 + bz b / 16) / 16) with (bz a) by dlia.
  replace ((bz a mod 4 * 16 + bz b / 16) mod 16 * 16 + (bz b mod 16 * 4 + bz c / 64) / 4)
    with (bz b) by dlia.
  replace ((bz b mod 16 * 4 + bz c / 64) mod 4 * 64 + bz c mod 64) with (bz c) by dlia.
  by rewrite !zb_bz.
Qed.

Lemma mod3_step n : (S (S (S n)) mod 3 = n mod 3)%nat.
Proof.
  replace (S (S (S n))) with (n + 1 * 3)%nat by lia. apply Nat.Div0.mod_add.
Qed.

Lemma decode_encode d :
  b64_decode_quads (b64_encode d) = Some (d ++ zeros ((3 - length d mod 3) mod 3)).
Proof.
  induction d as [|a|a b|a b c r IH] using b64_ind.
  - reflexivity.
  - cbn [b64_encode enc_quad take app b64_decode_quads]. b64_ranges.
    rewrite !dec_enc_char by dlia. simpl.
    exact (f_equal Some (dec_enc_quad a NUL NUL)).
  - cbn [b64_encode enc_quad take app b64_decode_quads]. b64_ranges.
    rewrite !dec_enc_char by dlia. simpl.
    exact (f_equal Some (dec_enc_quad a b NUL)).
  - cbn [b64_encode enc_quad app b64_decode_quads]. b64_ranges.
    rewrite !dec_enc_char by dlia. cbn [mbind option_bind]. rewrite IH. cbn [mbind option_bind].
    rewrite dec_enc_quad. cbn [app length]. by rewrite mod3_step.
Qed.

Lemma b64_encode_shape d : b64_shape (length d) (b64_encode d).
Proof.
  induction d as [|a|a b|a b c r IH] using b64_ind.
  - exists []. done.
  - exists (take 2 (enc_quad (bz a) 0 0)). split_and!; [done| |done].
    b64_ranges. repeat constructor; apply enc_char_is_b64; dlia.
  - exists (take 3 (enc_quad (bz a) (bz b) 0)). split_and!; [done| |done].
    b64_ranges. repeat constructor; apply enc_char_is_b64; dlia.
  - destruct IH as (body & Hs & Hb & Hl).
    exists (enc_quad (bz a) (bz b) (bz c) ++ body).
    split_and!.
    + cbn [length]. rewrite mod3_step, <- app_assoc. cbn [b64_encode]. by rewrite Hs at 1.
    + apply Forall_app. split; [|done]. b64_ranges.
      repeat constructor; apply enc_char_is_b64; dlia.
    + cbn [b64_encode]. rewrite length_app, Hl. cbn [length enc_quad].
      replace (S (S (S (length r))) + 2)%nat with (length r + 2 + 1 * 3)%nat by lia.
      rewrite Nat.div_add by lia. lia.
Qed.

Lemma pad_count_encode d : pad_count (b64_encode d) = ((3 - length d mod 3) mod 3)%nat.
Proof.
  destruct (b64_encode_shape d) as (body & -> & Hb & _). unfold pad_count.
  rewrite reverse_app, reverse_replicate, take_while_app_all by by apply Forall_replicate.
  assert (Hstop : take_while (fun c => beq c "=") (reverse body) = []).
  { destruct (reverse body) as [|c l] eqn:E; [done|]. simpl.
    assert (Hc : is_b64_char c = true).
    { rewrite Forall_forall in Hb. apply Hb. apply elem_of_reverse. rewrite E. left. }
    assert (beq c "=" = false) as -> by by_bytes c. done. }
  by rewrite Hstop, app_nil_r, length_replicate.
Qed.

#[export] Instance rfc4648_laws : Base64Laws.
Proof.
  split.
  - intros d Hd Hlen. exists (b64_encode d). cbn [bio_b64_write bio_b64_read rfc4648].
    destruct (_ <=? 0) eqn:E; boolify; [destruct d; simpl in *; [done|lia]|].
    rewrite !Nat2Z.id, take_ge by lia. split_and!; [done|apply b64_encode_shape|].
    intros max Hmax. rewrite take_ge by lia. rewrite decode_encode. cbn [mbind option_bind].
    rewrite pad_count_encode, length_app, length_zeros.
    replace (length d + (3 - length d mod 3) mod 3 - (3 - length d mod 3) mod 3)%nat
      with (length d) by lia.
    rewrite take_app_length, take_ge by lia. done.
  - intros d _. cbn [evp_encode_block rfc4648]. rewrite Nat2Z.id, take_ge by lia.
    apply b64_encode_shape.
  - intros d _. cbn [evp_encode_block evp_decode_block rfc4648].
    rewrite !Nat2Z.id, !take_ge by lia. apply decode_encode.
Qed.
