(* ===== verification/CodecSpec.v ===== *)
(** * What the codecs promise

    The correctness of [Codec]: hexadecimal and base64 round trips, the
    spellings [sc_base64_decode] accepts, and the file digest. *)

From S2P Require Import Prelude CString Codec Rfc4648.
Local Open Scope Z_scope.

(** Hexadecimal is a round trip: [sc_bytes_to_hex] prints two digits per
    byte and [sc_hex_to_bytes] reads exactly these bytes back. *)
Theorem hex_round_trip bs :
  length (sc_bytes_to_hex bs) = (2 * length bs)%nat
  /\ Forall (fun c => isxdigit c = true) (sc_bytes_to_hex bs)
  /\ sc_hex_to_bytes (sc_bytes_to_hex bs) (length bs) = Some bs.
Proof.
  rewrite sc_bytes_to_hex_print.
  pose proof (concat_print_02x_xdigits bs) as Hx. pose proof (length_concat_print_02x bs) as Hl.
  split_and!; [done..|]. rewrite sc_hex_to_bytes_xdigits by done. by rewrite hex_decode_print.
Qed.

(** [sc_base64_encode] produces standard padded base64 and
    [sc_base64_decode] decodes every spelling of it to the data: in the
    standard or the URL-safe alphabet, with its padding or with any of it
    missing. *)
Theorem base64_any_spelling `{Base64Laws} malloc_ok d k f
    (Hd : d <> []) (Hlen : 4 * ((Z.of_nat (length d) + 2) / 3) <= INT_MAX)
    (Hm : forall n, malloc_ok n = true)
    (Hk : (k <= (3 - length d mod 3) mod 3)%nat) (Hf : f = id \/ f = std_to_url) :
  exists s, sc_base64_encode malloc_ok d = Some s /\ b64_shape (length d) s
    /\ sc_base64_decode malloc_ok (map f (take (length s - k) s)) = Some d.
Proof.
  destruct (sc_base64_encode_spec malloc_ok d Hd) as (s & Hs & Hshape & Hw);
    [unfold INT_MAX in *; dlia|done|].
  exists s. split_and!; [done..|]. by apply sc_base64_decode_variant.
Qed.

Lemma base64_any_spelling_witness :
  let d := [Byte.xfb; Byte.xff; Byte.xfe; Byte.xfb] in
  (exists s, sc_base64_encode (fun _ => true) d = Some s /\ b64_shape (length d) s
    /\ sc_base64_decode (fun _ => true) (map std_to_url (take (length s - 2) s)) = Some d)
  /\ sc_base64_decode (fun _ => true) (str "-__--w") = Some d.
Proof.
  cbv zeta. split; [|vm_compute; reflexivity]. apply (base64_any_spelling (fun _ => true)).
  - discriminate.
  - vm_compute. discriminate.
  - reflexivity.
  - vm_compute. lia.
  - right. reflexivity.
Defined.

(** [ft_base64_encode] and [ft_base64_decode] are a round trip for every
    data that fits an [int]: the padding characters tell the decoder how many
    of the bytes [EVP_DecodeBlock] produced are data. *)
Theorem ft_base64_round_trip `{Base64Laws} malloc_ok d
    (Hlen : 4 * ((Z.of_nat (length d) + 2) / 3) <= INT_MAX)
    (Hm : forall n, malloc_ok n = true) :
  exists s, ft_base64_encode malloc_ok d = Some s /\ b64_shape (length d) s
    /\ ft_base64_decode malloc_ok s = Some d.
Proof.
  assert (Hdl : Z.of_nat (length d) <= INT_MAX) by (unfold INT_MAX in *; dlia).
  pose proof (evp_block_shape d Hdl) as Hsh. pose proof (evp_block_decode d Hdl) as Hdec.
  cbv zeta in Hdec. set (s := evp_encode_block d (Z.of_nat (length d))) in *.
  exists s. unfold ft_base64_encode, ft_base64_decode. rewrite !Hm.
  rewrite i32_id by (unfold INT_MIN; lia). split_and!; [done..|].
  pose proof (b64_shape_length _ _ Hsh) as Hsl. rewrite Hsl, i32_id by (unfold INT_MIN; dlia).
  rewrite <- Hsl, Hdec. f_equal. rewrite length_app, length_zeros.
  destruct Hsh as (body & Hs & Hbody & Hl). rewrite Hs.
  pose proof (Nat.mod_upper_bound (3 - length d mod 3) 3 ltac:(lia)) as Hp.
  rewrite ft_unpad_spec; [apply take_app_length|done|lia|].
  destruct d as [|b d']; [by left|right]. rewrite Hs, length_app, length_replicate in Hl.
  assert (1 <= (length (b :: d') + 2) / 3)%nat by (apply Nat.div_le_lower_bound; simpl; lia). lia.
Qed.

Lemma ft_base64_round_trip_witness :
  exists s, ft_base64_encode (fun _ => true) (str "sync") = Some s /\ b64_shape 4 s
    /\ ft_base64_decode (fun _ => true) s = Some (str "sync").
Proof.
  apply (ft_base64_round_trip (fun _ => true) (str "sync")).
  - vm_compute. discriminate.
  - reflexivity.
Defined.

(** [ft_sha256_file] terminates on every file and computes the digest of
    the whole contents, like [ft_sha256] on the bytes in memory: reading in
    chunks does not change the result. *)
Theorem ft_sha256_file_whole `{Sha256} f :
  ft_sha256_file (Some f) = Some (ft_sha256 f) /\ length (ft_sha256 f) = 64%nat.
Proof.
  unfold ft_sha256_file, ft_sha256. rewrite digest_chunks_spec by lia. split; [done|].
  by rewrite length_concat_print_02x, sha256_length.
Qed.
