(* ===== verification/Crypto.v ===== *)
(** * Content encryption: common/crypto.c

    The ciphers are OpenSSL's: class [Evp] holds AES-256-GCM, AES-256-CBC and
    the random generator as parameters, together with which library calls
    succeed; [EvpLaws] states their documented behaviour. What is modelled
    here is what crypto.c adds: key parsing, the frame
    [0x02 || nonce(12) || ciphertext || tag(16)], base64, and every early
    return. [OPENSSL_cleanse] of locals and [free] have no observable effect. *)

From S2P Require Import Prelude CString Codec Rfc4648.
Local Open Scope Z_scope.

Definition AES_KEY_LEN : nat := 32.
Definition AES_IV_LEN : nat := 16.
Definition GCM_NONCE_LEN : nat := 12.
Definition GCM_TAG_LEN : nat := 16.
Definition GCM_VERSION : Z := 2.

(** The library calls whose status the code looks at (or ignores). *)
Inductive evp_call :=
| RAND_bytes | CIPHER_CTX_new | Init_cipher | SET_IVLEN | Init_key
| Update | Final | GET_TAG | SET_TAG.

Class Evp := {
  evp_ok : evp_call -> bool;
  (** The [n] bytes a successful [RAND_bytes] draws. *)
  rand_bytes : nat -> bytes;
  (** AES-256-GCM without associated data: key, nonce, plaintext to ciphertext
      and tag, and back when the tag is right. *)
  gcm_seal : bytes -> bytes -> bytes -> bytes * bytes;
  gcm_open : bytes -> bytes -> bytes -> bytes -> option bytes;
  (** AES-256-CBC with PKCS#7 padding. *)
  cbc_encrypt : bytes -> bytes -> bytes -> bytes;
  cbc_decrypt : bytes -> bytes -> bytes -> option bytes }.

Class EvpLaws `{Evp} := {
  rand_length : forall n, length (rand_bytes n) = n;
  gcm_seal_length : forall k n p c t, gcm_seal k n p = (c, t) ->
    length c = length p /\ length t = GCM_TAG_LEN;
  (** Decryption succeeds exactly on the sealed pairs. *)
  gcm_open_iff : forall k n c t p, gcm_open k n c t = Some p <-> gcm_seal k n p = (c, t);
  cbc_decrypt_encrypt : forall k iv p, cbc_decrypt k iv (cbc_encrypt k iv p) = Some p;
  (** PKCS#7 padding: between 1 and 16 bytes more. *)
  cbc_encrypt_length : forall k iv p,
    (length p < length (cbc_encrypt k iv p) <= length p + 16)%nat }.

Section Crypto.
Context `{Base64Engine, Evp}.
Context (malloc_ok : Z -> bool).

(** [aes_gcm_encrypt(plaintext, plain_len, key_hex)]. *)
Definition aes_gcm_encrypt (plaintext key_hex : bytes) : option bytes :=
  match sc_hex_to_bytes key_hex AES_KEY_LEN with
  | None => None
  | Some key =>
      if negb (evp_ok RAND_bytes) then None else
      let nonce := rand_bytes GCM_NONCE_LEN in
      if negb (evp_ok CIPHER_CTX_new) then None else
      if negb (evp_ok Init_cipher) then None else
      if negb (evp_ok SET_IVLEN) then None else
      if negb (evp_ok Init_key) then None else
      let plain_len := Z.of_nat (length plaintext) in
      if negb (malloc_ok (plain_len + 16)) then None else
      let inl := i32 plain_len in
      let '(ct, tag) := gcm_seal key nonce (take (Z.to_nat inl) plaintext) in
      if (inl <? 0) || negb (evp_ok Update) then None else
      if negb (evp_ok Final) then None else
      if negb (evp_ok GET_TAG) then None else
      let frame_len := (1 + GCM_NONCE_LEN + length ct + GCM_TAG_LEN)%nat in
      if negb (malloc_ok (Z.of_nat frame_len)) then None else
      let frame := [zb GCM_VERSION] ++ nonce ++ ct ++ tag in
      sc_base64_encode malloc_ok frame
  end.

(** [aes_gcm_decrypt(b64_input, key_hex, &out_len)]: the plaintext, of length
    [*out_len]; the code also terminates it with NUL. *)
Definition aes_gcm_decrypt (b64_input key_hex : bytes) : option bytes :=
  match sc_hex_to_bytes key_hex AES_KEY_LEN with
  | None => None
  | Some key =>
      match sc_base64_decode malloc_ok b64_input with
      | None => None
      | Some frame =>
          let frame_len := length frame in
          if (frame_len <? 1 + GCM_NONCE_LEN + GCM_TAG_LEN)%nat then None else
          if negb (bool_decide (frame !! 0%nat = Some (zb GCM_VERSION))) then None else
          let ct_len := (frame_len - 1 - GCM_NONCE_LEN - GCM_TAG_LEN)%nat in
          let nonce := take GCM_NONCE_LEN (drop 1 frame) in
          let ct := take ct_len (drop (1 + GCM_NONCE_LEN) frame) in
          let tag := take GCM_TAG_LEN (drop (1 + GCM_NONCE_LEN + ct_len) frame) in
          if negb (evp_ok CIPHER_CTX_new) then None else
          if negb (evp_ok Init_cipher) then None else
          if negb (evp_ok SET_IVLEN) then None else
          if negb (evp_ok Init_key) then None else
          if negb (malloc_ok (Z.of_nat ct_len + 1)) then None else
          let inl := i32 (Z.of_nat ct_len) in
          if (inl <? 0) || negb (evp_ok Update) then None else
          if negb (evp_ok SET_TAG) then None else
          (* EVP_DecryptFinal_ex fails exactly when the tag does not match *)
          gcm_open key nonce (take (Z.to_nat inl) ct) tag
      end
  end.

(** The local [hex_to_bytes(hex, out, max_len)] of the legacy cipher. A pair
    that does not scan leaves [byte] indeterminate; [indet i] is its value
    at iteration [i]. *)
Definition hex_to_bytes (indet : nat -> Z) (hex : bytes) (max_len : nat) : bytes :=
  let len := Nat.min (strlen hex / 2) max_len in
  map (fun i => zb (default (indet i) (sscanf_2x (drop (2 * i) (cstr hex))))) (seq 0 len).

(** [memset(key, 0, 32)] followed by [hex_to_bytes(key_hex, key, 32)]. *)
Definition cbc_key (indet : nat -> Z) (key_hex : bytes) : bytes :=
  let k := hex_to_bytes indet key_hex AES_KEY_LEN in
  k ++ zeros (AES_KEY_LEN - length k).

(** The local [base64_encode] and [base64_decode] of the legacy cipher: no
    URL-safe alphabet and no padding repair. *)
Definition base64_encode (data : bytes) : option bytes :=
  let mem := default [] (bio_b64_write data (i32 (Z.of_nat (length data)))) in
  if malloc_ok (Z.of_nat (length mem) + 1) then Some mem else None.

Definition base64_decode (input : bytes) : option bytes :=
  let s := cstr input in
  let input_len := i32 (Z.of_nat (length s)) in
  let max_len := Z.quot (i32 (input_len * 3)) 4 + 4 in
  if malloc_ok max_len then bio_b64_read s input_len max_len else None.

(** [aes_encrypt(plaintext, plain_len, key_hex)]: the results of [RAND_bytes]
    and of the update and final calls are not checked. *)
Definition aes_encrypt (indet : nat -> Z) (plaintext key_hex : bytes) : option bytes :=
  let key := cbc_key indet key_hex in
  let iv := rand_bytes AES_IV_LEN in
  if negb (evp_ok CIPHER_CTX_new) then None else
  if negb (evp_ok Init_key) then None else
  let inl := i32 (Z.of_nat (length plaintext)) in
  if negb (malloc_ok (i32 (inl + 16))) then None else
  let ciphertext := cbc_encrypt key iv (take (Z.to_nat inl) plaintext) in
  let total := (AES_IV_LEN + length ciphertext)%nat in
  if negb (malloc_ok (Z.of_nat total)) then None else
  base64_encode (iv ++ ciphertext).

(** [aes_decrypt(b64_input, key_hex, &out_len)]. *)
Definition aes_decrypt (indet : nat -> Z) (b64_input key_hex : bytes) : option bytes :=
  match base64_decode b64_input with
  | None => None
  | Some decoded =>
      if (length decoded <? AES_IV_LEN + 1)%nat then None else
      let key := cbc_key indet key_hex in
      let iv := take AES_IV_LEN decoded in
      let ciphertext := drop AES_IV_LEN decoded in
      if negb (evp_ok CIPHER_CTX_new) then None else
      if negb (evp_ok Init_key) then None else
      if negb (malloc_ok (Z.of_nat (length ciphertext) + 1)) then None else
      if negb (evp_ok Update) then None else
      cbc_decrypt key iv ciphertext
  end.
End Crypto.

(** ** The GCM frame *)

Section CryptoProofs.
Context `{Base64Laws, EvpLaws}.
Context (malloc_ok : Z -> bool) (Hm : forall n, malloc_ok n = true).
Context (Hok : forall c, evp_ok c = true).

(** The largest frame whose base64 length is still an [int]. *)
Definition FRAME_MAX : Z := 1610612733.
Definition GCM_OVERHEAD : nat := 1 + GCM_NONCE_LEN + GCM_TAG_LEN.

Lemma frame_b64_fits n : Z.of_nat n <= FRAME_MAX -> 4 * ((Z.of_nat n + 2) / 3) <= INT_MAX.
Proof. unfold FRAME_MAX, INT_MAX. intros. dlia. Qed.

(** Encryption seals under the parsed key and a fresh nonce, and frames. *)
Lemma aes_gcm_encrypt_eq p key_hex key :
  sc_hex_to_bytes key_hex AES_KEY_LEN = Some key ->
  Z.of_nat (length p + GCM_OVERHEAD) <= FRAME_MAX ->
  let nonce := rand_bytes GCM_NONCE_LEN in
  let '(ct, tag) := gcm_seal key nonce p in
  aes_gcm_encrypt malloc_ok p key_hex
    = sc_base64_encode malloc_ok ([zb GCM_VERSION] ++ nonce ++ ct ++ tag).
Proof.
  intros Hk Hl. unfold aes_gcm_encrypt. rewrite Hk, !Hok, Hm. cbn [negb].
  unfold FRAME_MAX in Hl.
  rewrite i32_id by (unfold INT_MIN, INT_MAX; lia). rewrite Nat2Z.id, take_ge by lia.
  destruct (gcm_seal _ _ p) as [ct tag]. rewrite Hm.
  destruct (_ <? 0) eqn:E; boolify; [lia|]. done.
Qed.

(** Decryption splits the frame at its fixed offsets. *)
Lemma aes_gcm_decrypt_frame s key_hex key nonce ct tag :
  sc_hex_to_bytes key_hex AES_KEY_LEN = Some key ->
  sc_base64_decode malloc_ok s = Some ([zb GCM_VERSION] ++ nonce ++ ct ++ tag) ->
  length nonce = GCM_NONCE_LEN -> length tag = GCM_TAG_LEN ->
  Z.of_nat (length ct) <= INT_MAX ->
  aes_gcm_decrypt malloc_ok s key_hex = gcm_open key nonce ct tag.
Proof.
  intros Hk Hs Hn Ht Hl. unfold aes_gcm_decrypt. rewrite Hk, Hs, !Hok.
  assert (Hlen : length ([zb GCM_VERSION] ++ nonce ++ ct ++ tag)
                 = (length ct + GCM_OVERHEAD)%nat).
  { rewrite !length_app, Hn, Ht. unfold GCM_OVERHEAD. simpl length. lia. }
  rewrite Hlen. destruct (_ <? _)%nat eqn:E; [boolify; unfold GCM_OVERHEAD in E; lia|].
  cbn [negb]. rewrite Hm. cbn [negb].
  replace (length ct + GCM_OVERHEAD - 1 - GCM_NONCE_LEN - GCM_TAG_LEN)%nat with (length ct)
    by (unfold GCM_OVERHEAD; lia).
  rewrite i32_id by (unfold INT_MIN; lia). rewrite Nat2Z.id.
  destruct (_ <? 0) eqn:E2; boolify; [lia|]. cbn [orb app].
  change (drop 1 (?b :: ?l)) with l. change (drop (1 + ?m) (?b :: ?l)) with (drop m l).
  rewrite bool_decide_true by done. cbn [negb].
  rewrite (take_app_exact GCM_NONCE_LEN) by done.
  rewrite (drop_app_exact GCM_NONCE_LEN) by done.
  rewrite take_app_length. rewrite (take_ge ct) by lia.
  replace (1 + GCM_NONCE_LEN + length ct)%nat with (S (GCM_NONCE_LEN + length ct)) by lia.
  cbn [drop]. rewrite app_assoc, drop_app_exact by (rewrite length_app; lia).
  by rewrite (take_ge tag) by lia.
Qed.

(** A frame of legal length and version is its four parts. *)
Lemma frame_split frame :
  (GCM_OVERHEAD <= length frame)%nat -> frame !! 0%nat = Some (zb GCM_VERSION) ->
  exists nonce ct tag, frame = [zb GCM_VERSION] ++ nonce ++ ct ++ tag
    /\ length nonce = GCM_NONCE_LEN /\ length tag = GCM_TAG_LEN.
Proof.
  unfold GCM_OVERHEAD. intros Hl Hv. destruct frame as [|v r]; [done|]. injection Hv as ->.
  cbn [length] in Hl. set (n := (length r - GCM_NONCE_LEN - GCM_TAG_LEN)%nat).
  exists (take GCM_NONCE_LEN r), (take n (drop GCM_NONCE_LEN r)), (drop n (drop GCM_NONCE_LEN r)).
  rewrite !take_drop. split; [done|]. rewrite length_take, !length_drop. lia.
Qed.
End CryptoProofs.

(** ** A concrete cipher suite for the witnesses

    Not AES: a keystream byte made from the key and the nonce and a keyed
    checksum, enough to satisfy the laws. *)

Definition byte_xor (a b : byte) : byte := zb (Z.lxor (bz a) (bz b)).

Definition toy_stream (k n : bytes) : Z := fold_left (fun a b => a + bz b) (k ++ n) 0.
Definition toy_xor (k n p : bytes) : bytes := map (fun b => byte_xor b (zb (toy_stream k n))) p.
Definition toy_tag (k n c : bytes) : bytes :=
  replicate GCM_TAG_LEN (zb (fold_left (fun a b => 31 * a + bz b) c (toy_stream k n))).

#[export] Instance toy_evp : Evp := {|
  evp_ok _ := true;
  rand_bytes n := replicate n "N"%byte;
  gcm_seal k n p := let c := toy_xor k n p in (c, toy_tag k n c);
  gcm_open k n c t := if bool_decide (t = toy_tag k n c) then Some (toy_xor k n c) else None;
  cbc_encrypt k iv p := "C"%byte :: p;
  cbc_decrypt k iv c := match c with b :: p => if beq b "C" then Some p else None | [] => None end |}.

Lemma byte_xor_involutive a b : byte_xor (byte_xor a b) b = a.
Proof.
  assert (H : forallb (fun a => forallb (fun b => beq (byte_xor (byte_xor a b) b) a) all_bytes)
                all_bytes = true) by (vm_compute; reflexivity).
  pose proof (byte_forall _ (byte_forall _ H a) b) as Hab. by apply beq_true in Hab.
Qed.

Lemma toy_xor_involutive k n p : toy_xor k n (toy_xor k n p) = p.
Proof.
  unfold toy_xor. rewrite map_map. rewrite <- (map_id p) at 2. apply map_ext. intros b.
  apply byte_xor_involutive.
Qed.

#[export] Instance toy_evp_laws : EvpLaws.
Proof.
  split; cbn [gcm_seal gcm_open cbc_encrypt cbc_decrypt rand_bytes toy_evp].
  - intros n. apply length_replicate.
  - intros k n p c t [= <- <-]. unfold toy_xor, toy_tag. by rewrite length_map, length_replicate.
  - intros k n c t p. case_bool_decide as Ht; split.
    + intros [= <-]. by rewrite toy_xor_involutive, <- Ht.
    + intros [= <- <-]. by rewrite toy_xor_involutive.
    + done.
    + intros [= <- <-]. done.
  - done.
  - simpl. lia.
Qed.

(** ** Properties *)

Definition xdigits (s : bytes) : Prop := Forall (fun c => isxdigit c = true) s.

(** The text [aes_gcm_encrypt] makes, and what any spelling of it decrypts to. *)
Lemma gcm_text `{Base64Laws, EvpLaws} malloc_ok p key_hex
    (Hm : forall n, malloc_ok n = true) (Hok : forall c, evp_ok c = true)
    (Hkey : xdigits key_hex) (Hkl : length key_hex = 64%nat)
    (Hlen : Z.of_nat (length p + GCM_OVERHEAD) <= FRAME_MAX) :
  exists s, aes_gcm_encrypt malloc_ok p key_hex = Some s /\ b64_shape (length p + GCM_OVERHEAD) s
    /\ forall f k, f = id \/ f = std_to_url -> (k <= (3 - (length p + GCM_OVERHEAD) mod 3) mod 3)%nat ->
         aes_gcm_decrypt malloc_ok (map f (take (length s - k) s)) key_hex = Some p.
Proof.
  pose proof (sc_hex_to_bytes_xdigits key_hex AES_KEY_LEN Hkey Hkl) as Hkb.
  pose proof (aes_gcm_encrypt_eq malloc_ok Hm Hok p key_hex _ Hkb Hlen) as He. cbv zeta in He.
  destruct (gcm_seal _ _ p) as [ct tag] eqn:Hseal.
  destruct (gcm_seal_length _ _ _ _ _ Hseal) as [Hct Htag].
  set (frame := [zb GCM_VERSION] ++ _) in He.
  assert (Hfl : length frame = (length p + GCM_OVERHEAD)%nat).
  { unfold frame. rewrite !length_app, rand_length, Htag, Hct. unfold GCM_OVERHEAD. simpl. lia. }
  rewrite <- Hfl in Hlen |- *.
  destruct (sc_base64_encode_spec malloc_ok frame) as (s & Hs & Hshape & Hw);
    [done|unfold FRAME_MAX, INT_MAX in *; lia|done|].
  exists s. rewrite He. split_and!; [done..|]. intros f k Hf Hk.
  erewrite aes_gcm_decrypt_frame; [|done..| |apply rand_length|done|].
  - by apply gcm_open_iff.
  - apply sc_base64_decode_variant; try done. by apply frame_b64_fits.
  - unfold FRAME_MAX, INT_MAX in *. rewrite Hct. lia.
Qed.

(** C1: Whatever [aes_gcm_encrypt] emits under a well-formed key (64
    hexadecimal digits, what [config_load] accepts), [aes_gcm_decrypt] turns
    back into the plaintext, also when a peer rewrote the text in the URL-safe
    alphabet or dropped any of its padding. *)
Theorem gcm_round_trip `{Base64Laws, EvpLaws} malloc_ok p key_hex f k
    (Hm : forall n, malloc_ok n = true) (Hok : forall c, evp_ok c = true)
    (Hkey : xdigits key_hex) (Hkl : length key_hex = 64%nat)
    (Hlen : Z.of_nat (length p + GCM_OVERHEAD) <= FRAME_MAX)
    (Hf : f = id \/ f = std_to_url)
    (Hk : (k <= (3 - (length p + GCM_OVERHEAD) mod 3) mod 3)%nat) :
  exists s, aes_gcm_encrypt malloc_ok p key_hex = Some s
    /\ aes_gcm_decrypt malloc_ok (map f (take (length s - k) s)) key_hex = Some p.
Proof.
  destruct (gcm_text malloc_ok p key_hex Hm Hok Hkey Hkl Hlen) as (s & He & _ & Hd). eauto.
Qed.

Lemma gcm_round_trip_witness :
  exists s, aes_gcm_encrypt (fun _ => true) (str "hello") (replicate 64 "a"%byte) = Some s
    /\ aes_gcm_decrypt (fun _ => true) (map std_to_url (take (length s - 2) s))
         (replicate 64 "a"%byte) = Some (str "hello").
Proof.
  apply (gcm_round_trip (fun _ => true) (str "hello") (replicate 64 "a"%byte) std_to_url 2).
  - reflexivity.
  - reflexivity.
  - unfold xdigits. apply Forall_replicate. reflexivity.
  - reflexivity.
  - vm_compute. discriminate.
  - right. reflexivity.
  - vm_compute. lia.
Defined.

Definition toy_sealed : bytes * bytes :=
  gcm_seal (hex_decode (replicate 64 "a"%byte)) (zeros 12) (str "hi").
Definition toy_text (v : Z) (tag : bytes) : bytes :=
  b64_encode ([zb v] ++ zeros 12 ++ toy_sealed.1 ++ tag).

(** C2: [aes_gcm_decrypt] accepts exactly the texts that decode to a frame of
    version 2 whose ciphertext and tag are what sealing the returned plaintext
    under that key and the frame's nonce gives: nothing else, in particular no
    truncated, re-versioned or tampered frame, yields a plaintext. *)
Theorem gcm_decrypt_authentic `{Base64Laws, EvpLaws} malloc_ok s key_hex p
    (Hm : forall n, malloc_ok n = true) (Hok : forall c, evp_ok c = true)
    (Hs : forall frame, sc_base64_decode malloc_ok s = Some frame ->
            Z.of_nat (length frame) <= INT_MAX) :
  aes_gcm_decrypt malloc_ok s key_hex = Some p <->
  exists key nonce ct tag, sc_hex_to_bytes key_hex AES_KEY_LEN = Some key
    /\ sc_base64_decode malloc_ok s = Some ([zb GCM_VERSION] ++ nonce ++ ct ++ tag)
    /\ length nonce = GCM_NONCE_LEN /\ length tag = GCM_TAG_LEN
    /\ gcm_seal key nonce p = (ct, tag).
Proof.
  split.
  - intros Hd. destruct (sc_hex_to_bytes key_hex AES_KEY_LEN) as [key|] eqn:Hk.
    2:{ unfold aes_gcm_decrypt in Hd. by rewrite Hk in Hd. }
    destruct (sc_base64_decode malloc_ok s) as [frame|] eqn:Hb.
    2:{ unfold aes_gcm_decrypt in Hd. by rewrite Hk, Hb in Hd. }
    specialize (Hs frame eq_refl).
    assert (Hfr : (GCM_OVERHEAD <= length frame)%nat /\ frame !! 0%nat = Some (zb GCM_VERSION)).
    { unfold aes_gcm_decrypt in Hd. rewrite Hk, Hb in Hd.
      destruct (_ <? _)%nat eqn:E1; [done|]. case_bool_decide; [|done].
      boolify. unfold GCM_OVERHEAD. split; [lia|done]. }
    destruct Hfr as [Hfl Hfv].
    destruct (frame_split frame Hfl Hfv) as (nonce & ct & tag & -> & Hn & Ht).
    erewrite aes_gcm_decrypt_frame in Hd; try done.
    + apply gcm_open_iff in Hd. eauto 10.
    + rewrite !length_app in Hs. lia.
  - intros (key & nonce & ct & tag & Hk & Hb & Hn & Ht & Hseal).
    specialize (Hs _ Hb). rewrite !length_app in Hs.
    erewrite aes_gcm_decrypt_frame; [by apply gcm_open_iff|done..|lia].
Qed.

(** The sealed frame opens; the theorem speaks about the one with a foreign
    tag, which does not, like the one of another version or cut short. *)
Lemma gcm_decrypt_authentic_witness :
  let key := replicate 64 "a"%byte in
  (aes_gcm_decrypt (fun _ => true) (toy_text 2 (zeros 16)) key = Some (str "hi") <->
      exists key' nonce ct tag, sc_hex_to_bytes key AES_KEY_LEN = Some key'
        /\ sc_base64_decode (fun _ => true) (toy_text 2 (zeros 16))
           = Some ([zb GCM_VERSION] ++ nonce ++ ct ++ tag)
        /\ length nonce = GCM_NONCE_LEN /\ length tag = GCM_TAG_LEN
        /\ gcm_seal key' nonce (str "hi") = (ct, tag))
  /\ aes_gcm_decrypt (fun _ => true) (toy_text 2 toy_sealed.2) key = Some (str "hi")
  /\ aes_gcm_decrypt (fun _ => true) (toy_text 2 (zeros 16)) key = None
  /\ aes_gcm_decrypt (fun _ => true) (toy_text 1 toy_sealed.2) key = None
  /\ aes_gcm_decrypt (fun _ => true) (toy_text 2 (zeros 15)) key = None.
Proof.
  cbv zeta. split; [|vm_compute; auto].
  refine (gcm_decrypt_authentic (fun _ => true) (toy_text 2 (zeros 16))
            (replicate 64 "a"%byte) (str "hi") (fun _ => eq_refl) (fun _ => eq_refl) _).
  intros frame Hf. apply (f_equal (fun o => Z.of_nat (length (default [] o)) <=? INT_MAX)) in Hf.
  apply Z.leb_le. exact (eq_sym Hf).
Defined.

(** The legacy AES-256-CBC pair of protocol 1.x is a round trip under any
    key text, whatever indeterminate bytes a malformed key leaves behind
    (they are the same on both sides). *)
Theorem cbc_round_trip `{Base64Laws, EvpLaws} malloc_ok indet p key_hex
    (Hm : forall n, malloc_ok n = true) (Hok : forall c, evp_ok c = true)
    (Hlen : Z.of_nat (length p) <= 500000000) :
  exists s, aes_encrypt malloc_ok indet p key_hex = Some s
    /\ aes_decrypt malloc_ok indet s key_hex = Some p.
Proof.
  set (key := cbc_key indet key_hex). set (iv := rand_bytes AES_IV_LEN).
  pose proof (cbc_encrypt_length key iv p) as Hc. pose proof (rand_length AES_IV_LEN) as Hiv.
  set (d := iv ++ cbc_encrypt key iv p).
  assert (Hdl : length d = (AES_IV_LEN + length (cbc_encrypt key iv p))%nat)
    by (unfold d, iv; rewrite length_app, Hiv; done).
  change AES_IV_LEN with 16%nat in Hdl.
  assert (Hd : d <> []) by (intros E; rewrite E in Hdl; simpl in Hdl; lia).
  destruct (bio_write_read d Hd) as (s & Hw & Hs & Hr); [unfold INT_MAX; lia|].
  exists s. pose proof (b64_shape_length _ _ Hs) as Hsl. split.
  - unfold aes_encrypt. rewrite !Hok, !Hm. cbn [negb].
    rewrite (i32_id (Z.of_nat (length p))) by (unfold INT_MIN, INT_MAX; lia).
    rewrite Nat2Z.id, (take_ge p) by lia. fold key. fold iv. fold d.
    unfold base64_encode. rewrite i32_id by (unfold INT_MIN, INT_MAX; lia).
    by rewrite Hw, Hm.
  - unfold aes_decrypt, base64_decode.
    rewrite (cstr_no_nul s) by by eapply b64_shape_no_nul.
    rewrite Hm, Hsl. rewrite (i32_id (4 * _)) by (unfold INT_MIN, INT_MAX; dlia).
    rewrite i32_id by (unfold INT_MIN, INT_MAX; dlia).
    rewrite <- Hsl, Hr by (rewrite Hsl; Z.to_euclidean_division_equations; lia).
    destruct (_ <? _)%nat eqn:E; boolify; [unfold AES_IV_LEN in E; lia|].
    rewrite !Hok, Hm. cbn [negb]. unfold d.
    rewrite (take_app_exact AES_IV_LEN), (drop_app_exact AES_IV_LEN) by apply Hiv.
    apply cbc_decrypt_encrypt.
Qed.

Lemma cbc_round_trip_witness :
  exists s, aes_encrypt (fun _ => true) (fun _ => 7) (str "hello") (str "0g1f") = Some s
    /\ aes_decrypt (fun _ => true) (fun _ => 7) s (str "0g1f") = Some (str "hello").
Proof.
  apply (cbc_round_trip (fun _ => true)).
  - reflexivity.
  - reflexivity.
  - vm_compute. discriminate.
Defined.
