(* ===== verification/Config.v ===== *)
(** * Configuration: common/config.c

    [ClientConfig] holds its [char] arrays as lists of exactly their declared
    size. A configuration file is the bytes [fgets] reads from it; [config_load]
    is the whole function: defaults, the line loop, the strict validation. *)

From S2P Require Import Prelude CString Codec.
Local Open Scope Z_scope.

Definition MAX_URL_LEN : nat := 256.
Definition MAX_KEY_LEN : nat := 256.
Definition MAX_USER_LEN : nat := 128.
Definition MAX_PASS_LEN : nat := 128.
Definition MAX_PATH_LEN : nat := 512.

Record ClientConfig := MkConfig {
  server_host : bytes;
  server_port : Z;
  server_path : bytes;
  server_key : bytes;
  username : bytes;
  password : bytes;
  aes_key : bytes;
  device_id : bytes;
  file_transfer_level : Z;
  max_transfer_size : Z;
  use_tls : Z;
  ca_cert_path : bytes;
  skip_tls_verify : Z;
  log_level : Z;
  max_log_size_mb : Z }.

Definition set_server_host v '(MkConfig _ w1 w2 w3 w4 w5 w6 w7 w8 w9 w10 w11 w12 w13 w14) :=
  MkConfig v w1 w2 w3 w4 w5 w6 w7 w8 w9 w10 w11 w12 w13 w14.
Definition set_server_port v '(MkConfig w0 _ w2 w3 w4 w5 w6 w7 w8 w9 w10 w11 w12 w13 w14) :=
  MkConfig w0 v w2 w3 w4 w5 w6 w7 w8 w9 w10 w11 w12 w13 w14.
Definition set_server_path v '(MkConfig w0 w1 _ w3 w4 w5 w6 w7 w8 w9 w10 w11 w12 w13 w14) :=
  MkConfig w0 w1 v w3 w4 w5 w6 w7 w8 w9 w10 w11 w12 w13 w14.
Definition set_server_key v '(MkConfig w0 w1 w2 _ w4 w5 w6 w7 w8 w9 w10 w11 w12 w13 w14) :=
  MkConfig w0 w1 w2 v w4 w5 w6 w7 w8 w9 w10 w11 w12 w13 w14.
Definition set_username v '(MkConfig w0 w1 w2 w3 _ w5 w6 w7 w8 w9 w10 w11 w12 w13 w14) :=
  MkConfig w0 w1 w2 w3 v w5 w6 w7 w8 w9 w10 w11 w12 w13 w14.
Definition set_password v '(MkConfig w0 w1 w2 w3 w4 _ w6 w7 w8 w9 w10 w11 w12 w13 w14) :=
  MkConfig w0 w1 w2 w3 w4 v w6 w7 w8 w9 w10 w11 w12 w13 w14.
Definition set_aes_key v '(MkConfig w0 w1 w2 w3 w4 w5 _ w7 w8 w9 w10 w11 w12 w13 w14) :=
  MkConfig w0 w1 w2 w3 w4 w5 v w7 w8 w9 w10 w11 w12 w13 w14.
Definition set_device_id v '(MkConfig w0 w1 w2 w3 w4 w5 w6 _ w8 w9 w10 w11 w12 w13 w14) :=
  MkConfig w0 w1 w2 w3 w4 w5 w6 v w8 w9 w10 w11 w12 w13 w14.
Definition set_file_transfer_level v '(MkConfig w0 w1 w2 w3 w4 w5 w6 w7 _ w9 w10 w11 w12 w13 w14) :=
  MkConfig w0 w1 w2 w3 w4 w5 w6 w7 v w9 w10 w11 w12 w13 w14.
Definition set_max_transfer_size v '(MkConfig w0 w1 w2 w3 w4 w5 w6 w7 w8 _ w10 w11 w12 w13 w14) :=
  MkConfig w0 w1 w2 w3 w4 w5 w6 w7 w8 v w10 w11 w12 w13 w14.
Definition set_use_tls v '(MkConfig w0 w1 w2 w3 w4 w5 w6 w7 w8 w9 _ w11 w12 w13 w14) :=
  MkConfig w0 w1 w2 w3 w4 w5 w6 w7 w8 w9 v w11 w12 w13 w14.
Definition set_ca_cert_path v '(MkConfig w0 w1 w2 w3 w4 w5 w6 w7 w8 w9 w10 _ w12 w13 w14) :=
  MkConfig w0 w1 w2 w3 w4 w5 w6 w7 w8 w9 w10 v w12 w13 w14.
Definition set_skip_tls_verify v '(MkConfig w0 w1 w2 w3 w4 w5 w6 w7 w8 w9 w10 w11 _ w13 w14) :=
  MkConfig w0 w1 w2 w3 w4 w5 w6 w7 w8 w9 w10 w11 v w13 w14.
Definition set_log_level v '(MkConfig w0 w1 w2 w3 w4 w5 w6 w7 w8 w9 w10 w11 w12 _ w14) :=
  MkConfig w0 w1 w2 w3 w4 w5 w6 w7 w8 w9 w10 w11 w12 v w14.
Definition set_max_log_size_mb v '(MkConfig w0 w1 w2 w3 w4 w5 w6 w7 w8 w9 w10 w11 w12 w13 _) :=
  MkConfig w0 w1 w2 w3 w4 w5 w6 w7 w8 w9 w10 w11 w12 w13 v.

(** [config_set_defaults(cfg)]: [memset] to zero, then the defaults. *)
Definition config_set_defaults : ClientConfig :=
  MkConfig (zeros MAX_URL_LEN) 8080
    (strncpy (zeros MAX_URL_LEN) (str "/ws/v2/clipboard") (MAX_URL_LEN - 1))
    (zeros MAX_KEY_LEN) (zeros MAX_USER_LEN) (zeros MAX_PASS_LEN) (zeros MAX_KEY_LEN)
    (zeros MAX_USER_LEN) 3 500 0 (zeros MAX_PATH_LEN) 0 1 10.

Definition is_lead (b : byte) : bool := beq b " " || beq b Byte.x09.
Definition is_trail (b : byte) : bool :=
  beq b " " || beq b Byte.x09 || beq b Byte.x0a || beq b Byte.x0d.

(** [trim(s)]: the C string left in [s]. *)
Definition trim (s : bytes) : bytes :=
  reverse (drop_while is_trail (reverse (drop_while is_lead (cstr s)))).

(** [is_hex(s, expected_len)]. *)
Definition is_hex (s : bytes) (expected_len : nat) : bool :=
  (strlen s =? expected_len)%nat && forallb isxdigit (take expected_len (cstr s)).

(** [fgets(line, size, f)]: the bytes stored (before the NUL) and the rest of
    the file; [None] at end of file. *)
Definition first_line (window : bytes) : bytes :=
  match find_index (fun b => beq b Byte.x0a) window with
  | Some i => take (S i) window
  | None => window
  end.

Definition fgets (size : nat) (f : bytes) : option (bytes * bytes) :=
  match f with
  | [] => None
  | _ =>
      let line := first_line (take (size - 1) f) in
      Some (line, drop (length line) f)
  end.

(** The [strcmp] chain of the line loop. *)
Definition set_field (key val : bytes) (c : ClientConfig) : ClientConfig :=
  if streq key (str "server_host") then
    set_server_host (strncpy (server_host c) val (MAX_URL_LEN - 1)) c
  else if streq key (str "server_port") then set_server_port (atoi val) c
  else if streq key (str "server_path") then
    set_server_path (strncpy (server_path c) val (MAX_URL_LEN - 1)) c
  else if streq key (str "server_key") then
    set_server_key (strncpy (server_key c) val (MAX_KEY_LEN - 1)) c
  else if streq key (str "username") then
    set_username (strncpy (username c) val (MAX_USER_LEN - 1)) c
  else if streq key (str "password") then
    set_password (strncpy (password c) val (MAX_PASS_LEN - 1)) c
  else if streq key (str "aes_key") then
    set_aes_key (strncpy (aes_key c) val (MAX_KEY_LEN - 1)) c
  else if streq key (str "device_id") then
    set_device_id (strncpy (device_id c) val (MAX_USER_LEN - 1)) c
  else if streq key (str "file_transfer_level") then set_file_transfer_level (atoi val) c
  else if streq key (str "max_transfer_size") then set_max_transfer_size (atoi val) c
  else if streq key (str "use_tls") then set_use_tls (atoi val) c
  else if streq key (str "ca_cert_path") then
    set_ca_cert_path (strncpy (ca_cert_path c) val (MAX_PATH_LEN - 1)) c
  else if streq key (str "skip_tls_verify") then set_skip_tls_verify (atoi val) c
  else if streq key (str "log_level") then set_log_level (atoi val) c
  else if streq key (str "max_log_size_mb") then set_max_log_size_mb (atoi val) c
  else c.

(** One iteration of the line loop. *)
Definition config_line (line : bytes) (c : ClientConfig) : ClientConfig :=
  let c0 := default NUL (line !! 0%nat) in
  if beq c0 "#" || beq c0 Byte.x0a || beq c0 Byte.x0d then c
  else match strchr line "=" with
       | None => c
       | Some eq => set_field (trim (take eq line)) (trim (drop (S eq) line)) c
       end.

Definition LINE_SIZE : nat := 1024.

Fixpoint config_lines (fuel : nat) (f : bytes) (c : ClientConfig) : option ClientConfig :=
  match fuel with
  | O => None
  | S fuel' =>
      match fgets LINE_SIZE f with
      | None => Some c
      | Some (line, f') => config_lines fuel' f' (config_line line c)
      end
  end.

(** The strict validation: whether [fatal] stays 0. *)
Definition config_valid (c : ClientConfig) : bool :=
  let empty s := beq (default NUL (s !! 0%nat)) NUL in
  negb (empty (server_host c))
  && negb ((server_port c <=? 0) || (65535 <? server_port c))
  && negb (empty (server_key c))
  && negb (empty (username c))
  && negb (empty (password c))
  && (if empty (aes_key c) then false else is_hex (aes_key c) 64)
  && negb (empty (device_id c)).

(** [config_load(path, cfg)]: the return code and [*cfg] afterwards; [None]
    for the file when [fopen] fails. The fuel is one step per byte of the
    file, and one for its end: see [config_lines_total]. *)
Definition config_load (file : option bytes) : Z * ClientConfig :=
  match file with
  | None => (-1, config_set_defaults)
  | Some f =>
      let c := default config_set_defaults
                 (config_lines (S (length f)) f config_set_defaults) in
      (if config_valid c then 0 else -1, c)
  end.

(** ** Lemmas *)

(** A [char] array of [n] bytes whose last byte is NUL. *)
Definition arr (n : nat) (s : bytes) : Prop := length s = n /\ last s = Some NUL.

Lemma arr_zeros n : (0 < n)%nat -> arr n (zeros n).
Proof. split; [apply length_zeros|by apply last_zeros]. Qed.

Lemma arr_strncpy n s src : (0 < n)%nat -> arr n s -> arr n (strncpy s src (n - 1)).
Proof.
  intros Hn [Hl Hz]. split.
  - rewrite length_strncpy; lia.
  - by rewrite last_strncpy by lia.
Qed.

Lemma arr_cstr_strncpy n s src :
  (0 < n)%nat -> arr n s -> cstr (strncpy s src (n - 1)) = take (n - 1) (cstr src).
Proof. intros Hn [Hl Hz]. apply cstr_strncpy; [lia|done|lia]. Qed.

(** [strncpy(dst, src, n - 1); dst[n - 1] = '\0';] for [char dst[n]]. *)
Definition copy_field (dst src : bytes) (n : nat) : bytes := <[(n - 1)%nat := NUL]> (strncpy dst src (n - 1)).

Lemma copy_field_spec dst src n :
  length dst = n -> (0 < n)%nat ->
  arr n (copy_field dst src n) /\ cstr (copy_field dst src n) = take (n - 1) (cstr src).
Proof.
  intros Hl Hn. unfold copy_field, strncpy. set (s := take (n - 1) (cstr src)).
  assert (Hs : (length s <= n - 1)%nat) by (unfold s; len).
  set (p := s ++ replicate (n - 1 - length s) NUL).
  assert (Hp : length p = (n - 1)%nat) by (unfold p; len).
  assert (Ed : exists d, drop (n - 1) dst = [d]).
  { destruct (drop (n - 1) dst) as [|d [|e l]] eqn:E; apply (f_equal length) in E;
      rewrite length_drop in E; simpl in E; [lia|by exists d|lia]. }
  destruct Ed as [d Ed]. rewrite app_assoc, Ed. fold p.
  rewrite insert_app_r_alt by lia. rewrite Hp, Nat.sub_diag. cbn [insert list_insert].
  split; [split; [len|apply last_snoc]|].
  unfold p. rewrite <- app_assoc. destruct (n - 1 - length s)%nat; simpl; apply cstr_stop;
    apply no_nul_take, no_nul_cstr.
Qed.

(** A C string is stored inside every such array. *)
Lemma arr_strlen n s : (0 < n)%nat -> arr n s -> (strlen s < n)%nat.
Proof.
  intros Hn [Hl Hz]. apply last_Some in Hz as [t ->]. rewrite length_app in Hl. simpl in Hl.
  unfold strlen. destruct (decide (no_nul t)) as [Ht|Ht].
  - rewrite cstr_stop by done. lia.
  - assert (length (cstr (t ++ [NUL])) <= length t)%nat; [|lia].
    clear Hl. induction t as [|b t IH]; [destruct Ht; constructor|].
    cbn [cstr app take_while]. destruct (not_nul b) eqn:E; cbn [length take_while]; [|lia].
    apply le_n_S, IH. intros Ht'. apply Ht. by constructor.
Qed.

Definition config_wf (c : ClientConfig) : Prop :=
  arr MAX_URL_LEN (server_host c) /\ arr MAX_URL_LEN (server_path c)
  /\ arr MAX_KEY_LEN (server_key c) /\ arr MAX_USER_LEN (username c)
  /\ arr MAX_PASS_LEN (password c) /\ arr MAX_KEY_LEN (aes_key c)
  /\ arr MAX_USER_LEN (device_id c) /\ arr MAX_PATH_LEN (ca_cert_path c).

Lemma config_set_defaults_wf : config_wf config_set_defaults.
Proof. unfold config_wf, arr. repeat split. Qed.

Lemma set_field_wf key val c : config_wf c -> config_wf (set_field key val c).
Proof.
  intros (H1 & H2 & H3 & H4 & H5 & H6 & H7 & H8). unfold set_field.
  repeat match goal with |- context [if ?b then _ else _] => destruct b end; destruct c;
    unfold config_wf in *; cbn in *; split_and!; try assumption;
    apply arr_strncpy; try assumption; apply Nat.ltb_lt; reflexivity.
Qed.

Lemma config_line_wf line c : config_wf c -> config_wf (config_line line c).
Proof.
  intros H. unfold config_line. destruct (_ || _); [done|].
  destruct (strchr line "="); [by apply set_field_wf|done].
Qed.

Lemma fgets_shorter f line f' :
  fgets LINE_SIZE f = Some (line, f') -> f = line ++ f' /\ (length f' < length f)%nat.
Proof.
  unfold fgets. destruct f as [|b f]; [done|]. set (l := first_line _).
  assert (Hp : exists n, l = take n (b :: f) /\ (0 < n)%nat).
  { unfold l, first_line. destruct (find_index _ _) as [i|].
    - exists (Nat.min (S i) (LINE_SIZE - 1)). rewrite take_take. split; [done|].
      unfold LINE_SIZE. lia.
    - exists (LINE_SIZE - 1)%nat. split; [done|]. unfold LINE_SIZE. lia. }
  clearbody l. intros [= <- <-].
  destruct Hp as (n & -> & Hn). split.
  - rewrite <- (take_drop n (b :: f)) at 1. f_equal. rewrite length_take.
    destruct (Nat.le_gt_cases n (length (b :: f))); [by rewrite Nat.min_l by lia|].
    rewrite Nat.min_r by lia. rewrite !drop_ge; done || lia.
  - rewrite length_drop, length_take. simpl. lia.
Qed.

(** The line loop ends on every file. *)
Lemma config_lines_total fuel f c :
  (length f < fuel)%nat -> exists c', config_lines fuel f c = Some c'.
Proof.
  revert f c. induction fuel as [|fuel IH]; intros f c Hf; [lia|]. cbn [config_lines].
  destruct (fgets LINE_SIZE f) as [[line f']|] eqn:E; [|eauto].
  apply fgets_shorter in E as [_ E]. apply IH. lia.
Qed.

Lemma config_lines_wf fuel f c c' :
  config_wf c -> config_lines fuel f c = Some c' -> config_wf c'.
Proof.
  revert f c. induction fuel as [|fuel IH]; intros f c Hc; [done|]. cbn [config_lines].
  destruct (fgets LINE_SIZE f) as [[line f']|]; [|by intros [= <-]].
  apply IH. by apply config_line_wf.
Qed.

Lemma config_load_lines f :
  exists c, config_lines (S (length f)) f config_set_defaults = Some c
    /\ config_load (Some f) = (if config_valid c then 0 else -1, c) /\ config_wf c.
Proof.
  destruct (config_lines_total (S (length f)) f config_set_defaults ltac:(lia)) as [c Hc].
  exists c. unfold config_load. rewrite Hc. split_and!; [done..|].
  eapply config_lines_wf; [apply config_set_defaults_wf|done].
Qed.

Lemma empty_cstr s : beq (default NUL (s !! 0%nat)) NUL = true <-> cstr s = [].
Proof.
  destruct s as [|b s]; [done|]. cbn. unfold not_nul.
  destruct (beq b NUL) eqn:E; simpl; split; done.
Qed.

Lemma is_hex_spec s n :
  is_hex s n = true <-> length (cstr s) = n /\ Forall (fun c => isxdigit c = true) (cstr s).
Proof.
  unfold is_hex, strlen. rewrite andb_true_iff, Nat.eqb_eq. split; intros [H1 H2].
  - rewrite take_ge in H2 by lia. split; [done|]. apply Forall_forall. intros x Hx.
    rewrite forallb_forall in H2. by apply H2, list_elem_of_In.
  - split; [done|]. rewrite take_ge by lia. apply forallb_forall. intros x Hx.
    rewrite Forall_forall in H2. by apply H2, list_elem_of_In.
Qed.

(** ** The text of a configuration file *)

Lemma trim_spec l s t :
  Forall (fun b => is_lead b = true) l -> Forall (fun b => is_trail b = true) t ->
  no_nul s -> match s with [] => True | b :: _ => is_lead b = false end ->
  match last s with None => True | Some b => is_trail b = false end ->
  trim (l ++ s ++ t) = s.
Proof.
  intros Hl Ht Hs Hhd Hlast. unfold trim.
  assert (Hlt : forall b, is_lead b = true -> is_trail b = true) by (intros b; by_bytes b).
  assert (Hln : no_nul l) by (eapply Forall_impl; [exact Hl|intros b; by_bytes b]).
  assert (Htn : no_nul t) by (eapply Forall_impl; [exact Ht|intros b; by_bytes b]).
  rewrite cstr_no_nul by (rewrite !no_nul_app; done).
  rewrite drop_while_app_all by done. destruct s as [|b s].
  - cbn [app]. assert (Hd : Forall (fun b => is_trail b = true) (reverse (drop_while is_lead t))).
    { rewrite drop_while_drop. by apply Forall_reverse, Forall_drop. }
    by rewrite (drop_while_all _ _ Hd).
  - rewrite (drop_while_none is_lead ((b :: s) ++ t)) by done.
    rewrite reverse_app, drop_while_app_all by by apply Forall_reverse.
    rewrite drop_while_none; [by rewrite reverse_involutive|].
    destruct (reverse (b :: s)) as [|x r] eqn:E; [done|].
    apply (f_equal reverse) in E. rewrite reverse_involutive, reverse_cons in E.
    rewrite E, last_snoc in Hlast. done.
Qed.

Lemma fgets_line line rest :
  Forall (fun b => beq b Byte.x0a = false) line -> (length line + 1 < LINE_SIZE)%nat ->
  fgets LINE_SIZE (line ++ Byte.x0a :: rest) = Some (line ++ [Byte.x0a], rest).
Proof.
  intros Hl Hlen. unfold fgets.
  destruct (line ++ Byte.x0a :: rest) as [|b f] eqn:E; [by destruct line|]. rewrite <- E.
  assert (Hw : exists r, take (LINE_SIZE - 1) (line ++ Byte.x0a :: rest) = line ++ Byte.x0a :: r).
  { rewrite take_app_ge by lia. destruct (LINE_SIZE - 1 - length line)%nat as [|k] eqn:Ek; [lia|].
    cbn [take]. eauto. }
  destruct Hw as [r ->]. unfold first_line. rewrite find_index_app_stop by done.
  replace (take (S (length line)) (line ++ Byte.x0a :: r)) with (line ++ [Byte.x0a]).
  2:{ rewrite take_app_ge by lia. replace (S (length line) - length line)%nat with 1%nat by lia. done. }
  do 2 f_equal. change (Byte.x0a :: rest) with ([Byte.x0a] ++ rest).
  rewrite app_assoc. by apply drop_app_exact.
Qed.

(** A line of a configuration file. *)
Inductive config_entry :=
| Setting (key val : bytes)
| Comment (text : bytes)
| Blank.

Definition printable (b : byte) : bool := not_nul b && negb (beq b Byte.x0a).

(** Keys and values as a user writes them: no control bytes that end a line,
    no blank at either end, no equals sign and no leading hash in the key. *)
Definition clean (s : bytes) : Prop :=
  Forall (fun b => printable b = true) s
  /\ match s with [] => True | b :: _ => is_lead b = false end
  /\ match last s with None => True | Some b => is_trail b = false end.

Definition entry_ok (e : config_entry) : Prop :=
  match e with
  | Setting k v => clean k /\ clean v /\ k <> [] /\ Forall (fun b => beq b "=" = false) k
      /\ head k <> Some "#"%byte /\ head k <> Some Byte.x0d
      /\ (length k + length v + 5 < LINE_SIZE)%nat
  | Comment t => Forall (fun b => beq b Byte.x0a = false) t /\ (length t + 3 < LINE_SIZE)%nat
  | Blank => True
  end.

(** The text of an entry, with the line end of Unix or of Windows. *)
Definition eol (crlf : bool) : bytes := if crlf then [Byte.x0d; Byte.x0a] else [Byte.x0a].

Definition print_entry (crlf : bool) (e : config_entry) : bytes :=
  match e with
  | Setting k v => k ++ str " = " ++ v ++ eol crlf
  | Comment t => str "#" ++ t ++ eol crlf
  | Blank => eol crlf
  end.

Definition apply_entry (c : ClientConfig) (e : config_entry) : ClientConfig :=
  match e with Setting k v => set_field k v c | _ => c end.

Lemma printable_spec b : printable b = true -> not_nul b = true /\ beq b Byte.x0a = false.
Proof. by_bytes b. Qed.

Lemma clean_no_nul s : clean s -> no_nul s.
Proof. intros [H _]. eapply Forall_impl; [exact H|]. intros b Hb. by apply printable_spec. Qed.

Lemma clean_no_newline s : clean s -> Forall (fun b => beq b Byte.x0a = false) s.
Proof. intros [H _]. eapply Forall_impl; [exact H|]. intros b Hb. by apply printable_spec. Qed.

Lemma trim_clean l s t :
  Forall (fun b => is_lead b = true) l -> Forall (fun b => is_trail b = true) t ->
  clean s -> trim (l ++ s ++ t) = s.
Proof. intros Hl Ht Hs. apply trim_spec; try done; [by apply clean_no_nul|apply Hs..]. Qed.

Lemma config_line_setting k v crlf c :
  entry_ok (Setting k v) -> config_line (print_entry crlf (Setting k v)) c = set_field k v c.
Proof.
  intros (Hk & Hv & Hne & Heq & Hh & Hr & Hlen). unfold config_line, print_entry.
  set (rest := v ++ eol crlf).
  assert (Hc0 : (let c0 := default NUL ((k ++ str " = " ++ rest) !! 0%nat) in
                 beq c0 "#" || beq c0 Byte.x0a || beq c0 Byte.x0d) = false).
  { pose proof (clean_no_newline _ Hk) as Hn. destruct k as [|b k]; [done|].
    cbv zeta. change (default NUL (((b :: k) ++ str " = " ++ rest) !! 0%nat)) with b.
    apply Forall_cons in Hn as [-> _].
    destruct (beq_spec b "#") as [->|_]; [done|]. by destruct (beq_spec b Byte.x0d) as [->|_]. }
  cbv zeta in Hc0. rewrite Hc0.
  assert (Hs : strchr (k ++ str " = " ++ rest) "=" = Some (S (length k))).
  { unfold strchr, rest. rewrite cstr_no_nul.
    - replace (k ++ str " = " ++ v ++ eol crlf)
        with ((k ++ [" "%byte]) ++ "="%byte :: (" "%byte :: v ++ eol crlf)) by by rewrite <- app_assoc.
      rewrite find_index_app_stop; [|apply Forall_app; split; [done|by repeat constructor]|done].
      rewrite length_app. f_equal. simpl. lia.
    - apply no_nul_app. split; [by apply clean_no_nul|]. apply no_nul_app. split; [by repeat constructor|].
      apply no_nul_app. split; [by apply clean_no_nul|]. by destruct crlf; repeat constructor. }
  rewrite Hs.
  assert (Hkt : take (S (length k)) (k ++ str " = " ++ rest) = [] ++ k ++ [" "%byte]).
  { rewrite take_app_ge by lia. by replace (S (length k) - length k)%nat with 1%nat by lia. }
  assert (Hvt : drop (S (S (length k))) (k ++ str " = " ++ rest) = [" "%byte] ++ v ++ eol crlf).
  { rewrite drop_app_ge by lia. by replace (S (S (length k)) - length k)%nat with 2%nat by lia. }
  rewrite Hkt, Hvt, !trim_clean; try done.
  - by repeat constructor.
  - by destruct crlf; repeat constructor.
  - by repeat constructor.
Qed.

Lemma config_line_entry crlf e c :
  entry_ok e -> config_line (print_entry crlf e) c = apply_entry c e.
Proof.
  destruct e; [apply config_line_setting|done|]. by destruct crlf.
Qed.

(** Every entry is one line of the file. *)
Lemma fgets_entry crlf e rest :
  entry_ok e -> fgets LINE_SIZE (print_entry crlf e ++ rest) = Some (print_entry crlf e, rest).
Proof.
  intros He.
  assert (Hb : exists body, print_entry crlf e = body ++ [Byte.x0a]
    /\ Forall (fun b => beq b Byte.x0a = false) body /\ (length body + 1 < LINE_SIZE)%nat).
  { assert (Hcr : exists cr, eol crlf = cr ++ [Byte.x0a]
      /\ Forall (fun b => beq b Byte.x0a = false) cr /\ (length cr <= 1)%nat).
    { destruct crlf; [exists [Byte.x0d]|exists []]; split_and!; simpl; try done; try lia.
      by repeat constructor. }
    destruct Hcr as (cr & Hcr & Hn & Hl). destruct e as [k v|t|]; cbn [print_entry]; rewrite Hcr.
    - destruct He as (Hk & Hv & _ & _ & _ & _ & Hlen).
      exists (k ++ str " = " ++ v ++ cr). split_and!.
      + by rewrite <- !app_assoc.
      + rewrite !Forall_app. split_and!; [by apply clean_no_newline|by repeat constructor| |done].
        by apply clean_no_newline.
      + rewrite !length_app. simpl. lia.
    - destruct He as (Ht & Hlen). exists (str "#" ++ t ++ cr). split_and!.
      + by rewrite <- !app_assoc.
      + rewrite !Forall_app. split_and!; [by repeat constructor|done..].
      + rewrite !length_app. simpl. lia.
    - exists cr. split_and!; [done..|]. unfold LINE_SIZE. lia. }
  destruct Hb as (body & -> & Hn & Hl). rewrite <- app_assoc. by apply fgets_line.
Qed.

Lemma config_lines_entries es crlf c fuel :
  Forall entry_ok es -> (length es < fuel)%nat ->
  config_lines fuel (concat (map (print_entry crlf) es)) c = Some (fold_left apply_entry es c).
Proof.
  revert c fuel. induction es as [|e es IH]; intros c fuel He Hf; (destruct fuel as [|fuel]; [simpl in Hf; lia|]).
  - done.
  - apply Forall_cons in He as [He Hes]. cbn [map concat config_lines fold_left].
    rewrite fgets_entry by done. rewrite config_line_entry by done. apply IH; [done|].
    simpl in Hf. lia.
Qed.

Lemma entries_length es crlf : (length es <= length (concat (map (print_entry crlf) es)))%nat.
Proof.
  induction es as [|e es IH]; simpl; [lia|]. rewrite length_app.
  assert (1 <= length (print_entry crlf e))%nat; [|lia].
  destruct e; cbn [print_entry]; rewrite ?length_app; destruct crlf; simpl; lia.
Qed.

(** ** The settings table *)

Definition string_fields : list (bytes * nat * (ClientConfig -> bytes)) :=
  [(str "server_host", MAX_URL_LEN, server_host); (str "server_path", MAX_URL_LEN, server_path);
   (str "server_key", MAX_KEY_LEN, server_key); (str "username", MAX_USER_LEN, username);
   (str "password", MAX_PASS_LEN, password); (str "aes_key", MAX_KEY_LEN, aes_key);
   (str "device_id", MAX_USER_LEN, device_id); (str "ca_cert_path", MAX_PATH_LEN, ca_cert_path)].

Definition int_fields : list (bytes * (ClientConfig -> Z)) :=
  [(str "server_port", server_port); (str "file_transfer_level", file_transfer_level);
   (str "max_transfer_size", max_transfer_size); (str "use_tls", use_tls);
   (str "skip_tls_verify", skip_tls_verify); (str "log_level", log_level);
   (str "max_log_size_mb", max_log_size_mb)].

(** The value the last setting of [key] gives. *)
Fixpoint last_value (key : bytes) (es : list config_entry) : option bytes :=
  match es with
  | [] => None
  | e :: es' =>
      match last_value key es', e with
      | Some v, _ => Some v
      | None, Setting k v => if bool_decide (k = key) then Some v else None
      | None, _ => None
      end
  end.

Ltac proj_set :=
  cbn [server_host server_port server_path server_key username password aes_key device_id
       file_transfer_level max_transfer_size use_tls ca_cert_path skip_tls_verify log_level max_log_size_mb
       set_server_host set_server_port set_server_path set_server_key set_username
       set_password set_aes_key set_device_id set_file_transfer_level set_max_transfer_size
       set_use_tls set_ca_cert_path set_skip_tls_verify set_log_level set_max_log_size_mb] in *.

(** Follow the [strcmp] chain: in each case [key] is one literal and none of
    the earlier ones. *)
Ltac field_cases :=
  unfold set_field;
  repeat match goal with
  | |- context [streq ?k ?l] =>
      let E := fresh "E" in destruct (streq k l) eqn:E;
      [apply streq_true in E; change (cstr l) with l in E; rewrite ?E
      |apply not_true_iff_false in E; rewrite streq_true in E; change (cstr l) with l in E]
  end.

Ltac decide_key :=
  match goal with
  | |- context [bool_decide (str ?a = str ?b)] =>
      let v := eval vm_compute in (bool_decide (str a = str b)) in
      replace (bool_decide (str a = str b)) with v by (vm_compute; reflexivity)
  | H : ?x <> ?k |- context [bool_decide (?x = ?k)] => rewrite (bool_decide_eq_false_2 _ H)
  end.

Lemma set_field_string key v c k n get :
  config_wf c -> (k, n, get) ∈ string_fields ->
  cstr (get (set_field key v c))
  = if bool_decide (cstr key = k) then take (n - 1) (cstr v) else cstr (get c).
Proof.
  intros Hwf Hin. unfold string_fields in Hin.
  repeat (apply elem_of_cons in Hin as [Hin|Hin]; [injection Hin as -> -> ->|]);
    [..|by apply elem_of_nil in Hin]; destruct Hwf as (?&?&?&?&?&?&?&?);
    field_cases; destruct c; proj_set; decide_key;
    solve [reflexivity|apply arr_cstr_strncpy; [apply Nat.ltb_lt; reflexivity|assumption]].
Qed.

Lemma set_field_int key v c k get :
  (k, get) ∈ int_fields ->
  get (set_field key v c) = if bool_decide (cstr key = k) then atoi v else get c.
Proof.
  intros Hin. unfold int_fields in Hin.
  repeat (apply elem_of_cons in Hin as [Hin|Hin]; [injection Hin as -> ->|]);
    [..|by apply elem_of_nil in Hin]; field_cases; destruct c; proj_set; decide_key; reflexivity.
Qed.

(** The value the settings give a string field, and an integer field. *)
Definition string_value (k : bytes) (n : nat) (get : ClientConfig -> bytes) es : bytes :=
  match last_value k es with
  | Some v => take (n - 1) v
  | None => cstr (get config_set_defaults)
  end.

Definition int_value (k : bytes) (get : ClientConfig -> Z) es : Z :=
  match last_value k es with
  | Some v => atoi v
  | None => get config_set_defaults
  end.

Lemma last_value_app k es e :
  last_value k (es ++ [e]) =
  match e with
  | Setting k' v => if bool_decide (k' = k) then Some v else last_value k es
  | _ => last_value k es
  end.
Proof.
  induction es as [|e' es IH].
  - destruct e; simpl; [by case_bool_decide|done..].
  - cbn [app last_value]. rewrite IH. destruct e as [k1 v1|t|]; [|done..]. by case_bool_decide.
Qed.

Lemma apply_entries_wf es : config_wf (fold_left apply_entry es config_set_defaults).
Proof.
  induction es as [|e es IH] using rev_ind; [apply config_set_defaults_wf|].
  rewrite fold_left_app. destruct e; [by apply set_field_wf|done..].
Qed.

Lemma apply_entries_string es k n get :
  Forall entry_ok es -> (k, n, get) ∈ string_fields ->
  cstr (get (fold_left apply_entry es config_set_defaults)) = string_value k n get es.
Proof.
  intros He Hin. induction es as [|e es IH] using rev_ind; [done|].
  apply Forall_app in He as [Hes He]. rewrite Forall_singleton in He. specialize (IH Hes).
  rewrite fold_left_app. unfold string_value in *. rewrite last_value_app.
  destruct e as [k' v|t|]; [|done..]. cbn [fold_left apply_entry].
  rewrite (set_field_string k' v _ k n get) by (done || apply apply_entries_wf).
  destruct He as (Hk & Hv & _).
  rewrite (cstr_no_nul k'), (cstr_no_nul v) by by apply clean_no_nul. by case_bool_decide.
Qed.

Lemma apply_entries_int es k get :
  Forall entry_ok es -> (k, get) ∈ int_fields ->
  get (fold_left apply_entry es config_set_defaults) = int_value k get es.
Proof.
  intros He Hin. induction es as [|e es IH] using rev_ind; [done|].
  apply Forall_app in He as [Hes He]. rewrite Forall_singleton in He. specialize (IH Hes).
  rewrite fold_left_app. unfold int_value in *. rewrite last_value_app.
  destruct e as [k' v|t|]; [|done..]. cbn [fold_left apply_entry].
  rewrite (set_field_int k' v _ k get) by done.
  destruct He as (Hk & _). rewrite (cstr_no_nul k') by by apply clean_no_nul. by case_bool_decide.
Qed.

(** ** Properties *)

(** [config_load] terminates on every file, however malformed, and leaves
    every string field a terminated C string inside its array: no line of the
    file can overflow a field or unterminate it. *)
Lemma config_load_bounds f :
  exists c, config_lines (S (length f)) f config_set_defaults = Some c
    /\ (config_load (Some f)).2 = c /\ config_wf c
    /\ forall k n get, (k, n, get) ∈ string_fields -> (strlen (get c) < n)%nat.
Proof.
  destruct (config_load_lines f) as (c & Hl & Hc & Hwf). exists c. rewrite Hc.
  split_and!; [done..|]. intros k n get Hin.
  destruct Hwf as (H1 & H2 & H3 & H4 & H5 & H6 & H7 & H8). unfold string_fields in Hin.
  repeat (apply elem_of_cons in Hin as [Hin|Hin]; [injection Hin as -> -> ->|]);
    [..|by apply elem_of_nil in Hin]; apply arr_strlen; try assumption;
    apply Nat.ltb_lt; reflexivity.
Qed.

(** C30: [config_load] returns 0 exactly for a file that opens and whose
    settings pass the strict validation: host, server key, user, password and
    device present, the port a port, and the AES key 64 hexadecimal digits,
    which the ciphers then parse to exactly 32 key bytes. On every file,
    however malformed, it terminates and leaves every string field a C string
    inside its array: no line can overflow a field or unterminate it. *)
Theorem config_load_accepts file :
  let '(rc, c) := config_load file in
  (rc = 0 <->
  file <> None
  /\ cstr (server_host c) <> [] /\ 1 <= server_port c <= 65535
  /\ cstr (server_key c) <> [] /\ cstr (username c) <> [] /\ cstr (password c) <> []
  /\ cstr (device_id c) <> []
  /\ Forall (fun b => isxdigit b = true) (cstr (aes_key c)) /\ strlen (aes_key c) = 64%nat
  /\ exists key, sc_hex_to_bytes (aes_key c) 32 = Some key /\ length key = 32%nat)
  /\ forall f, file = Some f ->
       config_lines (S (length f)) f config_set_defaults = Some c /\ config_wf c
       /\ forall k n get, (k, n, get) ∈ string_fields -> (strlen (get c) < n)%nat.
Proof.
  assert (Hkey : forall k, Forall (fun b => isxdigit b = true) (cstr k) -> strlen k = 64%nat ->
    exists key, sc_hex_to_bytes k 32 = Some key /\ length key = 32%nat).
  { intros k Hx Hl. exists (hex_decode (cstr k)). split; [|by apply length_hex_decode].
    rewrite <- (sc_hex_to_bytes_xdigits (cstr k) 32) by done.
    unfold sc_hex_to_bytes, strlen. by rewrite cstr_idemp. }
  pose proof config_load_bounds as Hb. unfold config_load in *. destruct file as [f|]; [|split; [by split; [|intros []]|done]].
  specialize (Hb f). cbn [snd] in Hb. set (c := default _ _) in *. destruct Hb as (c' & Hl & Hc' & Hwf & Hb). cbv zeta in Hc'.
  assert (Hall : forall f0, Some f = Some f0 ->
       config_lines (S (length f0)) f0 config_set_defaults = Some c /\ config_wf c
       /\ forall k n get, (k, n, get) ∈ string_fields -> (strlen (get c) < n)%nat).
  { intros ? [= <-]. destruct (config_valid c); cbn in Hc'; by subst c'. }
  clear Hl Hc' Hwf Hb c'. clearbody c.
  assert (Hv : config_valid c = true <->
    cstr (server_host c) <> [] /\ 1 <= server_port c <= 65535
    /\ cstr (server_key c) <> [] /\ cstr (username c) <> [] /\ cstr (password c) <> []
    /\ cstr (device_id c) <> []
    /\ Forall (fun b => isxdigit b = true) (cstr (aes_key c)) /\ strlen (aes_key c) = 64%nat).
  { unfold config_valid. cbv zeta. rewrite !andb_true_iff, !negb_true_iff, orb_false_iff.
    rewrite <- !not_true_iff_false, !empty_cstr.
    assert (Hk : (if beq (default NUL (aes_key c !! 0%nat)) NUL then false
                  else is_hex (aes_key c) 64) = true <->
      Forall (fun b => isxdigit b = true) (cstr (aes_key c)) /\ strlen (aes_key c) = 64%nat).
    { destruct (beq _ _) eqn:E; [|rewrite is_hex_spec; unfold strlen; tauto].
      apply empty_cstr in E. unfold strlen. rewrite E. split; [done|]. by intros [_ H]. }
    rewrite Hk, Z.leb_le, Z.ltb_lt. intuition lia. }
  destruct (config_valid c) eqn:E; (split; [|exact Hall]); split; try done; intros H.
  - destruct Hv as [Hv _]. specialize (Hv eq_refl). split; [done|].
    destruct Hv as (?&?&?&?&?&?&?&?). split_and!; try assumption; [lia..|]. by apply Hkey.
  - destruct H as (_ & H). destruct Hv as [_ Hv]. discriminate Hv. intuition.
Qed.

(** C29: What a configuration file means: every setting of a well-formed file
    takes effect, whatever comments and blank lines surround it and whether
    its lines end as on Unix or on Windows; the last setting of a key wins; a
    string is stored up to its array's length, an integer as [atoi] reads it;
    what is not set keeps its default. *)
Theorem config_load_settings crlf es (He : Forall entry_ok es) :
  let c := (config_load (Some (concat (map (print_entry crlf) es)))).2 in
  (forall k n get, (k, n, get) ∈ string_fields -> cstr (get c) = string_value k n get es)
  /\ (forall k get, (k, get) ∈ int_fields -> get c = int_value k get es).
Proof.
  unfold config_load. rewrite config_lines_entries by (done || pose proof (entries_length es crlf); lia).
  split; intros; [by apply apply_entries_string|by apply apply_entries_int].
Qed.

Definition example_entries : list config_entry :=
  [Comment (str " desktop"); Blank; Setting (str "server_host") (str "a.example");
   Setting (str "server_port") (str "8443"); Setting (str "server_host") (str "b=c.example")].

Lemma config_load_settings_witness :
  let c := (config_load (Some (concat (map (print_entry true) example_entries)))).2 in
  (forall k n get, (k, n, get) ∈ string_fields -> cstr (get c) = string_value k n get example_entries)
  /\ (forall k get, (k, get) ∈ int_fields -> get c = int_value k get example_entries).
Proof.
  apply config_load_settings.
  repeat apply Forall_cons_2; [..|constructor]; cbn [entry_ok];
    repeat first [apply conj|discriminate|apply I|apply Nat.ltb_lt; vm_compute; reflexivity
                 |apply (bool_decide_eq_true_1 (Forall _ _)); vm_compute; reflexivity|reflexivity].
Defined.

Example config_load_example :
  let c := (config_load (Some (concat (map (print_entry true) example_entries)))).2 in
  cstr (server_host c) = str "b=c.example" /\ server_port c = 8443 /\ max_transfer_size c = 500.
Proof. vm_compute. auto. Qed.
