(* ===== verification/FtSocket.v ===== *)
(** * Sockets: common/ft/ft_socket.c

    The kernel's side of a connected socket is class [SockOps]: what [send]
    and [recv] return and how they change the world. [SockLaws] gives the
    world two observations per descriptor, the bytes the kernel has accepted
    ([sent]) and the bytes it will deliver ([incoming]), and states how the
    calls move them; a call may accept or deliver fewer bytes than asked for,
    or fail. [Sim] implements both for a network that cuts streams anywhere. *)

From S2P Require Import Prelude CString Codec.
From stdpp Require Import gmap.
Local Open Scope Z_scope.

Definition FT_INVALID_SOCK : Z := -1.

Class SockOps (W : Type) := {
  (** [send(sock, buf, n, 0)] *)
  send : Z -> bytes -> Z -> W -> Z * W;
  (** [recv(sock, buf, n, 0)]: the result and what it stores. *)
  recv : Z -> Z -> W -> Z * bytes * W }.

Class SockLaws (W : Type) `{SockOps W} := {
  sent : W -> Z -> bytes;
  incoming : W -> Z -> bytes;
  (** Worlds in which no call fails while there is something to do. *)
  healthy : W -> Prop;
  send_spec : forall s buf n w r w', send s buf n w = (r, w') -> 0 < n <= Z.of_nat (length buf) ->
    r <= n /\ sent w' s = sent w s ++ take (Z.to_nat r) buf
    /\ (forall s', s' <> s -> sent w' s' = sent w s') /\ incoming w' = incoming w;
  recv_spec : forall s n w r d w', recv s n w = (r, d, w') -> 0 < n ->
    r <= n /\ (0 < r -> Z.of_nat (length d) = r /\ incoming w s = d ++ incoming w' s)
    /\ (r <= 0 -> incoming w' s = incoming w s)
    /\ (forall s', s' <> s -> incoming w' s' = incoming w s') /\ sent w' = sent w;
  send_healthy : forall s buf n w, healthy w -> 0 < n <= Z.of_nat (length buf) ->
    0 < (send s buf n w).1 /\ healthy (send s buf n w).2;
  recv_healthy : forall s n w, healthy w -> 0 < n -> incoming w s <> [] ->
    0 < (recv s n w).1.1 /\ healthy (recv s n w).2 }.

(** ** [ft_send_all] and [ft_recv_all]

    [None] stands for the return value -1, [Some] for 0. The loops are
    fuelled; [send_loop_total] and [recv_loop_total] show that the length of
    the transfer is enough fuel on any network. *)

Section Loops.
Context `{SockOps W}.

Fixpoint send_loop (fuel : nat) (sock : Z) (buf : bytes) (sent_ : nat) (w : W)
    : option (option unit * W) :=
  match fuel with
  | O => None
  | S fuel' =>
      if (sent_ <? length buf)%nat then
        let '(n, w) := send sock (drop sent_ buf) (i32 (Z.of_nat (length buf - sent_))) w in
        if n <=? 0 then Some (None, w)
        else send_loop fuel' sock buf (sent_ + Z.to_nat n) w
      else Some (Some tt, w)
  end.

(** [ft_send_all(sock, buf, len)] *)
Definition ft_send_all (sock : Z) (buf : bytes) (w : W) : option unit * W :=
  default (None, w) (send_loop (S (length buf)) sock buf 0 w).

Fixpoint recv_loop (fuel : nat) (sock : Z) (len : nat) (got : bytes) (w : W)
    : option (option bytes * W) :=
  match fuel with
  | O => None
  | S fuel' =>
      if (length got <? len)%nat then
        let '(n, d, w) := recv sock (i32 (Z.of_nat (len - length got))) w in
        if n <=? 0 then Some (None, w)
        else recv_loop fuel' sock len (got ++ take (Z.to_nat n) (d ++ zeros (Z.to_nat n))) w
      else Some (Some got, w)
  end.

(** [ft_recv_all(sock, buf, len)]: the bytes left in [buf]. *)
Definition ft_recv_all (sock : Z) (len : nat) (w : W) : option bytes * W :=
  default (None, w) (recv_loop (S len) sock len [] w).

Lemma send_loop_total fuel sock buf k w :
  (length buf - k < fuel)%nat -> exists r, send_loop fuel sock buf k w = Some r.
Proof.
  revert k w. induction fuel as [|fuel IH]; intros k w Hf; [lia|]. cbn [send_loop].
  destruct (_ <? _)%nat eqn:E; [|eauto]. destruct (send _ _ _ w) as [n w'].
  destruct (n <=? 0) eqn:En; [eauto|]. boolify. apply IH. lia.
Qed.

Lemma recv_loop_total fuel sock len got w :
  (len - length got < fuel)%nat -> exists r, recv_loop fuel sock len got w = Some r.
Proof.
  revert got w. induction fuel as [|fuel IH]; intros got w Hf; [lia|]. cbn [recv_loop].
  destruct (_ <? _)%nat eqn:E; [|eauto]. destruct (recv _ _ w) as [[n d] w'].
  destruct (n <=? 0) eqn:En; [eauto|]. boolify. apply IH. len.
Qed.
End Loops.

Section LoopSpecs.
Context `{SockLaws W}.

Lemma send_loop_spec fuel sock buf k w r w' :
  Z.of_nat (length buf) <= INT_MAX -> (k <= length buf)%nat ->
  send_loop fuel sock buf k w = Some (r, w') ->
  exists m, (k <= m <= length buf)%nat
    /\ sent w' sock = sent w sock ++ take (m - k) (drop k buf)
    /\ (forall s', s' <> sock -> sent w' s' = sent w s') /\ incoming w' = incoming w
    /\ (r = Some tt <-> m = length buf)
    /\ (healthy w -> r = Some tt /\ healthy w').
Proof.
  intros Hlen. revert k w. induction fuel as [|fuel IH]; intros k w Hk Hl; [done|].
  cbn [send_loop] in Hl. destruct (_ <? _)%nat eqn:E; boolify.
  - rewrite i32_id in Hl by (unfold INT_MIN; lia).
    destruct (send _ _ _ w) as [n w1] eqn:Es.
    assert (Hr : 0 < Z.of_nat (length buf - k) <= Z.of_nat (length (drop k buf))) by len.
    destruct (send_spec _ _ _ _ _ _ Es Hr) as (Hn & Hs & Ho & Hi).
    pose proof (fun h => send_healthy sock (drop k buf) _ w h Hr) as Hh.
    rewrite Es in Hh. cbn in Hh.
    destruct (n <=? 0) eqn:En; boolify.
    + injection Hl as <- <-. exists k. rewrite Z2Nat.nonpos in Hs by lia.
      rewrite Nat.sub_diag. split_and!; try done; try lia.
      * split; [done|lia].
      * intros Hw. destruct (Hh Hw). lia.
    + destruct (IH (k + Z.to_nat n)%nat w1 ltac:(lia) Hl) as (m & Hm & Hs' & Ho' & Hi' & Hr' & Hh').
      exists m. split_and!.
      * lia.
      * lia.
      * rewrite Hs', Hs, <- app_assoc. f_equal.
        replace (m - k)%nat with (Z.to_nat n + (m - (k + Z.to_nat n)))%nat by lia.
        by rewrite <- take_take_drop, drop_drop.
      * intros s' Hs1. by rewrite Ho', Ho.
      * by rewrite Hi', Hi.
      * apply Hr'.
      * intros Hw. apply Hh', Hh, Hw.
  - injection Hl as <- <-. exists k. rewrite Nat.sub_diag, app_nil_r.
    split_and!; try done; try lia. split; [lia|done].
Qed.

(** A send either hands the whole buffer to the kernel or a part of it and
    fails; on a healthy network it succeeds. *)
Lemma ft_send_all_spec sock buf w r w' :
  Z.of_nat (length buf) <= INT_MAX -> ft_send_all sock buf w = (r, w') ->
  exists m, (m <= length buf)%nat /\ sent w' sock = sent w sock ++ take m buf
    /\ (forall s', s' <> sock -> sent w' s' = sent w s') /\ incoming w' = incoming w
    /\ (r = Some tt <-> m = length buf)
    /\ (healthy w -> r = Some tt /\ healthy w').
Proof.
  intros Hlen Hr. unfold ft_send_all in Hr.
  destruct (send_loop_total (S (length buf)) sock buf 0 w ltac:(lia)) as [[r1 w1] Hl].
  rewrite Hl in Hr. injection Hr as <- <-.
  destruct (send_loop_spec _ _ _ _ _ _ _ Hlen (Nat.le_0_l _) Hl) as (m & Hm & Hs & Hrest).
  rewrite Nat.sub_0_r, drop_0 in Hs. exists m. split_and!; [lia|done|apply Hrest..].
Qed.

Lemma ft_send_all_ok sock buf w w' :
  Z.of_nat (length buf) <= INT_MAX -> ft_send_all sock buf w = (Some tt, w') ->
  sent w' sock = sent w sock ++ buf /\ incoming w' = incoming w.
Proof.
  intros Hlen Hr. destruct (ft_send_all_spec _ _ _ _ _ Hlen Hr) as (m & Hm & Hs & _ & Hi & Hok & _).
  destruct Hok as [Hok _]. rewrite Hok, firstn_all in Hs by done. done.
Qed.

Lemma recv_loop_spec fuel sock len got w r w' :
  Z.of_nat len <= INT_MAX -> (length got <= len)%nat ->
  recv_loop fuel sock len got w = Some (r, w') ->
  exists d, incoming w sock = d ++ incoming w' sock
    /\ (length got + length d <= len)%nat
    /\ (forall s', s' <> sock -> incoming w' s' = incoming w s') /\ sent w' = sent w
    /\ (r = None -> (length got + length d < len)%nat)
    /\ (r <> None -> r = Some (got ++ d) /\ (length got + length d = len)%nat)
    /\ (healthy w -> (len <= length got + length (incoming w sock))%nat ->
        r <> None /\ healthy w').
Proof.
  intros Hlen. revert got w. induction fuel as [|fuel IH]; intros got w Hg Hl; [done|].
  cbn [recv_loop] in Hl. destruct (_ <? _)%nat eqn:E; boolify.
  - rewrite i32_id in Hl by (unfold INT_MIN; lia).
    destruct (recv _ _ w) as [[n d] w1] eqn:Er.
    assert (Hp : 0 < Z.of_nat (len - length got)) by lia.
    destruct (recv_spec _ _ _ _ _ _ Er Hp) as (Hn & Hpos & Hneg & Ho & Hs).
    pose proof (fun h => recv_healthy sock _ w h Hp) as Hh.
    rewrite Er in Hh. cbn in Hh.
    destruct (n <=? 0) eqn:En; boolify.
    + injection Hl as <- <-. exists []. rewrite (Hneg En). split_and!; try done; simpl; try lia.
      intros Hw Hl. destruct (Hh Hw); [|lia]. intros Hnil. rewrite Hnil in Hl. simpl in Hl. lia.
    + destruct (Hpos En) as [Hd Hi].
      rewrite take_app_le, take_ge in Hl by lia.
      destruct (IH (got ++ d) w1) as (d' & Hi' & Hl' & Ho' & Hs' & Hnone & Hsome & Hh').
      { rewrite length_app. lia. }
      { exact Hl. }
      rewrite length_app in *. exists (d ++ d'). rewrite length_app. split_and!.
      * by rewrite Hi, Hi', app_assoc.
      * lia.
      * intros s' Hs1. by rewrite Ho', Ho.
      * by rewrite Hs', Hs.
      * intros Hr. specialize (Hnone Hr). lia.
      * intros Hr. destruct (Hsome Hr) as [-> Hl2]. rewrite <- app_assoc. split; [done|lia].
      * intros Hw Hl2. apply Hh'.
        { apply Hh; [done|]. rewrite Hi. destruct d; [simpl in Hd; lia|done]. }
        { rewrite Hi, length_app in Hl2. lia. }
  - injection Hl as <- <-. exists []. rewrite app_nil_r. simpl. split_and!; try done; try lia.
    intros _. split; [done|lia].
Qed.

(** A receive either consumes exactly the bytes it returns, or fewer and
    fails; on a healthy network with enough bytes under way it succeeds. *)
Lemma ft_recv_all_spec sock len w r w' :
  Z.of_nat len <= INT_MAX -> ft_recv_all sock len w = (r, w') ->
  exists d, incoming w sock = d ++ incoming w' sock
    /\ (forall s', s' <> sock -> incoming w' s' = incoming w s') /\ sent w' = sent w
    /\ (r = None -> (length d < len)%nat)
    /\ (r <> None -> r = Some d /\ length d = len)
    /\ (healthy w -> (len <= length (incoming w sock))%nat -> r <> None /\ healthy w').
Proof.
  intros Hlen Hr. unfold ft_recv_all in Hr.
  destruct (recv_loop_total (S len) sock len [] w ltac:(simpl; lia)) as [[r1 w1] Hl].
  rewrite Hl in Hr. injection Hr as <- <-.
  destruct (recv_loop_spec _ _ _ [] _ _ _ Hlen (Nat.le_0_l _) Hl)
    as (d & Hi & _ & Ho & Hs & Hn & Hsm & Hh). exists d. cbn [length app] in *.
  by split_and!.
Qed.

Lemma ft_recv_all_some sock len w d w' :
  Z.of_nat len <= INT_MAX -> ft_recv_all sock len w = (Some d, w') ->
  incoming w sock = d ++ incoming w' sock /\ length d = len /\ sent w' = sent w.
Proof.
  intros Hlen Hr. destruct (ft_recv_all_spec _ _ _ _ _ Hlen Hr) as (d' & Hi & _ & Hs & _ & Hsm & _).
  destruct (Hsm ltac:(done)) as [[= ->] Hl]. done.
Qed.

(** What a healthy receiver gets when [d] arrives next. *)
Lemma ft_recv_all_healthy sock d rest w :
  healthy w -> Z.of_nat (length d) <= INT_MAX -> incoming w sock = d ++ rest ->
  exists w', ft_recv_all sock (length d) w = (Some d, w') /\ healthy w'
    /\ incoming w' sock = rest /\ sent w' = sent w.
Proof.
  intros Hw Hlen Hi. destruct (ft_recv_all sock (length d) w) as [r w'] eqn:E.
  destruct (ft_recv_all_spec _ _ _ _ _ Hlen E) as (d' & Hi' & _ & Hs & _ & Hsm & Hh).
  destruct (Hh Hw) as [Hr Hw']; [rewrite Hi, length_app; lia|].
  destruct (Hsm Hr) as [-> Hl]. rewrite Hi in Hi'.
  apply app_inj_1 in Hi' as [<- Hrest]; [|done]. eauto.
Qed.
End LoopSpecs.

(** ** A network for the witnesses

    [Sim] cuts every transfer at [1 + cut tick] bytes, [tick] counting the
    calls, and fails every call when [down]. *)

Record Sim := { out_ : gmap Z bytes; in_ : gmap Z bytes; cut : nat -> nat; tick : nat; down : bool }.

Definition chunk (w : Sim) (n : Z) : nat := Nat.min (Z.to_nat n) (S (cut w (tick w))).

#[export] Instance sim_ops : SockOps Sim := {|
  send s buf n w :=
    if down w then (-1, w) else
    let k := chunk w n in
    (Z.of_nat k, {| out_ := <[s := default [] (out_ w !! s) ++ take k buf]> (out_ w);
                    in_ := in_ w; cut := cut w; tick := S (tick w); down := false |});
  recv s n w :=
    let q := default [] (in_ w !! s) in
    if down w then (-1, [], w) else
    let k := Nat.min (chunk w n) (length q) in
    (Z.of_nat k, take k q, {| out_ := out_ w; in_ := <[s := drop k q]> (in_ w);
                              cut := cut w; tick := S (tick w); down := false |}) |}.

#[export] Instance sim_laws : SockLaws Sim.
Proof.
  refine {| sent w s := default [] (out_ w !! s); incoming w s := default [] (in_ w !! s);
            healthy w := down w = false |}.
  - intros s buf n w r w' Hs Hn. cbn in Hs. destruct (down w); injection Hs as <- <-.
    + rewrite Z2Nat.nonpos, app_nil_r by lia. split_and!; [lia|done..].
    + cbn. rewrite Nat2Z.id, lookup_insert_eq. split_and!; [unfold chunk; lia|done| |done].
      intros s' Hne. by rewrite lookup_insert_ne by done.
  - intros s n w r d w' Hr Hn. cbn in Hr. destruct (down w); injection Hr as <- <- <-.
    + split_and!; [lia|lia|done..].
    + cbn. set (q := default [] (in_ w !! s)). set (k := Nat.min (chunk w n) (length q)).
      rewrite lookup_insert_eq. cbn. split_and!.
      * unfold k, chunk. lia.
      * intros _. rewrite length_take, take_drop. split; [unfold k; lia|done].
      * intros Hk. replace k with 0%nat by lia. by rewrite drop_0.
      * intros s' Hne. by rewrite lookup_insert_ne by done.
      * done.
  - intros s buf n w Hw Hn. cbn. rewrite Hw. cbn. split; [unfold chunk; lia|done].
  - intros s n w Hw Hn Hq. cbn. rewrite Hw. cbn. split; [|done].
    set (q := default [] (in_ w !! s)) in *. destruct q; [done|]. unfold chunk. simpl length. lia.
Defined.

(** ** Other helpers of the file *)

(** [ft_generate_uuid(out)]: [buf] is what [RAND_bytes] stored, or 16 calls of
    [rand] when it fails. *)
Definition ft_generate_uuid (rand_ok : bool) (random : bytes) (rand : nat -> Z) : bytes :=
  let buf := if rand_ok then random else map (fun i => zb (Z.land (rand i) 255)) (seq 0 16) in
  let hex i j := concat (map print_02x (take (j - i)%nat (drop i buf))) in
  let text := hex 0%nat 4%nat ++ str "-" ++ hex 4%nat 6%nat ++ str "-" ++ hex 6%nat 8%nat ++ str "-" ++ hex 8%nat 10%nat
              ++ str "-" ++ hex 10%nat 16%nat in
  (snprintf 37 text).1.
