(* ===== verification/FtProto.v ===== *)
(** * The file-transfer frame: common/ft/ft_proto.c

    Frame: FT_MAGIC(4), file_id(36), file_size(8, big endian), data. Both
    senders and both receivers are modelled over any network of [FtSocket];
    the streaming pair also over the disk of [Disk]. *)

From S2P Require Import Prelude CString Codec FtSocket.
From stdpp Require Import gmap.
Local Open Scope Z_scope.

Definition FT_MAGIC : bytes := str "SYNC".
Definition FT_MAGIC_LEN : nat := 4.
Definition FT_UUID_LEN : nat := 36.
Definition FT_MAX_FILE_SIZE : Z := 500 * 1024 * 1024.

(** [FtFileInfo]: the arrays exactly as long as declared; [data] is [None]
    for a null pointer. *)
Record FtFileInfo := MkFile {
  file_id : bytes;
  file_name : bytes;
  mime_type : bytes;
  file_size : Z;
  checksum : bytes;
  data : option bytes;
  data_len : Z }.

Definition set_file_id v '(MkFile _ n m s c d l) := MkFile v n m s c d l.
Definition set_file_size v '(MkFile i n m _ c d l) := MkFile i n m v c d l.
Definition set_data v l '(MkFile i n m s c _ _) := MkFile i n m s c v l.

(** The loop [for (i = n - 1; i >= 0; i--) { sb[i] = fs & 0xFF; fs >>= 8; }],
    and its inverse. *)
Fixpoint put_be (n : nat) (fs : Z) (acc : bytes) : bytes :=
  match n with
  | O => acc
  | S n' => put_be n' (Z.shiftr fs 8) (zb (Z.land fs 255) :: acc)
  end.

Definition get_be (sb : bytes) : Z :=
  fold_left (fun fs b => Z.lor (u64 (Z.shiftl fs 8)) (bz b)) sb 0.

(** ** The disk

    [files] maps the path of a regular file to its bytes; [creatable] tells
    where [fopen] for writing succeeds and [space] how many more bytes can be
    written. *)
#[global] Instance byte_countable : Countable byte :=
  inj_countable Byte.to_N Byte.of_N Byte.of_to_N.

Record Disk := MkDisk { files : gmap (list byte) bytes; creatable : bytes -> bool; space : nat }.

Definition fopen_wb (path : bytes) (d : Disk) : option Disk :=
  if creatable d path then Some (MkDisk (<[path := []]> (files d)) (creatable d) (space d)) else None.

(** [fwrite(buf, 1, n, f)]: how much it wrote. *)
Definition fwrite (path : bytes) (buf : bytes) (d : Disk) : nat * Disk :=
  let k := Nat.min (length buf) (space d) in
  (k, MkDisk (<[path := default [] (files d !! path) ++ take k buf]> (files d)) (creatable d)
        (space d - k)).

Definition remove (path : bytes) (d : Disk) : Disk :=
  MkDisk (delete path (files d)) (creatable d) (space d).

Section Proto.
Context `{SockOps W}.
Context (malloc_ok : Z -> bool).
(** [g_ft_max_size], set by [ft_set_max_file_size]. *)
Context (g_ft_max_size : Z).

Definition send_header (sock : Z) (fid : bytes) (size : Z) (w : W) : option unit * W :=
  match ft_send_all sock FT_MAGIC w with
  | (None, w) => (None, w)
  | (Some _, w) =>
      match ft_send_all sock (take FT_UUID_LEN fid) w with
      | (None, w) => (None, w)
      | (Some _, w) => ft_send_all sock (put_be 8 size []) w
      end
  end.

(** [ft_send_file(sock, info)] *)
Definition ft_send_file (sock : Z) (info : FtFileInfo) (w : W) : option unit * W :=
  match send_header sock (file_id info) (file_size info) w with
  | (None, w) => (None, w)
  | (Some _, w) =>
      ft_send_all sock (take (Z.to_nat (data_len info)) (default [] (data info))) w
  end.

(** The header both receivers read: magic, file id, size, and the checks on
    them. The file id is already stored when the size is refused. *)
Definition recv_header (sock : Z) (info : FtFileInfo) (w : W) : option Z * FtFileInfo * W :=
  match ft_recv_all sock FT_MAGIC_LEN w with
  | (None, w) => (None, info, w)
  | (Some magic, w) =>
      if negb (bool_decide (magic = FT_MAGIC)) then (None, info, w) else
      match ft_recv_all sock FT_UUID_LEN w with
      | (None, w) => (None, info, w)
      | (Some fid, w) =>
          let info := set_file_id (strncpy (file_id info) (fid ++ [NUL]) 63) info in
          match ft_recv_all sock 8 w with
          | (None, w) => (None, info, w)
          | (Some sb, w) =>
              let fs := get_be sb in
              if (fs =? 0) || (g_ft_max_size <? fs) then (None, info, w)
              else (Some fs, info, w)
          end
      end
  end.

(** [ft_recv_file(sock, info)]: return value and [*info] afterwards. *)
Definition ft_recv_file (sock : Z) (info : FtFileInfo) (w : W) : option unit * FtFileInfo * W :=
  match recv_header sock info w with
  | (None, info, w) => (None, info, w)
  | (Some fs, info, w) =>
      let info := set_file_size fs info in
      if negb (malloc_ok fs) then (None, set_data None fs info, w) else
      match ft_recv_all sock (Z.to_nat fs) w with
      | (None, w) => (None, set_data None fs info, w)
      | (Some d, w) => (Some tt, set_data (Some d) fs info, w)
      end
  end.

(** The two streaming loops; one step per chunk, see [chunk_fuel_enough]. *)
Definition chunk_fuel (remaining : Z) : nat := S (Z.to_nat (remaining / FT_CHUNK_SIZE + 1)).

Definition to_transfer (remaining : Z) : Z :=
  if FT_CHUNK_SIZE <? remaining then FT_CHUNK_SIZE else remaining.

Fixpoint send_chunks (fuel : nat) (sock : Z) (remaining : Z) (f : bytes) (w : W)
    : option (option unit * W) :=
  match fuel with
  | O => None
  | S fuel' =>
      if 0 <? remaining then
        let to_read := to_transfer remaining in
        let '(chunk, f) := fread to_read f in
        let n := Z.of_nat (length chunk) in
        if negb (n =? to_read) then Some (None, w) else
        match ft_send_all sock chunk w with
        | (None, w) => Some (None, w)
        | (Some _, w) => send_chunks fuel' sock (remaining - n) f w
        end
      else Some (Some tt, w)
  end.

(** [ft_send_file_from_path(sock, file_id, file_size, path)]; [file] is
    [None] when [fopen] fails. *)
Definition ft_send_file_from_path (sock : Z) (fid : bytes) (size : Z) (file : option bytes) (w : W)
    : option unit * W :=
  match file with
  | None => (None, w)
  | Some f =>
      match send_header sock fid size w with
      | (None, w) => (None, w)
      | (Some _, w) =>
          if negb (malloc_ok FT_CHUNK_SIZE) then (None, w)
          else default (None, w) (send_chunks (chunk_fuel size) sock size f w)
      end
  end.

Fixpoint recv_chunks (fuel : nat) (sock : Z) (remaining : Z) (path : bytes) (w : W) (d : Disk)
    : option (option unit * W * Disk) :=
  match fuel with
  | O => None
  | S fuel' =>
      if 0 <? remaining then
        let to_read := to_transfer remaining in
        match ft_recv_all sock (Z.to_nat to_read) w with
        | (None, w) => Some (None, w, d)
        | (Some chunk, w) =>
            let '(n, d) := fwrite path chunk d in
            if negb (Z.of_nat n =? to_read) then Some (None, w, d)
            else recv_chunks fuel' sock (remaining - to_read) path w d
        end
      else Some (Some tt, w, d)
  end.

(** [ft_recv_file_to_path(sock, info, output_path)] *)
Definition ft_recv_file_to_path (sock : Z) (info : FtFileInfo) (output_path : bytes)
    (w : W) (d : Disk) : option unit * FtFileInfo * W * Disk :=
  match recv_header sock info w with
  | (None, info, w) => (None, info, w, d)
  | (Some fs, info, w) =>
      let info := set_data None 0 (set_file_size fs info) in
      match fopen_wb output_path d with
      | None => (None, info, w, d)
      | Some d =>
          if negb (malloc_ok FT_CHUNK_SIZE) then (None, info, w, d)
          else match recv_chunks (chunk_fuel fs) sock fs output_path w d with
               | Some (Some _, w, d) => (Some tt, info, w, d)
               | Some (None, w, d) => (None, info, w, remove output_path d)
               | None => (None, info, w, d)
               end
      end
  end.
End Proto.

(** ** Big-endian sizes *)

Lemma lor_shiftl_byte x b : 0 <= b < 256 -> Z.lor (Z.shiftl x 8) b = x * 256 + b.
Proof.
  intros Hb. rewrite Z.shiftl_mul_pow2 by lia. change (2 ^ 8) with 256.
  assert (Hl : Z.land (x * 256) b = 0); [|pose proof (Z.add_lor_land (x * 256) b); lia].
  apply Z.bits_inj'. intros n Hn. rewrite Z.land_spec, Z.bits_0.
  change 256 with (2 ^ 8). destruct (Z.lt_ge_cases n 8).
  - by rewrite Z.mul_pow2_bits_low.
  - rewrite <- (Z.mod_small b (2 ^ 8)) by (change (2 ^ 8) with 256; lia).
    by rewrite Z.mod_pow2_bits_high, andb_false_r by lia.
Qed.

Lemma get_be_step a b : 0 <= a < 2 ^ 56 -> Z.lor (u64 (Z.shiftl a 8)) (bz b) = a * 256 + bz b.
Proof.
  intros Ha. rewrite u64_id; [apply lor_shiftl_byte, bz_range|].
  rewrite Z.shiftl_mul_pow2 by lia. lia.
Qed.

Lemma get_put_be n fs acc a :
  0 <= fs < 256 ^ Z.of_nat n -> 0 <= a -> a * 256 ^ Z.of_nat n + fs < 2 ^ 64 ->
  fold_left (fun fs b => Z.lor (u64 (Z.shiftl fs 8)) (bz b)) (put_be n fs acc) a
  = fold_left (fun fs b => Z.lor (u64 (Z.shiftl fs 8)) (bz b)) acc (a * 256 ^ Z.of_nat n + fs).
Proof.
  revert fs acc. induction n as [|n IH]; intros fs acc Hfs Ha Hlt.
  - cbn [put_be]. f_equal. change (256 ^ Z.of_nat 0) with 1 in *. lia.
  - rewrite Nat2Z.inj_succ, Z.pow_succ_r in * by lia.
    pose proof (Z.pow_pos_nonneg 256 (Z.of_nat n) ltac:(lia) ltac:(lia)) as Hp.
    cbn [put_be]. rewrite Z.shiftr_div_pow2 by lia. change (2 ^ 8) with 256.
    assert (Hd : 0 <= fs / 256 < 256 ^ Z.of_nat n) by (split; [apply Z.div_pos|apply Z.div_lt_upper_bound]; lia).
    pose proof (Z.div_mod fs 256 ltac:(lia)) as Hdm.
    pose proof (Z.mod_pos_bound fs 256 ltac:(lia)) as Hm.
    rewrite IH by nia. cbn [fold_left]. f_equal.
    change 255 with (Z.ones 8). rewrite Z.land_ones by lia. change (2 ^ 8) with 256.
    rewrite get_be_step by nia. rewrite bz_zb_small by lia. nia.
Qed.

(** The eight bytes of a size read back as the size. *)
Lemma get_be_put_be fs : 0 <= fs < 2 ^ 64 -> get_be (put_be 8 fs []) = fs.
Proof.
  intros H. unfold get_be. rewrite get_put_be; [reflexivity|..];
    change (256 ^ Z.of_nat 8) with (2 ^ 64); lia.
Qed.

Lemma length_put_be n fs acc : length (put_be n fs acc) = (n + length acc)%nat.
Proof.
  revert fs acc. induction n as [|n IH]; intros fs acc; [done|]. cbn [put_be].
  rewrite IH. simpl. lia.
Qed.

Lemma get_be_bound sb a :
  0 <= a -> (a + 1) * 256 ^ Z.of_nat (length sb) <= 2 ^ 64 ->
  0 <= fold_left (fun fs b => Z.lor (u64 (Z.shiftl fs 8)) (bz b)) sb a
    < (a + 1) * 256 ^ Z.of_nat (length sb).
Proof.
  revert a. induction sb as [|b sb IH]; intros a Ha Hle; cbn [fold_left length] in *.
  - change (256 ^ Z.of_nat 0) with 1. lia.
  - rewrite Nat2Z.inj_succ, Z.pow_succ_r in * by lia.
    pose proof (Z.pow_pos_nonneg 256 (Z.of_nat (length sb)) ltac:(lia) ltac:(lia)) as Hp.
    pose proof (bz_range b) as Hb. rewrite get_be_step by nia.
    specialize (IH (a * 256 + bz b) ltac:(lia) ltac:(nia)). nia.
Qed.

Lemma get_be_range sb : length sb = 8%nat -> 0 <= get_be sb < 2 ^ 64.
Proof.
  intros Hl. pose proof (get_be_bound sb 0) as H. rewrite Hl in H. apply H; [lia|].
  by vm_compute.
Qed.

(** ** The frame *)

Definition header (fid : bytes) (size : Z) : bytes :=
  FT_MAGIC ++ take FT_UUID_LEN fid ++ put_be 8 size [].

Definition frame (fid : bytes) (size : Z) (d : bytes) : bytes := header fid size ++ d.

Lemma length_FT_MAGIC : length FT_MAGIC = FT_MAGIC_LEN.
Proof. reflexivity. Qed.

(** The number of chunks is bounded by [chunk_fuel]. *)
Lemma to_transfer_spec r : 0 < r -> 0 < to_transfer r <= r /\ to_transfer r <= FT_CHUNK_SIZE
  /\ (to_transfer r = r \/ to_transfer r = FT_CHUNK_SIZE).
Proof. unfold to_transfer, FT_CHUNK_SIZE. intros. destruct (_ <? _) eqn:E; boolify; lia. Qed.

Lemma chunk_fuel_step r f :
  0 < r -> r / FT_CHUNK_SIZE + 1 < Z.of_nat (S f) ->
  (r - to_transfer r) / FT_CHUNK_SIZE + 1 < Z.of_nat f \/ (r = to_transfer r /\ 0 < Z.of_nat f).
Proof.
  intros Hr Hf. destruct (to_transfer_spec r Hr) as (_ & _ & [-> | ->]).
  - right. split; [done|]. assert (0 <= r / FT_CHUNK_SIZE) by (apply Z.div_pos; unfold FT_CHUNK_SIZE; lia). lia.
  - left. replace (r - FT_CHUNK_SIZE) with (r + (-1) * FT_CHUNK_SIZE) by lia.
    rewrite Z.div_add by (unfold FT_CHUNK_SIZE; lia). lia.
Qed.

Lemma put_get_be sb acc :
  (length sb <= 8)%nat -> put_be (length sb) (get_be sb) acc = sb ++ acc.
Proof.
  revert acc. induction sb as [|b sb IH] using rev_ind; intros acc Hl; [done|].
  rewrite length_app in *. simpl in Hl. replace (length sb + length [b])%nat with (S (length sb)) by (simpl; lia).
  unfold get_be. rewrite fold_left_app. cbn [fold_left put_be]. fold (get_be sb).
  assert (Hr : 0 <= get_be sb < 2 ^ 56).
  { pose proof (get_be_bound sb 0) as H. fold (get_be sb) in H.
    assert (256 ^ Z.of_nat (length sb) <= 2 ^ 56); [|lia].
    change (2 ^ 56) with (256 ^ 7). apply Z.pow_le_mono_r; lia. }
  rewrite get_be_step by done. pose proof (bz_range b) as Hb.
  change 255 with (Z.ones 8). rewrite Z.land_ones, Z.shiftr_div_pow2 by lia. change (2 ^ 8) with 256.
  replace ((get_be sb * 256 + bz b) / 256) with (get_be sb) by dlia.
  replace ((get_be sb * 256 + bz b) mod 256) with (bz b) by dlia.
  rewrite zb_bz, IH by lia. by rewrite <- app_assoc.
Qed.

Section ProtoSpecs.
Context `{SockLaws W}.
Context (malloc_ok : Z -> bool) (g_ft_max_size : Z).

Lemma send_header_ok sock fid size w w' :
  send_header sock fid size w = (Some tt, w') ->
  sent w' sock = sent w sock ++ header fid size /\ incoming w' = incoming w.
Proof.
  unfold send_header. intros Hs.
  destruct (ft_send_all sock FT_MAGIC w) as [[[]|] w1] eqn:E1; [|done].
  destruct (ft_send_all sock (take _ fid) w1) as [[[]|] w2] eqn:E2; [|done].
  apply ft_send_all_ok in E1 as [S1 I1]; [|done].
  apply ft_send_all_ok in E2 as [S2 I2]; [|rewrite length_take; unfold FT_UUID_LEN, INT_MAX; lia].
  apply ft_send_all_ok in Hs as [S3 I3]; [|by rewrite length_put_be].
  unfold header. by rewrite S3, S2, S1, I3, I2, I1, <- !app_assoc.
Qed.

Lemma send_header_healthy sock fid size w :
  healthy w -> exists w', send_header sock fid size w = (Some tt, w') /\ healthy w'.
Proof.
  intros Hw. unfold send_header.
  assert (Hall : forall buf w, healthy w -> Z.of_nat (length buf) <= INT_MAX ->
    exists w', ft_send_all sock buf w = (Some tt, w') /\ healthy w').
  { intros buf w0 Hw0 Hl. destruct (ft_send_all sock buf w0) as [r w1] eqn:E.
    destruct (ft_send_all_spec _ _ _ _ _ Hl E) as (_ & _ & _ & _ & _ & _ & Hh).
    destruct (Hh Hw0) as [-> ?]. eauto. }
  destruct (Hall FT_MAGIC w Hw) as (w1 & -> & H1); [done|].
  destruct (Hall (take FT_UUID_LEN fid) w1 H1) as (w2 & -> & H2);
    [rewrite length_take; unfold FT_UUID_LEN, INT_MAX; lia|].
  apply Hall; [done|]. by rewrite length_put_be.
Qed.

(** The header the receivers accept, on any network and any stream. *)
Lemma recv_header_spec sock info w r info' w' :
  recv_header g_ft_max_size sock info w = (r, info', w') ->
  sent w' = sent w /\ (exists c, incoming w sock = c ++ incoming w' sock)
  /\ forall fs, r = Some fs -> exists fid, length fid = FT_UUID_LEN
     /\ incoming w sock = header fid fs ++ incoming w' sock
     /\ 1 <= fs <= g_ft_max_size /\ 0 <= fs < 2 ^ 64
     /\ info' = set_file_id (strncpy (file_id info) (fid ++ [NUL]) 63) info.
Proof.
  unfold recv_header. intros Hr.
  destruct (ft_recv_all sock FT_MAGIC_LEN w) as [r1 w1] eqn:E1.
  destruct (ft_recv_all_spec sock FT_MAGIC_LEN w r1 w1 ltac:(done) E1) as (d1 & I1 & _ & S1 & _ & M1 & _).
  destruct r1 as [magic|]; [|injection Hr as <- <- <-; split_and!; [done|eauto|done]].
  destruct (M1 ltac:(done)) as [[= <-] L1]. case_bool_decide as Hm; cbn [negb] in Hr.
  2:{ injection Hr as <- <- <-. split_and!; [done|eauto|done]. }
  destruct (ft_recv_all sock FT_UUID_LEN w1) as [r2 w2] eqn:E2.
  destruct (ft_recv_all_spec sock FT_UUID_LEN w1 r2 w2 ltac:(done) E2) as (d2 & I2 & _ & S2 & _ & M2 & _).
  assert (S12 : sent w2 = sent w) by by rewrite S2.
  destruct r2 as [fid|].
  2:{ injection Hr as <- <- <-. split_and!; [done| |done]. exists (magic ++ d2).
      by rewrite I1, I2, app_assoc. }
  destruct (M2 ltac:(done)) as [[= <-] L2].
  destruct (ft_recv_all sock 8 w2) as [r3 w3] eqn:E3.
  destruct (ft_recv_all_spec sock 8 w2 r3 w3 ltac:(done) E3) as (d3 & I3 & _ & S3 & _ & M3 & _).
  assert (Ic : incoming w sock = (magic ++ fid ++ d3) ++ incoming w3 sock)
    by by rewrite I1, I2, I3, <- !app_assoc.
  destruct r3 as [sb|].
  2:{ injection Hr as <- <- <-. split_and!; [by rewrite S3|eauto|done]. }
  destruct (M3 ltac:(done)) as [[= <-] L3].
  destruct (_ || _) eqn:Ec; injection Hr as <- <- <-; (split_and!; [by rewrite S3|eauto|]); [done|].
  intros fs [= <-]. pose proof (get_be_range sb L3) as Hr. boolify.
  exists fid. split_and!; try done; [|lia..]. unfold header. rewrite Ic, <- Hm.
  rewrite (take_ge fid) by lia. rewrite <- L3, put_get_be, app_nil_r by lia. done.
Qed.

(** A healthy receiver accepts every legal header. *)
Lemma recv_header_healthy sock info w fid fs rest :
  healthy w -> incoming w sock = header fid fs ++ rest ->
  (FT_UUID_LEN <= length fid)%nat -> 1 <= fs <= g_ft_max_size -> fs < 2 ^ 64 ->
  exists w', recv_header g_ft_max_size sock info w
    = (Some fs, set_file_id (strncpy (file_id info) (take FT_UUID_LEN fid ++ [NUL]) 63) info, w')
    /\ healthy w' /\ incoming w' sock = rest /\ sent w' = sent w.
Proof.
  intros Hw Hi Hf Hfs Hlt. unfold header in Hi. rewrite <- !app_assoc in Hi. unfold recv_header.
  destruct (ft_recv_all_healthy sock FT_MAGIC _ w Hw ltac:(done) Hi) as (w1 & E1 & H1 & I1 & S1).
  change (length FT_MAGIC) with FT_MAGIC_LEN in E1. rewrite E1.
  rewrite bool_decide_true by done. cbn [negb].
  destruct (ft_recv_all_healthy sock (take FT_UUID_LEN fid) _ w1 H1 ltac:(rewrite length_take; unfold FT_UUID_LEN, INT_MAX; lia) I1)
    as (w2 & E2 & H2 & I2 & S2).
  rewrite length_take, Nat.min_l in E2 by done. rewrite E2.
  destruct (ft_recv_all_healthy sock (put_be 8 fs []) _ w2 H2 ltac:(by rewrite length_put_be) I2)
    as (w3 & E3 & H3 & I3 & S3).
  rewrite length_put_be in E3. cbn [length Nat.add] in E3. rewrite E3, get_be_put_be by lia.
  destruct (_ || _) eqn:Ec; [apply orb_true_iff in Ec as [Ec|Ec]; boolify; [|apply Z.ltb_lt in Ec]; lia|].
  exists w3. split_and!; try done. by rewrite S3, S2, S1.
Qed.

(** ** The in-memory pair *)

Lemma ft_send_file_ok sock info w w' :
  data_len info <= INT_MAX -> ft_send_file sock info w = (Some tt, w') ->
  sent w' sock = sent w sock
    ++ frame (file_id info) (file_size info) (take (Z.to_nat (data_len info)) (default [] (data info)))
  /\ incoming w' = incoming w.
Proof.
  unfold ft_send_file. intros Hl Hs.
  destruct (send_header sock _ _ w) as [[[]|] w1] eqn:E1; [|done].
  apply send_header_ok in E1 as [S1 I1].
  apply ft_send_all_ok in Hs as [S2 I2]; [|rewrite length_take; unfold INT_MAX in *; lia].
  unfold frame. by rewrite S2, S1, I2, <- app_assoc.
Qed.

(** What the receiver leaves in [*info]. *)
Definition received (info : FtFileInfo) (fid : bytes) (fs : Z) (d : option bytes) (l : Z) : FtFileInfo :=
  set_data d l (set_file_size fs (set_file_id (strncpy (file_id info) (fid ++ [NUL]) 63) info)).

Lemma ft_recv_file_some sock info w info' w' :
  g_ft_max_size <= INT_MAX ->
  ft_recv_file malloc_ok g_ft_max_size sock info w = (Some tt, info', w') ->
  exists fid fs d, length fid = FT_UUID_LEN /\ Z.of_nat (length d) = fs
    /\ 1 <= fs <= g_ft_max_size
    /\ incoming w sock = frame fid fs d ++ incoming w' sock
    /\ info' = received info fid fs (Some d) fs.
Proof.
  intros Hmax. unfold ft_recv_file. intros Hr.
  destruct (recv_header _ sock info w) as [[r info1] w1] eqn:E1.
  apply recv_header_spec in E1 as (S1 & _ & H1). destruct r as [fs|]; [|done].
  destruct (H1 fs eq_refl) as (fid & Lf & I1 & Hfs & Hr64 & ->).
  destruct (malloc_ok fs); [|done]. cbn [negb] in Hr.
  destruct (ft_recv_all sock (Z.to_nat fs) w1) as [[d|] w2] eqn:E2; [|done].
  injection Hr as <- <-. apply ft_recv_all_some in E2 as (I2 & L2 & S2); [|unfold INT_MAX in *; lia].
  exists fid, fs, d. split_and!; try done; [lia..|].
  unfold frame. by rewrite I1, I2, <- app_assoc.
Qed.

Lemma ft_recv_file_healthy sock info w fid d rest :
  (forall n, malloc_ok n = true) -> healthy w ->
  incoming w sock = frame fid (Z.of_nat (length d)) d ++ rest ->
  (FT_UUID_LEN <= length fid)%nat -> 1 <= Z.of_nat (length d) <= g_ft_max_size ->
  Z.of_nat (length d) <= INT_MAX ->
  exists w', ft_recv_file malloc_ok g_ft_max_size sock info w
    = (Some tt, received info (take FT_UUID_LEN fid) (Z.of_nat (length d)) (Some d)
                  (Z.of_nat (length d)), w')
    /\ healthy w' /\ incoming w' sock = rest /\ sent w' = sent w.
Proof.
  intros Hm Hw Hi Hf Hd Hmax. unfold frame in Hi. rewrite <- app_assoc in Hi.
  destruct (recv_header_healthy sock info w _ _ _ Hw Hi Hf Hd)
    as (w1 & E1 & H1 & I1 & S1); [unfold INT_MAX in *; lia|].
  destruct (ft_recv_all_healthy sock d rest w1 H1 Hmax I1) as (w2 & E2 & H2 & I2 & S2).
  exists w2. unfold ft_recv_file. rewrite E1, Hm, Nat2Z.id, E2. split_and!; try done.
  by rewrite S2.
Qed.

(** ** The streaming pair *)

Lemma send_chunks_spec fuel sock r f w :
  0 <= r -> r / FT_CHUNK_SIZE + 1 < Z.of_nat fuel \/ (r = 0 /\ 0 < Z.of_nat fuel) ->
  exists res w', send_chunks fuel sock r f w = Some (res, w') /\ incoming w' = incoming w
    /\ (res = Some tt -> r <= Z.of_nat (length f) /\ sent w' sock = sent w sock ++ take (Z.to_nat r) f)
    /\ (healthy w -> r <= Z.of_nat (length f) -> res = Some tt /\ healthy w').
Proof.
  revert r f w. induction fuel as [|fuel IH]; intros r f w Hr Hf.
  { assert (0 <= r / FT_CHUNK_SIZE) by (apply Z.div_pos; unfold FT_CHUNK_SIZE; lia). lia. }
  cbn [send_chunks fread]. destruct (0 <? r) eqn:E; boolify.
  2:{ exists (Some tt), w. replace r with 0 by lia. rewrite app_nil_r.
      split_and!; try done. intros _. split; [lia|done]. }
  destruct Hf as [Hf|Hf]; [|lia].
  pose proof (chunk_fuel_step r fuel E Hf) as Hstep.
  destruct (to_transfer_spec r E) as (Ht1 & Ht2 & _). set (t := to_transfer r) in *.
  unfold FT_CHUNK_SIZE in Ht2. rewrite length_take.
  destruct (negb _) eqn:En; boolify.
  - exists None, w. split_and!; try done. intros. lia.
  - destruct (ft_send_all sock (take (Z.to_nat t) f) w) as [r1 w1] eqn:E1.
    destruct (ft_send_all_spec sock (take (Z.to_nat t) f) w r1 w1
      ltac:(rewrite length_take; unfold INT_MAX; lia) E1) as (m & _ & S1 & _ & I1 & Hok & Hh).
    destruct r1 as [[]|].
    2:{ exists None, w1. split_and!; try done. intros Hw. by destruct (Hh Hw). }
    destruct (IH (r - t) (drop (Z.to_nat t) f) w1) as (res & w2 & E2 & I2 & Hs & Hh2); [lia| |].
    { destruct Hstep as [?|[? ?]]; [by left|right; lia]. }
    exists res, w2. rewrite En, E2, I2, I1. rewrite length_drop in *. split_and!; try done.
    + intros Hres. destruct (Hs Hres) as [Hl S2]. split; [lia|].
      rewrite S2, S1. destruct Hok as [Hok _]. rewrite Hok, firstn_all, <- app_assoc by done. f_equal.
      replace (Z.to_nat r) with (Z.to_nat t + Z.to_nat (r - t))%nat by lia.
      apply take_take_drop.
    + intros Hw Hl. apply Hh2; [by apply Hh|lia].
Qed.

Lemma recv_chunks_spec fuel sock r path w d old :
  0 <= r -> r / FT_CHUNK_SIZE + 1 < Z.of_nat fuel \/ (r = 0 /\ 0 < Z.of_nat fuel) ->
  files d !! path = Some old ->
  exists res w' d' got, recv_chunks fuel sock r path w d = Some (res, w', d')
    /\ files d' = <[path := old ++ got]> (files d) /\ sent w' = sent w
    /\ (res = Some tt -> Z.of_nat (length got) = r /\ incoming w sock = got ++ incoming w' sock)
    /\ (healthy w -> r <= Z.of_nat (length (incoming w sock)) -> r <= Z.of_nat (space d) ->
        res = Some tt /\ healthy w').
Proof.
  revert r w d old. induction fuel as [|fuel IH]; intros r w d old Hr Hf Hold.
  { assert (0 <= r / FT_CHUNK_SIZE) by (apply Z.div_pos; unfold FT_CHUNK_SIZE; lia). lia. }
  cbn [recv_chunks]. destruct (0 <? r) eqn:E; boolify.
  2:{ exists (Some tt), w, d, []. replace r with 0 by lia. rewrite app_nil_r, insert_id by done.
      split_and!; done. }
  destruct Hf as [Hf|Hf]; [|lia].
  pose proof (chunk_fuel_step r fuel E Hf) as Hstep.
  destruct (to_transfer_spec r E) as (Ht1 & Ht2 & _). set (t := to_transfer r) in *.
  unfold FT_CHUNK_SIZE in Ht2.
  destruct (ft_recv_all sock (Z.to_nat t) w) as [r1 w1] eqn:E1.
  destruct (ft_recv_all_spec sock (Z.to_nat t) w r1 w1 ltac:(unfold INT_MAX; lia) E1)
    as (d1 & I1 & _ & S1 & _ & M1 & Hh1).
  destruct r1 as [chunk|].
  2:{ exists None, w1, d, []. rewrite app_nil_r, insert_id by done. split_and!; try done.
      intros Hw Hl _. destruct (Hh1 Hw); [lia|done]. }
  destruct (M1 ltac:(done)) as [[= <-] L1]. cbn [fwrite]. rewrite Hold. cbn [default from_option id].
  set (k := Nat.min (length chunk) (space d)).
  destruct (negb _) eqn:En; boolify.
  - exists None, w1, (MkDisk (<[path := old ++ take k chunk]> (files d)) (creatable d) (space d - k)),
      (take k chunk). split_and!; try done. intros _ _ Hsp. lia.
  - assert (Hk : k = length chunk) by lia. rewrite take_ge by lia.
    destruct (IH (r - t) w1 (MkDisk (<[path := old ++ chunk]> (files d)) (creatable d) (space d - k))
      (old ++ chunk)) as (res & w2 & d2 & got & E2 & F2 & S2 & Hs & Hh2); [lia| | |].
    { destruct Hstep as [?|[? ?]]; [by left|right; lia]. }
    { cbn. by rewrite lookup_insert_eq. }
    exists res, w2, d2, (chunk ++ got). rewrite E2, F2, S2, S1. cbn [files space] in *.
    rewrite insert_insert_eq, <- app_assoc. split_and!; try done.
    + intros Hres. destruct (Hs Hres) as [Hl I2]. rewrite length_app.
      split; [lia|]. by rewrite I1, I2, app_assoc.
    + intros Hw Hl Hsp. apply Hh2; [apply Hh1; [done|lia]| |lia].
      rewrite I1, length_app in Hl. lia.
Qed.

(** The fuel is enough for every size. *)
Lemma chunk_fuel_enough r :
  0 <= r -> r / FT_CHUNK_SIZE + 1 < Z.of_nat (chunk_fuel r) \/ (r = 0 /\ 0 < Z.of_nat (chunk_fuel r)).
Proof.
  intros Hr. left. unfold chunk_fuel.
  assert (0 <= r / FT_CHUNK_SIZE) by (apply Z.div_pos; unfold FT_CHUNK_SIZE; lia). lia.
Qed.
End ProtoSpecs.

(** ** Properties *)

(** C7: A file sent by [ft_send_file] on any network (however [send] cuts the
    buffer, as long as it reports success) arrives at [ft_recv_file] on any
    healthy network unchanged: same id, same size, same bytes, and the stream
    is left exactly behind the frame. *)
Theorem frame_round_trip `{SockLaws Ws} `{SockLaws Wr} malloc_ok max ss sr info info0 d
    (ws ws' : Ws) (wr : Wr) rest
    (Hid : (FT_UUID_LEN <= length (file_id info))%nat)
    (Hd : data info = Some d) (Hl : data_len info = Z.of_nat (length d))
    (Hfs : file_size info = Z.of_nat (length d))
    (Hmax : 1 <= Z.of_nat (length d) <= max) (Hint : Z.of_nat (length d) <= INT_MAX)
    (Hm : forall n, malloc_ok n = true)
    (Hsend : ft_send_file ss info ws = (Some tt, ws'))
    (Hwr : healthy wr) (Hi : incoming wr sr = drop (length (sent ws ss)) (sent ws' ss) ++ rest) :
  exists wr', ft_recv_file malloc_ok max sr info0 wr
    = (Some tt, received info0 (take FT_UUID_LEN (file_id info)) (Z.of_nat (length d)) (Some d)
                  (Z.of_nat (length d)), wr')
    /\ incoming wr' sr = rest.
Proof.
  apply ft_send_file_ok in Hsend as [Hs _]; [|lia].
  rewrite Hd, Hl, Hfs, Nat2Z.id in Hs. cbn [default from_option id] in Hs.
  rewrite take_ge in Hs by lia. rewrite Hs, drop_app_length in Hi.
  destruct (ft_recv_file_healthy malloc_ok max sr info0 wr (file_id info) d rest) as (wr' & E & _ & I & _);
    eauto.
Qed.

Definition sim_net (s : Z) (stream : bytes) : Sim :=
  {| out_ := ∅; in_ := {[s := stream]}; cut := fun t => Nat.modulo (7 * t) 5; tick := 0; down := false |}.

Definition example_file : FtFileInfo :=
  MkFile (str "0f0e0d0c-0b0a-0908-0706-050403020100" ++ zeros 28) (zeros 256) (zeros 64) 5 (zeros 65)
    (Some (str "hello")) 5.

Lemma frame_round_trip_witness :
  exists wr', ft_recv_file (fun _ => true) FT_MAX_FILE_SIZE 4 example_file
      (sim_net 4 (frame (file_id example_file) 5 (str "hello") ++ str "next"))
    = (Some tt, received example_file (take FT_UUID_LEN (file_id example_file)) 5
                  (Some (str "hello")) 5, wr')
    /\ incoming wr' 4 = str "next".
Proof.
  refine (frame_round_trip (fun _ => true) FT_MAX_FILE_SIZE 3 4 example_file example_file (str "hello")
    (sim_net 3 []) (ft_send_file 3 example_file (sim_net 3 [])).2 _ (str "next") _ _ _ _ _ _ _ _ _ _).
  - apply Nat.leb_le. vm_compute. reflexivity.
  - reflexivity.
  - reflexivity.
  - reflexivity.
  - vm_compute. split; discriminate.
  - vm_compute. discriminate.
  - reflexivity.
  - vm_compute. reflexivity.
  - reflexivity.
  - vm_compute. reflexivity.
Defined.

(** C8: [ft_recv_file] accepts nothing but a frame: when it succeeds the peer
    sent the magic, an id, a size between 1 and the configured maximum and
    exactly that many bytes, no more of the stream is consumed, and the file
    handed to the caller is these bytes. A peer that claims a larger file is
    refused before anything is allocated: how the allocator treats sizes
    beyond the maximum cannot change the outcome. *)
Theorem recv_file_capped `{SockLaws W} max sock info w
    (Hmax : max <= INT_MAX) malloc_ok malloc_ok'
    (Hm : forall n, 1 <= n <= max -> malloc_ok n = malloc_ok' n) :
  (forall info' w', ft_recv_file malloc_ok max sock info w = (Some tt, info', w') ->
     exists fid fs d, length fid = FT_UUID_LEN /\ Z.of_nat (length d) = fs /\ 1 <= fs <= max
       /\ incoming w sock = frame fid fs d ++ incoming w' sock
       /\ data info' = Some d /\ data_len info' = fs /\ file_size info' = fs)
  /\ ft_recv_file malloc_ok max sock info w = ft_recv_file malloc_ok' max sock info w.
Proof.
  split.
  - intros info' w' Hr. apply ft_recv_file_some in Hr as (fid & fs & d & Lf & Ld & Hfs & Hi & ->); [|done].
    exists fid, fs, d. split_and!; try done; try lia; by destruct info.
  - unfold ft_recv_file. destruct (recv_header max sock info w) as [[r info1] w1] eqn:E1.
    apply recv_header_spec in E1 as (_ & _ & H1). destruct r as [fs|]; [|done].
    destruct (H1 fs eq_refl) as (_ & _ & _ & Hfs & _). by rewrite Hm.
Qed.

Lemma recv_file_capped_witness :
  let w := sim_net 4 (frame (file_id example_file) 5 (str "hello") ++ str "x") in
  (forall info' w', ft_recv_file (fun n => n <=? 5) 5 4 example_file w = (Some tt, info', w') ->
     exists fid fs d, length fid = FT_UUID_LEN /\ Z.of_nat (length d) = fs /\ 1 <= fs <= 5
       /\ incoming w 4 = frame fid fs d ++ incoming w' 4
       /\ data info' = Some d /\ data_len info' = fs /\ file_size info' = fs)
  /\ ft_recv_file (fun n => n <=? 5) 5 4 example_file w = ft_recv_file (fun _ => true) 5 4 example_file w.
Proof.
  apply recv_file_capped.
  - vm_compute. discriminate.
  - intros n [_ Hn]. by apply Z.leb_le.
Defined.

(** C31: The streaming pair: [ft_send_file_from_path] sends the frame of the
    first [size] bytes of the file, the same bytes [ft_send_file] would send,
    and fails on a shorter file; [ft_recv_file_to_path] on a healthy network
    with room on the disk stores exactly these bytes, whatever the file held
    before, and touches no other file. *)
Theorem stream_round_trip `{SockLaws Ws} `{SockLaws Wr} malloc_ok max ss sr fid size f info0 path disk
    (ws ws' : Ws) (wr : Wr) rest
    (Hid : (FT_UUID_LEN <= length fid)%nat) (Hsize : 1 <= size <= max) (H64 : size < 2 ^ 64)
    (Hm : forall n, malloc_ok n = true)
    (Hsend : ft_send_file_from_path malloc_ok ss fid size (Some f) ws = (Some tt, ws'))
    (Hwr : healthy wr) (Hi : incoming wr sr = drop (length (sent ws ss)) (sent ws' ss) ++ rest)
    (Hc : creatable disk path = true) (Hsp : size <= Z.of_nat (space disk)) :
  size <= Z.of_nat (length f)
  /\ sent ws' ss = sent ws ss ++ frame fid size (take (Z.to_nat size) f)
  /\ exists info' wr' disk',
     ft_recv_file_to_path malloc_ok max sr info0 path wr disk = (Some tt, info', wr', disk')
     /\ incoming wr' sr = rest /\ file_size info' = size
     /\ files disk' = <[path := take (Z.to_nat size) f]> (files disk).
Proof.
  assert (Hpos : 0 <= size) by lia. unfold ft_send_file_from_path in Hsend.
  destruct (send_header ss fid size ws) as [[[]|] ws1] eqn:E1; [|done].
  apply send_header_ok in E1 as [S1 _]. rewrite Hm in Hsend. cbn [negb] in Hsend.
  destruct (send_chunks_spec (chunk_fuel size) ss size f ws1 Hpos (chunk_fuel_enough _ Hpos))
    as (res & ws2 & E2 & _ & Hs & _).
  rewrite E2 in Hsend. injection Hsend as -> <-. destruct (Hs eq_refl) as [Hlf S2].
  assert (Hsent : sent ws2 ss = sent ws ss ++ frame fid size (take (Z.to_nat size) f)).
  { unfold frame. by rewrite S2, S1, <- app_assoc. }
  split_and!; [done..|]. rewrite Hsent, drop_app_length in Hi. unfold frame in Hi.
  rewrite <- app_assoc in Hi.
  destruct (recv_header_healthy max sr info0 wr _ _ _ Hwr Hi Hid Hsize H64) as (wr1 & E3 & H3 & I3 & _).
  unfold ft_recv_file_to_path, fopen_wb. rewrite E3, Hc, Hm. cbn [negb].
  set (d1 := MkDisk _ _ _).
  destruct (recv_chunks_spec (chunk_fuel size) sr size path wr1 d1 [] Hpos
    (chunk_fuel_enough _ Hpos)) as (res & wr2 & d2 & got & E4 & F4 & _ & Hs4 & Hh4).
  { apply lookup_insert_eq. }
  destruct Hh4 as [-> _]; [done|rewrite I3, length_app, length_take; lia|done|].
  destruct (Hs4 eq_refl) as [Lg I4]. rewrite E4. eexists _, wr2, d2. split; [done|].
  rewrite I3 in I4. apply app_inj_1 in I4 as [Hg Hrest]; [|rewrite length_take; lia].
  split_and!; [done|by destruct info0|]. rewrite F4, <- Hg. apply insert_insert_eq.
Qed.

Lemma stream_round_trip_witness :
  let f := str "hello world" in
  let disk := MkDisk {[str "old" := str "z"]} (fun _ => true) 100 in
  let ws := sim_net 3 [] in
  let ws' := (ft_send_file_from_path (fun _ => true) 3 (file_id example_file) 5 (Some f) ws).2 in
  5 <= Z.of_nat (length f)
  /\ sent ws' 3 = sent ws 3 ++ frame (file_id example_file) 5 (take (Z.to_nat 5) f)
  /\ exists info' wr' disk',
     ft_recv_file_to_path (fun _ => true) 500 4 example_file (str "p") (sim_net 4 (sent ws' 3)) disk
       = (Some tt, info', wr', disk')
     /\ incoming wr' 4 = [] /\ file_size info' = 5
     /\ files disk' = <[str "p" := take (Z.to_nat 5) f]> (files disk).
Proof.
  cbv zeta.
  refine (stream_round_trip (fun _ => true) 500 3 4 (file_id example_file) 5 (str "hello world")
    example_file (str "p") (MkDisk {[str "old" := str "z"]} (fun _ => true) 100)
    (sim_net 3 []) _ _ [] _ _ _ _ _ _ _ _ _).
  - apply Nat.leb_le. vm_compute. reflexivity.
  - split; discriminate.
  - reflexivity.
  - reflexivity.
  - vm_compute. reflexivity.
  - reflexivity.
  - vm_compute. reflexivity.
  - reflexivity.
  - vm_compute. discriminate.
Defined.

(** What [ft_recv_file_to_path] leaves on the disk. *)
Lemma recv_to_path_spec `{SockLaws W} malloc_ok max sock info path w disk
    (Hm : malloc_ok FT_CHUNK_SIZE = true) :
  let '(r, info', w', disk') := ft_recv_file_to_path malloc_ok max sock info path w disk in
  match r with
  | Some _ => exists fid d, length fid = FT_UUID_LEN /\ 1 <= Z.of_nat (length d) <= max
      /\ incoming w sock = frame fid (Z.of_nat (length d)) d ++ incoming w' sock
      /\ file_size info' = Z.of_nat (length d)
      /\ files disk' = <[path := d]> (files disk)
  | None => disk' = disk \/ files disk' = delete path (files disk)
  end.
Proof.
  unfold ft_recv_file_to_path, fopen_wb.
  destruct (recv_header max sock info w) as [[r info1] w1] eqn:E1.
  apply recv_header_spec in E1 as (_ & _ & H1). destruct r as [fs|]; [|by left].
  destruct (H1 fs eq_refl) as (fid & Lf & I1 & Hfs & H64 & ->). assert (Hpos : 0 <= fs) by lia.
  destruct (creatable disk path); [|by left]. rewrite Hm. cbn [negb].
  destruct (recv_chunks_spec (chunk_fuel fs) sock fs path w1
    (MkDisk (<[path:=[]]> (files disk)) (creatable disk) (space disk)) [] Hpos
    (chunk_fuel_enough _ Hpos)) as (res & w2 & d2 & got & E & F & _ & Hs & _).
  { apply lookup_insert_eq. }
  rewrite E. cbn [files] in F. rewrite insert_insert_eq in F. destruct res as [[]|].
  - destruct (Hs eq_refl) as [Lg I2]. exists fid, got. split_and!; try done; try lia.
    + unfold frame. by rewrite Lg, I1, I2, <- app_assoc.
    + rewrite Lg. by destruct info.
  - right. cbn. by rewrite F, delete_insert_eq.
Qed.


