(* ===== verification/Log.v ===== *)
(** * The log files: common/log.c and the log of windows/main.c

    Messages below the level are dropped; the file rolls over into one older
    file. The text of a message is what [vsnprintf] makes of its format and
    arguments, the time stamp what [strftime] or [GetLocalTime] gives. Every
    function runs under the lock of the log. *)

From S2P Require Import Prelude CString Config FtSocket FtProto.
From stdpp Require Import gmap.
Local Open Scope Z_scope.

(** ** Files *)

(** [fopen(path, "a")]. *)
Definition fopen_a (path : bytes) (d : Disk) : option Disk :=
  if creatable d path then
    Some (match files d !! path with Some _ => d | None => MkDisk (<[path := []]> (files d)) (creatable d) (space d) end)
  else None.

(** [rename(old, new)], with nothing at [new]. *)
Definition rename (old new : bytes) (d : Disk) : Disk :=
  match files d !! old with
  | Some c => if creatable d new then MkDisk (<[new := c]> (delete old (files d))) (creatable d) (space d) else d
  | None => d
  end.

(** [ftell] of a file opened to append, after a write. *)
Definition ftell (path : bytes) (d : Disk) : Z := Z.of_nat (length (default [] (files d !! path))).

(** ** common/log.c *)

Definition SC_LOG_DEBUG : Z := 0.
Definition SC_LOG_INFO : Z := 1.
Definition SC_LOG_WARN : Z := 2.
Definition SC_LOG_ERROR : Z := 3.

(** The globals, with what they act on: [g_file] is open or NULL; when it is
    open, it is the file [g_path]. *)
Record Log := MkLog {
  g_level : Z; g_file : bool; g_path : bytes; g_max_bytes : Z;
  log_disk : Disk; log_stderr : bytes
}.
Definition log_zero (d : Disk) (err : bytes) : Log := MkLog SC_LOG_INFO false (zeros 512) (10 * 1024 * 1024) d err.

Definition level_name (level : Z) : bytes :=
  if level =? SC_LOG_DEBUG then str "DEBUG"
  else if level =? SC_LOG_INFO then str "INFO "
  else if level =? SC_LOG_WARN then str "WARN "
  else if level =? SC_LOG_ERROR then str "ERROR"
  else str "?    ".

Definition sc_log_set_level (level : Z) (s : Log) : Log :=
  MkLog level (g_file s) (g_path s) (g_max_bytes s) (log_disk s) (log_stderr s).

Definition set_path (p : bytes) (s : Log) : Log := MkLog (g_level s) (g_file s) p (g_max_bytes s) (log_disk s) (log_stderr s).
Definition set_log_file (f : bool) (s : Log) : Log := MkLog (g_level s) f (g_path s) (g_max_bytes s) (log_disk s) (log_stderr s).
Definition set_max (m : Z) (s : Log) : Log := MkLog (g_level s) (g_file s) (g_path s) m (log_disk s) (log_stderr s).
Definition set_log_disk (d : Disk) (s : Log) : Log := MkLog (g_level s) (g_file s) (g_path s) (g_max_bytes s) d (log_stderr s).
Definition print_err (t : bytes) (s : Log) : Log :=
  MkLog (g_level s) (g_file s) (g_path s) (g_max_bytes s) (log_disk s) (log_stderr s ++ t).

(** [g_file = fopen(g_path, "a")]. *)
Definition open_log (s : Log) : Log :=
  match fopen_a (cstr (g_path s)) (log_disk s) with
  | Some d => set_log_file true (set_log_disk d s)
  | None => set_log_file false s
  end.

Definition sc_log_close (s : Log) : Log := set_log_file false s.

Definition sc_log_set_file (path : option bytes) (max_mb : Z) (s : Log) : Z * Log :=
  let s := sc_log_close s in
  match path with
  | Some p =>
      if bool_decide (cstr p = []) then (0, set_path (<[0%nat := NUL]> (g_path s)) s)
      else
        let s := set_path (copy_field (g_path s) p 512) s in
        let s := if 0 <? max_mb then set_max (max_mb * 1024 * 1024) s else s in
        let s := open_log s in
        (if g_file s then 0 else -1, s)
  | None => (0, set_path (<[0%nat := NUL]> (g_path s)) s)
  end.

Definition rotate_if_needed_locked (s : Log) : Log :=
  if negb (g_file s) || bool_decide (cstr (g_path s) = []) then s
  else
    let pos := ftell (cstr (g_path s)) (log_disk s) in
    if pos <? g_max_bytes s then s
    else
      let rotated := (snprintf 600 (cstr (g_path s) ++ str ".1")).1 in
      let d := FtProto.remove rotated (log_disk s) in
      let d := rename (cstr (g_path s)) rotated d in
      open_log (set_log_file false (set_log_disk d s)).

(** A message: the time stamp, the level and the text. *)
Record message := Message { stamp : bytes; level : Z; text : bytes }.

Definition line_of (m : message) : bytes :=
  stamp m ++ str " " ++ level_name (level m) ++ str " " ++ (snprintf 2048 (cstr (text m))).1 ++ [x0a].

Definition sc_log_msg (m : message) (s : Log) : Log :=
  if level m <? g_level s then s
  else if g_file s then
    rotate_if_needed_locked (set_log_disk (fwrite (cstr (g_path s)) (line_of m) (log_disk s)).2 s)
  else print_err (line_of m) s.

(** ** The log of windows/main.c *)

Definition MAX_PATH : nat := 260.

(** [g_log_path] and [g_log_path_old] as C strings; [g_logfile] is open or
    NULL; [console] is what standard output got. *)
Record WinLog := MkWinLog {
  wl_inited : bool; wl_file : bool; wl_level : Z; wl_max : Z; wl_path : bytes; wl_old : bytes; wl_to_console : bool;
  wl_disk : Disk; wl_console : bytes
}.
Definition winlog_zero (d : Disk) : WinLog := MkWinLog false false 1 (10 * 1024 * 1024) [] [] false d [].

Definition wl_open (s : WinLog) (d : Disk) : WinLog :=
  let '(ok, d) := match fopen_a (wl_path s) d with Some d => (true, d) | None => (false, d) end in
  MkWinLog (wl_inited s) ok (wl_level s) (wl_max s) (wl_path s) (wl_old s) (wl_to_console s) d (wl_console s).

(** [exe_dir] is the path of the program as [GetModuleFileNameA] gives it. *)
Definition log_init (exe : bytes) (console : bool) (s : WinLog) : WinLog :=
  let dir := match strrchr exe "\" with Some sep => take (S sep) (cstr exe) | None => str ".\" end in
  let path := (snprintf MAX_PATH (dir ++ str "sync_clipboard.log")).1 in
  let old := (snprintf MAX_PATH (dir ++ str "sync_clipboard.log.1")).1 in
  let s := wl_open (MkWinLog (wl_inited s) (wl_file s) (wl_level s) (wl_max s) path old console (wl_disk s) (wl_console s)) (wl_disk s) in
  MkWinLog true (wl_file s) (wl_level s) (wl_max s) (wl_path s) (wl_old s) (wl_to_console s) (wl_disk s) (wl_console s).

Definition log_rotate (s : WinLog) : WinLog :=
  if negb (wl_file s) then s
  else
    let d := FtProto.remove (wl_old s) (wl_disk s) in
    let d := rename (wl_path s) (wl_old s) d in
    wl_open s d.

Definition win_tag (level : Z) : bytes :=
  match (if level <? 4 then level else 3) with
  | 0 => str "DBG" | 1 => str "INF" | 2 => str "WRN" | _ => str "ERR"
  end.

Definition win_line (m : message) : bytes := stamp m ++ str " [" ++ win_tag (level m) ++ str "] " ++ cstr (text m) ++ [x0a].

Definition log_write (m : message) (s : WinLog) : WinLog :=
  if (level m <? wl_level s) || negb (wl_inited s) then s
  else
    let s :=
      if wl_file s then
        let d := (fwrite (wl_path s) (win_line m) (wl_disk s)).2 in
        let s := MkWinLog (wl_inited s) (wl_file s) (wl_level s) (wl_max s) (wl_path s) (wl_old s) (wl_to_console s) d (wl_console s) in
        if wl_max s <? ftell (wl_path s) d then log_rotate s else s
      else s in
    if wl_to_console s then
      MkWinLog (wl_inited s) (wl_file s) (wl_level s) (wl_max s) (wl_path s) (wl_old s) (wl_to_console s) (wl_disk s) (wl_console s ++ win_line m)
    else s.

(** [long] has 32 bits on Windows. *)
Definition log_apply_config (c : ClientConfig) (s : WinLog) : WinLog :=
  let lvl := if (0 <=? log_level c) && (log_level c <=? 3) then log_level c else wl_level s in
  let mx := if 0 <? max_log_size_mb c then i32 (max_log_size_mb c * 1024 * 1024) else wl_max s in
  MkWinLog (wl_inited s) (wl_file s) lvl mx (wl_path s) (wl_old s) (wl_to_console s) (wl_disk s) (wl_console s).

(** ** What a log is: an older and a current file *)

Record rolling := Rolling { older : bytes; current : bytes }.

Definition push (full : nat -> bool) (line : bytes) (r : rolling) : rolling :=
  let c := current r ++ line in
  if full (length c) then Rolling c [] else Rolling (older r) c.

Definition pushes (full : nat -> bool) (lines : list bytes) (r : rolling) : rolling := fold_left (fun r l => push full l r) lines r.

(** Nothing is reordered, and what is lost is lost from the front. *)
Lemma pushes_suffix full lines : forall r,
  exists lost, lost ++ older (pushes full lines r) ++ current (pushes full lines r) = older r ++ current r ++ concat lines.
Proof.
  induction lines as [|l lines IH]; intros r; cbn [pushes fold_left concat].
  { exists []. by rewrite app_nil_r. }
  destruct (IH (push full l r)) as [lost E]. unfold pushes in E. unfold push in E |- *. destruct (full _); cbn [older current] in *.
  - exists (older r ++ lost). rewrite <- app_assoc, E. by rewrite <- !app_assoc.
  - exists lost. rewrite E. by rewrite <- !app_assoc.
Qed.

(** What holds of every file that is not full. *)
Lemma pushes_bounded full limit width lines : forall r,
  (forall n, full n = false -> (n < limit)%nat) -> (0 < limit)%nat -> Forall (fun l => length l <= width)%nat lines ->
  (length (current r) < limit)%nat -> (length (older r) < limit + width)%nat ->
  (length (current (pushes full lines r)) < limit)%nat /\ (length (older (pushes full lines r)) < limit + width)%nat.
Proof.
  induction lines as [|l lines IH]; intros r Hfull Hpos Hw Hc Ho; [done|]. apply Forall_cons in Hw as [Hl Hw].
  cbn [pushes fold_left]. apply IH; [done|done|done| |]; unfold push; destruct (full _) eqn:E; cbn [older current length]; [done|by apply Hfull| |done].
  rewrite length_app. lia.
Qed.

(** Two files on a disk with room for [n] bytes. *)
Definition view (p q : bytes) (d : Disk) : rolling := Rolling (default [] (files d !! q)) (default [] (files d !! p)).

Record ready (p q : bytes) (n : nat) (d : Disk) : Prop := {
  r_distinct : p <> q; r_p : creatable d p = true; r_q : creatable d q = true;
  r_open : is_Some (files d !! p); r_space : (n <= space d)%nat }.

Definition untouched (p q : bytes) (d d' : Disk) : Prop := forall x, x <> p -> x <> q -> files d' !! x = files d !! x.

Lemma write_ready p q line n d :
  ready p q (length line + n) d ->
  let d' := (fwrite p line d).2 in
  view p q d' = Rolling (older (view p q d)) (current (view p q d) ++ line) /\ ready p q n d' /\ untouched p q d d'
  /\ ftell p d' = Z.of_nat (length (current (view p q d) ++ line)).
Proof.
  intros [Hd Hp Hq Ho Hs]. unfold fwrite, view, ftell. cbn [snd files].
  rewrite lookup_insert_eq, lookup_insert_ne, Nat.min_l, firstn_all by (done || lia). cbn [default from_option id older current].
  split_and!; [done| |intros x ? ?; by apply lookup_insert_ne|done].
  constructor; cbn [files creatable space]; [done|done|done|rewrite lookup_insert_eq; by eexists|lia].
Qed.

Lemma rotate_ready p q n d :
  ready p q n d ->
  exists d', fopen_a p (rename p q (FtProto.remove q d)) = Some d'
    /\ view p q d' = Rolling (current (view p q d)) [] /\ ready p q n d' /\ untouched p q d d'.
Proof.
  intros [Hd Hp Hq [c Ho] Hs]. unfold rename, fopen_a, FtProto.remove, view. cbn [files creatable space].
  rewrite lookup_delete_ne, Ho, Hq by done. cbn [files creatable space]. rewrite Hp, lookup_insert_ne, lookup_delete_eq by done.
  eexists. split; [done|]. cbn [files creatable space].
  rewrite lookup_insert_eq, (lookup_insert_ne _ p q), lookup_insert_eq by done. cbn [default from_option id older current].
  split_and!; [done| |].
  - constructor; cbn [files creatable space]; [done|done|done|rewrite lookup_insert_eq; by eexists|done].
  - intros x Hx Hy. cbn [files]. by rewrite !lookup_insert_ne, !lookup_delete_ne by done.
Qed.

(** ** The log of common/log.c *)

Definition rotated (p : bytes) : bytes := p ++ str ".1".

(** An open log with room for [n] bytes. *)
Record logging (lvl mx : Z) (p err : bytes) (n : nat) (s : Log) : Prop := {
  l_level : g_level s = lvl; l_max : g_max_bytes s = mx; l_file : g_file s = true; l_path : cstr (g_path s) = p;
  l_err : log_stderr s = err; l_short : (0 < length p < 512)%nat; l_ready : ready p (rotated p) n (log_disk s) }.

Definition full (mx : Z) (n : nat) : bool := mx <=? Z.of_nat n.

Lemma sc_log_msg_logged lvl mx p err n s m :
  logging lvl mx p err (length (line_of m) + n) s -> lvl <= level m ->
  let s' := sc_log_msg m s in
  logging lvl mx p err n s' /\ view p (rotated p) (log_disk s') = push (full mx) (line_of m) (view p (rotated p) (log_disk s))
  /\ untouched p (rotated p) (log_disk s) (log_disk s').
Proof.
  intros [Hl Hm Hf Hp He Hs Hr] Hlev. unfold sc_log_msg. rewrite Hl, Hf. destruct (Z.ltb_spec (level m) lvl); [lia|].
  destruct (write_ready _ _ _ _ _ Hr) as (Hv & Hr1 & Hu & Hft). rewrite <- Hp in Hft, Hr1, Hu, Hv.
  unfold rotate_if_needed_locked. cbn [g_file set_log_disk g_path log_disk g_max_bytes]. rewrite Hf, Hft, Hp, Hm. cbn [negb orb].
  rewrite bool_decide_eq_false_2 by (intros ->; cbn in Hs; lia).
  unfold push, full. rewrite Hp in *. destruct (Z.ltb_spec (Z.of_nat (length (current (view p (rotated p) (log_disk s)) ++ line_of m))) mx) as [Hlt|Hge].
  - destruct (Z.leb_spec mx (Z.of_nat (length (current (view p (rotated p) (log_disk s)) ++ line_of m)))); [lia|].
    split; [by constructor|]. by split.
  - destruct (Z.leb_spec mx (Z.of_nat (length (current (view p (rotated p) (log_disk s)) ++ line_of m)))); [|lia].
    assert (E : (snprintf 600 (p ++ str ".1")).1 = rotated p).
    { unfold snprintf, rotated. cbn [fst]. apply firstn_all2. rewrite length_app. cbn. lia. }
    rewrite E. destruct (rotate_ready _ _ _ _ Hr1) as (d' & Hopen & Hv2 & Hr2 & Hu2).
    unfold open_log. cbn [g_path set_log_file set_log_disk log_disk]. rewrite Hp, Hopen.
    split; [by constructor|]. cbn [log_disk set_log_file set_log_disk]. rewrite Hv2, Hv. split; [done|].
    intros x Hx Hy. by rewrite Hu2, Hu.
Qed.

Lemma sc_log_msg_dropped m s : level m < g_level s -> sc_log_msg m s = s.
Proof. intros H. unfold sc_log_msg. by destruct (Z.ltb_spec (level m) (g_level s)); [|lia]. Qed.

Definition sc_logs (ms : list message) (s : Log) : Log := fold_left (fun s m => sc_log_msg m s) ms s.

(** The lines of the messages that reach a level. *)
Definition lines_from (lvl : Z) (ms : list message) : list bytes := map line_of (List.filter (fun m => lvl <=? level m) ms).

Lemma lines_from_cons lvl m ms :
  lines_from lvl (m :: ms) = if lvl <=? level m then line_of m :: lines_from lvl ms else lines_from lvl ms.
Proof. unfold lines_from. cbn [List.filter]. by destruct (lvl <=? level m). Qed.

Lemma sc_logs_logged lvl mx p err ms : forall n s,
  logging lvl mx p err (length (concat (lines_from lvl ms)) + n) s ->
  let s' := sc_logs ms s in
  logging lvl mx p err n s'
  /\ view p (rotated p) (log_disk s') = pushes (full mx) (lines_from lvl ms) (view p (rotated p) (log_disk s))
  /\ untouched p (rotated p) (log_disk s) (log_disk s').
Proof.
  induction ms as [|m ms IH]; intros n s Hs; [by split_and!|]. rewrite lines_from_cons in Hs |- *. cbn [sc_logs fold_left].
  destruct (lvl <=? level m) eqn:Hle; cbn [map concat] in Hs |- *.
  - rewrite length_app, <- Nat.add_assoc in Hs. destruct (sc_log_msg_logged _ _ _ _ _ _ _ Hs ltac:(lia)) as (H1 & Hv & Hu).
    destruct (IH n _ H1) as (H2 & Hv2 & Hu2). split; [done|]. unfold sc_logs in Hv2. rewrite Hv2. cbn [pushes fold_left]. rewrite Hv.
    split; [done|]. intros x Hx Hy. unfold sc_logs in Hu2. by rewrite Hu2, Hu.
  - rewrite sc_log_msg_dropped by (rewrite (l_level _ _ _ _ _ _ Hs); lia). by apply IH.
Qed.

Lemma line_width m : (length (stamp m) <= 31)%nat -> (length (line_of m) <= 2086)%nat.
Proof.
  intros Hm. unfold line_of, snprintf. cbn [fst]. rewrite !length_app, length_take. change (length (str " ")) with 1%nat.
  assert (length (level_name (level m)) = 5)%nat as -> by (unfold level_name; by repeat case_match). cbn [length]. lia.
Qed.

Definition chosen_max (max_mb old : Z) : Z := if 0 <? max_mb then max_mb * 1024 * 1024 else old.

Lemma sc_log_set_file_opened path max_mb s s1 n :
  sc_log_set_file (Some path) max_mb s = (0, s1) -> cstr path <> [] -> length (g_path s) = 512%nat ->
  let p := take 511 (cstr path) in
  creatable (log_disk s) (rotated p) = true -> (n <= space (log_disk s))%nat ->
  logging (g_level s) (chosen_max max_mb (g_max_bytes s)) p (log_stderr s) n s1
  /\ view p (rotated p) (log_disk s1) = view p (rotated p) (log_disk s) /\ untouched p (rotated p) (log_disk s) (log_disk s1).
Proof.
  intros H Hne Hlen p Hq Hn. unfold sc_log_set_file, sc_log_close in H. rewrite bool_decide_eq_false_2 in H by done.
  set (pth := copy_field (g_path (set_log_file false s)) path 512) in *.
  assert (Hp : cstr pth = p).
  { apply (copy_field_spec (g_path s) path 512); [done|lia]. }
  unfold open_log in H.
  assert (Hdisk : forall m, log_disk (if 0 <? max_mb then set_max m (set_path pth (set_log_file false s)) else set_path pth (set_log_file false s)) = log_disk s)
    by (intros; by destruct (0 <? max_mb)).
  assert (Hpath : forall m, g_path (if 0 <? max_mb then set_max m (set_path pth (set_log_file false s)) else set_path pth (set_log_file false s)) = pth)
    by (intros; by destruct (0 <? max_mb)).
  rewrite Hdisk, Hpath, Hp in H. unfold fopen_a in H.
  destruct (creatable (log_disk s) p) eqn:Hcr; cbn [g_file set_log_file set_log_disk] in H; [|by destruct (0 <? max_mb)].
  injection H as <-. cbn [log_disk set_log_file set_log_disk].
  assert (Hpos : (0 < length p < 512)%nat).
  { unfold p. rewrite length_take. destruct (cstr path); [done|]. cbn [length]. lia. }
  assert (Hpq : p <> rotated p).
  { intros E. apply (f_equal length) in E. unfold rotated in E. rewrite length_app in E. cbn in E. lia. }
  split.
  - constructor; cbn [g_level g_max_bytes g_file g_path log_stderr log_disk set_log_file set_log_disk]; try done.
    all: unfold chosen_max; try by destruct (0 <? max_mb).
    constructor; [done|by destruct (files (log_disk s) !! p)|by destruct (files (log_disk s) !! p)| |by destruct (files (log_disk s) !! p)].
    destruct (files (log_disk s) !! p) eqn:E; [by rewrite E; eexists|]. cbn [files]. rewrite lookup_insert_eq. by eexists.
  - unfold view. destruct (files (log_disk s) !! p) eqn:E; [by rewrite E|]. cbn [files].
    rewrite lookup_insert_eq, lookup_insert_ne by done. split; [done|]. intros x Hx Hy. cbn [files]. by rewrite lookup_insert_ne.
Qed.

(** ** The log of windows/main.c *)

Record win_logging (lvl mx : Z) (p q : bytes) (n : nat) (s : WinLog) : Prop := {
  w_inited : wl_inited s = true; w_file : wl_file s = true; w_level : wl_level s = lvl; w_max : wl_max s = mx;
  w_path : wl_path s = p; w_old : wl_old s = q; w_ready : ready p q n (wl_disk s) }.

Definition win_full (mx : Z) (n : nat) : bool := mx <? Z.of_nat n.

Lemma log_write_logged lvl mx p q n s m :
  win_logging lvl mx p q (length (win_line m) + n) s -> lvl <= level m ->
  let s' := log_write m s in
  win_logging lvl mx p q n s' /\ view p q (wl_disk s') = push (win_full mx) (win_line m) (view p q (wl_disk s))
  /\ untouched p q (wl_disk s) (wl_disk s')
  /\ wl_to_console s' = wl_to_console s /\ wl_console s' = wl_console s ++ (if wl_to_console s then win_line m else []).
Proof.
  intros [Hi Hf Hl Hm Hp Hq Hr] Hlev. unfold log_write. rewrite Hl, Hi, Hf. destruct (Z.ltb_spec (level m) lvl); [lia|]. cbn [negb orb].
  destruct (write_ready _ _ _ _ _ Hr) as (Hv & Hr1 & Hu & Hft). rewrite <- Hp in Hft, Hr1, Hu, Hv.
  cbn zeta. cbn [wl_max wl_path]. rewrite Hft, Hm. unfold push, win_full. rewrite Hp in *.
  destruct (mx <? Z.of_nat (length (current (view p q (wl_disk s)) ++ win_line m))).
  - destruct (rotate_ready _ _ _ _ Hr1) as (d' & Hopen & Hv2 & Hr2 & Hu2). unfold log_rotate, wl_open.
    cbn [wl_file wl_old wl_path wl_disk wl_to_console wl_inited wl_level wl_max wl_console negb]. rewrite Hq, Hopen.
    assert (Hun : untouched p q (wl_disk s) d') by (intros x Hx Hy; by rewrite Hu2, Hu).
    rewrite Hv in Hv2. cbn [current] in Hv2.
    destruct (wl_to_console s); cbn [wl_file wl_old wl_path wl_disk wl_to_console wl_inited wl_level wl_max wl_console]; rewrite ?app_nil_r;
      (split; [by constructor|by split_and!]).
  - destruct (wl_to_console s) eqn:Ec; cbn [wl_file wl_old wl_path wl_disk wl_to_console wl_inited wl_level wl_max wl_console]; rewrite ?app_nil_r;
      (split; [by constructor|by split_and!]).
Qed.

Definition win_logs (ms : list message) (s : WinLog) : WinLog := fold_left (fun s m => log_write m s) ms s.
Definition win_lines_from (lvl : Z) (ms : list message) : list bytes := map win_line (List.filter (fun m => lvl <=? level m) ms).

Lemma win_lines_from_cons lvl m ms :
  win_lines_from lvl (m :: ms) = if lvl <=? level m then win_line m :: win_lines_from lvl ms else win_lines_from lvl ms.
Proof. unfold win_lines_from. cbn [List.filter]. by destruct (lvl <=? level m). Qed.

Lemma win_logs_logged lvl mx p q ms : forall n s,
  win_logging lvl mx p q (length (concat (win_lines_from lvl ms)) + n) s ->
  let s' := win_logs ms s in
  win_logging lvl mx p q n s' /\ view p q (wl_disk s') = pushes (win_full mx) (win_lines_from lvl ms) (view p q (wl_disk s))
  /\ untouched p q (wl_disk s) (wl_disk s')
  /\ wl_console s' = wl_console s ++ (if wl_to_console s then concat (win_lines_from lvl ms) else []).
Proof.
  induction ms as [|m ms IH]; intros n s Hs.
  { split; [done|]. cbn. destruct (wl_to_console s); by rewrite app_nil_r. }
  rewrite win_lines_from_cons in Hs |- *. cbn [win_logs fold_left].
  destruct (lvl <=? level m) eqn:Hle; cbn [map concat] in Hs |- *.
  - rewrite length_app, <- Nat.add_assoc in Hs. destruct (log_write_logged _ _ _ _ _ _ _ Hs ltac:(lia)) as (H1 & Hv & Hu & Hc & Hco).
    destruct (IH n _ H1) as (H2 & Hv2 & Hu2 & Hco2). unfold win_logs in *. split; [done|]. rewrite Hv2. cbn [pushes fold_left]. rewrite Hv.
    split; [done|]. split; [intros x Hx Hy; by rewrite Hu2, Hu|].
    rewrite Hco2, Hco, Hc, <- app_assoc. by destruct (wl_to_console s).
  - assert (E : log_write m s = s).
    { unfold log_write. rewrite (w_level _ _ _ _ _ _ Hs). destruct (Z.ltb_spec (level m) lvl); [done|lia]. }
    rewrite E. by apply IH.
Qed.

(** ** When there is no file *)

Lemma sc_logs_to_stderr ms : forall s, g_file s = false ->
  sc_logs ms s = print_err (concat (lines_from (g_level s) ms)) s.
Proof.
  induction ms as [|m ms IH]; intros s Hs.
  { destruct s. unfold print_err. cbn. by rewrite app_nil_r. }
  rewrite lines_from_cons. cbn [sc_logs fold_left]. unfold sc_log_msg at 2. rewrite Hs.
  destruct (Z.ltb_spec (level m) (g_level s)) as [Hlt|Hge]; destruct (Z.leb_spec (g_level s) (level m)); try lia; [by apply IH|].
  change (sc_logs ms (print_err (line_of m) s) = print_err (concat (line_of m :: lines_from (g_level s) ms)) s).
  rewrite IH by done. unfold print_err. cbn. by rewrite <- app_assoc.
Qed.

(** Both files the same, as happens when the path of the program fills
    [MAX_PATH]. *)
Lemma log_rotate_one_file s p :
  wl_file s = true -> wl_path s = p -> wl_old s = p -> creatable (wl_disk s) p = true -> files (wl_disk (log_rotate s)) !! p = Some [].
Proof.
  intros Hf Hp Hq Hc. unfold log_rotate, wl_open, rename, fopen_a, FtProto.remove. rewrite Hf, Hp, Hq. cbn [negb files creatable].
  rewrite lookup_delete_eq. cbn [files creatable space]. rewrite Hc, lookup_delete_eq. cbn [wl_disk files]. apply lookup_insert_eq.
Qed.

Lemma log_init_logging exe dir n d console :
  dir = (match strrchr exe "\" with Some sep => take (S sep) (cstr exe) | None => str ".\" end) ->
  let p := dir ++ str "sync_clipboard.log" in let q := p ++ str ".1" in
  (length dir < 240)%nat -> creatable d p = true -> creatable d q = true -> (n <= space d)%nat ->
  win_logging 1 (10 * 1024 * 1024) p q n (log_init exe console (winlog_zero d))
  /\ view p q (wl_disk (log_init exe console (winlog_zero d))) = view p q d.
Proof.
  intros Hdir p q Hlen Hp Hq Hn. unfold log_init. rewrite <- Hdir.
  assert (E1 : (snprintf MAX_PATH (dir ++ str "sync_clipboard.log")).1 = p).
  { unfold snprintf, p, MAX_PATH. cbn [fst]. apply firstn_all2. rewrite length_app. change (length (str "sync_clipboard.log")) with 18%nat. lia. }
  assert (E2 : (snprintf MAX_PATH (dir ++ str "sync_clipboard.log.1")).1 = q).
  { unfold snprintf, q, p, MAX_PATH. cbn [fst]. rewrite <- app_assoc. apply firstn_all2. rewrite !length_app.
    change (length (str "sync_clipboard.log")) with 18%nat. change (length (str ".1")) with 2%nat. lia. }
  rewrite E1, E2. unfold wl_open, fopen_a. cbn [wl_path wl_disk winlog_zero wl_file wl_level wl_max wl_old wl_to_console wl_inited wl_console]. rewrite Hp.
  assert (Hpq : p <> q).
  { unfold q. intros E. apply (f_equal length) in E. rewrite length_app in E. change (length (str ".1")) with 2%nat in E. lia. }
  split.
  - constructor; cbn [wl_path wl_disk wl_file wl_level wl_max wl_old wl_inited]; try done.
    destruct (files d !! p) as [c|] eqn:E; (constructor; cbn [files creatable space]; [done|done|done| |done]).
    + rewrite E. by eexists.
    + rewrite lookup_insert_eq. by eexists.
  - cbn [wl_disk]. destruct (files d !! p) as [c|] eqn:E; [done|]. unfold view. cbn [files].
    by rewrite lookup_insert_eq, lookup_insert_ne, E by done.
Qed.

(** ** Property *)


(** A log of at most 40 bytes, and four messages, one of them for debugging. *)
Definition sample_log : Log := MkLog SC_LOG_INFO false (zeros 512) 40 (MkDisk ∅ (fun _ => true) 1000) [].
Definition sample_messages : list message :=
  [Message (str "12:00:00") SC_LOG_INFO (str "connected"); Message (str "12:00:01") SC_LOG_DEBUG (str "ping");
   Message (str "12:00:02") SC_LOG_WARN (str "retry"); Message (str "12:00:03") SC_LOG_ERROR (str "failed")].

