(* ===== verification/FtAuth.v ===== *)
(** * Peer authentication: common/ft/ft_auth.c

    HMAC-SHA256 of the file id under the shared key is OpenSSL's (class
    [Hmac]); the parsing of the key, the AUTH / AKOK / FAIL exchange and its
    early returns are the code's. *)

From S2P Require Import Prelude CString Codec FtSocket FtProto.
Local Open Scope Z_scope.

Class Hmac := {
  (** [HMAC(EVP_sha256(), key, len, msg, ...)]: [None] when it fails. *)
  hmac : bytes -> bytes -> option bytes;
  hmac_length : forall k m h, hmac k m = Some h -> length h = 32%nat }.

Section Auth.
Context `{SockOps W, Hmac}.

(** [ft_compute_hmac(file_id, key_hex, out)] *)
Definition ft_compute_hmac (file_id key_hex : bytes) : option bytes :=
  let klen := Nat.min (strlen key_hex / 2) 32 in
  match mapM (fun i => zb <$> sscanf_2x (drop (2 * i) (cstr key_hex))) (seq 0 klen) with
  | None => None
  | Some key => if (klen <? 32)%nat then None else hmac key (cstr file_id)
  end.

(** [ft_auth_send(sock, file_id, key_hex)] *)
Definition ft_auth_send (sock : Z) (file_id key_hex : bytes) (w : W) : option unit * W :=
  match ft_compute_hmac file_id key_hex with
  | None => (None, w)
  | Some h =>
      match ft_send_all sock (str "AUTH" ++ h) w with
      | (None, w) => (None, w)
      | (Some _, w) =>
          match ft_recv_all sock 4 w with
          | (None, w) => (None, w)
          | (Some resp, w) => if bool_decide (resp = str "AKOK") then (Some tt, w) else (None, w)
          end
      end
  end.

(** The refusals of [ft_auth_recv]: the result of sending FAIL is ignored. *)
Definition auth_fail (sock : Z) (w : W) : option unit * W :=
  (None, (ft_send_all sock (str "FAIL") w).2).

(** [ft_auth_recv(sock, file_id, key_hex)] *)
Definition ft_auth_recv (sock : Z) (file_id key_hex : bytes) (w : W) : option unit * W :=
  match ft_recv_all sock 36 w with
  | (None, w) => (None, w)
  | (Some buf, w) =>
      if negb (bool_decide (take 4 buf = str "AUTH")) then auth_fail sock w else
      match ft_compute_hmac file_id key_hex with
      | None => auth_fail sock w
      | Some expected =>
          if negb (bool_decide (drop 4 buf = expected)) then auth_fail sock w
          else ft_send_all sock (str "AKOK") w
      end
  end.
End Auth.

(** A well-formed key is used whole. *)
Lemma ft_compute_hmac_key `{Hmac} fid key_hex :
  Forall (fun c => isxdigit c = true) key_hex -> length key_hex = 64%nat ->
  ft_compute_hmac fid key_hex = hmac (hex_decode key_hex) (cstr fid).
Proof.
  intros Hx Hl. unfold ft_compute_hmac, strlen. rewrite cstr_no_nul by by apply xdigits_no_nul.
  rewrite Hl. change (Nat.min (64 / 2) 32) with 32%nat. by rewrite scan_pairs.
Qed.

Lemma ft_compute_hmac_length `{Hmac} fid key_hex h :
  ft_compute_hmac fid key_hex = Some h -> length h = 32%nat.
Proof.
  unfold ft_compute_hmac. destruct (mapM _ _); [|done]. destruct (_ <? _)%nat; [done|].
  apply hmac_length.
Qed.

Section AuthSpecs.
Context `{SockLaws W, Hmac}.

Definition reply (accept : bool) : bytes := if accept then str "AKOK" else str "FAIL".

(** What the receiver answers, and when it accepts. *)
Lemma ft_auth_recv_healthy sock fid key w m rest :
  healthy w -> length m = 36%nat -> incoming w sock = m ++ rest ->
  exists accept w', ft_auth_recv sock fid key w = (if accept : bool then Some tt else None, w')
    /\ sent w' sock = sent w sock ++ reply accept /\ incoming w' sock = rest /\ healthy w'
    /\ (accept = true <-> exists h, ft_compute_hmac fid key = Some h /\ m = str "AUTH" ++ h).
Proof.
  intros Hw Hm Hi.
  destruct (ft_recv_all_healthy sock m rest w Hw ltac:(rewrite Hm; done) Hi) as (w1 & E1 & Hw1 & I1 & S1).
  rewrite Hm in E1. unfold ft_auth_recv. rewrite E1.
  assert (Hsend : forall b, exists w', ft_send_all sock b w1 = (Some tt, w') /\ healthy w'
    /\ sent w' sock = sent w sock ++ b /\ incoming w' sock = rest \/ INT_MAX < Z.of_nat (length b)).
  { intros b. destruct (ft_send_all sock b w1) as [r w2] eqn:E.
    destruct (Z.le_gt_cases (Z.of_nat (length b)) INT_MAX) as [Hb|Hb]; [|exists w2; by right].
    destruct (ft_send_all_spec _ _ _ _ _ Hb E) as (_ & _ & _ & _ & _ & _ & Hh).
    destruct (Hh Hw1) as [-> Hw2]. apply ft_send_all_ok in E as [S2 I2]; [|done].
    exists w2. left. split_and!; try done; [by rewrite S2, S1|by rewrite I2, I1]. }
  assert (Hfail : exists w', auth_fail sock w1 = (None, w') /\ healthy w'
    /\ sent w' sock = sent w sock ++ str "FAIL" /\ incoming w' sock = rest).
  { destruct (Hsend (str "FAIL")) as (w2 & [(E & ?)|Hb]); [|done].
    exists w2. unfold auth_fail. by rewrite E. }
  destruct Hfail as (wf & Ef & Hf & Sf & If).
  case_bool_decide as Ha; cbn [negb].
  2:{ exists false, wf. rewrite Ef. split_and!; try done. split; [done|]. intros (h & _ & ->). done. }
  destruct (ft_compute_hmac fid key) as [h|] eqn:Eh.
  2:{ exists false, wf. rewrite Ef. split_and!; try done. split; [done|]. by intros (? & ? & _). }
  case_bool_decide as Hd; cbn [negb].
  - destruct (Hsend (str "AKOK")) as (w2 & [(E & ? & ? & ?)|Hb]); [|done].
    exists true, w2. rewrite E. split_and!; try done. split; [|done]. intros _. exists h. split; [done|].
    by rewrite <- Ha, <- Hd, take_drop.
  - exists false, wf. rewrite Ef. split_and!; try done. split; [done|]. intros (h' & [= <-] & ->).
    by rewrite drop_app_exact in Hd.
Qed.
End AuthSpecs.

Section Handshake.
Context `{SockLaws W, Hmac}.

(** What the sender puts on the wire does not depend on the answer; it
    succeeds exactly on the answer AKOK. *)
Lemma ft_auth_send_healthy sock fid key w h a rest :
  healthy w -> ft_compute_hmac fid key = Some h ->
  length a = 4%nat -> incoming w sock = a ++ rest ->
  exists w', ft_auth_send sock fid key w
    = (if bool_decide (a = str "AKOK") then Some tt else None, w')
    /\ sent w' sock = sent w sock ++ str "AUTH" ++ h /\ incoming w' sock = rest.
Proof.
  intros Hw Hh Ha Hi. unfold ft_auth_send. rewrite Hh.
  pose proof (ft_compute_hmac_length _ _ _ Hh) as Hl.
  assert (Hb : Z.of_nat (length (str "AUTH" ++ h)) <= INT_MAX) by by rewrite length_app, Hl.
  destruct (ft_send_all sock (str "AUTH" ++ h) w) as [r w1] eqn:E.
  destruct (ft_send_all_spec _ _ _ _ _ Hb E) as (_ & _ & _ & _ & _ & _ & Hh1).
  destruct (Hh1 Hw) as [-> Hw1]. apply ft_send_all_ok in E as [S1 I1]; [|done].
  destruct (ft_recv_all_healthy sock a rest w1 Hw1) as (w2 & E2 & Hw2 & I2 & S2);
    [by rewrite Ha|by rewrite I1|].
  rewrite Ha in E2. rewrite E2. exists w2. case_bool_decide; by rewrite S2, S1.
Qed.
End Handshake.

(** A keyed checksum that satisfies the interface, for the witnesses. *)
#[export] Instance toy_hmac : Hmac.
Proof.
  refine {| hmac k m := Some (replicate 32 (zb (fold_left (fun a b => 31 * a + bz b) (k ++ m) 7))) |}.
  intros k m h [= <-]. reflexivity.
Defined.

(** ** Properties *)

(** The handshake is mutual: when the two ends of a healthy connection run
    [ft_auth_send] and [ft_auth_recv], each seeing what the other one sent,
    both succeed if they computed the same code and both fail if they did
    not; neither is left believing in a peer that refused it. *)
Theorem auth_handshake `{SockLaws Ws} `{SockLaws Wr} `{Hmac} ss sr fid_s key_s fid_r key_r
    (ws : Ws) (wr : Wr) hs hr rest_r rest_s
    (Hws : healthy ws) (Hwr : healthy wr)
    (Hhs : ft_compute_hmac fid_s key_s = Some hs) (Hhr : ft_compute_hmac fid_r key_r = Some hr)
    (Hir : incoming wr sr
           = drop (length (sent ws ss)) (sent (ft_auth_send ss fid_s key_s ws).2 ss) ++ rest_r)
    (His : incoming ws ss
           = drop (length (sent wr sr)) (sent (ft_auth_recv sr fid_r key_r wr).2 sr) ++ rest_s) :
  if decide (hs = hr)
  then (ft_auth_send ss fid_s key_s ws).1 = Some tt /\ (ft_auth_recv sr fid_r key_r wr).1 = Some tt
  else (ft_auth_send ss fid_s key_s ws).1 = None /\ (ft_auth_recv sr fid_r key_r wr).1 = None.
Proof.
  assert (Hsent : drop (length (sent ws ss)) (sent (ft_auth_send ss fid_s key_s ws).2 ss)
                  = str "AUTH" ++ hs).
  { pose proof (ft_compute_hmac_length _ _ _ Hhs) as Hl. unfold ft_auth_send. rewrite Hhs.
    assert (Hb : Z.of_nat (length (str "AUTH" ++ hs)) <= INT_MAX) by by rewrite length_app, Hl.
    destruct (ft_send_all ss (str "AUTH" ++ hs) ws) as [r w1] eqn:E.
    destruct (ft_send_all_spec _ _ _ _ _ Hb E) as (_ & _ & _ & _ & _ & _ & Hh1).
    destruct (Hh1 Hws) as [-> _]. apply ft_send_all_ok in E as [S1 _]; [|done].
    destruct (ft_recv_all ss 4 w1) as [r2 w2] eqn:E2.
    destruct (ft_recv_all_spec ss 4 w1 r2 w2 ltac:(done) E2) as (_ & _ & _ & S2 & _).
    destruct r2; [case_bool_decide|]; cbn [snd]; by rewrite S2, S1, drop_app_length. }
  rewrite Hsent in Hir. pose proof (ft_compute_hmac_length _ _ _ Hhs) as Hl.
  destruct (ft_auth_recv_healthy sr fid_r key_r wr (str "AUTH" ++ hs) rest_r Hwr)
    as (acc & wr' & Er & Sr & _ & _ & Hacc); [by rewrite length_app, Hl|done|].
  rewrite Er in His |- *. cbn [snd fst] in *. rewrite Sr, drop_app_length in His.
  destruct (ft_auth_send_healthy ss fid_s key_s ws hs (reply acc) rest_s Hws Hhs)
    as (ws' & Es & _); [by destruct acc|done|].
  rewrite Es. cbn [fst]. rewrite Hhr in Hacc. destruct (decide (hs = hr)) as [Hd|Hd].
  - assert (acc = true) as -> by (apply Hacc; exists hr; by rewrite Hd). by cbn.
  - destruct acc; [|by cbn]. destruct Hacc as [Hacc _]. destruct (Hacc eq_refl) as (h & [= <-] & E).
    by apply app_inv_head in E.
Qed.

(** The same file, once under the same key and once under another one. *)
Lemma auth_handshake_witness :
  let k1 := replicate 64 "a"%byte in let k2 := replicate 63 "a"%byte ++ str "b" in
  let run ks kr hs hr r :=
    if decide (hs = hr)
    then (ft_auth_send 3 (str "id") ks (sim_net 3 (reply r))).1 = Some tt
         /\ (ft_auth_recv 4 (str "id") kr (sim_net 4 (str "AUTH" ++ hs))).1 = Some tt
    else (ft_auth_send 3 (str "id") ks (sim_net 3 (reply r))).1 = None
         /\ (ft_auth_recv 4 (str "id") kr (sim_net 4 (str "AUTH" ++ hs))).1 = None in
  let h k := default [] (ft_compute_hmac (str "id") k) in
  h k1 <> h k2 /\ run k1 k1 (h k1) (h k1) true /\ run k1 k2 (h k1) (h k2) false.
Proof.
  cbv zeta. cbv beta. split_and!.
  - vm_compute. discriminate.
  - apply (auth_handshake 3 4 (str "id") (replicate 64 "a"%byte) (str "id") (replicate 64 "a"%byte)
      _ _ _ _ [] []); vm_compute; reflexivity.
  - apply (auth_handshake 3 4 (str "id") (replicate 64 "a"%byte) (str "id") (replicate 63 "a"%byte ++ str "b")
      _ _ _ _ [] []); vm_compute; reflexivity.
Defined.

(** C28: On any network, [ft_auth_recv] accepts only a peer that presented
    AUTH followed by the HMAC of this file id under this key, and it consumed
    nothing else; it answers AKOK only then. Whatever else arrives (a short
    stream, another tag, another code, an unusable key) is refused and never
    answered with AKOK. *)
Theorem auth_recv_proof `{SockLaws W} `{Hmac} sock fid key (w w' : W) r
    (Hr : ft_auth_recv sock fid key w = (r, w')) :
  (r = Some tt -> exists h, ft_compute_hmac fid key = Some h
     /\ incoming w sock = str "AUTH" ++ h ++ incoming w' sock
     /\ sent w' sock = sent w sock ++ str "AKOK")
  /\ (r = None -> exists k, sent w' sock = sent w sock ++ take k (str "FAIL")
        \/ (k < 4)%nat /\ sent w' sock = sent w sock ++ take k (str "AKOK")).
Proof.
  unfold ft_auth_recv in Hr.
  destruct (ft_recv_all sock 36 w) as [rr w1] eqn:E1.
  destruct (ft_recv_all_spec sock 36 w rr w1 ltac:(done) E1) as (m & I1 & _ & S1 & _ & M1 & _).
  destruct rr as [buf|].
  2:{ injection Hr as <- <-. split; [done|]. intros _. exists 0%nat. left. by rewrite S1, app_nil_r. }
  destruct (M1 ltac:(done)) as [[= <-] L1].
  assert (Hall : forall b r2 w2, (length b = 4)%nat -> ft_send_all sock b w1 = (r2, w2) ->
    exists k, (k <= 4)%nat /\ sent w2 sock = sent w sock ++ take k b
      /\ incoming w2 = incoming w1 /\ (r2 = Some tt <-> k = 4%nat)).
  { intros b r2 w2 Hb E2.
    destruct (ft_send_all_spec sock b w1 r2 w2 ltac:(rewrite Hb; done) E2)
      as (k & Hk & S2 & _ & I2 & Hok & _). rewrite Hb in *. exists k. rewrite S2, S1. auto. }
  assert (Hfail : forall r w', auth_fail sock w1 = (r, w') ->
    r = None /\ exists k, sent w' sock = sent w sock ++ take k (str "FAIL")).
  { intros r2 w2. unfold auth_fail. destruct (ft_send_all sock (str "FAIL") w1) as [r3 w3] eqn:E3.
    intros [= <- <-]. destruct (Hall (str "FAIL") _ _ eq_refl E3) as (k & _ & S3 & _). eauto. }
  case_bool_decide as Ha; cbn [negb] in Hr; [|destruct (Hfail _ _ Hr) as [-> [k Hk]]; split; [done|eauto]].
  destruct (ft_compute_hmac fid key) as [h|]; [|destruct (Hfail _ _ Hr) as [-> [k Hk]]; split; [done|eauto]].
  case_bool_decide as Hd; cbn [negb] in Hr; [|destruct (Hfail _ _ Hr) as [-> [k Hk]]; split; [done|eauto]].
  destruct (Hall (str "AKOK") _ _ eq_refl Hr) as (k & Hk & S2 & I2 & Hok). split.
  - intros Hs. exists h. split; [done|]. destruct Hok as [Hok _]. rewrite (Hok Hs) in S2.
    rewrite I2, app_assoc, <- Hd, <- Ha, take_drop. done.
  - intros ->. exists k. right. split; [|done]. destruct (decide (k = 4%nat)) as [->|]; [|lia].
    by destruct Hok as [_ Hok]; specialize (Hok eq_refl).
Qed.

Lemma auth_recv_proof_witness :
  let w := sim_net 4 (str "AUTH" ++ zeros 40) in
  let '(r, w') := ft_auth_recv 4 (str "id") (replicate 64 "a"%byte) w in
  r = None /\
  ((r = Some tt -> exists h, ft_compute_hmac (str "id") (replicate 64 "a"%byte) = Some h
     /\ incoming w 4 = str "AUTH" ++ h ++ incoming w' 4
     /\ sent w' 4 = sent w 4 ++ str "AKOK")
  /\ (r = None -> exists k, sent w' 4 = sent w 4 ++ take k (str "FAIL")
        \/ (k < 4)%nat /\ sent w' 4 = sent w 4 ++ take k (str "AKOK"))).
Proof.
  cbv zeta. destruct (ft_auth_recv 4 _ _ _) as [r w'] eqn:E. split.
  - apply (f_equal fst) in E. vm_compute in E. symmetry. exact E.
  - exact (auth_recv_proof 4 (str "id") (replicate 64 "a"%byte) _ _ _ E).
Defined.
