(* ===== verification/FtOs.v ===== *)
(** * Descriptors and addresses: the operating system under common/ft/

    [Os] is the socket interface of the kernel beyond [send] and [recv];
    [OsLaws] observes the set of open descriptors: [socket] and [accept] add a
    fresh one, [close] removes one that is open (closing anything else has no
    specified outcome), no other call changes the set. [owns] is a small
    program logic on that set, in which every function of common/ft/ is
    proved to leak no descriptor and to close none twice. *)

From S2P Require Import Prelude CString Codec FtSocket.
From stdpp Require Import gmap.
Local Open Scope Z_scope.

(** ** Programs that change the world *)

Definition st (W A : Type) : Type := W -> A * W.
#[global] Instance st_ret W : MRet (st W) := fun A a w => (a, w).
#[global] Instance st_bind W : MBind (st W) := fun A B f m w => let '(a, w) := m w in f a w.

(** ** IPv4 addresses *)

(** [inet_pton(AF_INET, ...)], following glibc: four decimal octets, no
    leading zeros. *)
Definition octet_digit (cur : option Z) (ch : byte) : option Z :=
  match cur with
  | None => Some (bz ch - 48)
  | Some v =>
      if v =? 0 then None
      else let new := v * 10 + (bz ch - 48) in if 255 <? new then None else Some new
  end.

Fixpoint inet_pton4 (s : bytes) (acc : list Z) (cur : option Z) : option (list Z) :=
  match s with
  | [] => v ← cur; if (length acc =? 3)%nat then Some (acc ++ [v]) else None
  | ch :: s' =>
      if isdigit ch then
        v ← octet_digit cur ch; inet_pton4 s' acc (Some v)
      else if beq ch "." then
        v ← cur; if (length acc =? 3)%nat then None else inet_pton4 s' (acc ++ [v]) None
      else None
  end.

Definition inet_pton (s : bytes) : option (list Z) := inet_pton4 (cstr s) [] None.

(** [inet_ntop(AF_INET, ...)] *)
Definition inet_ntop (ip : list Z) : bytes :=
  match ip with
  | [a; b; c; d] => print_d a ++ str "." ++ print_d b ++ str "." ++ print_d c ++ str "." ++ print_d d
  | _ => []
  end.

Record sockaddr_in := MkAddr { sin_addr : list Z; sin_port : Z }.

(** [ft_parse_addr(s, sa)] *)
Definition ft_parse_addr (s : bytes) : option sockaddr_in :=
  let ip := strncpy (zeros 64) s 63 in
  match strrchr ip ":" with
  | None => None
  | Some colon =>
      let port := atoi (drop (S colon) ip) in
      a ← inet_pton (take colon ip); Some (MkAddr a (port mod 65536))
  end.

(** ** The kernel interface *)

Inductive sockopt := SO_REUSEADDR | SO_REUSEPORT | TCP_NODELAY | SO_SNDBUF | SO_RCVBUF
  | SO_SNDTIMEO | SO_RCVTIMEO.

Inductive oscall :=
| Socket (stream : bool)
| Accept (fd : Z)
| Close (fd : Z)
| Connect (fd : Z) (sa : sockaddr_in)
| Bind (fd : Z) (sa : sockaddr_in)
| Listen (fd : Z) (backlog : Z)
| Getsockport (fd : Z)
| GetSoError (fd : Z)
| Setsockopt (fd : Z) (opt : sockopt) (v : Z)
| Set_blocking (fd : Z) (b : bool)
| Sendto (fd : Z) (msg : bytes) (sa : sockaddr_in)
| Usleep (us : Z)
| Now_ms.

Definition POLLIN : Z := 1.
Definition POLLOUT : Z := 4.
Definition POLLERR : Z := 8.
Definition POLLHUP : Z := 16.

Class Os (W : Type) := {
  call : oscall -> st W Z;
  (** [poll(pfds, n, ms)]: its result and the [revents]. *)
  poll : list (Z * Z) -> Z -> st W (Z * list Z);
  (** [recvfrom(fd, buf, n, ...)]: its result and what it stores. *)
  recvfrom : Z -> Z -> st W (Z * bytes);
  (** [getaddrinfo(host)]: the address of the first result. *)
  getaddrinfo : bytes -> st W (option (list Z)) }.

Class OsLaws (W : Type) `{SockOps W, Os W} := {
  open : W -> gset Z;
  call_open : forall c w, 
    match c with
    | Socket _ | Accept _ =>
        ((call c w).1 = FT_INVALID_SOCK /\ open (call c w).2 = open w)
        \/ (0 <= (call c w).1 /\ (call c w).1 ∉ open w
            /\ open (call c w).2 = ({[(call c w).1]} ∪ open w))
    | Close fd => fd ∈ open w -> open (call c w).2 = open w ∖ {[fd]}
    | _ => open (call c w).2 = open w
    end;
  poll_open : forall p ms w, open (poll p ms w).2 = open w;
  recvfrom_open : forall fd n w, open (recvfrom fd n w).2 = open w;
  getaddrinfo_open : forall h w, open (getaddrinfo h w).2 = open w;
  send_open : forall s b n w, open (send s b n w).2 = open w;
  recv_open : forall s n w, open (recv s n w).2 = open w }.

(** ** The helpers of ft_socket.c that only make system calls *)

Section Helpers.
Context `{Os W}.

Definition ft_close (sock : Z) : st W unit :=
  if sock =? FT_INVALID_SOCK then mret tt else _ ← call (Close sock); mret tt.

Definition ft_set_nonblocking (sock : Z) : st W unit := _ ← call (Set_blocking sock false); mret tt.
Definition ft_set_blocking (sock : Z) : st W unit := _ ← call (Set_blocking sock true); mret tt.

Definition ft_optimize_socket (sock : Z) : st W unit :=
  _ ← call (Setsockopt sock TCP_NODELAY 1);
  _ ← call (Setsockopt sock SO_SNDBUF (512 * 1024));
  _ ← call (Setsockopt sock SO_RCVBUF (512 * 1024));
  _ ← call (Setsockopt sock SO_SNDTIMEO 30000);
  _ ← call (Setsockopt sock SO_RCVTIMEO 30000); mret tt.

(** [ft_set_sock_timeout(sock, ms)]; timeouts are in milliseconds. *)
Definition ft_set_sock_timeout (sock : Z) (ms : Z) : st W unit :=
  _ ← call (Setsockopt sock SO_RCVTIMEO ms);
  _ ← call (Setsockopt sock SO_SNDTIMEO ms); mret tt.

Definition ft_now_ms : st W Z := call Now_ms.
End Helpers.

(** ** Programs that leave an observation of the world unchanged *)

Section Preserves.
Context {W X : Type} `{SockOps W} (f : W -> X).

Definition preserves {A} (m : st W A) : Prop := forall w, f (m w).2 = f w.

Lemma preserves_ret {A} (a : A) : preserves (mret a).
Proof. done. Qed.

Lemma preserves_bind {A B} (m : st W A) (g : A -> st W B) :
  preserves m -> (forall a, preserves (g a)) -> preserves (m ≫= g).
Proof.
  intros Hm Hg w. specialize (Hm w). unfold mbind, st_bind. destruct (m w) as [a w1].
  rewrite <- Hm. apply Hg.
Qed.

Lemma preserves_send_all sock b :
  (forall s b n w, f (send s b n w).2 = f w) -> preserves (ft_send_all sock b).
Proof.
  intros Hsend w. unfold ft_send_all.
  destruct (send_loop_total (S (length b)) sock b 0 w ltac:(lia)) as [[r w1] Hl]. rewrite Hl. cbn.
  revert Hl. generalize (S (length b)), 0%nat. intros fuel k. revert k w.
  induction fuel as [|fuel IH]; intros k w Hl; [done|]. cbn [send_loop] in Hl.
  destruct (_ <? _)%nat; [|by injection Hl as <- <-].
  match type of Hl with context [send ?s ?b ?n w] => pose proof (Hsend s b n w) as Ho;
    destruct (send s b n w) as [n' w2] end. cbn in Ho.
  destruct (n' <=? 0); [by injection Hl as <- <-|]. rewrite <- Ho. by eapply IH.
Qed.

Lemma preserves_recv_all sock len :
  (forall s n w, f (recv s n w).2 = f w) -> preserves (ft_recv_all sock len).
Proof.
  intros Hrecv w. unfold ft_recv_all.
  destruct (recv_loop_total (S len) sock len [] w ltac:(simpl; lia)) as [[r w1] Hl]. rewrite Hl. cbn.
  revert Hl. generalize (S len), (@nil byte). intros fuel got. revert got w.
  induction fuel as [|fuel IH]; intros got w Hl; [done|]. cbn [recv_loop] in Hl.
  destruct (_ <? _)%nat; [|by injection Hl as <- <-].
  match type of Hl with context [recv ?s ?n w] => pose proof (Hrecv s n w) as Ho;
    destruct (recv s n w) as [[n' d] w2] end. cbn in Ho.
  destruct (n' <=? 0); [by injection Hl as <- <-|]. rewrite <- Ho. by eapply IH.
Qed.
End Preserves.

(** ** Ownership of descriptors *)

Section Owns.
Context `{OsLaws W}.

(** Run with the descriptors [S] open, [m] ends with a result and open
    descriptors that satisfy [Q]. *)
Definition owns {A} (S : gset Z) (m : st W A) (Q : A -> gset Z -> Prop) : Prop :=
  forall w, open w = S -> Q (m w).1 (open (m w).2).

Lemma owns_ret {A} S (a : A) (Q : A -> gset Z -> Prop) : Q a S -> owns S (mret a) Q.
Proof. by intros HQ w <-. Qed.

Lemma owns_bind {A B} S (m : st W A) (f : A -> st W B) (R : A -> gset Z -> Prop) Q :
  owns S m R -> (forall a S', R a S' -> owns S' (f a) Q) -> owns S (m ≫= f) Q.
Proof.
  intros Hm Hf w Hw. specialize (Hm w Hw). unfold mbind, st_bind.
  destruct (m w) as [a w1]. exact (Hf a _ Hm w1 eq_refl).
Qed.

Lemma owns_conseq {A} S (m : st W A) (R Q : A -> gset Z -> Prop) :
  owns S m R -> (forall a S', R a S' -> Q a S') -> owns S m Q.
Proof. intros Hm HQ w Hw. by apply HQ, Hm. Qed.

(** A program that keeps the descriptors, whatever they are. *)
Definition keeps {A} (m : st W A) : Prop := preserves open m.

Lemma owns_keeps {A B} S (m : st W A) (f : A -> st W B) Q :
  keeps m -> (forall a, owns S (f a) Q) -> owns S (m ≫= f) Q.
Proof.
  intros Hm Hf. apply owns_bind with (R := fun _ S' => S' = S).
  - intros w <-. apply Hm.
  - intros a S' ->. apply Hf.
Qed.

Lemma keeps_owns {A} (m : st W A) : (forall S, owns S m (fun _ S' => S' = S)) -> keeps m.
Proof. intros Hm w. exact (Hm (open w) w eq_refl). Qed.

Lemma keeps_ret {A} (a : A) : keeps (mret a).
Proof. done. Qed.

Lemma keeps_bind {A B} (m : st W A) (f : A -> st W B) :
  keeps m -> (forall a, keeps (f a)) -> keeps (m ≫= f).
Proof. apply preserves_bind. Qed.

Lemma keeps_call c :
  match c with Socket _ | Accept _ | Close _ => False | _ => True end -> keeps (call c).
Proof. intros Hc w. pose proof (call_open c w) as Hw. by destruct c. Qed.

Lemma owns_new {B} S c (f : Z -> st W B) Q :
  match c with Socket _ | Accept _ => True | _ => False end ->
  owns S (f FT_INVALID_SOCK) Q ->
  (forall r, 0 <= r -> r ∉ S -> owns ({[r]} ∪ S) (f r) Q) ->
  owns S (call c ≫= f) Q.
Proof.
  intros Hc Hbad Hgood w <-. pose proof (call_open c w) as Hw. unfold mbind, st_bind.
  assert (Hw' : ((call c w).1 = FT_INVALID_SOCK /\ open (call c w).2 = open w)
    \/ (0 <= (call c w).1 /\ (call c w).1 ∉ open w
        /\ open (call c w).2 = ({[(call c w).1]} ∪ open w))) by by destruct c.
  destruct (call c w) as [r w1]. cbn in Hw'. destruct Hw' as [[-> Ho]|(Hr & Hn & Ho)].
  - by apply Hbad.
  - by apply Hgood.
Qed.

Lemma owns_close {B} S fd (f : unit -> st W B) Q :
  (fd <> FT_INVALID_SOCK -> fd ∈ S) ->
  owns (if decide (fd = FT_INVALID_SOCK) then S else S ∖ {[fd]}) (f tt) Q ->
  owns S (ft_close fd ≫= f) Q.
Proof.
  intros Hin Hf. unfold ft_close. destruct (fd =? FT_INVALID_SOCK) eqn:E; boolify.
  - rewrite decide_True in Hf by done. exact Hf.
  - rewrite decide_False in Hf by done. intros w <-. pose proof (call_open (Close fd) w) as Hw.
    specialize (Hw (Hin E)). specialize (Hf _ Hw). unfold mbind, st_bind.
    by destruct (call (Close fd) w).
Qed.

Lemma keeps_send_all sock b : keeps (ft_send_all sock b).
Proof. apply (preserves_send_all open). intros. apply send_open. Qed.

Lemma keeps_recv_all sock len : keeps (ft_recv_all sock len).
Proof. apply (preserves_recv_all open). intros. apply recv_open. Qed.
End Owns.

#[export] Hint Resolve keeps_ret keeps_send_all keeps_recv_all poll_open recvfrom_open getaddrinfo_open : sc.
#[export] Hint Extern 1 (keeps (call _)) => apply keeps_call; exact I : sc.
#[export] Hint Extern 1 (keeps (poll _ _)) => intros ?; apply poll_open : sc.
#[export] Hint Extern 1 (keeps (recvfrom _ _)) => intros ?; apply recvfrom_open : sc.
#[export] Hint Extern 1 (keeps (getaddrinfo _)) => intros ?; apply getaddrinfo_open : sc.
#[export] Hint Extern 2 (keeps (_ ≫= _)) => apply keeps_bind; [|intros] : sc.
#[export] Hint Extern 2 (keeps (if _ then _ else _)) => case_match : sc.
#[export] Hint Extern 1 (keeps (ft_set_nonblocking _)) => unfold ft_set_nonblocking : sc.
#[export] Hint Extern 1 (keeps (ft_set_blocking _)) => unfold ft_set_blocking : sc.
#[export] Hint Extern 1 (keeps (ft_optimize_socket _)) => unfold ft_optimize_socket : sc.
#[export] Hint Extern 1 (keeps (ft_set_sock_timeout _ _)) => unfold ft_set_sock_timeout : sc.
#[export] Hint Extern 1 (keeps ft_now_ms) => unfold ft_now_ms : sc.

(** One step of a proof of [owns]: a call that keeps the set, a new
    descriptor, a return. *)
Ltac own_step :=
  first [ apply owns_ret
        | apply owns_keeps; [solve [eauto 20 with sc]|intros ?]
        | apply owns_new; [exact I| |intros ? ? ?] ].

(** ** A kernel for the witnesses

    Descriptors are handed out in order, [ready] gives the events of each one,
    [so_error] the outcome of its connect, [backlog] the connections waiting on
    any listening socket; a poll takes its whole timeout when nothing is
    ready, and one millisecond otherwise. *)

Record Kernel := { net : Sim; fds : gset Z; next_fd : Z; clock : Z;
                   ready : Z -> Z; so_error : Z -> Z; backlog : nat }.

Definition with_net (k : Kernel) (n : Sim) : Kernel :=
  {| net := n; fds := fds k; next_fd := next_fd k; clock := clock k; ready := ready k;
     so_error := so_error k; backlog := backlog k |}.

Definition with_fds (k : Kernel) (s : gset Z) (b : nat) : Kernel :=
  {| net := net k; fds := s; next_fd := next_fd k; clock := clock k; ready := ready k;
     so_error := so_error k; backlog := b |}.

(** The next number that is not open. *)
Definition fresh_fd (k : Kernel) : Z := Z.max 0 (set_fold Z.max 0 (fds k) + 1).

#[export] Instance kernel_sock : SockOps Kernel := {|
  send s b n k := let '(r, n') := send s b n (net k) in (r, with_net k n');
  recv s n k := let '(r, d, n') := recv s n (net k) in (r, d, with_net k n') |}.

#[export] Instance kernel_os : Os Kernel := {|
  call c k :=
    match c with
    | Socket _ => (fresh_fd k, with_fds k ({[fresh_fd k]} ∪ fds k) (backlog k))
    | Accept _ =>
        match backlog k with
        | O => (-1, k)
        | S b => (fresh_fd k, with_fds k ({[fresh_fd k]} ∪ fds k) b)
        end
    | Close fd => (0, with_fds k (fds k ∖ {[fd]}) (backlog k))
    | GetSoError fd => (so_error k fd, k)
    | Now_ms => (clock k, k)
    | _ => (0, k)
    end;
  poll p ms k :=
    let revs := map (fun q => ready k q.1) p in
    let quiet := forallb (fun r => r =? 0) revs in
    ((if quiet then 0 else 1, revs),
     {| net := net k; fds := fds k; next_fd := next_fd k;
        clock := clock k + if quiet then Z.max 1 ms else 1;
        ready := ready k; so_error := so_error k; backlog := backlog k |});
  recvfrom fd n k := ((-1, []), k);
  getaddrinfo h k := (None, k) |}.

#[export] Instance kernel_sock_laws : SockLaws Kernel.
Proof.
  refine {| sent k := sent (net k); incoming k := incoming (net k); healthy k := healthy (net k) |}.
  - intros s b n k r k' Hs Hn. cbn [send kernel_sock] in Hs. destruct (send s b n (net k)) as [r' n'] eqn:E.
    injection Hs as <- <-. by apply (send_spec _ _ _ _ _ _ E).
  - intros s n k r d k' Hr Hn. cbn [recv kernel_sock] in Hr. destruct (recv s n (net k)) as [[r' d'] n'] eqn:E.
    injection Hr as <- <- <-. by apply (recv_spec _ _ _ _ _ _ E).
  - intros s b n k Hk Hn. pose proof (send_healthy s b n (net k) Hk Hn) as H. cbn [send kernel_sock].
    by destruct (send s b n (net k)).
  - intros s n k Hk Hn Hi. pose proof (recv_healthy s n (net k) Hk Hn Hi) as H. cbn [recv kernel_sock].
    by destruct (recv s n (net k)) as [[? ?] ?].
Defined.

Lemma fresh_fd_fresh k : 0 <= fresh_fd k /\ fresh_fd k ∉ fds k.
Proof.
  split; [unfold fresh_fd; lia|].
  assert (Hmax : forall x, x ∈ fds k -> x <= set_fold Z.max 0 (fds k)).
  { apply (set_fold_ind_L (fun r X => forall x, x ∈ X -> x <= r)).
    - set_solver.
    - intros y X r Hy IH x [->%elem_of_singleton|Hx]%elem_of_union; [lia|]. specialize (IH x Hx). lia. }
  intros Hin. specialize (Hmax _ Hin). unfold fresh_fd in Hmax. lia.
Qed.

#[export] Instance kernel_laws : OsLaws Kernel.
Proof.
  refine {| open := fds |}.
  - intros c k. destruct c; cbn; try done.
    + right. split_and!; [apply fresh_fd_fresh..|done].
    + destruct (backlog k); [by left|]. right. split_and!; [apply fresh_fd_fresh..|done].
  - done.
  - done.
  - done.
  - intros s b n k. cbn. by destruct (if down (net k) then _ else _).
  - intros s n k. cbn. by destruct (if down (net k) then _ else _) as [[? ?] ?].
Defined.
