(* ===== verification/FtAddr.v ===== *)
(** * Addresses, listening sockets and parallel connects: common/ft/ft_addr.c

    The Linux branches. [held] is the bookkeeping of a set of candidate
    sockets, shared with [FtLan]. *)

From S2P Require Import Prelude CString Codec FtSocket FtOs.
From stdpp Require Import gmap.
Local Open Scope Z_scope.

Definition FT_MAX_ADDRS : nat := 8.

(** An entry of [getifaddrs]: its address when it is an IPv4 one, and flags. *)
Record ifaddr := MkIf { ifa_inet : option (list Z); iff_loopback : bool; iff_up : bool }.

(** The loop of [ft_get_local_addresses]; [room] is [FT_MAX_ADDRS - count]. *)
Fixpoint local_addresses (room : nat) (ifs : list ifaddr) (port : Z) : list bytes :=
  match room, ifs with
  | S room', ifa :: ifs' =>
      match ifa_inet ifa with
      | None => local_addresses room ifs' port
      | Some ip =>
          if iff_loopback ifa then local_addresses room ifs' port
          else if negb (iff_up ifa) then local_addresses room ifs' port
          else (snprintf 64 (inet_ntop ip ++ str ":" ++ print_d port)).1
               :: local_addresses room' ifs' port
      end
  | _, _ => []
  end.

(** [ft_get_local_addresses(list, port)]: the entries; [count] is their
    number. [None] when [getifaddrs] fails. *)
Definition ft_get_local_addresses (ifs : option (list ifaddr)) (port : Z) : list bytes :=
  match ifs with None => [] | Some l => local_addresses FT_MAX_ADDRS l port end.

Definition INADDR_ANY : list Z := [0; 0; 0; 0].

Section Addr.
Context `{Os W}.

(** [ft_start_server(out_port)] *)
Definition ft_start_server : st W (Z * Z) :=
  fd ← call (Socket true);
  if fd =? FT_INVALID_SOCK then mret (FT_INVALID_SOCK, 0) else
  _ ← call (Setsockopt fd SO_REUSEADDR 1);
  b ← call (Bind fd (MkAddr INADDR_ANY 0));
  if b <? 0 then _ ← ft_close fd; mret (FT_INVALID_SOCK, 0) else
  port ← call (Getsockport fd);
  l ← call (Listen fd 5);
  if l <? 0 then _ ← ft_close fd; mret (FT_INVALID_SOCK, port) else
  mret (fd, port).

(** [ft_accept(sfd, timeout_ms)] *)
Definition ft_accept (sfd timeout_ms : Z) : st W Z :=
  '(n, _) ← poll [(sfd, POLLIN)] timeout_ms;
  if 0 <? n then
    result ← call (Accept sfd);
    if result =? FT_INVALID_SOCK then mret result
    else _ ← ft_optimize_socket result; mret result
  else mret FT_INVALID_SOCK.

(** The setup loop of every candidate race: one non-blocking connect per
    address that parses, [FT_INVALID_SOCK] for the others. *)
Fixpoint start_connects (addrs : list bytes) : st W (list Z) :=
  match addrs with
  | [] => mret []
  | a :: addrs' =>
      match ft_parse_addr a with
      | None => ss ← start_connects addrs'; mret (FT_INVALID_SOCK :: ss)
      | Some sa =>
          s ← call (Socket true);
          if s =? FT_INVALID_SOCK then
            ss ← start_connects addrs'; mret (FT_INVALID_SOCK :: ss)
          else
            _ ← ft_set_nonblocking s;
            _ ← call (Connect s sa);
            ss ← start_connects addrs'; mret (s :: ss)
      end
  end.

Definition valid (socks : list Z) : list Z := filter (fun s => s <> FT_INVALID_SOCK) socks.

(** One pass of [ft_connect_any] over the poll results, which are aligned
    with the valid sockets. *)
Fixpoint scan_any (socks revs : list Z) : st W (Z * list Z) :=
  match socks with
  | [] => mret (FT_INVALID_SOCK, [])
  | s :: ss =>
      if s =? FT_INVALID_SOCK then
        '(r, ss') ← scan_any ss revs; mret (r, s :: ss')
      else if negb (Z.land (hd 0 revs) POLLOUT =? 0) then
        err ← call (GetSoError s);
        if err =? 0 then mret (s, FT_INVALID_SOCK :: ss)
        else '(r, ss') ← scan_any ss (tl revs); mret (r, s :: ss')
      else '(r, ss') ← scan_any ss (tl revs); mret (r, s :: ss')
  end.

Definition step : Z := 50.

Fixpoint connect_loop (fuel : nat) (elapsed timeout_ms : Z) (socks : list Z) : st W (option (Z * list Z)) :=
  match fuel with
  | O => mret None
  | S fuel' =>
      if elapsed <? timeout_ms then
        if bool_decide (valid socks = []) then mret (Some (FT_INVALID_SOCK, socks)) else
        '(_, revs) ← poll (map (fun s => (s, POLLOUT)) (valid socks)) step;
        '(result, socks') ← scan_any socks revs;
        if result =? FT_INVALID_SOCK then connect_loop fuel' (elapsed + step) timeout_ms socks'
        else mret (Some (result, socks'))
      else mret (Some (FT_INVALID_SOCK, socks))
  end.

(** The steps of 50 ms that fit in the timeout, and one more. *)
Definition steps_fuel (timeout_ms : Z) : nat := S (Z.to_nat (timeout_ms / step + 1)).

Fixpoint close_all (socks : list Z) : st W unit :=
  match socks with
  | [] => mret tt
  | s :: ss => _ ← ft_close s; close_all ss
  end.

(** What a winning socket is turned into. *)
Definition finish (result : Z) : st W Z :=
  if result =? FT_INVALID_SOCK then mret result
  else _ ← ft_set_blocking result; _ ← ft_optimize_socket result; mret result.

(** [ft_connect_any(addrs, count, timeout_ms)] *)
Definition ft_connect_any (addrs : list bytes) (timeout_ms : Z) : st W Z :=
  if bool_decide (addrs = []) then mret FT_INVALID_SOCK else
  socks ← start_connects addrs;
  out ← connect_loop (steps_fuel timeout_ms) 0 timeout_ms socks;
  let '(result, socks) := default (FT_INVALID_SOCK, socks) out in
  _ ← close_all socks;
  finish result.
End Addr.

(** ** Candidate sockets *)

(** The valid sockets of [socks] are distinct, and together with [S] they are
    the open descriptors [S']. *)
Definition held (S : gset Z) (socks : list Z) (S' : gset Z) : Prop :=
  S' = S ∪ list_to_set (valid socks) /\ NoDup (valid socks) /\ forall s, s ∈ valid socks -> s ∉ S.

Lemma held_nil S : held S [] S.
Proof. split_and!; [set_solver|constructor|set_solver]. Qed.

Lemma held_nil_inv S S' : held S [] S' -> S' = S.
Proof. intros (-> & _). set_solver. Qed.

Lemma held_invalid S socks S' : held S (FT_INVALID_SOCK :: socks) S' <-> held S socks S'.
Proof. done. Qed.

Lemma valid_cons s ss : s <> FT_INVALID_SOCK -> valid (s :: ss) = s :: valid ss.
Proof. intros Hs. unfold valid. by rewrite filter_cons_True by done. Qed.

Lemma held_cons S s ss S' :
  s <> FT_INVALID_SOCK -> held S (s :: ss) S' <-> s ∉ S /\ held ({[s]} ∪ S) ss S'.
Proof.
  intros Hs. unfold held. rewrite valid_cons by done. rewrite NoDup_cons, list_to_set_cons. split.
  - intros (-> & [Hn Hd] & Hall). split_and!; [set_solver..|done|].
    intros x Hx. assert (x <> s) by (intros ->; done). set_solver.
  - intros (Hs' & -> & Hd & Hall). split_and!; [set_solver| |done|].
    + intros Hin. specialize (Hall s Hin). set_solver.
    + intros x [->|Hx]%elem_of_cons; [done|]. specialize (Hall x Hx). set_solver.
Qed.

Lemma held_swap_base S x y ss S' :
  held ({[x]} ∪ ({[y]} ∪ S)) ss S' <-> held ({[y]} ∪ ({[x]} ∪ S)) ss S'.
Proof. by replace ({[x]} ∪ ({[y]} ∪ S)) with ({[y]} ∪ ({[x]} ∪ S)) by set_solver. Qed.

(** Giving up one base descriptor. *)
Lemma held_close S s ss S' : s ∉ S -> held ({[s]} ∪ S) ss S' -> s ∈ S' /\ held S ss (S' ∖ {[s]}).
Proof.
  intros Hs (-> & Hd & Hall). split; [set_solver|]. split_and!; [|done|set_solver].
  apply set_eq. intros x. rewrite elem_of_difference, !elem_of_union, !elem_of_singleton, elem_of_list_to_set.
  split.
  - intros [[[->|?]|?] ?]; auto. done.
  - intros [?|Hx]; [split; [auto|by intros ->]|]. split; [auto|]. intros ->. specialize (Hall _ Hx). set_solver.
Qed.

Section AddrOwns.
Context `{OsLaws W}.

(** A function that hands its caller one new descriptor, or none. *)
Definition yields (S : gset Z) (r : Z) (S' : gset Z) : Prop :=
  (r = FT_INVALID_SOCK /\ S' = S) \/ (r <> FT_INVALID_SOCK /\ r ∉ S /\ S' = {[r]} ∪ S).

Lemma start_connects_owns addrs S :
  owns S (start_connects addrs) (fun socks S' => held S socks S').
Proof.
  revert S. induction addrs as [|a addrs IH]; intros S; cbn [start_connects].
  - apply owns_ret, held_nil.
  - assert (Hskip : owns S (ss ← start_connects addrs; mret (FT_INVALID_SOCK :: ss))
                      (fun socks S' => held S socks S')).
    { eapply owns_bind; [apply IH|]. intros ss S' Hh. by apply owns_ret, held_invalid. }
    destruct (ft_parse_addr a) as [sa|]; [|done].
    own_step; [by cbn|]. destruct (_ =? _) eqn:E; boolify; [unfold FT_INVALID_SOCK in *; lia|].
    do 2 own_step. eapply owns_bind; [apply IH|]. intros ss S' Hh. apply owns_ret.
    by apply held_cons.
Qed.

Lemma scan_any_owns socks revs S S' :
  held S socks S' ->
  owns S' (scan_any socks revs) (fun '(r, socks') S'' =>
    S'' = S' /\ (r = FT_INVALID_SOCK /\ socks' = socks
                 \/ r <> FT_INVALID_SOCK /\ r ∉ S /\ held ({[r]} ∪ S) socks' S')).
Proof.
  revert S revs. induction socks as [|s ss IH]; intros S revs Hh; cbn [scan_any].
  - apply owns_ret. auto.
  - destruct (s =? FT_INVALID_SOCK) eqn:Es; boolify.
    + subst s. eapply owns_bind; [by apply IH|]. intros [r ss'] S'' [-> Hr]. apply owns_ret.
      split; [done|]. destruct Hr as [[-> ->]|Hr]; [by left|by right].
    + apply held_cons in Hh as [Hs Hh]; [|done].
      assert (Hnext : owns S' ('(r, ss') ← scan_any ss (tl revs); mret (r, s :: ss'))
        (fun '(r, socks') S'' => S'' = S' /\ (r = FT_INVALID_SOCK /\ socks' = s :: ss
                 \/ r <> FT_INVALID_SOCK /\ r ∉ S /\ held ({[r]} ∪ S) socks' S'))).
      { eapply owns_bind; [by apply (IH ({[s]} ∪ S))|]. intros [r ss'] S'' [-> Hr]. apply owns_ret.
        split; [done|]. destruct Hr as [[-> ->]|(Hr & Hn & Hh')]; [by left|right].
        split_and!; [done|set_solver|]. apply held_cons; [done|].
        split; [set_solver|by apply held_swap_base]. }
      destruct (negb _); [|done]. own_step.
      destruct (_ =? 0); [|done]. apply owns_ret. split; [done|]. right. split_and!; done.
Qed.

Lemma connect_loop_owns fuel elapsed timeout socks S S' :
  held S socks S' ->
  owns S' (connect_loop fuel elapsed timeout socks) (fun out S'' =>
    match out with
    | None => S'' = S'
    | Some (r, socks') =>
        r = FT_INVALID_SOCK /\ held S socks' S''
        \/ r <> FT_INVALID_SOCK /\ r ∉ S /\ held ({[r]} ∪ S) socks' S''
    end).
Proof.
  revert elapsed socks S'. induction fuel as [|fuel IH]; intros elapsed socks S' Hh; cbn [connect_loop].
  - by apply owns_ret.
  - destruct (_ <? _); [|apply owns_ret; by left]. case_bool_decide; [apply owns_ret; by left|].
    own_step. destruct a as [n revs]. eapply owns_bind; [by apply scan_any_owns|].
    intros [r socks'] S'' [-> Hr]. destruct (r =? _) eqn:E; boolify.
    + apply IH. destruct Hr as [[_ ->]|[? _]]; done.
    + apply owns_ret. destruct Hr as [[? _]|Hr]; [done|by right].
Qed.

(** The loop always ends within its fuel, whatever the kernel answers. *)
Lemma connect_loop_total fuel elapsed timeout socks w :
  (1 <= fuel)%nat -> timeout - elapsed <= step * (Z.of_nat fuel - 1) ->
  (connect_loop fuel elapsed timeout socks w).1 <> None.
Proof.
  revert elapsed socks w. induction fuel as [|fuel IH]; intros elapsed socks w H1f Hf; [lia|].
  cbn [connect_loop]. destruct (_ <? _) eqn:E; [|done]. boolify. case_bool_decide; [done|].
  unfold mbind, st_bind. destruct (poll _ _ w) as [[n revs] w1].
  destruct (scan_any socks revs w1) as [[r socks'] w2].
  destruct (r =? _); [|done]. unfold step in *. apply IH; lia.
Qed.

Lemma steps_fuel_enough timeout :
  (1 <= steps_fuel timeout)%nat /\ timeout - 0 <= step * (Z.of_nat (steps_fuel timeout) - 1).
Proof. unfold steps_fuel, step. split; [lia|]. dlia. Qed.

Lemma connect_loop_steps timeout socks S S' :
  held S socks S' ->
  owns S' (connect_loop (steps_fuel timeout) 0 timeout socks) (fun out S'' =>
    exists r socks', out = Some (r, socks') /\
      (r = FT_INVALID_SOCK /\ held S socks' S''
       \/ r <> FT_INVALID_SOCK /\ r ∉ S /\ held ({[r]} ∪ S) socks' S'')).
Proof.
  intros Hh w Hw. destruct (steps_fuel_enough timeout) as [Hf1 Hf2].
  pose proof (connect_loop_owns (steps_fuel timeout) 0 timeout socks S S' Hh w Hw) as Hl.
  pose proof (connect_loop_total _ 0 timeout socks w Hf1 Hf2) as Ht.
  destruct (connect_loop _ 0 timeout socks w) as [[[r socks']|] w1]; [|done]. eauto.
Qed.

Lemma close_all_owns {B} socks S S' (f : unit -> st W B) Q :
  held S socks S' -> owns S (f tt) Q -> owns S' (close_all socks ≫= f) Q.
Proof.
  revert S'. induction socks as [|s ss IH]; intros S' Hh Hf; cbn [close_all].
  - apply held_nil_inv in Hh as ->. exact Hf.
  - assert (Hassoc : forall (m : st W unit) k w, ((m ≫= fun _ => k) ≫= f) w = (m ≫= fun _ => k ≫= f) w).
    { intros m k w. unfold mbind, st_bind. by destruct (m w). }
    intros w Hw. rewrite Hassoc. revert w Hw.
    change (owns S' (ft_close s ≫= fun _ => close_all ss ≫= f) Q).
    destruct (decide (s = FT_INVALID_SOCK)) as [->|Hs].
    + apply owns_close; [done|]. rewrite decide_True by done. by apply IH.
    + apply held_cons in Hh as [Hn Hh]; [|done].
      destruct (held_close _ _ _ _ Hn Hh) as [Hin Hh'].
      apply owns_close; [done|]. rewrite decide_False by done. by apply IH.
Qed.

Lemma finish_owns S r : owns S (finish r) (fun r' S' => r' = r /\ S' = S).
Proof.
  unfold finish. destruct (_ =? _); [by apply owns_ret|]. do 2 own_step. by apply owns_ret.
Qed.

(** Closing the losers and handing over the winner. *)
Lemma close_losers_owns S r socks S' :
  r = FT_INVALID_SOCK /\ held S socks S'
  \/ r <> FT_INVALID_SOCK /\ r ∉ S /\ held ({[r]} ∪ S) socks S' ->
  owns S' (_ ← close_all socks; finish r) (yields S).
Proof.
  intros [[-> Hh]|(Hr & Hn & Hh)]; (eapply close_all_owns; [done|]);
    (eapply owns_conseq; [apply finish_owns|]); intros a S'' [-> ->]; unfold yields; auto.
Qed.
End AddrOwns.

(** ** Addresses as text *)

Definition octet (n : Z) : Prop := 0 <= n < 256.

Fixpoint fold_octets (ds : bytes) (cur : option Z) : option (option Z) :=
  match ds with
  | [] => Some cur
  | d :: ds' => v ← octet_digit cur d; fold_octets ds' (Some v)
  end.

Lemma inet_pton4_digits ds rest acc cur v :
  Forall (fun b => isdigit b = true) ds -> fold_octets ds cur = Some v ->
  inet_pton4 (ds ++ rest) acc cur = inet_pton4 rest acc v.
Proof.
  intros Hd. revert cur. induction Hd as [|d ds Hd _ IH]; intros cur Hf; cbn [fold_octets] in Hf.
  - by injection Hf as ->.
  - cbn [app inet_pton4]. rewrite Hd. destruct (octet_digit cur d) as [u|]; [|done].
    cbn in *. by apply IH.
Qed.

Lemma print_octet n :
  octet n -> fold_octets (print_d n) None = Some (Some n) /\ (length (print_d n) <= 3)%nat
    /\ Forall (fun b => isdigit b = true) (print_d n).
Proof.
  intros Hn. split_and!.
  3:{ unfold print_d. destruct (_ <? _) eqn:E; boolify; [unfold octet in Hn; lia|].
      by apply dec_nonneg_spec. }
  all: assert (H : forallb (fun i => bool_decide (fold_octets (print_d (Z.of_nat i)) None = Some (Some (Z.of_nat i)))
                   && (length (print_d (Z.of_nat i)) <=? 3)%nat) (seq 0 256) = true)
    by (vm_compute; reflexivity).
  all: rewrite forallb_forall in H; specialize (H (Z.to_nat n)); unfold octet in Hn;
    rewrite Z2Nat.id in H by lia; destruct (andb_prop _ _ (H ltac:(apply in_seq; lia))) as [H1 H2].
  - by apply bool_decide_eq_true in H1.
  - by apply Nat.leb_le.
Qed.

Lemma print_port_length p : 0 <= p < 65536 -> (length (print_d p) <= 5)%nat.
Proof.
  intros Hp. unfold print_d. destruct (_ <? _) eqn:E; boolify; [lia|].
  destruct (dec_nonneg_spec p ltac:(lia)) as (Hv & Hall & Hne & Hhd).
  destruct (Nat.le_gt_cases (length (dec_nonneg p)) 5) as [|Hlen]; [done|].
  destruct (decide (p = 0)) as [->|Hp0]; [by vm_compute in Hlen; lia|].
  specialize (Hhd Hp0). destruct (dec_nonneg p) as [|d ds] eqn:Ed; [done|]. exfalso.
  apply Forall_cons in Hall as [Hd Hds]. cbn [length head] in *.
  assert (Hd1 : 1 <= bz d - 48).
  { assert (Hdr : bz d - 48 <> 0).
    { intros H0. apply Hhd. f_equal. apply bz_inj. change (bz "0") with 48. lia. }
    unfold isdigit in Hd. boolify. lia. }
  assert (Hpos : forall l, Forall (fun b => isdigit b = true) l -> 0 <= dec_value l).
  { intros l. induction l as [|x l IH] using rev_ind; intros Hl; [done|].
    rewrite dec_value_app. apply Forall_app in Hl as [Hl Hx]. rewrite Forall_singleton in Hx.
    unfold isdigit in Hx. boolify. specialize (IH Hl). lia. }
  unfold dec_value in Hv. cbn [fold_left] in Hv. rewrite fold_dec_acc in Hv.
  specialize (Hpos ds Hds).
  assert (10 ^ 5 <= 10 ^ Z.of_nat (length ds)) by (apply Z.pow_le_mono_r; lia). nia.
Qed.

(** A well-formed address prints to at most 15 characters and reads back. *)
Lemma inet_ntop_pton a b c d :
  octet a -> octet b -> octet c -> octet d ->
  inet_pton (inet_ntop [a; b; c; d]) = Some [a; b; c; d]
  /\ (length (inet_ntop [a; b; c; d]) <= 15)%nat /\ no_nul (inet_ntop [a; b; c; d]).
Proof.
  intros Ha Hb Hc Hd.
  destruct (print_octet a Ha) as (Fa & La & Da). destruct (print_octet b Hb) as (Fb & Lb & Db).
  destruct (print_octet c Hc) as (Fc & Lc & Dc). destruct (print_octet d Hd) as (Fd & Ld & Dd).
  assert (Hn : no_nul (inet_ntop [a; b; c; d])).
  { unfold inet_ntop. rewrite !no_nul_app. split_and!; try apply print_d_no_nul; by repeat constructor. }
  split_and!; [|unfold inet_ntop; rewrite !length_app; simpl; lia|done].
  unfold inet_pton. rewrite cstr_no_nul by done. unfold inet_ntop.
  assert (Hdot : forall rest acc v, length acc <> 3%nat ->
    inet_pton4 (str "." ++ rest) acc (Some v) = inet_pton4 rest (acc ++ [v]) None).
  { intros rest acc v Hl. cbn. by destruct (Nat.eqb_spec (length acc) 3). }
  rewrite (inet_pton4_digits _ _ _ _ _ Da Fa), Hdot by done.
  rewrite (inet_pton4_digits _ _ _ _ _ Db Fb), Hdot by done.
  rewrite (inet_pton4_digits _ _ _ _ _ Dc Fc), Hdot by done.
  rewrite <- (app_nil_r (print_d d)), (inet_pton4_digits _ _ _ _ _ Dd Fd). done.
Qed.

Lemma atoi_cstr s : atoi (cstr s) = atoi s.
Proof. unfold atoi, strtol10. by rewrite cstr_idemp. Qed.

(** [ft_parse_addr] reads "ip:port" back. *)
Lemma ft_parse_addr_text a b c d port :
  octet a -> octet b -> octet c -> octet d -> 0 <= port < 65536 ->
  let s := inet_ntop [a; b; c; d] ++ str ":" ++ print_d port in
  (length s <= 21)%nat /\ no_nul s /\ ft_parse_addr s = Some (MkAddr [a; b; c; d] port).
Proof.
  intros Ha Hb Hc Hd Hp. destruct (inet_ntop_pton a b c d Ha Hb Hc Hd) as (Hpton & Hlen & Hnn).
  set (ip := inet_ntop [a; b; c; d]) in *. cbv zeta. set (s := ip ++ str ":" ++ print_d port).
  pose proof (print_port_length port Hp) as Hpl.
  assert (Hs : no_nul s).
  { unfold s. rewrite !no_nul_app. split_and!; [done|by repeat constructor|apply print_d_no_nul]. }
  assert (Hsl : length s = (length ip + 1 + length (print_d port))%nat).
  { unfold s. rewrite !length_app. simpl. lia. }
  split_and!; [lia|done|]. unfold ft_parse_addr.
  assert (Harr : strncpy (zeros 64) s 63 = s ++ NUL :: zeros (63 - length s)).
  { unfold strncpy. rewrite cstr_no_nul by done. rewrite (take_ge s) by lia. f_equal.
    replace (drop 63 (zeros 64)) with [NUL] by reflexivity.
    rewrite <- replicate_S_end. done. }
  rewrite Harr.
  assert (Hdig : Forall (fun b => isdigit b = true) (print_d port)).
  { unfold print_d. destruct (_ <? _) eqn:E; boolify; [lia|]. apply dec_nonneg_spec. lia. }
  assert (Hc1 : strrchr (s ++ NUL :: zeros (63 - length s)) ":" = Some (length ip)).
  { unfold strrchr. rewrite cstr_stop by done.
    assert (Hr : reverse s = reverse (print_d port) ++ ":"%byte :: reverse ip).
    { unfold s. rewrite !reverse_app. by rewrite <- app_assoc. }
    rewrite Hr, find_index_app_stop; [|apply Forall_reverse; eapply Forall_impl; [exact Hdig|]|done].
    - rewrite length_reverse, Hsl. cbn. f_equal. lia.
    - intros x Hx. by_bytes x. }
  rewrite Hc1.
  assert (Hdrop : cstr (drop (S (length ip)) (s ++ NUL :: zeros (63 - length s))) = print_d port).
  { replace (drop (S (length ip)) (s ++ NUL :: zeros (63 - length s)))
      with (print_d port ++ NUL :: zeros (63 - length s)).
    - apply cstr_stop, print_d_no_nul.
    - unfold s at 2. rewrite <- !app_assoc, app_assoc. symmetry. apply drop_app_exact.
      rewrite length_app. simpl. lia. }
  rewrite <- atoi_cstr, Hdrop, atoi_print_d by (unfold INT_MIN, INT_MAX; lia).
  assert (Htake : take (length ip) (s ++ NUL :: zeros (63 - length s)) = ip).
  { unfold s. rewrite <- app_assoc. apply take_app_length. }
  rewrite Htake, Hpton. cbn. by rewrite Z.mod_small by lia.
Qed.

(** ** Properties *)

(** The interfaces that are advertised. *)
Definition usable (ifa : ifaddr) : Prop := iff_loopback ifa = false /\ iff_up ifa = true.

(** Every address a client advertises is one the peer can use:
    [ft_get_local_addresses] lists at most [FT_MAX_ADDRS] entries, and each of
    them [ft_parse_addr] reads back as the address of an interface that is up
    and not a loopback, with the advertised port. *)
Theorem local_addresses_parse ifs port (Hport : 0 <= port < 65536)
    (Hifs : forall ifa ip, ifa ∈ ifs -> ifa_inet ifa = Some ip ->
       exists a b c d, ip = [a; b; c; d] /\ octet a /\ octet b /\ octet c /\ octet d) :
  let l := ft_get_local_addresses (Some ifs) port in
  (length l <= FT_MAX_ADDRS)%nat
  /\ forall s, s ∈ l -> exists ifa ip, ifa ∈ ifs /\ ifa_inet ifa = Some ip /\ usable ifa
       /\ ft_parse_addr s = Some (MkAddr ip port).
Proof.
  unfold ft_get_local_addresses. cbv zeta. generalize FT_MAX_ADDRS as room.
  induction ifs as [|ifa ifs IH]; intros room; destruct room as [|room]; cbn [local_addresses length];
    try (split; [lia|intros s Hs; by apply elem_of_nil in Hs]).
  assert (IH' : forall room, (length (local_addresses room ifs port) <= room)%nat
    /\ forall s, s ∈ local_addresses room ifs port -> exists ifa' ip, ifa' ∈ ifa :: ifs
         /\ ifa_inet ifa' = Some ip /\ usable ifa' /\ ft_parse_addr s = Some (MkAddr ip port)).
  { intros r. destruct (IH ltac:(intros i ip Hi; apply Hifs; by right) r) as [H1 H2].
    split; [done|]. intros s Hs. destruct (H2 s Hs) as (i & ip & Hi & Hrest).
    exists i, ip. split; [by right|done]. }
  destruct (ifa_inet ifa) as [ip|] eqn:Ei; [|apply IH'].
  destruct (iff_loopback ifa) eqn:El; [apply IH'|].
  destruct (iff_up ifa) eqn:Eu; cbn [negb]; [|apply IH'].
  destruct (Hifs ifa ip ltac:(by left) Ei) as (a & b & c & d & -> & Ha & Hb & Hc & Hd).
  destruct (ft_parse_addr_text a b c d port Ha Hb Hc Hd Hport) as (Hl & _ & Hp).
  destruct (IH' room) as [H1 H2]. split; [cbn; lia|].
  intros s [->|Hs]%elem_of_cons; [|by apply H2].
  exists ifa, [a; b; c; d]. split_and!; [by left|done|done|]. cbn [snprintf fst].
  by rewrite take_ge by lia.
Qed.

Definition example_ifs : list ifaddr :=
  [MkIf (Some [127; 0; 0; 1]) true true; MkIf None false true; MkIf (Some [192; 168; 1; 20]) false true].

Lemma local_addresses_parse_witness :
  (let l := ft_get_local_addresses (Some example_ifs) 40123 in
   (length l <= FT_MAX_ADDRS)%nat
   /\ forall s, s ∈ l -> exists ifa ip, ifa ∈ example_ifs /\ ifa_inet ifa = Some ip /\ usable ifa
       /\ ft_parse_addr s = Some (MkAddr ip 40123))
  /\ ft_get_local_addresses (Some example_ifs) 40123 = [str "192.168.1.20:40123"].
Proof.
  split; [|vm_compute; reflexivity]. apply local_addresses_parse.
  - lia.
  - intros ifa ip Hin Hip. unfold example_ifs in Hin.
    repeat (apply elem_of_cons in Hin as [Hin|Hin]; [subst ifa; try discriminate Hip|]);
      [..|by apply elem_of_nil in Hin]; injection Hip as <-; do 4 eexists;
      (split; [reflexivity|]); unfold octet; lia.
Defined.

Lemma ft_start_server_owns `{OsLaws W} S : owns S ft_start_server (fun r S' => yields S r.1 S').
Proof.
  assert (Hinv : forall r : Z, 0 <= r -> r <> FT_INVALID_SOCK) by (unfold FT_INVALID_SOCK; lia).
  assert (Hback : forall r, r ∉ S -> ({[r]} ∪ S) ∖ {[r]} = S) by (intros; set_solver).
  unfold ft_start_server. own_step; [apply owns_ret; by left|].
  assert (a : r <> FT_INVALID_SOCK) by auto.
  destruct (_ =? _) eqn:E; boolify; [done|]. do 2 own_step. destruct (_ <? 0).
  - apply owns_close; [set_solver|]. rewrite decide_False, Hback by done. apply owns_ret. by left.
  - do 2 own_step. destruct (_ <? 0).
    + apply owns_close; [set_solver|]. rewrite decide_False, Hback by done. apply owns_ret. by left.
    + apply owns_ret. right. auto.
Qed.

(** The functions that create sockets own what they create: on every path
    (whatever the kernel answers to any call, errors included)
    [ft_start_server], [ft_accept] and [ft_connect_any] either return
    [FT_INVALID_SOCK] with the same descriptors open as before, or one new
    descriptor and nothing else; every losing candidate of the race is closed
    exactly once, and [ft_connect_any] gives up after [timeout_ms / 50] polls. *)
Lemma sockets_owned `{OsLaws W} S addrs sfd timeout_ms :
  owns S ft_start_server (fun r S' => yields S r.1 S')
  /\ owns S (ft_accept sfd timeout_ms) (yields S)
  /\ owns S (ft_connect_any addrs timeout_ms) (yields S)
  /\ forall (w : W) socks,
       (connect_loop (steps_fuel timeout_ms) 0 timeout_ms socks w).1 <> None.
Proof.
  assert (Hinv : forall r : Z, 0 <= r -> r <> FT_INVALID_SOCK) by (unfold FT_INVALID_SOCK; lia).
  split_and!.
  - apply ft_start_server_owns.
  - unfold ft_accept. own_step. destruct a as [n rv]. destruct (0 <? n); [|apply owns_ret; by left].
    own_step; [apply owns_ret; by left|]. destruct (_ =? _) eqn:E; boolify.
    + by destruct (Hinv r).
    + own_step. apply owns_ret. right. auto.
  - unfold ft_connect_any. case_bool_decide; [apply owns_ret; by left|].
    eapply owns_bind; [apply start_connects_owns|]. intros socks S1 Hh.
    eapply owns_bind; [by apply connect_loop_steps|].
    intros out S2 (r & socks' & -> & Hr). by apply (close_losers_owns S r socks' S2).
  - intros w socks. destruct (steps_fuel_enough timeout_ms) as [Hf1 Hf2].
    by apply connect_loop_total.
Qed.
