(* ===== verification/FtNat.v ===== *)
(** * NAT traversal: common/ft/ft_nat.c

    The Linux branches of endpoint discovery and of the two hole punches. *)

From S2P Require Import Prelude CString Codec FtSocket FtOs FtAddr.
From stdpp Require Import gmap.
Local Open Scope Z_scope.

Section Nat_.
Context `{Os W}.

(** [ft_discover_public(server_host, udp_port, local_port, out, out_len)]:
    [Some text] when it returns 0. *)
Definition ft_discover_public (server_host : bytes) (udp_port local_port : Z) (out_len : nat)
    : st W (option bytes) :=
  s ← call (Socket false);
  if s =? FT_INVALID_SOCK then mret None else
  _ ← call (Setsockopt s SO_REUSEADDR 1);
  _ ← call (Setsockopt s SO_REUSEPORT 1);
  _ ← call (Bind s (MkAddr INADDR_ANY (local_port mod 65536)));
  addr ← match inet_pton server_host with
         | Some a => mret (Some a)
         | None => getaddrinfo server_host
         end;
  match addr with
  | None => _ ← ft_close s; mret None
  | Some a =>
      _ ← call (Sendto s (str "DISCOVER") (MkAddr a (udp_port mod 65536)));
      '(ready, _) ← poll [(s, POLLIN)] 3000;
      ret ← (if 0 <? ready then
               '(n, buf) ← recvfrom s 127;
               if 0 <? n then mret (Some (take (out_len - 1) (cstr (take (Z.to_nat n) buf))))
               else mret None
             else mret None);
      _ ← ft_close s;
      mret ret
  end.

(** The loop of [n] punch packets. *)
Fixpoint send_punches (n : nat) (udp : Z) (us : Z) (sa : sockaddr_in) : st W unit :=
  match n with
  | O => mret tt
  | S n' =>
      _ ← call (Sendto udp (str "PUNCH") sa);
      _ ← call (Usleep us);
      send_punches n' udp us sa
  end.

(** The common part of both punches: the TCP socket, bound to a port of the
    kernel's choice, the UDP packets from the same port, the connect. *)
Definition punch_connect (packets : nat) (us : Z) (peer_sa : sockaddr_in) : st W Z :=
  sock ← call (Socket true);
  if sock =? FT_INVALID_SOCK then mret FT_INVALID_SOCK else
  _ ← call (Setsockopt sock SO_REUSEADDR 1);
  _ ← call (Setsockopt sock SO_REUSEPORT 1);
  _ ← call (Bind sock (MkAddr INADDR_ANY 0));
  port ← call (Getsockport sock);
  udp ← call (Socket false);
  _ ← (if udp =? FT_INVALID_SOCK then mret tt else
         _ ← call (Setsockopt udp SO_REUSEADDR 1);
         _ ← call (Setsockopt udp SO_REUSEPORT 1);
         _ ← call (Bind udp (MkAddr INADDR_ANY port));
         _ ← send_punches packets udp us peer_sa;
         ft_close udp);
  _ ← ft_set_nonblocking sock;
  _ ← call (Connect sock peer_sa);
  mret sock.

(** [ft_nat_punch_start(peer_public_addr, ...)] *)
Definition ft_nat_punch_start (peer_public_addr : bytes) : st W Z :=
  match ft_parse_addr peer_public_addr with
  | None => mret FT_INVALID_SOCK
  | Some peer_sa => punch_connect 3 20000 peer_sa
  end.

(** [ft_nat_punch(peer_public_addr, ..., timeout_ms)] *)
Definition ft_nat_punch (peer_public_addr : bytes) (timeout_ms : Z) : st W Z :=
  match ft_parse_addr peer_public_addr with
  | None => mret FT_INVALID_SOCK
  | Some peer_sa =>
      sock ← punch_connect 5 50000 peer_sa;
      if sock =? FT_INVALID_SOCK then mret FT_INVALID_SOCK else
      '(n, revs) ← poll [(sock, POLLOUT)] timeout_ms;
      ok ← (if (0 <? n) && negb (Z.land (hd 0 revs) POLLOUT =? 0) then
              err ← call (GetSoError sock); mret (err =? 0)
            else mret false);
      if ok : bool then
        _ ← ft_set_blocking sock; _ ← ft_optimize_socket sock; mret sock
      else _ ← ft_close sock; mret FT_INVALID_SOCK
  end.
End Nat_.

Section NatOwns.
Context `{OsLaws W}.

Lemma send_punches_keeps n udp us sa : keeps (send_punches n udp us sa).
Proof. induction n as [|n IH]; cbn [send_punches]; eauto 20 with sc. Qed.

Lemma punch_connect_owns n us sa S : owns S (punch_connect n us sa) (yields S).
Proof.
  unfold punch_connect. own_step; [apply owns_ret; by left|].
  destruct (_ =? _) eqn:E; boolify; [unfold FT_INVALID_SOCK in *; lia|].
  do 4 own_step.
  assert (Hend : forall S', S' = {[r]} ∪ S ->
    owns S' (_ ← ft_set_nonblocking r; _ ← call (Connect r sa); mret r) (yields S)).
  { intros S' ->. do 2 own_step. apply owns_ret. right. auto. }
  own_step.
  - rewrite Z.eqb_refl. own_step. by apply Hend.
  - destruct (r0 =? _) eqn:E0; boolify; [unfold FT_INVALID_SOCK in *; lia|].
    eapply owns_bind with (R := fun _ S' => S' = {[r]} ∪ S); [|intros _ S' ->; by apply Hend].
    do 3 own_step. apply owns_keeps; [apply send_punches_keeps|intros _].
    intros w Hw.
    assert (Hc : owns ({[r0]} ∪ ({[r]} ∪ S)) (_ ← ft_close r0; mret tt) (fun _ S' => S' = {[r]} ∪ S)).
    { apply owns_close; [set_solver|]. rewrite decide_False by done. apply owns_ret. set_solver. }
    specialize (Hc w Hw). unfold mbind, st_bind in Hc. by destruct (ft_close r0 w).
Qed.
End NatOwns.

(** C35: No descriptor is leaked on any path, whatever the kernel answers to any
    call, errors included.  [ft_start_server], [ft_accept] and [ft_connect_any]
    either return [FT_INVALID_SOCK] with the same descriptors open as before,
    or one new descriptor and nothing else; every losing candidate is closed
    exactly once, and [ft_connect_any] gives up after [timeout_ms / 50] polls.
    [ft_discover_public] ends with the descriptors it started with
    (its UDP socket is closed on the error path of the name lookup too), and
    each hole punch returns [FT_INVALID_SOCK] with nothing left open or one new
    socket and nothing else; their UDP sockets are closed. *)
Theorem descriptors_not_leaked `{OsLaws W} S addrs sfd host udp_port local_port out_len peer timeout_ms :
  (owns S ft_start_server (fun r S' => yields S r.1 S')
   /\ owns S (ft_accept sfd timeout_ms) (yields S)
   /\ owns S (ft_connect_any addrs timeout_ms) (yields S)
   /\ forall (w : W) socks,
        (connect_loop (steps_fuel timeout_ms) 0 timeout_ms socks w).1 <> None)
  /\ owns S (ft_discover_public host udp_port local_port out_len) (fun _ S' => S' = S)
  /\ owns S (ft_nat_punch_start peer) (yields S)
  /\ owns S (ft_nat_punch peer timeout_ms) (yields S).
Proof.
  assert (Hinv : forall r : Z, 0 <= r -> r <> FT_INVALID_SOCK) by (unfold FT_INVALID_SOCK; lia).
  assert (Hback : forall r, r ∉ S -> ({[r]} ∪ S) ∖ {[r]} = S) by (intros; set_solver).
  split; [by apply sockets_owned|]. split_and!.
  - unfold ft_discover_public. own_step; [by apply owns_ret|].
    destruct (_ =? _) eqn:E; boolify; [by destruct (Hinv r)|]. do 3 own_step.
    assert (Hclose : forall v : option bytes,
      owns ({[r]} ∪ S) (_ ← ft_close r; mret v) (fun _ S' => S' = S)).
    { intros v. apply owns_close; [set_solver|]. rewrite decide_False, Hback by done. by apply owns_ret. }
    apply owns_keeps; [destruct (inet_pton host); eauto with sc|]. intros [a3|]; [|apply Hclose].
    do 2 own_step. destruct a4 as [n rv].
    apply owns_keeps; [destruct (0 <? n); [|done]; apply keeps_bind; [eauto with sc|]; intros [? ?];
      by destruct (0 <? _)|]. intros ret. apply Hclose.
  - unfold ft_nat_punch_start. destruct (ft_parse_addr peer); [apply punch_connect_owns|].
    apply owns_ret. by left.
  - unfold ft_nat_punch. destruct (ft_parse_addr peer) as [sa|]; [|apply owns_ret; by left].
    eapply owns_bind; [apply punch_connect_owns|]. intros sock S' Hs.
    destruct (sock =? _) eqn:E; boolify.
    + apply owns_ret. destruct Hs as [[_ ->]|[? _]]; [by left|done].
    + destruct Hs as [[? _]|(_ & Hn & ->)]; [done|]. own_step. destruct a as [n revs].
      apply owns_keeps; [destruct (_ && _); eauto with sc|]. intros [].
      * do 2 own_step. apply owns_ret. right. auto.
      * apply owns_close; [set_solver|]. rewrite decide_False, Hback by done. apply owns_ret. by left.
Qed.
