(* ===== verification/FtLan.v ===== *)
(** * The candidate race: common/ft/ft_lan.c

    The Linux branches of [ft_lan_transfer] and [ft_lan_transfer_auth]: the
    poll loop over a listening socket, the pending connects and an optional
    hole-punched socket. *)

From S2P Require Import Prelude CString Codec FtSocket FtOs FtAddr FtAuth.
From stdpp Require Import gmap.
Local Open Scope Z_scope.

Definition has_event (rev mask : Z) : bool := negb (Z.land rev mask =? 0).

(** The [pollfd] array both loops build: the listener, one entry per
    candidate (descriptor -1 for the ones that are gone), the NAT socket. *)
Definition lan_pollfds (listen_fd : Z) (conns : list Z) (nat_sock : Z) : list (Z * Z) :=
  (if listen_fd =? FT_INVALID_SOCK then [] else [(listen_fd, POLLIN)])
  ++ map (fun s => (s, POLLOUT)) conns
  ++ (if nat_sock =? FT_INVALID_SOCK then [] else [(nat_sock, POLLOUT)]).

Section Lan.
Context `{SockOps W, Os W, Hmac}.

(** The listener's part of an iteration without authentication. *)
Definition lan_accept (listen_fd : Z) (revs : list Z) : st W Z :=
  if listen_fd =? FT_INVALID_SOCK then mret FT_INVALID_SOCK
  else if has_event (hd 0 revs) POLLIN then call (Accept listen_fd)
  else mret FT_INVALID_SOCK.

(** [ft_lan_transfer]'s pass over the candidates: a connect that failed
    stays in the list. *)
Fixpoint lan_scan (conns revs : list Z) : st W (Z * list Z) :=
  match conns with
  | [] => mret (FT_INVALID_SOCK, [])
  | s :: ss =>
      let skip := '(r, ss') ← lan_scan ss (tl revs); mret (r, s :: ss') in
      if negb (s =? FT_INVALID_SOCK) && has_event (hd 0 revs) POLLOUT then
        err ← call (GetSoError s);
        if err =? 0 then mret (s, FT_INVALID_SOCK :: ss) else skip
      else skip
  end.

(** One iteration of [ft_lan_transfer]: the result, the candidates and the
    NAT socket afterwards. *)
Definition lan_iter (listen_fd : Z) (conns : list Z) (nat_sock : Z) : st W (Z * list Z * Z) :=
  '(_, revs) ← poll (lan_pollfds listen_fd conns nat_sock) step;
  c ← lan_accept listen_fd revs;
  let off := if listen_fd =? FT_INVALID_SOCK then 0%nat else 1%nat in
  if negb (c =? FT_INVALID_SOCK) then mret (c, conns, nat_sock) else
  '(r, conns') ← lan_scan conns (drop off revs);
  if negb (r =? FT_INVALID_SOCK) then mret (r, conns', nat_sock) else
  '(r, ss) ← lan_scan [nat_sock] (drop (off + length conns) revs);
  mret (r, conns', hd FT_INVALID_SOCK ss).

Fixpoint lan_loop (fuel : nat) (elapsed timeout_ms listen_fd : Z) (conns : list Z) (nat_sock : Z)
    : st W (option (Z * list Z * Z)) :=
  match fuel with
  | O => mret None
  | S fuel' =>
      if elapsed <? timeout_ms then
        '(result, conns, nat_sock) ← lan_iter listen_fd conns nat_sock;
        if result =? FT_INVALID_SOCK then
          lan_loop fuel' (elapsed + step) timeout_ms listen_fd conns nat_sock
        else mret (Some (result, conns, nat_sock))
      else mret (Some (FT_INVALID_SOCK, conns, nat_sock))
  end.

Definition unless_invalid (s : Z) (m : st W unit) : st W unit :=
  if s =? FT_INVALID_SOCK then mret tt else m.

(** [ft_lan_transfer(listen_fd, peer_addrs, peer_count, nat_sock, timeout_ms)] *)
Definition ft_lan_transfer (listen_fd : Z) (peer_addrs : list bytes) (nat_sock timeout_ms : Z) : st W Z :=
  conns ← start_connects peer_addrs;
  _ ← unless_invalid listen_fd (ft_set_nonblocking listen_fd);
  out ← lan_loop (steps_fuel timeout_ms) 0 timeout_ms listen_fd conns nat_sock;
  let '(result, conns, nat_sock) := default (FT_INVALID_SOCK, conns, nat_sock) out in
  _ ← close_all conns;
  _ ← ft_close nat_sock;
  _ ← unless_invalid listen_fd (ft_set_blocking listen_fd);
  finish result.

(** [try_authenticate(c, file_id, key_hex, is_sender)]: whether it
    returned 0. *)
Definition try_authenticate (file_id key_hex : bytes) (is_sender : bool) (c : Z) : st W bool :=
  _ ← ft_set_blocking c;
  _ ← ft_optimize_socket c;
  _ ← ft_set_sock_timeout c 2000;
  ok ← (if is_sender then ft_auth_send c file_id key_hex else ft_auth_recv c file_id key_hex);
  match ok with
  | Some _ => _ ← ft_set_sock_timeout c 0; mret true
  | None => _ ← ft_close c; mret false
  end.

(** The pass of [ft_lan_transfer_auth]: an event takes the candidate out of
    the list, as the result, or closed. *)
Fixpoint auth_scan (auth : Z -> st W bool) (conns revs : list Z) : st W (Z * list Z) :=
  match conns with
  | [] => mret (FT_INVALID_SOCK, [])
  | s :: ss =>
      let rest keep := '(r, ss') ← auth_scan auth ss (tl revs); mret (r, keep :: ss') in
      if negb (s =? FT_INVALID_SOCK)
         && has_event (hd 0 revs) (Z.lor POLLOUT (Z.lor POLLERR POLLHUP)) then
        err ← call (GetSoError s);
        if err =? 0 then
          ok ← auth s;
          if ok : bool then mret (s, FT_INVALID_SOCK :: ss) else rest FT_INVALID_SOCK
        else _ ← ft_close s; rest FT_INVALID_SOCK
      else rest s
  end.

Definition auth_accept (auth : Z -> st W bool) (listen_fd : Z) (revs : list Z) : st W Z :=
  if listen_fd =? FT_INVALID_SOCK then mret FT_INVALID_SOCK
  else if has_event (hd 0 revs) POLLIN then
    c ← call (Accept listen_fd);
    if c =? FT_INVALID_SOCK then mret FT_INVALID_SOCK
    else ok ← auth c; mret (if ok : bool then c else FT_INVALID_SOCK)
  else mret FT_INVALID_SOCK.

Definition auth_iter (auth : Z -> st W bool) (listen_fd : Z) (conns : list Z) (nat_sock poll_ms : Z)
    : st W (Z * list Z * Z) :=
  '(_, revs) ← poll (lan_pollfds listen_fd conns nat_sock) poll_ms;
  c ← auth_accept auth listen_fd revs;
  let off := if listen_fd =? FT_INVALID_SOCK then 0%nat else 1%nat in
  if negb (c =? FT_INVALID_SOCK) then mret (c, conns, nat_sock) else
  '(r, conns') ← auth_scan auth conns (drop off revs);
  if negb (r =? FT_INVALID_SOCK) then mret (r, conns', nat_sock) else
  '(r, ss) ← auth_scan auth [nat_sock] (drop (off + length conns) revs);
  mret (r, conns', hd FT_INVALID_SOCK ss).

(** The loop is bounded by the clock only: [None] when the fuel runs out
    before the deadline. *)
Fixpoint auth_loop (auth : Z -> st W bool) (fuel : nat) (t0 timeout_ms listen_fd : Z)
    (conns : list Z) (nat_sock : Z) : st W (option (Z * list Z * Z)) :=
  match fuel with
  | O => mret None
  | S fuel' =>
      now ← ft_now_ms;
      let remaining := timeout_ms - i32 (now - t0) in
      if remaining <=? 0 then mret (Some (FT_INVALID_SOCK, conns, nat_sock)) else
      '(result, conns, nat_sock) ← auth_iter auth listen_fd conns nat_sock (Z.min step remaining);
      if result =? FT_INVALID_SOCK then
        auth_loop auth fuel' t0 timeout_ms listen_fd conns nat_sock
      else mret (Some (result, conns, nat_sock))
  end.

(** [ft_lan_transfer_auth(...)]; [None] for null pointers. The result is
    [None] when [fuel] iterations did not reach the deadline. *)
Definition ft_lan_transfer_auth (fuel : nat) (listen_fd : Z) (peer_addrs : list bytes)
    (nat_sock timeout_ms : Z) (file_id key_hex : option bytes) (is_sender : bool)
    : st W (option Z) :=
  match file_id, key_hex with
  | Some fid, Some key =>
      if beq (default NUL (key !! 0%nat)) NUL then
        r ← ft_lan_transfer listen_fd peer_addrs nat_sock timeout_ms; mret (Some r)
      else
        conns ← start_connects peer_addrs;
        _ ← unless_invalid listen_fd (ft_set_nonblocking listen_fd);
        t0 ← ft_now_ms;
        out ← auth_loop (try_authenticate fid key is_sender) fuel t0 timeout_ms listen_fd conns nat_sock;
        match out with
        | None => mret None
        | Some (result, conns, nat_sock) =>
            _ ← close_all conns;
            _ ← ft_close nat_sock;
            mret (Some result)
        end
  | _, _ => r ← ft_lan_transfer listen_fd peer_addrs nat_sock timeout_ms; mret (Some r)
  end.
End Lan.

(** ** Ownership of the candidates *)

Lemma held_perm S l l' S' : l ≡ₚ l' -> held S l S' -> held S l' S'.
Proof.
  intros Hp (-> & Hd & Hall). assert (Hv : valid l ≡ₚ valid l') by (unfold valid; by rewrite Hp).
  split_and!.
  - apply set_eq. intros x. by rewrite !elem_of_union, !elem_of_list_to_set, Hv.
  - by rewrite <- Hv.
  - intros s Hs. apply Hall. by rewrite Hv.
Qed.

#[export] Instance held_proper : Proper ((=) ==> (≡ₚ) ==> (=) ==> iff) held.
Proof. intros S _ <- l l' Hl T _ <-. by split; apply held_perm. Qed.

(** One candidate becomes the result, or is closed. *)
Lemma held_win S pre s ss S' :
  s <> FT_INVALID_SOCK -> held S (pre ++ s :: ss) S' ->
  s ∉ S /\ s ∈ S' /\ held ({[s]} ∪ S) (pre ++ FT_INVALID_SOCK :: ss) S'.
Proof.
  intros Hs Hh. apply (held_perm _ _ (s :: pre ++ ss)) in Hh; [|by rewrite Permutation_middle].
  apply held_cons in Hh as [Hn Hh]; [|done]. split_and!; [done| |].
  - destruct Hh as [-> _]. set_solver.
  - apply (held_perm _ (FT_INVALID_SOCK :: pre ++ ss)); [by rewrite Permutation_middle|].
    by apply held_invalid.
Qed.

Lemma held_lose S pre s ss S' :
  s <> FT_INVALID_SOCK -> held S (pre ++ s :: ss) S' ->
  held S (pre ++ FT_INVALID_SOCK :: ss) (S' ∖ {[s]}).
Proof.
  intros Hs Hh. destruct (held_win _ _ _ _ _ Hs Hh) as (Hn & _ & Hw). by apply held_close.
Qed.

Lemma held_add S l S' r : r ∉ S' -> held S l S' -> r ∉ S /\ held ({[r]} ∪ S) l ({[r]} ∪ S').
Proof.
  intros Hr (-> & Hd & Hall). split; [set_solver|]. split_and!; [set_solver|done|].
  intros s Hs. specialize (Hall s Hs).
  assert (s <> r); [|set_solver]. intros ->. apply Hr, elem_of_union_r, elem_of_list_to_set, Hs.
Qed.

Section LanOwns.
Context `{OsLaws W, Hmac}.

(** What an iteration may end with: nothing, or a new descriptor with [P]. *)
Definition outcome (P : Z -> Prop) (S : gset Z) (r : Z) (l : list Z) (S' : gset Z) : Prop :=
  r = FT_INVALID_SOCK /\ held S l S'
  \/ r <> FT_INVALID_SOCK /\ r ∉ S /\ P r /\ held ({[r]} ∪ S) l S'.

Lemma accept_yields fd S : owns S (call (Accept fd)) (yields S).
Proof.
  intros w <-. destruct (call_open (Accept fd) w) as [[Hr Ho]|(Hr & Hn & Ho)].
  - left. auto.
  - right. split; [unfold FT_INVALID_SOCK; lia|]. auto.
Qed.

Lemma lan_accept_owns fd revs S : owns S (lan_accept fd revs) (yields S).
Proof.
  unfold lan_accept. destruct (_ =? _); [apply owns_ret; by left|].
  destruct (has_event _ _); [apply accept_yields|apply owns_ret; by left].
Qed.

Lemma lan_scan_owns S pre socks revs S' :
  held S (pre ++ socks) S' ->
  owns S' (lan_scan socks revs) (fun '(r, socks') S'' =>
    outcome (fun _ => True) S r (pre ++ socks') S'' /\ length socks' = length socks).
Proof.
  revert pre revs. induction socks as [|s ss IH]; intros pre revs Hh; cbn [lan_scan].
  - apply owns_ret. split; [by left|done].
  - assert (Hskip : owns S' ('(r, ss') ← lan_scan ss (tl revs); mret (r, s :: ss'))
      (fun '(r, socks') S'' => outcome (fun _ => True) S r (pre ++ socks') S''
         /\ length socks' = length (s :: ss))).
    { eapply owns_bind; [apply (IH (pre ++ [s])); by rewrite <- app_assoc|].
      intros [r ss'] S'' [Ho Hl]. apply owns_ret. rewrite <- app_assoc in Ho.
      split; [done|cbn; by rewrite Hl]. }
    destruct (negb _ && _) eqn:E; [|done]. apply andb_prop in E as [Es _]. boolify.
    own_step. destruct (_ =? 0); [|done]. destruct (held_win _ _ _ _ _ Es Hh) as (Hn & _ & Hw). apply owns_ret.
    split; [|done]. right. auto.
Qed.

Lemma lan_iter_owns listen_fd conns nat_sock S S' :
  held S (nat_sock :: conns) S' ->
  owns S' (lan_iter listen_fd conns nat_sock) (fun '(r, conns', nat') S'' =>
    outcome (fun _ => True) S r (nat' :: conns') S'').
Proof.
  intros Hh. unfold lan_iter. own_step. destruct a as [n revs].
  eapply owns_bind; [apply lan_accept_owns|]. intros c S1 Hc.
  destruct (c =? _) eqn:Ec; cbn [negb]; boolify.
  2:{ apply owns_ret. right. destruct Hc as [[? _]|(_ & Hn & ->)]; [done|].
      destruct (held_add _ _ _ _ Hn Hh). auto. }
  destruct Hc as [[_ ->]|[? _]]; [|done].
  eapply owns_bind; [by apply (lan_scan_owns S [nat_sock])|]. intros [r conns'] S2 [Ho _].
  destruct (r =? _) eqn:Er; cbn [negb]; boolify; [|by apply owns_ret].
  destruct Ho as [[_ Ho]|[? _]]; [|done].
  eapply owns_bind.
  { apply (lan_scan_owns S conns' [nat_sock]). eapply held_perm; [|exact Ho].
    cbn. by rewrite Permutation_cons_append. }
  intros [r' ss] S3 [Ho' Hl]. apply owns_ret.
  destruct ss as [|nat' [|]]; [done| |done]. cbn [hd].
  assert (Hp : conns' ++ [nat'] ≡ₚ nat' :: conns')
    by (symmetry; apply Permutation_cons_append).
  destruct Ho' as [[-> Ho']|(Hr & Hn & _ & Ho')]; [left|right]; split_and!; try done;
    by eapply held_perm.
Qed.

Lemma lan_loop_owns fuel elapsed timeout_ms listen_fd conns nat_sock S S' :
  held S (nat_sock :: conns) S' ->
  (1 <= fuel)%nat -> timeout_ms - elapsed <= step * (Z.of_nat fuel - 1) ->
  owns S' (lan_loop fuel elapsed timeout_ms listen_fd conns nat_sock) (fun out S'' =>
    exists r conns' nat', out = Some (r, conns', nat')
      /\ outcome (fun _ => True) S r (nat' :: conns') S'').
Proof.
  revert elapsed conns nat_sock S'. induction fuel as [|fuel IH];
    intros elapsed conns nat_sock S' Hh Hf1 Hf; [lia|]. cbn [lan_loop].
  destruct (_ <? _) eqn:E; boolify.
  2:{ apply owns_ret. do 3 eexists. split; [done|]. by left. }
  eapply owns_bind; [by apply lan_iter_owns|]. intros [[r conns'] nat'] S1 Ho.
  destruct (r =? _) eqn:Er; boolify.
  - destruct Ho as [[_ Ho]|[? _]]; [|done]. unfold step in *. apply IH; [done|lia..].
  - apply owns_ret. eauto 6.
Qed.

(** Closing what is left of the race. *)
Lemma close_race_owns {B} P S r conns nat_sock S' (f : unit -> st W B) (Q : B -> gset Z -> Prop) :
  outcome P S r (nat_sock :: conns) S' ->
  (forall S'', yields S r S'' -> (r <> FT_INVALID_SOCK -> P r) -> owns S'' (f tt) Q) ->
  owns S' (_ ← close_all conns; _ ← ft_close nat_sock; f tt) Q.
Proof.
  intros Ho Hf.
  assert (Hgen : forall T, held T (nat_sock :: conns) S' -> owns T (f tt) Q ->
    owns S' (_ ← close_all conns; _ ← ft_close nat_sock; f tt) Q).
  { intros T Hh Hk. destruct (decide (nat_sock = FT_INVALID_SOCK)) as [->|Hs].
    - apply (close_all_owns conns T S'); [done|]. apply owns_close; [done|].
      by rewrite decide_True by done.
    - apply held_cons in Hh as [Hn Hh]; [|done].
      apply (close_all_owns conns ({[nat_sock]} ∪ T) S'); [done|]. apply owns_close; [set_solver|].
      rewrite decide_False by done.
      by replace (({[nat_sock]} ∪ T) ∖ {[nat_sock]}) with T by set_solver. }
  destruct Ho as [[-> Hh]|(Hr & Hn & HP & Hh)]; (eapply Hgen; [exact Hh|]); apply Hf; try done.
  - by left.
  - right. auto.
Qed.

Lemma unless_invalid_keeps s m : keeps m -> keeps (unless_invalid s m).
Proof. intros Hm. unfold unless_invalid. by destruct (_ =? _). Qed.

Lemma start_race_owns addrs nat_sock S S' :
  held S [nat_sock] S' ->
  owns S' (start_connects addrs) (fun conns S'' => held S (nat_sock :: conns) S'').
Proof.
  intros Hh. eapply owns_conseq; [apply start_connects_owns|]. intros conns S'' Hc. cbn in Hc.
  destruct (decide (nat_sock = FT_INVALID_SOCK)) as [->|Hs].
  - by apply held_nil_inv in Hh as ->.
  - apply held_cons in Hh as [Hn Hh]; [|done]. apply held_nil_inv in Hh as ->.
    by apply held_cons.
Qed.

Lemma ft_lan_transfer_owns listen_fd addrs nat_sock timeout_ms S S' :
  held S [nat_sock] S' -> owns S' (ft_lan_transfer listen_fd addrs nat_sock timeout_ms) (yields S).
Proof.
  intros Hh. unfold ft_lan_transfer. eapply owns_bind; [by apply start_race_owns|]. intros conns S1 Hc.
  apply owns_keeps; [apply unless_invalid_keeps; eauto with sc|]. intros _.
  destruct (steps_fuel_enough timeout_ms) as [Hf1 Hf2].
  eapply owns_bind; [apply (lan_loop_owns _ 0 timeout_ms listen_fd conns nat_sock S S1 Hc Hf1 Hf2)|]. intros out S2 (r & conns' & nat' & -> & Ho).
  cbn [default from_option id].
  apply (close_race_owns (fun _ => True) S r conns' nat' S2 (fun _ => _ ← unless_invalid listen_fd _; finish r));
    [done|].
  intros S3 Hy _. apply owns_keeps; [apply unless_invalid_keeps; eauto with sc|]. intros _.
  eapply owns_conseq; [apply finish_owns|]. by intros r' S4 [-> ->].
Qed.
End LanOwns.

(** ** The authenticated race *)

Section AuthPreserves.
Context {W X : Type} `{SockOps W, Hmac} (f : W -> X).
Context (Hsend : forall s b n w, f (send s b n w).2 = f w).
Context (Hrecv : forall s n w, f (recv s n w).2 = f w).

Lemma preserves_auth_send s fid key : preserves f (ft_auth_send s fid key).
Proof.
  intros w. unfold ft_auth_send. destruct (ft_compute_hmac fid key) as [h|]; [|done].
  pose proof (preserves_send_all f s (str "AUTH" ++ h) Hsend w) as H1.
  destruct (ft_send_all s _ w) as [[u|] w1]; [|done].
  pose proof (preserves_recv_all f s 4 Hrecv w1) as H2.
  destruct (ft_recv_all s 4 w1) as [[resp|] w2]; cbn in *; [case_bool_decide|]; cbn; by rewrite H2, H1.
Qed.

Lemma preserves_auth_recv s fid key : preserves f (ft_auth_recv s fid key).
Proof.
  intros w. unfold ft_auth_recv, auth_fail.
  pose proof (preserves_recv_all f s 36 Hrecv w) as H1.
  destruct (ft_recv_all s 36 w) as [[buf|] w1]; [|done]. cbn in H1.
  pose proof (fun b => preserves_send_all f s b Hsend w1) as H2. rewrite H1 in H2.
  case_bool_decide; cbn [negb]; [|apply H2]. destruct (ft_compute_hmac fid key); [|apply H2].
  case_bool_decide; cbn [negb]; apply H2.
Qed.
End AuthPreserves.

Section AuthOwns.
Context `{OsLaws W, Hmac}.

(** The descriptor [r] went through the handshake successfully. *)
Definition authenticated (fid key : bytes) (is_sender : bool) (r : Z) : Prop :=
  exists w w', (if is_sender then ft_auth_send r fid key w else ft_auth_recv r fid key w)
               = (Some tt, w' : W).

Lemma try_authenticate_owns fid key is_sender c S :
  c <> FT_INVALID_SOCK -> c ∈ S ->
  owns S (try_authenticate fid key is_sender c) (fun ok S' =>
    if ok : bool then S' = S /\ authenticated fid key is_sender c else S' = S ∖ {[c]}).
Proof.
  intros Hc Hin. unfold try_authenticate. do 3 own_step.
  eapply owns_bind with (R := fun ok S' => S' = S
    /\ (ok <> None -> authenticated fid key is_sender c)).
  - intros w Hw. rewrite <- Hw. split.
    + destruct is_sender.
      * apply (preserves_auth_send open); intros; [apply send_open|apply recv_open].
      * apply (preserves_auth_recv open); intros; [apply send_open|apply recv_open].
    + intros Hok. exists w. destruct is_sender.
      * destruct (ft_auth_send c fid key w) as [[[]|] w1]; [eauto|done].
      * destruct (ft_auth_recv c fid key w) as [[[]|] w1]; [eauto|done].
  - intros [u|] S' [-> Ha].
    + own_step. apply owns_ret. auto.
    + apply owns_close; [done|]. rewrite decide_False by done. by apply owns_ret.
Qed.

Context (P : Z -> Prop) (auth : Z -> st W bool).
Context (Hauth : forall c S, c <> FT_INVALID_SOCK -> c ∈ S ->
  owns S (auth c) (fun ok S' => if ok : bool then S' = S /\ P c else S' = S ∖ {[c]})).

(** A new descriptor that passed, or nothing. *)
Definition yieldsP (S : gset Z) (r : Z) (S' : gset Z) : Prop :=
  yields S r S' /\ (r <> FT_INVALID_SOCK -> P r).

Lemma auth_accept_owns listen_fd revs S : owns S (auth_accept auth listen_fd revs) (yieldsP S).
Proof.
  assert (Hno : forall S', S' = S -> owns S' (mret FT_INVALID_SOCK : st W Z) (yieldsP S)).
  { intros S' ->. apply owns_ret. split; [by left|done]. }
  unfold auth_accept. destruct (_ =? _); [by apply Hno|].
  destruct (has_event _ _); [|by apply Hno]. own_step; [by apply Hno|].
  assert (Hr : r <> FT_INVALID_SOCK) by (unfold FT_INVALID_SOCK; lia).
  destruct (r =? _) eqn:E; boolify; [done|].
  eapply owns_bind; [apply (Hauth r); [done|set_solver]|]. intros [] S' Ho.
  - destruct Ho as [-> HP]. apply owns_ret. split; [right; auto|done].
  - apply Hno. set_solver.
Qed.

Lemma auth_scan_owns S pre socks revs S' :
  held S (pre ++ socks) S' ->
  owns S' (auth_scan auth socks revs) (fun '(r, socks') S'' =>
    outcome P S r (pre ++ socks') S'' /\ length socks' = length socks).
Proof.
  revert pre revs S'. induction socks as [|s ss IH]; intros pre revs S' Hh; cbn [auth_scan].
  - apply owns_ret. split; [by left|done].
  - assert (Hrest : forall keep S1, held S (pre ++ keep :: ss) S1 ->
      owns S1 ('(r, ss') ← auth_scan auth ss (tl revs); mret (r, keep :: ss'))
        (fun '(r, socks') S'' => outcome P S r (pre ++ socks') S''
           /\ length socks' = length (s :: ss))).
    { intros keep S1 Hk. eapply owns_bind; [apply (IH (pre ++ [keep])); by rewrite <- app_assoc|].
      intros [r ss'] S'' [Ho Hl]. apply owns_ret. rewrite <- app_assoc in Ho.
      split; [done|cbn; by rewrite Hl]. }
    destruct (negb _ && _) eqn:E; [|by apply Hrest]. apply andb_prop in E as [Es _]. boolify.
    destruct (held_win _ _ _ _ _ Es Hh) as (Hn & Hin & Hw).
    pose proof (held_lose _ _ _ _ _ Es Hh) as Hl. own_step. destruct (_ =? 0).
    + eapply owns_bind; [by apply Hauth|]. intros [] S1 Ho; [|by subst S1; apply Hrest].
      destruct Ho as [-> HP]. apply owns_ret. split; [|done]. right. auto.
    + apply owns_close; [done|]. rewrite decide_False by done. by apply Hrest.
Qed.

Lemma auth_iter_owns listen_fd conns nat_sock ms S S' :
  held S (nat_sock :: conns) S' ->
  owns S' (auth_iter auth listen_fd conns nat_sock ms) (fun '(r, conns', nat') S'' =>
    outcome P S r (nat' :: conns') S'').
Proof.
  intros Hh. unfold auth_iter. own_step. destruct a as [n revs].
  eapply owns_bind; [apply auth_accept_owns|]. intros c S1 [Hc HP].
  destruct (c =? _) eqn:Ec; cbn [negb]; boolify.
  2:{ apply owns_ret. right. destruct Hc as [[? _]|(_ & Hn & ->)]; [done|].
      destruct (held_add _ _ _ _ Hn Hh). auto. }
  destruct Hc as [[_ ->]|[? _]]; [|done].
  eapply owns_bind; [by apply (auth_scan_owns S [nat_sock])|]. intros [r conns'] S2 [Ho _].
  destruct (r =? _) eqn:Er; cbn [negb]; boolify; [|by apply owns_ret].
  destruct Ho as [[_ Ho]|[? _]]; [|done].
  eapply owns_bind.
  { apply (auth_scan_owns S conns' [nat_sock]). eapply held_perm; [|exact Ho].
    cbn. by rewrite Permutation_cons_append. }
  intros [r' ss] S3 [Ho' Hl]. apply owns_ret.
  destruct ss as [|nat' [|]]; [done| |done]. cbn [hd].
  assert (Hp : conns' ++ [nat'] ≡ₚ nat' :: conns') by (symmetry; apply Permutation_cons_append).
  destruct Ho' as [[-> Ho']|(Hr & Hn & HPr & Ho')]; [left|right]; split_and!; try done;
    by eapply held_perm.
Qed.

Lemma auth_loop_owns fuel t0 timeout_ms listen_fd conns nat_sock S S' :
  held S (nat_sock :: conns) S' ->
  owns S' (auth_loop auth fuel t0 timeout_ms listen_fd conns nat_sock) (fun out S'' =>
    forall r conns' nat', out = Some (r, conns', nat') -> outcome P S r (nat' :: conns') S'').
Proof.
  revert conns nat_sock S'. induction fuel as [|fuel IH];
    intros conns nat_sock S' Hh; cbn [auth_loop]; [by apply owns_ret|].
  own_step. destruct (_ <=? 0).
  { apply owns_ret. intros r c n [= <- <- <-]. by left. }
  eapply owns_bind; [by apply auth_iter_owns|]. intros [[r conns'] nat'] S1 Ho.
  destruct (r =? _) eqn:Er; boolify.
  - destruct Ho as [[_ Ho]|[? _]]; [|done]. by apply IH.
  - apply owns_ret. by intros ? ? ? [= <- <- <-].
Qed.

(** The loop ends before the deadline plus one iteration, when the clock
    moves. *)
Context (time : W -> Z) (Htime : forall w, ft_now_ms w = (time w, w)).
Context (listen_fd : Z) (Hiter : forall conns nat_sock ms w, ms <= step ->
  time w + 1 <= time (auth_iter auth listen_fd conns nat_sock ms w).2 <= time w + 2 ^ 30).

Lemma auth_loop_total fuel t0 timeout_ms conns nat_sock w :
  timeout_ms <= 2 ^ 30 -> t0 <= time w <= t0 + 2 ^ 31 - 1 ->
  (1 <= fuel)%nat -> timeout_ms - (time w - t0) <= Z.of_nat fuel - 1 ->
  (auth_loop auth fuel t0 timeout_ms listen_fd conns nat_sock w).1 <> None.
Proof.
  intros Hmax. revert conns nat_sock w. induction fuel as [|fuel IH];
    intros conns nat_sock w Hw Hf1 Hf; [lia|]. cbn [auth_loop].
  unfold mbind, st_bind. rewrite Htime. rewrite i32_id by (unfold INT_MIN, INT_MAX; lia).
  destruct (_ <=? 0) eqn:E; [done|]. boolify.
  pose proof (Hiter conns nat_sock (Z.min step (timeout_ms - (time w - t0))) w ltac:(lia)) as Hi.
  destruct (auth_iter _ _ _ _ _ w) as [[[r conns'] nat'] w1]. cbn in Hi.
  destruct (r =? _); [|done]. apply IH; lia.
Qed.
End AuthOwns.

(** What no call but [poll] changes, an iteration changes only there. *)
Section IterPreserves.
Context {W X : Type} `{SockOps W, Os W, Hmac} (f : W -> X).
Context (Hcall : forall c w, f (call c w).2 = f w).
Context (Hsend : forall s b n w, f (send s b n w).2 = f w).
Context (Hrecv : forall s n w, f (recv s n w).2 = f w).

Lemma preserves_call c : preserves f (call c).
Proof. intros w. apply Hcall. Qed.

Ltac pres := repeat first [ apply preserves_ret | apply preserves_call
  | apply preserves_bind; [|intros ?] | case_match ].

Lemma preserves_close s : preserves f (ft_close s).
Proof. unfold ft_close. pres. Qed.

Lemma preserves_try fid key snd c : preserves f (try_authenticate fid key snd c).
Proof.
  unfold try_authenticate, ft_set_blocking, ft_optimize_socket, ft_set_sock_timeout.
  apply preserves_bind; [pres|intros _]. apply preserves_bind; [pres|intros _].
  apply preserves_bind; [pres|intros _].
  apply preserves_bind; [destruct snd; [by apply preserves_auth_send|by apply preserves_auth_recv]|].
  intros [u|]; apply preserves_bind; try (intros; apply preserves_ret); [pres|apply preserves_close].
Qed.

Context (auth : Z -> st W bool) (Hauth : forall c, preserves f (auth c)).

Lemma preserves_auth_scan socks revs : preserves f (auth_scan auth socks revs).
Proof.
  revert revs. induction socks as [|s ss IH]; intros revs; cbn [auth_scan]; [done|].
  assert (Hrest : forall keep, preserves f ('(r, ss') ← auth_scan auth ss (tl revs); mret (r, keep :: ss')))
    by (intros keep; apply preserves_bind; [apply IH|intros [? ?]; done]).
  case_match; [|apply Hrest]. apply preserves_bind; [apply preserves_call|intros err].
  case_match; (apply preserves_bind; [first [apply Hauth|apply preserves_close]|]).
  - intros []; [done|apply Hrest].
  - intros _. apply Hrest.
Qed.

Lemma iter_changes_in_poll listen_fd conns nat_sock ms w :
  f (auth_iter auth listen_fd conns nat_sock ms w).2
  = f (poll (lan_pollfds listen_fd conns nat_sock) ms w).2.
Proof.
  unfold auth_iter. unfold mbind at 1, st_bind at 1.
  destruct (poll _ ms w) as [[n revs] w1]. cbn [snd]. revert w1. apply preserves_bind.
  - unfold auth_accept. pres; auto.
  - intros c. case_match; [done|]. apply preserves_bind; [apply preserves_auth_scan|].
    intros [r conns']. case_match; [done|].
    apply preserves_bind; [apply preserves_auth_scan|by intros [? ?]].
Qed.
End IterPreserves.

(** ** Properties *)

Lemma ft_lan_transfer_auth_owns `{OsLaws W, Hmac} S S' listen_fd addrs nat_sock timeout_ms fuel fid key is_sender :
  held S [nat_sock] S' ->
  owns S' (ft_lan_transfer_auth fuel listen_fd addrs nat_sock timeout_ms (Some fid) (Some key) is_sender)
    (fun out S'' => forall r, out = Some r -> yields S r S''
       /\ (default NUL (key !! 0%nat) <> NUL -> r <> FT_INVALID_SOCK -> authenticated fid key is_sender r)).
Proof.
  intros Hnat. unfold ft_lan_transfer_auth.
  destruct (beq_spec (default NUL (key !! 0%nat)) NUL) as [Hk|Hk].
  { eapply owns_bind; [by apply ft_lan_transfer_owns|]. intros r S1 Hy. apply owns_ret. by intros r' [= <-]. }
  eapply owns_bind; [by apply start_race_owns|]. intros conns S1 Hc.
  apply owns_keeps; [apply unless_invalid_keeps; eauto with sc|]. intros _. own_step.
  eapply owns_bind.
  { apply (auth_loop_owns (authenticated fid key is_sender)); [|exact Hc].
    intros c T Hcv Hin. by apply try_authenticate_owns. }
  intros [[[r conns'] nat']|] S2 Ho; [|by apply owns_ret].
  apply (close_race_owns (authenticated fid key is_sender) S r conns' nat' S2 (fun _ => mret (Some r)));
    [by apply Ho|].
  intros S3 Hy HP. apply owns_ret. intros r' [= <-]. done.
Qed.


(** The race over the simulated kernel: descriptor 3 is the listener, 4 the
    hole-punched socket; the first candidate is refused, the second connects. *)
Definition race_kernel : Kernel :=
  {| net := {| out_ := ∅; in_ := {[6 := str "AKOK"]}; cut := fun _ => 0%nat; tick := 0; down := false |};
     fds := {[0; 1; 2; 3; 4]}; next_fd := 5; clock := 1000;
     ready := fun fd => if fd =? 5 then POLLERR else if fd =? 6 then POLLOUT else 0;
     so_error := fun fd => if fd =? 5 then 111 else 0; backlog := 0 |}.

Definition race_addrs : list bytes := [str "10.0.0.1:9000"; str "10.0.0.2:9000"].



