(* ===== verification/SendQueue.v ===== *)
(** * The outgoing message queue: linux/main.c

    [queue_send] and the WRITEABLE callback share a linked list under
    [g_send_lock]; both critical sections are single steps here. The nodes live
    in a heap, so that the pointer surgery is what is verified. *)

From S2P Require Import Prelude CString.
From stdpp Require Import gmap.

Definition loc := positive.

(** [SendNode]; [msg] is [None] when [strdup] failed. *)
Record SendNode := MkNode { msg : option bytes; next : option loc }.

Record Queue := MkQueue {
  heap : gmap loc SendNode;
  g_send_head : option loc;
  g_send_tail : option loc;
  g_wsi : bool;           (** a connection exists *)
  writable_asked : bool;  (** [lws_callback_on_writable] is pending *)
  written : list bytes    (** the messages given to [lws_write] *) }.

Definition empty_queue : Queue := MkQueue ∅ None None false false [].

Definition set_next (n : option loc) (node : SendNode) : SendNode := MkNode (msg node) n.

(** [queue_send(m)]: [l] is the block [malloc] returned, [None] when it
    failed; [dup] tells whether [strdup] succeeded. *)
Definition queue_send (m : bytes) (l : option loc) (dup : bool) (q : Queue) : Queue :=
  match l with
  | None => q
  | Some l =>
      let node := MkNode (if dup then Some m else None) None in
      let h := <[l := node]> (heap q) in
      let '(h, head) :=
        match g_send_tail q with
        | Some t => (alter (set_next (Some l)) t h, g_send_head q)
        | None => (h, Some l)
        end in
      MkQueue h head (Some l) (g_wsi q) (g_wsi q || writable_asked q) (written q)
  end.

(** The WRITEABLE case of [ws_callback]; [buf_ok] tells whether the buffer for
    [lws_write] could be allocated. [None] is a crash: a dangling head, or
    [strlen] of a null message. *)
Definition on_writeable (buf_ok : bool) (q : Queue) : option Queue :=
  match g_send_head q with
  | None => Some (MkQueue (heap q) None (g_send_tail q) (g_wsi q) false (written q))
  | Some l =>
      node ← heap q !! l;
      m ← msg node;
      let head := next node in
      let tail := match head with None => None | Some _ => g_send_tail q end in
      let has_more := bool_decide (head <> None) in
      Some (MkQueue (delete l (heap q)) head tail (g_wsi q) has_more
              (if buf_ok then written q ++ [m] else written q))
  end.

(** The connection comes up ([lws_client_connect_via_info], then the
    ESTABLISHED case, which queues the hello) and goes down (CLOSED or
    CONNECTION_ERROR). *)
Definition on_connecting (q : Queue) : Queue :=
  MkQueue (heap q) (g_send_head q) (g_send_tail q) true false (written q).

Definition on_closed (q : Queue) : Queue :=
  MkQueue (heap q) (g_send_head q) (g_send_tail q) false false (written q).

(** ** The queue as a list *)

(** The nodes from [head] on, at the locations [ls] with the messages [ms]. *)
Fixpoint chain (h : gmap loc SendNode) (head : option loc) (ls : list loc) (ms : list bytes) : Prop :=
  match ls, ms with
  | [], [] => head = None
  | l :: ls', m :: ms' =>
      head = Some l /\ exists n, h !! l = Some (MkNode (Some m) n) /\ chain h n ls' ms'
  | _, _ => False
  end.

(** The heap is exactly the chain, and [g_send_tail] its last node. *)
Definition queue_rep (q : Queue) (ms : list bytes) : Prop :=
  exists ls, chain (heap q) (g_send_head q) ls ms /\ NoDup ls
    /\ g_send_tail q = last ls /\ dom (heap q) = list_to_set ls.

Lemma chain_length h head ls ms : chain h head ls ms -> length ls = length ms.
Proof.
  revert head ms. induction ls as [|l ls IH]; intros head [|m ms] Hc; try done.
  destruct Hc as (_ & n & _ & Hc). cbn. f_equal. by eapply IH.
Qed.

(** Blocks outside the chain do not matter. *)
Lemma chain_frame h h' head ls ms :
  (forall l, l ∈ ls -> h' !! l = h !! l) -> chain h head ls ms -> chain h' head ls ms.
Proof.
  revert head ms. induction ls as [|l ls IH]; intros head [|m ms] Hf Hc; try done.
  destruct Hc as (-> & n & Hl & Hc). split; [done|]. exists n.
  split; [by rewrite Hf by left|]. apply IH; [|done]. intros l' Hl'. apply Hf. by right.
Qed.

(** Linking a new last node. *)
Lemma chain_snoc h head ls ms l m :
  chain h head ls ms -> NoDup ls -> l ∉ ls -> h !! l = Some (MkNode (Some m) None) ->
  chain (match last ls with Some t => alter (set_next (Some l)) t h | None => h end)
    (match last ls with Some _ => head | None => Some l end) (ls ++ [l]) (ms ++ [m]).
Proof.
  revert head ms. induction ls as [|l1 ls IH]; intros head ms Hc Hd Hn Hl.
  - destruct ms; [|done]. cbn. eauto.
  - destruct ms as [|m1 ms]; [done|]. destruct Hc as (-> & n & Hl1 & Hc).
    apply NoDup_cons in Hd as [Hn1 Hd]. apply not_elem_of_cons in Hn as [Hne Hn].
    destruct ls as [|l2 ls].
    + destruct ms; [|done]. cbn in Hc. subst n. cbn. split; [done|].
      exists (Some l). rewrite lookup_alter_eq, Hl1. cbn. split; [done|].
      split; [done|]. exists None. by rewrite lookup_alter_ne by done.
    + specialize (IH n ms Hc Hd Hn Hl).
      assert (Hlast : last (l1 :: l2 :: ls) = last (l2 :: ls)) by done. rewrite Hlast.
      destruct (last (l2 :: ls)) as [t|] eqn:Et; [|by apply last_None in Et].
      split; [done|]. exists n. split; [|done].
      assert (t <> l1) by (intros ->; apply Hn1; by apply last_Some_elem_of).
      by rewrite lookup_alter_ne.
Qed.

Lemma queue_rep_empty : queue_rep empty_queue [].
Proof. exists []. split_and!; [done|constructor|done|set_solver]. Qed.

Lemma queue_send_rep q ms m l :
  queue_rep q ms -> heap q !! l = None -> queue_rep (queue_send m (Some l) true q) (ms ++ [m]).
Proof.
  intros (ls & Hc & Hd & Ht & Hdom) Hl.
  assert (Hn : l ∉ ls).
  { intros Hin. apply not_elem_of_dom in Hl. rewrite Hdom in Hl. apply Hl.
    by apply elem_of_list_to_set. }
  assert (Hc' : chain (<[l:=MkNode (Some m) None]> (heap q)) (g_send_head q) ls ms).
  { eapply chain_frame; [|exact Hc]. intros l' Hl'. apply lookup_insert_ne. by intros ->. }
  pose proof (chain_snoc _ _ _ _ l m Hc' Hd Hn (lookup_insert_eq _ _ _)) as Hs.
  unfold queue_send. rewrite Ht in *. exists (ls ++ [l]).
  assert (Hheap : dom (<[l:=MkNode (Some m) None]> (heap q)) = list_to_set (ls ++ [l])).
  { rewrite dom_insert_L, Hdom, list_to_set_app_L. cbn. set_solver. }
  destruct (last ls) as [t|]; cbn [heap g_send_head g_send_tail]; split_and!; try done.
  all: try (apply NoDup_app; split_and!; [done|set_solver|apply NoDup_singleton]).
  all: try (by rewrite last_snoc).
  by rewrite dom_alter_L.
Qed.

(** Taking the first node out: its message is the oldest one, its block is
    freed, and a further callback is asked for exactly when more is queued. *)
Lemma on_writeable_rep q m ms :
  queue_rep q (m :: ms) ->
  exists q', on_writeable true q = Some q' /\ queue_rep q' ms
    /\ written q' = written q ++ [m] /\ (writable_asked q' = true <-> ms <> []) /\ g_wsi q' = g_wsi q.
Proof.
  intros (ls & Hc & Hd & Ht & Hdom). destruct ls as [|l ls]; [done|].
  destruct Hc as (Hh & n & Hl & Hc). apply NoDup_cons in Hd as [Hn Hd].
  unfold on_writeable. rewrite Hh, Hl. cbn. eexists. split; [done|]. cbn. split_and!; try done.
  - exists ls. cbn. split_and!; try done.
    + eapply chain_frame; [|exact Hc]. intros l' Hl'. apply lookup_delete_ne. by intros ->.
    + destruct ls as [|l2 ls].
      * destruct ms; [|done]. by cbn in Hc; subst n.
      * destruct ms; [done|]. destruct Hc as (-> & _). by rewrite Ht.
    + rewrite dom_delete_L, Hdom. set_solver.
  - rewrite bool_decide_eq_true. destruct ls as [|l2 ls], ms as [|m2 ms]; try done.
    destruct Hc as (-> & _). done.
Qed.

Lemma on_writeable_nil q :
  queue_rep q [] -> exists q', on_writeable true q = Some q' /\ queue_rep q' []
    /\ written q' = written q /\ writable_asked q' = false /\ g_wsi q' = g_wsi q.
Proof.
  intros (ls & Hc & Hd & Ht & Hdom). destruct ls as [|l ls]; [|done]. cbn in Hc.
  unfold on_writeable. rewrite Hc. eexists. split; [done|]. cbn. split_and!; try done.
  exists []. done.
Qed.

(** ** Histories *)

Inductive event :=
| Enqueue (m : bytes) (l : loc)   (** [queue_send], from any thread *)
| Connecting
| Established (hello : bytes) (l : loc)
| Closed
| Writeable.

(** The library calls back only where it was asked to, on a live connection;
    [malloc] returns blocks that are not in use. *)
Definition enabled (q : Queue) (e : event) : Prop :=
  match e with
  | Enqueue _ l => heap q !! l = None
  | Connecting => g_wsi q = false
  | Established _ l => g_wsi q = true /\ heap q !! l = None
  | Closed => g_wsi q = true
  | Writeable => g_wsi q = true /\ writable_asked q = true
  end.

Definition queue_step (q : Queue) (e : event) : option Queue :=
  match e with
  | Enqueue m l | Established m l => Some (queue_send m (Some l) true q)
  | Connecting => Some (on_connecting q)
  | Closed => Some (on_closed q)
  | Writeable => on_writeable true q
  end.

Inductive history : Queue -> list event -> Queue -> Prop :=
| history_nil : history empty_queue [] empty_queue
| history_snoc es q e q' :
    history empty_queue es q -> enabled q e -> queue_step q e = Some q' ->
    history empty_queue (es ++ [e]) q'.

(** What was handed to [queue_send], in order. *)
Definition queued (es : list event) : list bytes :=
  concat (map (fun e => match e with Enqueue m _ | Established m _ => [m] | _ => [] end) es).

(** Whether the connection is established since it last came up. *)
Fixpoint established (es : list event) (acc : bool) : bool :=
  match es with
  | [] => acc
  | Established _ _ :: es' => established es' true
  | Connecting :: es' | Closed :: es' => established es' false
  | _ :: es' => established es' acc
  end.

Lemma queued_app es e : queued (es ++ [e]) = queued es ++ queued [e].
Proof. unfold queued. by rewrite map_app, concat_app. Qed.

Lemma established_app es e acc : established (es ++ [e]) acc = established [e] (established es acc).
Proof. revert acc. induction es as [|e' es IH]; intros acc; [done|]. destruct e'; cbn; apply IH. Qed.

Lemma history_inv es q :
  history empty_queue es q ->
  exists ms, queue_rep q ms /\ queued es = written q ++ ms
    /\ (established es false = true -> g_wsi q = true /\ (ms <> [] -> writable_asked q = true)).
Proof.
  induction 1 as [|es q e q' _ IH Hen Hs].
  - exists []. split_and!; [apply queue_rep_empty|done|done].
  - destruct IH as (ms & Hr & Hq & He). rewrite queued_app, established_app, Hq.
    assert (Hsend : forall m l, heap q !! l = None -> q' = queue_send m (Some l) true q ->
      exists ms', queue_rep q' ms' /\ (written q ++ ms) ++ [m] = written q' ++ ms'
        /\ g_wsi q' = g_wsi q /\ (g_wsi q = true -> writable_asked q' = true)).
    { intros m l Hl ->. exists (ms ++ [m]). split; [by apply queue_send_rep|].
      unfold queue_send. destruct (g_send_tail q); cbn; rewrite <- app_assoc;
        (split_and!; [done..|]; by intros ->). }
    destruct e as [m l| |m l| |]; cbn [enabled queue_step] in *.
    + injection Hs as <-. destruct (Hsend m l Hen eq_refl) as (ms' & Hr' & Hq' & Hw & Ha).
      exists ms'. split_and!; [done|done|]. cbn. intros Hest. destruct (He Hest) as [Hw1 _].
      split; [by rewrite Hw|]. intros _. by apply Ha.
    + injection Hs as <-. exists ms. split_and!; [exact Hr|by cbn; rewrite app_nil_r|done].
    + injection Hs as <-. destruct Hen as [Hwsi Hl].
      destruct (Hsend m l Hl eq_refl) as (ms' & Hr' & Hq' & Hw & Ha).
      exists ms'. split_and!; [done|done|]. intros _. split; [by rewrite Hw|]. intros _. by apply Ha.
    + injection Hs as <-. exists ms. split_and!; [exact Hr|by cbn; rewrite app_nil_r|done].
    + destruct ms as [|m ms].
      * destruct (on_writeable_nil q Hr) as (q1 & E & Hr' & Hw & Ha & Hg). rewrite E in Hs.
        injection Hs as ->. exists []. split_and!; [done| |].
        -- cbn. by rewrite Hw, !app_nil_r.
        -- intros Hest. rewrite Hg. split; [apply Hen|done].
      * destruct (on_writeable_rep q m ms Hr) as (q1 & E & Hr' & Hw & Ha & Hg). rewrite E in Hs.
        injection Hs as ->. exists ms. split_and!; [done| |].
        -- cbn. by rewrite Hw, app_nil_r, <- app_assoc.
        -- intros Hest. rewrite Hg. split; [apply Hen|]. intros Hne. by apply Ha.
Qed.

(** The step of every enabled event exists: no crash. *)
Lemma history_progress es q e :
  history empty_queue es q -> enabled q e -> exists q', queue_step q e = Some q'.
Proof.
  intros Hh Hen. destruct (history_inv es q Hh) as (ms & Hr & _).
  destruct e; cbn; eauto. destruct ms as [|m ms].
  - destruct (on_writeable_nil q Hr) as (q1 & E & _). eauto.
  - destruct (on_writeable_rep q m ms Hr) as (q1 & E & _). eauto.
Qed.

(** ** Properties *)

(** C27: The linked list is a FIFO queue: in every history of enqueues (from
    any thread, at any time), connections, disconnections and WRITEABLE
    callbacks, the pointers stay a well-formed list with no leaked and no
    dangling node, the messages written to the server are exactly the queued
    ones in their order (none lost, none repeated, across reconnects too), the
    rest is still queued, and no callback crashes. *)
Theorem queue_fifo es q (Hh : history empty_queue es q) :
  exists ms, queue_rep q ms /\ queued es = written q ++ ms
    /\ forall e, enabled q e -> exists q', queue_step q e = Some q'.
Proof.
  destruct (history_inv es q Hh) as (ms & Hr & Hq & _). exists ms. split_and!; [done..|].
  intros e. by apply (history_progress es).
Qed.

Definition example_history : list event :=
  [Enqueue (str "early") 1%positive; Connecting; Established (str "hello") 2%positive; Writeable; Closed;
   Connecting; Enqueue (str "late") 1%positive; Established (str "hello") 3%positive; Writeable; Writeable].

(** A history, checked event by event. *)
Definition enabledb (q : Queue) (e : event) : bool :=
  match e with
  | Enqueue _ l => bool_decide (heap q !! l = None)
  | Connecting => negb (g_wsi q)
  | Established _ l => g_wsi q && bool_decide (heap q !! l = None)
  | Closed => g_wsi q
  | Writeable => g_wsi q && writable_asked q
  end.

Fixpoint run (q : Queue) (es : list event) : option Queue :=
  match es with
  | [] => Some q
  | e :: es' => if enabledb q e then q' ← queue_step q e; run q' es' else None
  end.

Lemma enabledb_ok q e : enabledb q e = true -> enabled q e.
Proof.
  destruct e; cbn; rewrite ?andb_true_iff, ?negb_true_iff, ?bool_decide_eq_true; done.
Qed.

Lemma run_history es0 q es q' :
  history empty_queue es0 q -> run q es = Some q' -> history empty_queue (es0 ++ es) q'.
Proof.
  revert es0 q. induction es as [|e es IH]; intros es0 q Hh Hr; cbn [run] in Hr.
  - injection Hr as ->. by rewrite app_nil_r.
  - destruct (enabledb q e) eqn:E; [|done]. apply enabledb_ok in E.
    destruct (queue_step q e) as [q1|] eqn:Es; [|done]. cbn in Hr.
    replace (es0 ++ e :: es) with ((es0 ++ [e]) ++ es) by by rewrite <- app_assoc.
    eapply IH; [|exact Hr]. by eapply history_snoc.
Qed.

Lemma queue_fifo_witness :
  exists q, written q = [str "early"; str "hello"; str "late"] /\
  exists ms, queue_rep q ms /\ queued example_history = written q ++ ms
    /\ forall e, enabled q e -> exists q', queue_step q e = Some q'.
Proof.
  destruct (run empty_queue example_history) as [q|] eqn:E; [|vm_compute in E; discriminate E].
  exists q. split.
  - apply (f_equal (fun o => written (default empty_queue o))) in E. vm_compute in E. symmetry. exact E.
  - apply queue_fifo. exact (run_history [] empty_queue example_history q history_nil E).
Defined.

(** C33: No message waits for ever: in every history, once the connection is
    established a non-empty queue always has a WRITEABLE callback pending, and
    serving callbacks one after the other writes everything that is queued. *)
Theorem queue_drains es q (Hh : history empty_queue es q) (Hest : established es false = true) :
  exists n q', run q (repeat Writeable n) = Some q' /\ written q' = queued es /\ queue_rep q' [].
Proof.
  destruct (history_inv es q Hh) as (ms & Hr & Hq & He). destruct (He Hest) as [Hw Ha]. rewrite Hq. clear -Hr Hw Ha.
  revert q Hr Hw Ha. induction ms as [|m ms IH]; intros q Hr Hw Ha.
  - exists 0%nat, q. by rewrite app_nil_r.
  - destruct (on_writeable_rep q m ms Hr) as (q1 & E & Hr1 & Hw1 & Ha1 & Hg1).
    destruct (IH q1 Hr1) as (n & q' & Er & Ew & Erep); [by rewrite Hg1|by rewrite Ha1|].
    exists (S n), q'. cbn [repeat run enabledb queue_step]. rewrite Hw, (Ha ltac:(done)), E. cbn.
    split_and!; [done| |done]. by rewrite Ew, Hw1, <- app_assoc.
Qed.

Lemma queue_drains_witness :
  exists q, history empty_queue [Enqueue (str "a") 1%positive; Connecting; Established (str "hello") 2%positive] q /\
  exists n q', run q (repeat Writeable n) = Some q'
    /\ written q' = queued [Enqueue (str "a") 1%positive; Connecting; Established (str "hello") 2%positive]
    /\ queue_rep q' [].
Proof.
  destruct (run empty_queue [Enqueue (str "a") 1%positive; Connecting; Established (str "hello") 2%positive])
    as [q|] eqn:E; [|vm_compute in E; discriminate E].
  pose proof (run_history [] empty_queue _ q history_nil E) as Hh.
  exists q. split; [exact Hh|]. exact (queue_drains _ q Hh eq_refl).
Defined.
