(* ===== verification/RecvBuf.v ===== *)
(** * Fragment reassembly: the RECEIVE case of [ws_callback] (linux/main.c)

    [g_recv_buf] is a block of [g_recv_cap] bytes of which the first
    [g_recv_len] hold the fragments received so far. *)

From S2P Require Import Prelude CString.
Local Open Scope Z_scope.

Record RecvBuf := MkRecv { g_recv_buf : bytes; g_recv_cap : Z }.

(** [g_recv_len]. *)
Definition g_recv_len (b : RecvBuf) : Z := Z.of_nat (length (g_recv_buf b)).

Definition empty_recv : RecvBuf := MkRecv [] 0.

(** [while (new_cap < n) new_cap *= 2;] *)
Fixpoint grow (fuel : nat) (new_cap n : Z) : option Z :=
  match fuel with
  | O => None
  | S f => if new_cap <? n then grow f (new_cap * 2) n else Some new_cap
  end.

Definition grow_fuel (n : Z) : nat := S (Z.to_nat (Z.log2_up n)).

(** What a fragment does: dropped for lack of memory, kept, a complete message,
    or a write behind the end of the block. *)
Inductive outcome :=
| Dropped
| Partial
| Message (m : bytes)
| Overflow.

(** The case up to the call of [cJSON_Parse]; [final] is
    [lws_is_final_fragment], [realloc_ok] the allocator. The fragment is stored
    by [memcpy], the terminator by [g_recv_buf[g_recv_len] = 0]. *)
Definition on_fragment (realloc_ok : Z -> bool) (frag : bytes) (final : bool) (b : RecvBuf)
    : outcome * RecvBuf :=
  let needed := g_recv_len b + Z.of_nat (length frag) in
  let grown :=
    if g_recv_cap b <? needed then
      let new_cap := if g_recv_cap b =? 0 then 4096 else g_recv_cap b in
      match grow (grow_fuel (needed + 1)) new_cap (needed + 1) with
      | Some c => if realloc_ok c then Some c else None
      | None => None
      end
    else Some (g_recv_cap b) in
  match grown with
  | None => (Dropped, MkRecv [] (g_recv_cap b))
  | Some cap =>
      let buf := g_recv_buf b ++ frag in
      if negb final then (Partial, MkRecv buf cap)
      else if Z.of_nat (length buf) <? cap then (Message buf, MkRecv [] cap)
      else (Overflow, MkRecv [] cap)
  end.

(** CLOSED and CONNECTION_ERROR. *)
Definition reset_recv (b : RecvBuf) : RecvBuf := MkRecv [] (g_recv_cap b).

(** All fragments of one message, the last one final. *)
Fixpoint on_message (realloc_ok : Z -> bool) (frags : list bytes) (last : bytes) (b : RecvBuf)
    : outcome * RecvBuf :=
  match frags with
  | [] => on_fragment realloc_ok last true b
  | f :: frags' =>
      match on_fragment realloc_ok f false b with
      | (Partial, b) => on_message realloc_ok frags' last b
      | r => r
      end
  end.

Definition recv_ok (b : RecvBuf) : Prop := g_recv_len b <= g_recv_cap b.

Lemma grow_spec fuel c n :
  0 < c -> n <= c * 2 ^ (Z.of_nat fuel - 1) -> (0 < fuel)%nat ->
  exists c', grow fuel c n = Some c' /\ c <= c' /\ n <= c' /\ (c' = c \/ c' < 2 * n).
Proof.
  revert c. induction fuel as [|fuel IH]; intros c Hc Hn Hf; [lia|]. cbn [grow].
  destruct (c <? n) eqn:E; boolify.
  2:{ exists c. split_and!; auto; lia. }
  destruct fuel as [|fuel]; [change (Z.of_nat 1 - 1) with 0 in Hn; lia|].
  destruct (IH (c * 2)) as (c' & -> & H1 & H2 & H3); [lia| |lia|].
  - replace (Z.of_nat (S (S fuel)) - 1) with (Z.succ (Z.of_nat (S fuel) - 1)) in Hn by lia.
    rewrite Z.pow_succ_r in Hn by lia. nia.
  - exists c'. split_and!; auto; lia.
Qed.

Lemma grow_fuel_enough c n : 1 <= c -> 1 <= n -> n <= c * 2 ^ (Z.of_nat (grow_fuel n) - 1).
Proof.
  intros Hc Hn. unfold grow_fuel. pose proof (Z.log2_up_nonneg n) as H0.
  replace (Z.of_nat (S (Z.to_nat (Z.log2_up n))) - 1) with (Z.log2_up n) by lia.
  assert (n <= 2 ^ Z.log2_up n); [|nia].
  destruct (Z.eq_dec n 1) as [->|]; [done|]. apply Z.log2_up_spec. lia.
Qed.

(** One fragment: the loop of the growth ends, the capacity never shrinks, and
    a message is complete exactly when a byte of the block is left for the
    terminator. *)
Lemma on_fragment_spec realloc_ok frag final b :
  recv_ok b -> 0 <= g_recv_cap b -> (forall n, realloc_ok n = true) ->
  let total := g_recv_buf b ++ frag in
  let n := Z.of_nat (length total) in
  exists cap, g_recv_cap b <= cap /\ n <= cap
    /\ (cap = n <-> n = g_recv_cap b) /\ (n <= g_recv_cap b -> cap = g_recv_cap b)
    /\ on_fragment realloc_ok frag final b =
       if final then (if n =? g_recv_cap b then Overflow else Message total, MkRecv [] cap)
       else (Partial, MkRecv total cap).
Proof.
  intros Hb Hc Hm total n. unfold on_fragment.
  assert (Hn : g_recv_len b + Z.of_nat (length frag) = n)
    by (unfold n, total, g_recv_len; rewrite length_app; lia).
  rewrite Hn. destruct (g_recv_cap b <? n) eqn:E; boolify.
  - set (c0 := if g_recv_cap b =? 0 then 4096 else g_recv_cap b).
    assert (H0 : 1 <= c0 /\ g_recv_cap b <= c0) by (unfold c0; destruct (_ =? 0) eqn:E0; boolify; lia).
    destruct (grow_spec (grow_fuel (n + 1)) c0 (n + 1)) as (c & -> & H1 & H2 & _);
      [lia|apply grow_fuel_enough; lia|unfold grow_fuel; lia|].
    rewrite Hm. exists c. split_and!; [lia|lia|lia|lia|]. fold total. fold n.
    destruct final; cbn [negb]; [|done]. destruct (n <? c) eqn:E1; boolify; [|lia].
    destruct (n =? g_recv_cap b) eqn:E2; boolify; [lia|done].
  - exists (g_recv_cap b). split_and!; [lia|lia|lia|lia|]. fold total. fold n.
    destruct final; cbn [negb]; [|done].
    destruct (n <? g_recv_cap b) eqn:E1; boolify; destruct (n =? g_recv_cap b) eqn:E2; boolify; done || lia.
Qed.

(** ** Properties *)

(** C34: Reassembly, with memory available: whatever the cut of a message into
    fragments and whatever was received before, the RECEIVE case either hands
    exactly the concatenation of the fragments to the parser, the terminator
    inside the block, or, when the message fills the block to the last byte,
    writes the terminator one byte behind it. The latter happens to every
    message exactly as long as the block an earlier one left
    ([needed == g_recv_cap] does not grow it). *)
Theorem reassembly realloc_ok frags last b
    (Hb : recv_ok b) (Hcap : 0 <= g_recv_cap b) (Hm : forall n, realloc_ok n = true) :
  let m := g_recv_buf b ++ concat frags ++ last in
  let n := Z.of_nat (length m) in
  exists r b', on_message realloc_ok frags last b = (r, b') /\ g_recv_buf b' = []
    /\ recv_ok b'
    /\ (n < g_recv_cap b' /\ r = Message m \/ n = g_recv_cap b' /\ r = Overflow)
    /\ (g_recv_cap b = n -> r = Overflow).
Proof.
  cbv zeta. revert b Hb Hcap. induction frags as [|f frags IH]; intros b Hb Hcap; cbn [on_message concat app].
  - destruct (on_fragment_spec realloc_ok last true b Hb Hcap Hm) as (cap & H1 & H2 & H3 & H4 & ->).
    set (n := Z.of_nat (length (g_recv_buf b ++ last))) in *.
    assert (Hok : recv_ok (MkRecv [] cap)) by (unfold recv_ok, g_recv_len; cbn; lia).
    destruct (n =? g_recv_cap b) eqn:E; boolify; do 2 eexists; (split; [done|]); cbn [g_recv_buf g_recv_cap];
      split_and!; first [done|lia|(right; split; [lia|done])|(left; split; [lia|done])].
  - destruct (on_fragment_spec realloc_ok f false b Hb Hcap Hm) as (cap & H1 & H2 & H3 & H4 & ->).
    destruct (IH (MkRecv (g_recv_buf b ++ f) cap)) as (r & b' & E & He & Hb' & Hr & Hx);
      [unfold recv_ok, g_recv_len; cbn; lia|cbn; lia|].
    cbn [g_recv_buf g_recv_cap] in *. rewrite <- !app_assoc in *.
    exists r, b'. split_and!; try done. intros Heq. apply Hx. rewrite <- Heq.
    apply H4.
    rewrite Heq, !length_app. lia.
Qed.

(** A first message of 4096 bytes grows the block to 8192; one of 8192 bytes
    then overflows it. *)
Lemma reassembly_witness :
  let b := (on_message (fun _ => true) [] (zeros 4096) empty_recv).2 in
  let m := zeros 8192 in
  (exists r b', on_message (fun _ => true) [zeros 100] (zeros 8092) b = (r, b') /\ g_recv_buf b' = []
    /\ recv_ok b'
    /\ (Z.of_nat (length (g_recv_buf b ++ concat [zeros 100] ++ zeros 8092)) < g_recv_cap b'
          /\ r = Message (g_recv_buf b ++ concat [zeros 100] ++ zeros 8092)
        \/ Z.of_nat (length (g_recv_buf b ++ concat [zeros 100] ++ zeros 8092)) = g_recv_cap b'
           /\ r = Overflow)
    /\ (g_recv_cap b = Z.of_nat (length (g_recv_buf b ++ concat [zeros 100] ++ zeros 8092)) -> r = Overflow))
  /\ g_recv_cap b = 8192.
Proof.
  cbv zeta. split.
  - refine (reassembly (fun _ => true) [zeros 100] (zeros 8092)
      (on_message (fun _ => true) [] (zeros 4096) empty_recv).2 _ _ (fun _ => eq_refl)).
    + vm_compute. discriminate.
    + vm_compute. discriminate.
  - vm_compute. reflexivity.
Defined.
