(* ===== verification/Double.v ===== *)
(** * IEEE doubles and their decimal texts

    [double] is binary64 as the Standard Library specifies it
    ([Floats.SpecFloat]): the arithmetic, the comparisons and the conversions
    below are exact functions, evaluated by the kernel.  [strtod] and [fmt_g]
    model the C library's decimal conversions (correctly rounded, ties to
    even, as glibc does) on the texts cJSON hands them. *)

From S2P Require Import Prelude CString.
From Corelib Require Export Floats.SpecFloat.
Local Open Scope Z_scope.

Abbreviation double := spec_float.

(** ** Arithmetic *)

Definition of_Z (n : Z) : double := binary_normalize 53 1024 n 0 false.
Definition dsub : double -> double -> double := SFsub 53 1024.
Definition dmul : double -> double -> double := SFmul 53 1024.
Definition dabs : double -> double := SFabs.
Definition deq : double -> double -> bool := SFeqb.
Definition dle : double -> double -> bool := SFleb.
Definition dlt : double -> double -> bool := SFltb.
Definition dge (a b : double) : bool := SFleb b a.
Definition dgt (a b : double) : bool := SFltb b a.
Definition dzero : double := S754_zero false.
Definition isnan (d : double) : bool := match d with S754_nan => true | _ => false end.
Definition isinf (d : double) : bool := match d with S754_infinity _ => true | _ => false end.

(** [DBL_EPSILON], 2^-52. *)
Definition DBL_EPSILON : double := S754_finite false 4503599627370496 (-104).

(** The integral part. *)
Definition trunc (d : double) : Z :=
  match d with
  | S754_finite s m e => cond_Zopp s (if 0 <=? e then Zpos m * 2 ^ e else Zpos m / 2 ^ (- e))
  | _ => 0
  end.

(** [(int) d]: the integral part where [int] holds it; the result of the
    x86-64 conversion instruction, [INT_MIN], where the C standard leaves it
    undefined. *)
Definition int_of (d : double) : Z :=
  match d with
  | S754_nan | S754_infinity _ => INT_MIN
  | _ => let z := trunc d in if (INT_MIN <=? z) && (z <=? INT_MAX) then z else INT_MIN
  end.

(** ** strtod *)

(** The double nearest to [m * 10 ^ e] (with sign [s]).  For a negative [e]
    the quotient keeps at least 60 bits and a sticky bit, so that rounding it
    to 53 bits rounds the exact value. *)
Definition round_dec (s : bool) (m e : Z) : double :=
  if m <=? 0 then S754_zero s
  else if 0 <=? e then binary_round 53 1024 s (Z.to_pos (m * 10 ^ e)) 0
  else
    let d := 10 ^ (- e) in
    let k := Z.max 0 (60 + Z.log2 d - Z.log2 m) in
    let q := Z.shiftl m k / d in
    let r := Z.shiftl m k mod d in
    binary_round 53 1024 s (Z.to_pos (2 * q + if r =? 0 then 0 else 1)) (- (k + 1)).

(** An optional sign. *)
Definition scan_sign (s : bytes) : bool * bytes :=
  match s with
  | "-"%byte :: t => (true, t)
  | "+"%byte :: t => (false, t)
  | _ => (false, s)
  end.

(** [strtod] on a text of digits, signs, points and exponent letters: the
    value and the number of characters read, [None] when it reads nothing. *)
Definition strtod (s : bytes) : option (double * nat) :=
  let '(neg, s1) := scan_sign s in
  let ip := take_while isdigit s1 in
  let s2 := drop_while isdigit s1 in
  let '(fp, s3) :=
    match s2 with
    | "."%byte :: t => (take_while isdigit t, drop_while isdigit t)
    | _ => ([], s2)
    end in
  if bool_decide (ip ++ fp = []) then None
  else
    let '(ex, s4) :=
      match s3 with
      | c :: t =>
          if beq (tolower c) "e" then
            let '(eneg, t1) := scan_sign t in
            let ed := take_while isdigit t1 in
            if bool_decide (ed = []) then (0, s3)
            else (cond_Zopp eneg (dec_value ed), drop_while isdigit t1)
          else (0, s3)
      | [] => (0, s3)
      end in
    Some (round_dec neg (dec_value (ip ++ fp)) (ex - Z.of_nat (length fp)),
          (length s - length s4)%nat).

(** ** "%1.<P>g" *)

(** [num / den] rounded to an integer, ties to even. *)
Definition round_quot (num den : Z) : Z :=
  let q := num / den in
  match 2 * (num mod den) ?= den with
  | Lt => q
  | Gt => q + 1
  | Eq => if Z.even q then q else q + 1
  end.

(** The decimal exponent of [num / den > 0]: the [X] with
    [10 ^ X <= num / den < 10 ^ (X + 1)]. *)
Definition dec_exponent (num den : Z) : Z :=
  if den <=? num then Z.of_nat (length (dec_nonneg (num / den))) - 1
  else - Z.of_nat (length (dec_nonneg ((den - 1) / num))).

(** [num / den] to [p] significant digits: the digits and the exponent. *)
Definition sig_digits (p num den : Z) : bytes * Z :=
  let x := dec_exponent num den in
  let k := p - 1 - x in
  let d := if 0 <=? k then round_quot (num * 10 ^ k) den else round_quot num (den * 10 ^ (- k)) in
  if d =? 10 ^ p then (dec_nonneg (10 ^ (p - 1)), x + 1) else (dec_nonneg d, x).

Definition is_zero_char (b : byte) : bool := beq b "0".
Definition strip_zeros (s : bytes) : bytes := reverse (drop_while is_zero_char (reverse s)).

(** The fraction without its trailing zeros, and the point only before one. *)
Definition point (frac : bytes) : bytes :=
  match strip_zeros frac with [] => [] | f => "."%byte :: f end.

Definition fmt_g (p : Z) (d : double) : bytes :=
  match d with
  | S754_zero s => (if s then str "-" else []) ++ str "0"
  | S754_infinity s => (if s then str "-" else []) ++ str "inf"
  | S754_nan => str "nan"
  | S754_finite s m e =>
      let '(num, den) := if 0 <=? e then (Zpos m * 2 ^ e, 1) else (Zpos m, 2 ^ (- e)) in
      let '(ds, x) := sig_digits p num den in
      (if s then str "-" else []) ++
      (if (-4 <=? x) && (x <? p) then
         if 0 <=? x then take (Z.to_nat (x + 1)) ds ++ point (drop (Z.to_nat (x + 1)) ds)
         else str "0" ++ point (replicate (Z.to_nat (- x - 1)) "0"%byte ++ ds)
       else
         take 1 ds ++ point (drop 1 ds) ++ str "e" ++ (if x <? 0 then str "-" else str "+")
         ++ (if Z.abs x <? 10 then str "0" else []) ++ dec_nonneg (Z.abs x))
  end.

(** ** Integers below 2^53 are exact *)

Lemma digits2_log2 p : Zpos (digits2_pos p) = Z.log2 (Zpos p) + 1.
Proof.
  induction p as [p IH|p IH|]; [| |done]; cbn [digits2_pos]; rewrite Pos2Z.inj_succ, IH.
  - change (Zpos p~1) with (2 * Zpos p + 1). rewrite Z.log2_succ_double by lia. lia.
  - change (Zpos p~0) with (2 * Zpos p). rewrite Z.log2_double by lia. lia.
Qed.

Lemma iter_xO d p : Zpos (Pos.iter xO p d) = Zpos p * 2 ^ Zpos d.
Proof.
  revert p. induction d as [|d IH] using Pos.peano_ind; intros p.
  - change (Pos.iter xO p 1) with (xO p). change (2 ^ 1) with 2. lia.
  - rewrite Pos.iter_succ, Pos2Z.inj_succ, Z.pow_succ_r by lia.
    change (Zpos (Pos.iter xO p d)~0) with (2 * Zpos (Pos.iter xO p d)). rewrite IH. lia.
Qed.

Lemma shr_fexp_canonical m e :
  Zpos (digits2_pos m) = 53 -> -1074 <= e ->
  shr_fexp 53 1024 (Zpos m) e loc_Exact = (Build_shr_record (Zpos m) false false, e).
Proof.
  intros Hd He. unfold shr_fexp. cbn [Zdigits2 shr_record_of_loc]. rewrite Hd.
  replace (fexp 53 1024 (53 + e) - e) with 0 by (unfold fexp, emin; lia). done.
Qed.

(** The canonical form of an integer: its bits moved up to the 53rd place. *)
Lemma binary_round_int s p :
  Zpos p < 2 ^ 53 ->
  exists m, binary_round 53 1024 s p 0 = S754_finite s m (Z.log2 (Zpos p) - 52)
    /\ Zpos m = Zpos p * 2 ^ (52 - Z.log2 (Zpos p)).
Proof.
  intros Hp. assert (Hl : 0 <= Z.log2 (Zpos p) <= 52).
  { split; [apply Z.log2_nonneg|].
    assert (Z.log2 (Zpos p) < 53) by (apply Z.log2_lt_pow2; lia). lia. }
  assert (Haux : forall m, Zpos m = Zpos p * 2 ^ (52 - Z.log2 (Zpos p)) ->
    binary_round_aux 53 1024 s (Zpos m) (Z.log2 (Zpos p) - 52) loc_Exact
    = S754_finite s m (Z.log2 (Zpos p) - 52)).
  { intros m Hm. assert (Hd : Zpos (digits2_pos m) = 53).
    { rewrite digits2_log2, Hm, Z.log2_mul_pow2 by lia. lia. }
    unfold binary_round_aux. rewrite shr_fexp_canonical by (done || lia).
    cbn [shr_m loc_of_shr_record round_nearest_even].
    rewrite shr_fexp_canonical by (done || lia). cbn [shr_m].
    replace (Z.log2 (Zpos p) - 52 <=? 1024 - 53) with true; [done|]. symmetry. lia. }
  unfold binary_round, shl_align. rewrite digits2_log2.
  replace (fexp 53 1024 (Z.log2 (Zpos p) + 1 + 0)) with (Z.log2 (Zpos p) - 52)
    by (unfold fexp, emin; lia).
  destruct (Z.log2 (Zpos p) - 52 - 0) as [|q|q] eqn:E; [|lia|].
  - exists p. replace (Z.log2 (Zpos p)) with 52 in * by lia. split; [|lia].
    apply Haux. lia.
  - exists (Pos.iter xO p q).
    assert (Hm : Zpos (Pos.iter xO p q) = Zpos p * 2 ^ (52 - Z.log2 (Zpos p))).
    { rewrite iter_xO. repeat f_equal. lia. }
    split; [by apply Haux|done].
Qed.

Definition exact (n : Z) : Prop := - 2 ^ 53 < n < 2 ^ 53.

Lemma of_Z_shape n :
  exact n ->
  match of_Z n with
  | S754_zero s => n = 0 /\ s = false
  | S754_finite s m e =>
      n <> 0 /\ s = (n <? 0) /\ e = Z.log2 (Z.abs n) - 52 /\ -52 <= e <= 0
      /\ Zpos m = Z.abs n * 2 ^ (- e)
  | _ => False
  end.
Proof.
  unfold exact, of_Z, binary_normalize. intros Hn. destruct n as [|p|p]; [done| |].
  - destruct (binary_round_int false p ltac:(lia)) as (m & -> & Hm). cbn [Z.abs].
    assert (Z.log2 (Zpos p) < 53) by (apply Z.log2_lt_pow2; lia).
    pose proof (Z.log2_nonneg (Zpos p)). repeat split; try lia.
    rewrite Hm. repeat f_equal. lia.
  - destruct (binary_round_int true p ltac:(lia)) as (m & -> & Hm). cbn [Z.abs].
    assert (Z.log2 (Zpos p) < 53) by (apply Z.log2_lt_pow2; lia).
    pose proof (Z.log2_nonneg (Zpos p)). repeat split; try lia.
    rewrite Hm. repeat f_equal. lia.
Qed.

Lemma trunc_of_Z n : exact n -> trunc (of_Z n) = n.
Proof.
  intros Hn. pose proof (of_Z_shape n Hn) as H. destruct (of_Z n) as [s|s| |s m e]; try done.
  - by destruct H as [-> _].
  - destruct H as (H0 & -> & He & Hr & Hm). cbn [trunc].
    assert (Habs : (if 0 <=? e then Zpos m * 2 ^ e else Zpos m / 2 ^ (- e)) = Z.abs n).
    { rewrite Hm. destruct (0 <=? e) eqn:E0; boolify.
      - replace e with 0 by lia. simpl. lia.
      - apply Z.div_mul. lia. }
    rewrite Habs. unfold cond_Zopp. destruct (n <? 0) eqn:E; boolify; lia.
Qed.

(** Magnitudes compare by exponent, then by mantissa. *)
Lemma compare_magnitude a b ma mb :
  0 < a -> 0 < b -> 
  Zpos ma = a * 2 ^ (- (Z.log2 a - 52)) -> Zpos mb = b * 2 ^ (- (Z.log2 b - 52)) ->
  Z.log2 a <= 52 -> Z.log2 b <= 52 ->
  match Z.log2 a - 52 ?= Z.log2 b - 52 with
  | Lt => Lt | Gt => Gt | Eq => Pos.compare_cont Eq ma mb
  end = (a ?= b).
Proof.
  intros Ha Hb Hma Hmb La Lb.
  destruct (Z.compare_spec (Z.log2 a - 52) (Z.log2 b - 52)) as [E|E|E].
  - change (Pos.compare_cont Eq ma mb) with (Zpos ma ?= Zpos mb).
    rewrite Hma, Hmb. replace (Z.log2 b) with (Z.log2 a) by lia.
    by rewrite <- Zmult_compare_compat_r by lia.
  - symmetry. apply Z.compare_lt_iff. apply Z.log2_lt_cancel. lia.
  - symmetry. apply Z.compare_gt_iff. apply Z.log2_lt_cancel. lia.
Qed.

Lemma CompOpp_match (c x : comparison) :
  match c with Eq => CompOpp x | Lt => Gt | Gt => Lt end
  = CompOpp match c with Eq => x | Lt => Lt | Gt => Gt end.
Proof. by destruct c. Qed.

Lemma compare_of_Z a b : exact a -> exact b -> SFcompare (of_Z a) (of_Z b) = Some (a ?= b).
Proof.
  intros Ha Hb. pose proof (of_Z_shape a Ha) as Ea. pose proof (of_Z_shape b Hb) as Eb.
  destruct (of_Z a) as [sa|sa| |sa ma ea]; try done;
    destruct (of_Z b) as [sb|sb| |sb mb eb]; try done; cbn [SFcompare]; f_equal.
  - destruct Ea as [-> _], Eb as [-> _]. done.
  - destruct Ea as [-> _], Eb as (Hb0 & -> & _). destruct (b <? 0) eqn:E; boolify; symmetry;
      [apply Z.compare_gt_iff|apply Z.compare_lt_iff]; lia.
  - destruct Eb as [-> _], Ea as (Ha0 & -> & _). destruct (a <? 0) eqn:E; boolify; symmetry;
      [apply Z.compare_lt_iff|apply Z.compare_gt_iff]; lia.
  - destruct Ea as (Ha0 & -> & -> & Hra & Hma), Eb as (Hb0 & -> & -> & Hrb & Hmb).
    pose proof (compare_magnitude (Z.abs a) (Z.abs b) ma mb ltac:(lia) ltac:(lia) Hma Hmb
      ltac:(lia) ltac:(lia)) as H.
    destruct (a <? 0) eqn:Ea, (b <? 0) eqn:Eb; boolify.
    + transitivity (CompOpp (Z.abs a ?= Z.abs b)).
      { rewrite <- H. apply CompOpp_match. }
      rewrite !Z.abs_neq by lia. by rewrite Z.compare_opp, <- Z.compare_antisym.
    + symmetry. apply Z.compare_lt_iff. lia.
    + symmetry. apply Z.compare_gt_iff. lia.
    + rewrite H. by rewrite !Z.abs_eq by lia.
Qed.

Lemma deq_of_Z a b : exact a -> exact b -> deq (of_Z a) (of_Z b) = (a =? b).
Proof.
  intros Ha Hb. unfold deq, SFeqb. rewrite compare_of_Z by done.
  destruct (Z.compare_spec a b); symmetry; lia.
Qed.

Lemma dle_of_Z a b : exact a -> exact b -> dle (of_Z a) (of_Z b) = (a <=? b).
Proof.
  intros Ha Hb. unfold dle, SFleb. rewrite compare_of_Z by done.
  destruct (Z.compare_spec a b); symmetry; lia.
Qed.

Lemma exact_int n : INT_MIN <= n <= INT_MAX -> exact n.
Proof. unfold exact, INT_MIN, INT_MAX. lia. Qed.

Lemma int_of_of_Z n : INT_MIN <= n <= INT_MAX -> int_of (of_Z n) = n.
Proof.
  intros Hn. unfold int_of. rewrite trunc_of_Z by by apply exact_int.
  replace ((INT_MIN <=? n) && (n <=? INT_MAX)) with true by (symmetry; lia).
  pose proof (of_Z_shape n (exact_int n Hn)) as H. by destruct (of_Z n).
Qed.

(** ** strtod on the text of an integer *)

Lemma print_d_nonneg n : 0 <= n -> print_d n = dec_nonneg n.
Proof. intros. unfold print_d. by replace (n <? 0) with false by lia. Qed.

Lemma dec_nonneg_cons n :
  0 <= n -> exists d ds, dec_nonneg n = d :: ds /\ isdigit d = true.
Proof.
  intros Hn. destruct (dec_nonneg_spec n Hn) as (_ & Hall & Hne & _).
  destruct (dec_nonneg n) as [|d ds]; [done|]. exists d, ds. by inversion Hall.
Qed.

Lemma scan_sign_digit d s : isdigit d = true -> scan_sign (d :: s) = (false, d :: s).
Proof. by_bytes d. Qed.

Lemma round_dec_int s n :
  0 <= n -> round_dec s n 0 = if n =? 0 then S754_zero s else binary_round 53 1024 s (Z.to_pos n) 0.
Proof.
  intros Hn. unfold round_dec. destruct (n <=? 0) eqn:E; boolify.
  - by replace (n =? 0) with true by lia.
  - replace (n =? 0) with false by lia. cbn [Z.leb]. simpl. by rewrite Z.mul_1_r.
Qed.

Lemma strtod_print_d n : strtod (print_d n) = Some (of_Z n, length (print_d n)).
Proof.
  assert (H : forall k, 0 <= k ->
    take_while isdigit (dec_nonneg k) = dec_nonneg k /\ drop_while isdigit (dec_nonneg k) = []
    /\ dec_value (dec_nonneg k) = k /\ dec_nonneg k <> []).
  { intros k Hk. destruct (dec_nonneg_spec k Hk) as (Hv & Hall & Hne & _).
    split_and!; [by apply take_while_all|by apply drop_while_all|done|done]. }
  unfold print_d. destruct (n <? 0) eqn:E; boolify.
  - destruct (H (- n) ltac:(lia)) as (Ht & Hd & Hv & Hne).
    unfold strtod. cbn [scan_sign]. rewrite Ht, Hd. cbn iota beta.
    rewrite app_nil_r, bool_decide_eq_false_2 by done. rewrite Hv. cbn [length].
    rewrite Z.sub_0_r, round_dec_int, Nat.sub_0_r by lia.
    replace (- n =? 0) with false by lia. repeat f_equal. by destruct n.
  - destruct (H n ltac:(lia)) as (Ht & Hd & Hv & Hne).
    destruct (dec_nonneg_cons n ltac:(lia)) as (d & ds & Eds & Hdig).
    unfold strtod. rewrite Eds, scan_sign_digit, <- Eds by done. rewrite Ht, Hd. cbn iota beta.
    rewrite app_nil_r, bool_decide_eq_false_2 by done. rewrite Hv. cbn [length].
    rewrite Z.sub_0_r, round_dec_int, Nat.sub_0_r by lia.
    repeat f_equal. by destruct n.
Qed.


(** ** The bytes of printed numbers *)

Definition numeric (b : byte) : bool := isdigit b || bool_decide (b ∈ str "+-.einfa").
Definition numerals (s : bytes) : Prop := Forall (fun b => numeric b = true) s.

Lemma isdigit_numeric b : isdigit b = true -> numeric b = true.
Proof. unfold numeric. by intros ->. Qed.

Lemma dec_digits_numerals f n acc : numerals acc -> numerals (dec_digits f n acc).
Proof.
  revert n acc. induction f as [|f IH]; intros n acc Ha; [done|]. cbn [dec_digits].
  assert (Hd : numerals (digit (n mod 10) :: acc)).
  { constructor; [|done]. apply isdigit_numeric, digit_isdigit, Z.mod_pos_bound. lia. }
  destruct (n <? 10); [done|by apply IH].
Qed.

Lemma dec_nonneg_numerals n : numerals (dec_nonneg n).
Proof. apply dec_digits_numerals. constructor. Qed.

Lemma print_d_numerals z : numerals (print_d z).
Proof. unfold print_d. destruct (z <? 0); [constructor; [done|]|]; apply dec_nonneg_numerals. Qed.

Lemma sig_digits_numerals p num den : numerals (sig_digits p num den).1.
Proof. unfold sig_digits. destruct (_ =? 10 ^ p); apply dec_nonneg_numerals. Qed.

Lemma point_numerals s : numerals s -> numerals (point s).
Proof.
  intros H. assert (Hs : numerals (strip_zeros s)).
  { unfold strip_zeros, numerals. apply Forall_reverse. rewrite drop_while_drop. by apply Forall_drop, Forall_reverse. }
  unfold point. destruct (strip_zeros s); [constructor|]. by constructor.
Qed.

Lemma fmt_g_numerals p d : numerals (fmt_g p d).
Proof.
  assert (Hr : forall n, numerals (replicate n "0"%byte)) by (intros; by apply Forall_replicate).
  destruct d as [s|s| |s m e]; cbn [fmt_g];
    [by destruct s; repeat constructor|by destruct s; repeat constructor|by repeat constructor|].
  destruct (if 0 <=? e then _ else _) as [num den].
  pose proof (sig_digits_numerals p num den) as Hd. destruct (sig_digits p num den) as [ds x]. simpl in Hd.
  apply Forall_app. split; [by destruct s; repeat constructor|].
  destruct ((-4 <=? x) && (x <? p)).
  - destruct (0 <=? x); apply Forall_app; split.
    + by apply Forall_take.
    + by apply point_numerals, Forall_drop.
    + by repeat constructor.
    + apply point_numerals, Forall_app. split; [apply Hr|exact Hd].
  - apply Forall_app; split; [by apply Forall_take|].
    apply Forall_app; split; [by apply point_numerals, Forall_drop|].
    apply Forall_app; split; [by repeat constructor|].
    apply Forall_app; split; [by destruct (x <? 0); repeat constructor|].
    apply Forall_app; split; [by destruct (Z.abs x <? 10); repeat constructor|].
    apply dec_nonneg_numerals.
Qed.

(** In particular they are C strings. *)
Lemma numerals_no_nul s : numerals s -> no_nul s.
Proof. intros H. eapply Forall_impl; [exact H|]. intros b. by_bytes b. Qed.

(** ** Lengths of decimal texts *)

Lemma dec_digits_length f k n acc :
  0 <= n < 10 ^ Z.of_nat k -> (1 <= k)%nat -> (length (dec_digits f n acc) <= k + length acc)%nat.
Proof.
  revert k n acc. induction f as [|f IH]; intros k n acc Hn Hk; cbn [dec_digits]; [lia|].
  destruct (n <? 10) eqn:E; boolify; [simpl; lia|]. destruct k as [|[|k]]; [lia|simpl in Hn; lia|].
  etransitivity; [apply (IH (S k))|simpl; lia]; [|lia].
  rewrite (Nat2Z.inj_succ (S k)), Z.pow_succ_r in Hn by lia.
  split; [apply Z.div_pos; lia|apply Z.div_lt_upper_bound; lia].
Qed.

Lemma print_d_length k n : - 10 ^ Z.of_nat k < n < 10 ^ Z.of_nat k -> (1 <= k)%nat -> (length (print_d n) <= S k)%nat.
Proof.
  intros Hn Hk. unfold print_d. destruct (n <? 0) eqn:E; boolify.
  - pose proof (dec_digits_length (S (Z.to_nat (Z.log2 (- n)))) k (- n) [] ltac:(lia) Hk) as H.
    unfold dec_nonneg. cbn [length] in *. lia.
  - pose proof (dec_digits_length (S (Z.to_nat (Z.log2 n))) k n [] ltac:(lia) Hk) as H.
    unfold dec_nonneg. cbn [length] in *. lia.
Qed.
