(* ===== verification/Json.v ===== *)
(** * cJSON.c: items, accessors and constructors

    A [cJSON] node with its [child] chain is a tree; the [next]/[prev] links of
    the children are the list they form.  A [char *] field is the block it
    points to up to its terminator; a NULL pointer is [None].  Functions that
    change the object they are given return it beside their result. *)

From S2P Require Import Prelude CString Double.
Local Open Scope Z_scope.

(** ** Data *)

Definition cJSON_Invalid : Z := 0.
Definition cJSON_False : Z := 1.
Definition cJSON_True : Z := 2.
Definition cJSON_NULL : Z := 4.
Definition cJSON_Number : Z := 8.
Definition cJSON_String : Z := 16.
Definition cJSON_Array : Z := 32.
Definition cJSON_Object : Z := 64.
Definition cJSON_Raw : Z := 128.
Definition cJSON_IsReference : Z := 256.
Definition cJSON_StringIsConst : Z := 512.
Definition CJSON_NESTING_LIMIT : nat := 1000.

Inductive cJSON : Type := Item {
  type : Z;
  valuestring : option bytes;
  valueint : Z;
  valuedouble : double;
  name : option bytes;           (* item->string, the key in an object *)
  child : list cJSON
}.

(** A node zeroed by [memset]. *)
Definition zero_item : cJSON := Item 0 None 0 dzero None [].

(** Assignments to single fields. *)
Definition set_type (t : Z) (i : cJSON) : cJSON :=
  Item t i.(valuestring) i.(valueint) i.(valuedouble) i.(name) i.(child).
Definition set_valuestring (s : option bytes) (i : cJSON) : cJSON :=
  Item i.(type) s i.(valueint) i.(valuedouble) i.(name) i.(child).
Definition set_valueint (n : Z) (i : cJSON) : cJSON :=
  Item i.(type) i.(valuestring) n i.(valuedouble) i.(name) i.(child).
Definition set_valuedouble (d : double) (i : cJSON) : cJSON :=
  Item i.(type) i.(valuestring) i.(valueint) d i.(name) i.(child).
Definition set_name (s : option bytes) (i : cJSON) : cJSON :=
  Item i.(type) i.(valuestring) i.(valueint) i.(valuedouble) s i.(child).
Definition set_child (c : list cJSON) (i : cJSON) : cJSON :=
  Item i.(type) i.(valuestring) i.(valueint) i.(valuedouble) i.(name) c.

Fixpoint item_depth (i : cJSON) : nat :=
  S (fold_right (fun c d => Nat.max (item_depth c) d) 0%nat i.(child)).

Section ItemInd.
Variable P : cJSON -> Prop.
Hypothesis step : forall t vs vi vd n c, Forall P c -> P (Item t vs vi vd n c).

(** Structural induction, with the hypothesis for every child. *)
Fixpoint cJSON_ind' (i : cJSON) : P i :=
  match i with
  | Item t vs vi vd n c =>
      step t vs vi vd n c
        ((fix go (l : list cJSON) : Forall P l :=
            match l with
            | [] => Forall_nil_2 P
            | x :: l' => Forall_cons_2 P x l' (cJSON_ind' x) (go l')
            end) c)
  end.
End ItemInd.

(** ** Type tests and values *)

Definition has_type (t : Z) (item : option cJSON) : bool :=
  match item with None => false | Some i => Z.land i.(type) 255 =? t end.

Definition cJSON_IsInvalid := has_type cJSON_Invalid.
Definition cJSON_IsFalse := has_type cJSON_False.
Definition cJSON_IsTrue := has_type cJSON_True.
Definition cJSON_IsBool (item : option cJSON) : bool :=
  match item with None => false | Some i => negb (Z.land i.(type) (Z.lor cJSON_True cJSON_False) =? 0) end.
Definition cJSON_IsNull := has_type cJSON_NULL.
Definition cJSON_IsNumber := has_type cJSON_Number.
Definition cJSON_IsString := has_type cJSON_String.
Definition cJSON_IsArray := has_type cJSON_Array.
Definition cJSON_IsObject := has_type cJSON_Object.
Definition cJSON_IsRaw := has_type cJSON_Raw.

Definition cJSON_GetStringValue (item : option cJSON) : option bytes :=
  if cJSON_IsString item then i ← item; i.(valuestring) else None.

Definition cJSON_GetNumberValue (item : option cJSON) : double :=
  match item with
  | Some i => if cJSON_IsNumber item then i.(valuedouble) else S754_nan
  | None => S754_nan
  end.

(** ** Lookup *)

(** [case_insensitive_strcmp(a, b) == 0]. *)
Definition case_insensitive_streq (a b : option bytes) : bool :=
  match a, b with
  | Some a, Some b => strcaseeq a b
  | _, _ => false
  end.

Fixpoint find_sensitive (key : bytes) (l : list cJSON) : option cJSON :=
  match l with
  | [] => None
  | i :: l' =>
      match i.(name) with
      | Some s => if streq key s then Some i else find_sensitive key l'
      | None => Some i
      end
  end.

Fixpoint find_insensitive (key : bytes) (l : list cJSON) : option cJSON :=
  match l with
  | [] => None
  | i :: l' => if case_insensitive_streq (Some key) i.(name) then Some i else find_insensitive key l'
  end.

Definition get_object_item (object : option cJSON) (key : option bytes) (case_sensitive : bool) : option cJSON :=
  match object, key with
  | Some o, Some k =>
      let current := if case_sensitive then find_sensitive k o.(child) else find_insensitive k o.(child) in
      match current with
      | Some i => match i.(name) with Some _ => Some i | None => None end
      | None => None
      end
  | _, _ => None
  end.

Definition cJSON_GetObjectItem (object : option cJSON) (key : bytes) : option cJSON :=
  get_object_item object (Some key) false.
Definition cJSON_GetObjectItemCaseSensitive (object : option cJSON) (key : bytes) : option cJSON :=
  get_object_item object (Some key) true.

Definition cJSON_HasObjectItem (object : option cJSON) (key : bytes) : bool :=
  match cJSON_GetObjectItem object key with Some _ => true | None => false end.

Definition cJSON_GetArraySize (array : option cJSON) : Z :=
  match array with None => 0 | Some a => i32 (Z.of_nat (length a.(child))) end.

Fixpoint get_item (l : list cJSON) (index : nat) : option cJSON :=
  match l, index with
  | [], _ => None
  | i :: _, O => Some i
  | _ :: l', S n => get_item l' n
  end.

Definition cJSON_GetArrayItem (array : option cJSON) (index : Z) : option cJSON :=
  if index <? 0 then None
  else match array with None => None | Some a => get_item a.(child) (Z.to_nat index) end.

(** ** Construction *)

(** The saturating conversion of [cJSON_CreateNumber], [cJSON_SetNumberHelper]
    and [parse_number]. *)
Definition saturate (number : double) : Z :=
  if dge number (of_Z INT_MAX) then INT_MAX
  else if dle number (of_Z INT_MIN) then INT_MIN
  else int_of number.

Section Alloc.
(** Whether an allocation of the given size succeeds. *)
Variable malloc_ok : Z -> bool.

Definition sizeof_cJSON : Z := 64.

Definition cJSON_New_Item : option cJSON :=
  if malloc_ok sizeof_cJSON then Some zero_item else None.

Definition cJSON_strdup (s : option bytes) : option bytes :=
  match s with
  | None => None
  | Some s => if malloc_ok (Z.of_nat (strlen s) + 1) then Some (cstr s) else None
  end.

Definition cJSON_CreateNull : option cJSON := set_type cJSON_NULL <$> cJSON_New_Item.
Definition cJSON_CreateTrue : option cJSON := set_type cJSON_True <$> cJSON_New_Item.
Definition cJSON_CreateFalse : option cJSON := set_type cJSON_False <$> cJSON_New_Item.
Definition cJSON_CreateBool (boolean : bool) : option cJSON :=
  set_type (if boolean then cJSON_True else cJSON_False) <$> cJSON_New_Item.
Definition cJSON_CreateArray : option cJSON := set_type cJSON_Array <$> cJSON_New_Item.
Definition cJSON_CreateObject : option cJSON := set_type cJSON_Object <$> cJSON_New_Item.

Definition cJSON_CreateNumber (num : double) : option cJSON :=
  (fun i => set_valueint (saturate num) (set_valuedouble num (set_type cJSON_Number i))) <$> cJSON_New_Item.

Definition cJSON_CreateString (string : option bytes) : option cJSON :=
  i ← cJSON_New_Item;
  s ← cJSON_strdup string;
  Some (set_valuestring (Some s) (set_type cJSON_String i)).

Definition cJSON_CreateRaw (raw : option bytes) : option cJSON :=
  i ← cJSON_New_Item;
  s ← cJSON_strdup raw;
  Some (set_valuestring (Some s) (set_type cJSON_Raw i)).
(** The text is not copied. *)
Definition cJSON_CreateStringReference (string : option bytes) : option cJSON :=
  set_valuestring string ∘ set_type (Z.lor cJSON_String cJSON_IsReference) <$> cJSON_New_Item.

(** The object afterwards and the text returned. The two texts do not overlap:
    they are different blocks. *)
Definition cJSON_SetValuestring (object : option cJSON) (string : option bytes) : option cJSON * option bytes :=
  match object with
  | None => (None, None)
  | Some o =>
      if (Z.land o.(type) cJSON_String =? 0) || negb (Z.land o.(type) cJSON_IsReference =? 0) then (object, None)
      else
        match o.(valuestring), string with
        | Some old, Some s =>
            if (strlen s <=? strlen old)%nat then (Some (set_valuestring (Some (cstr s)) o), Some (cstr s))
            else
              match cJSON_strdup string with
              | None => (object, None)
              | Some copy => (Some (set_valuestring (Some copy) o), Some copy)
              end
        | _, _ => (object, None)
        end
  end.

Definition cJSON_SetNumberHelper (object : cJSON) (number : double) : cJSON :=
  set_valuedouble number (set_valueint (saturate number) object).

(** Appending to the child chain. *)
Definition add_item_to_array (array item : option cJSON) : option cJSON * bool :=
  match array, item with
  | Some a, Some i => (Some (set_child (a.(child) ++ [i]) a), true)
  | _, _ => (array, false)
  end.

Definition cJSON_AddItemToArray := add_item_to_array.

Definition add_item_to_object (object : option cJSON) (string : option bytes) (item : option cJSON)
    (constant_key : bool) : option cJSON * bool :=
  match object, string, item with
  | Some _, Some k, Some i =>
      if constant_key then
        add_item_to_array object (Some (set_type (Z.lor i.(type) cJSON_StringIsConst) (set_name string i)))
      else
        match cJSON_strdup string with
        | None => (object, false)
        | Some key =>
            add_item_to_array object
              (Some (set_type (Z.land i.(type) (Z.lnot cJSON_StringIsConst)) (set_name (Some key) i)))
        end
  | _, _, _ => (object, false)
  end.

Definition cJSON_AddItemToObject (object : option cJSON) (string : option bytes) (item : option cJSON) :=
  add_item_to_object object string item false.
Definition cJSON_AddItemToObjectCS (object : option cJSON) (string : option bytes) (item : option cJSON) :=
  add_item_to_object object string item true.
Definition cJSON_AddTrueToObject (object : option cJSON) (key : bytes) :=
  add_item_to_object object (Some key) cJSON_CreateTrue false.
Definition cJSON_AddFalseToObject (object : option cJSON) (key : bytes) :=
  add_item_to_object object (Some key) cJSON_CreateFalse false.
Definition cJSON_AddRawToObject (object : option cJSON) (key : bytes) (raw : option bytes) :=
  add_item_to_object object (Some key) (cJSON_CreateRaw raw) false.
Definition cJSON_AddObjectToObject (object : option cJSON) (key : bytes) :=
  add_item_to_object object (Some key) cJSON_CreateObject false.
Definition cJSON_AddNullToObject (object : option cJSON) (key : bytes) :=
  add_item_to_object object (Some key) cJSON_CreateNull false.
Definition cJSON_AddBoolToObject (object : option cJSON) (key : bytes) (boolean : bool) :=
  add_item_to_object object (Some key) (cJSON_CreateBool boolean) false.
Definition cJSON_AddNumberToObject (object : option cJSON) (key : bytes) (number : double) :=
  add_item_to_object object (Some key) (cJSON_CreateNumber number) false.
Definition cJSON_AddStringToObject (object : option cJSON) (key : bytes) (string : option bytes) :=
  add_item_to_object object (Some key) (cJSON_CreateString string) false.
Definition cJSON_AddArrayToObject (object : option cJSON) (key : bytes) :=
  add_item_to_object object (Some key) cJSON_CreateArray false.
End Alloc.

(** ** Lookup lemmas *)

(** Saturation is the identity on the integers of an [int]. *)
Lemma saturate_of_Z n : INT_MIN <= n <= INT_MAX -> saturate (of_Z n) = n.
Proof.
  intros Hn. unfold saturate, dge.
  change (SFleb (of_Z INT_MAX) (of_Z n)) with (dle (of_Z INT_MAX) (of_Z n)).
  rewrite !dle_of_Z by (apply exact_int; unfold INT_MIN, INT_MAX in *; lia).
  destruct (INT_MAX <=? n) eqn:E1; boolify; [lia|].
  destruct (n <=? INT_MIN) eqn:E2; boolify; [lia|]. by apply int_of_of_Z.
Qed.

Lemma strcaseeq_refl a : strcaseeq a a = true.
Proof. by apply bool_decide_eq_true. Qed.

Lemma find_insensitive_app key l1 l2 :
  find_insensitive key (l1 ++ l2)
  = match find_insensitive key l1 with Some i => Some i | None => find_insensitive key l2 end.
Proof.
  induction l1 as [|i l1 IH]; [done|]. cbn [app find_insensitive].
  by destruct (case_insensitive_streq (Some key) (name i)).
Qed.
