(* ===== verification/JsonList.v ===== *)
(** * cJSON.c: children as a linked list

    [Json] takes the children of an item for a list. Here are the nodes as the
    code has them, with their [next], [prev] and [child] pointers, and the
    operations that rewire them: [prev] of a first child points to the last,
    [next] of a last one is NULL. The theorems say that the operations keep
    that shape and are those of lists. A pointer to nothing ([None]) ends the
    process. *)

From S2P Require Import Prelude CString Double Json.
From stdpp Require Import gmap.
Local Open Scope Z_scope.

Abbreviation loc := nat.

(** [data]: the other fields; its [child] is not used. *)
Record node := MkNode { next : option loc; prev : option loc; kids : option loc; data : cJSON }.
Abbreviation heap := (gmap loc node).

Definition set_next v '(MkNode _ p k d) := MkNode v p k d.
Definition set_prev v '(MkNode n _ k d) := MkNode n v k d.
Definition set_kids v '(MkNode n p _ d) := MkNode n p v d.
Definition set_data v '(MkNode n p k _) := MkNode n p k v.

(** An assignment through a pointer. *)
Definition upd (l : loc) (f : node -> node) (h : heap) : option heap :=
  n ← h !! l; Some (<[l := f n]> h).

(** ** The operations *)

Definition suffix_object (prev item : loc) (h : heap) : option heap :=
  h ← upd prev (set_next (Some item)) h;
  upd item (set_prev (Some prev)) h.

Definition add_item (array item : option loc) (h : heap) : option (bool * heap) :=
  match array, item with
  | Some a, Some i =>
      if bool_decide (a = i) then Some (false, h)
      else
        na ← h !! a;
        match kids na with
        | None =>
            h ← upd a (set_kids (Some i)) h;
            h ← upd i (set_prev (Some i)) h;
            h ← upd i (set_next None) h;
            Some (true, h)
        | Some c =>
            nc ← h !! c;
            match prev nc with
            | None => Some (true, h)
            | Some p =>
                h ← suffix_object p i h;
                h ← upd c (set_prev (Some i)) h;
                Some (true, h)
            end
        end
  | _, _ => Some (false, h)
  end.

Fixpoint walk (index : nat) (current : option loc) (h : heap) : option (option loc) :=
  match current, index with
  | None, _ => Some None
  | Some l, O => Some (Some l)
  | Some l, S index => n ← h !! l; walk index (next n) h
  end.

Definition array_item (array : option loc) (index : nat) (h : heap) : option (option loc) :=
  match array with
  | None => Some None
  | Some a => na ← h !! a; walk index (kids na) h
  end.

(** Both loops of [get_object_item]; [stop] on the key of a node. *)
Fixpoint find_node (fuel : nat) (stop : option bytes -> bool) (current : option loc) (h : heap) : option (option loc) :=
  match fuel, current with
  | O, _ => None
  | _, None => Some None
  | S fuel, Some l => n ← h !! l; if stop (name (data n)) then Some (Some l) else find_node fuel stop (next n) h
  end.

(** Whether a loop of [get_object_item] stops at a key. *)
Definition key_stops (k : bytes) (case_sensitive : bool) (s : option bytes) : bool :=
  if case_sensitive then match s with None => true | Some s => streq k s end
  else case_insensitive_streq (Some k) s.

Definition object_item (object : option loc) (key : option bytes) (case_sensitive : bool) (h : heap)
    : option (option loc) :=
  match object, key with
  | Some o, Some k =>
      no ← h !! o;
      current ← find_node (S (size h)) (key_stops k case_sensitive) (kids no) h;
      match current with
      | None => Some None
      | Some l => n ← h !! l; Some (match name (data n) with Some _ => Some l | None => None end)
      end
  | _, _ => Some None
  end.

Definition cJSON_DetachItemViaPointer (parent item : option loc) (h : heap) : option (option loc * heap) :=
  match parent, item with
  | Some p, Some i =>
      np ← h !! p; ni ← h !! i;
      let first := bool_decide (kids np = Some i) in
      if negb first && bool_decide (prev ni = None) then Some (None, h)
      else
        h ← (if first then Some h else q ← prev ni; upd q (set_next (next ni)) h);
        ni ← h !! i;
        h ← (match next ni with Some y => upd y (set_prev (prev ni)) h | None => Some h end);
        ni ← h !! i;
        h ← (if first then upd p (set_kids (next ni)) h
             else match next ni with
             | None => c ← kids np; upd c (set_prev (prev ni)) h
             | Some _ => Some h
             end);
        h ← upd i (set_prev None) h;
        h ← upd i (set_next None) h;
        Some (Some i, h)
  | _, _ => Some (None, h)
  end.

Definition cJSON_DetachItemFromArray (array : option loc) (which : Z) (h : heap) : option (option loc * heap) :=
  if which <? 0 then Some (None, h)
  else item ← array_item array (Z.to_nat which) h; cJSON_DetachItemViaPointer array item h.

Definition detach_from_object (object : option loc) (key : option bytes) (case_sensitive : bool) (h : heap)
    : option (option loc * heap) :=
  item ← object_item object key case_sensitive h; cJSON_DetachItemViaPointer object item h.

Definition cJSON_InsertItemInArray (array : option loc) (which : Z) (newitem : option loc) (h : heap)
    : option (bool * heap) :=
  match newitem with
  | Some i =>
      if which <? 0 then Some (false, h)
      else
        after ← array_item array (Z.to_nat which) h;
        match after, array with
        | Some x, Some a =>
            na ← h !! a; nx ← h !! x;
            let first := bool_decide (kids na = Some x) in
            if negb first && bool_decide (prev nx = None) then Some (false, h)
            else
              h ← upd i (set_next (Some x)) h;
              nx ← h !! x;
              h ← upd i (set_prev (prev nx)) h;
              h ← upd x (set_prev (Some i)) h;
              h ← (if first then upd a (set_kids (Some i)) h
                   else ni ← h !! i; q ← prev ni; upd q (set_next (Some i)) h);
              Some (true, h)
        | _, _ => add_item array newitem h
        end
  | None => Some (false, h)
  end.

(** [cJSON_Delete] on the nodes: strings are not on the heap. *)
Fixpoint delete_nodes (fuel : nat) (item : option loc) (h : heap) : option heap :=
  match fuel, item with
  | O, _ => None
  | _, None => Some h
  | S fuel, Some l =>
      n ← h !! l;
      h ← (if Z.land (type (data n)) cJSON_IsReference =? 0 then delete_nodes fuel (kids n) h else Some h);
      delete_nodes fuel (next n) (delete l h)
  end.
Definition cJSON_Delete (item : option loc) (h : heap) : option heap := delete_nodes (S (size h)) item h.

Definition cJSON_ReplaceItemViaPointer (parent item replacement : option loc) (h : heap) : option (bool * heap) :=
  match parent, item, replacement with
  | Some p, Some i, Some r =>
      np ← h !! p;
      match kids np with
      | None => Some (false, h)
      | Some c =>
          if bool_decide (r = i) then Some (true, h)
          else
            ni ← h !! i;
            h ← upd r (set_next (next ni)) h;
            h ← upd r (set_prev (prev ni)) h;
            h ← (match next ni with Some y => upd y (set_prev (Some r)) h | None => Some h end);
            h ← (if bool_decide (c = i) then
                   nc ← h !! c;
                   h ← (if bool_decide (prev nc = Some c) then upd r (set_prev (Some r)) h else Some h);
                   upd p (set_kids (Some r)) h
                 else
                   nr ← h !! r;
                   h ← (match prev nr with Some q => upd q (set_next (Some r)) h | None => Some h end);
                   nr ← h !! r;
                   match next nr with None => upd c (set_prev (Some r)) h | Some _ => Some h end);
            h ← upd i (set_next None) h;
            h ← upd i (set_prev None) h;
            h ← cJSON_Delete (Some i) h;
            Some (true, h)
      end
  | _, _, _ => Some (false, h)
  end.

Definition cJSON_ReplaceItemInArray (array : option loc) (which : Z) (newitem : option loc) (h : heap)
    : option (bool * heap) :=
  if which <? 0 then Some (false, h)
  else item ← array_item array (Z.to_nat which) h; cJSON_ReplaceItemViaPointer array item newitem h.

Definition cJSON_DeleteItemFromArray (array : option loc) (which : Z) (h : heap) : option heap :=
  '(item, h) ← cJSON_DetachItemFromArray array which h; cJSON_Delete item h.

Definition delete_from_object (object : option loc) (key : option bytes) (case_sensitive : bool) (h : heap) : option heap :=
  '(item, h) ← detach_from_object object key case_sensitive h; cJSON_Delete item h.

Definition replace_item_in_object (malloc_ok : Z -> bool) (object : option loc) (string : option bytes) (replacement : option loc)
    (case_sensitive : bool) (h : heap) : option (bool * heap) :=
  match replacement, string with
  | Some r, Some _ =>
      h ← upd r (fun n => set_data (set_name (cJSON_strdup malloc_ok string) (data n)) n) h;
      nr ← h !! r;
      match name (data nr) with
      | None => Some (false, h)
      | Some _ =>
          h ← upd r (fun n => set_data (set_type (Z.land (type (data n)) (Z.lnot cJSON_StringIsConst)) (data n)) n) h;
          item ← object_item object string case_sensitive h;
          cJSON_ReplaceItemViaPointer object item replacement h
      end
  | _, _ => Some (false, h)
  end.

(** ** What a heap represents *)

(** An item with its location, its own fields and its children. *)
Inductive tree := Tree { root : loc; fields : cJSON; subtrees : list tree }.

Section TreeInd.
Variable P : tree -> Prop.
Hypothesis step : forall a d ts, Forall P ts -> P (Tree a d ts).

Fixpoint tree_ind' (t : tree) : P t :=
  match t with
  | Tree a d ts =>
      step a d ts ((fix go l : Forall P l :=
        match l with [] => Forall_nil_2 P | x :: l' => Forall_cons_2 P x l' (tree_ind' x) (go l') end) ts)
  end.
End TreeInd.

(** The locations of the nodes of an item, and of all but its own. *)
Fixpoint locs (t : tree) : list loc := root t :: concat (map locs (subtrees t)).
Definition below (t : tree) : list loc := concat (map locs (subtrees t)).

(** The item, as in [Json]. *)
Fixpoint item_of (t : tree) : cJSON := set_child (map item_of (subtrees t)) (fields t).

(** Fields of the node at a location. *)
Definition nx (h : heap) (l : loc) : option loc := n ← h !! l; next n.
Definition pv (h : heap) (l : loc) : option loc := n ← h !! l; prev n.
Definition kd (h : heap) (l : loc) : option loc := n ← h !! l; kids n.
Definition dt (h : heap) (l : loc) : option cJSON := data <$> h !! l.

(** [prev] of the child at an index. *)
Definition before (ls : list loc) (i : nat) : option loc :=
  match i with O => last ls | S j => ls !! j end.

Definition chain (h : heap) (ls : list loc) : Prop :=
  forall i l, ls !! i = Some l -> nx h l = ls !! S i /\ pv h l = before ls i.

(** The nodes of an item are on the heap, its children linked; nothing is said
    of the links of its own node. *)
Inductive stored (h : heap) : tree -> Prop :=
| Stored a d ts :
    dt h a = Some d -> kd h a = head (map root ts) -> chain h (map root ts) -> Forall (stored h) ts ->
    stored h (Tree a d ts).

Definition item_at (h : heap) (t : tree) : Prop := stored h t /\ NoDup (locs t).

(** An item that is in no list. *)
Definition loose (h : heap) (t : tree) : Prop := item_at h t /\ nx h (root t) = None.

(** ** Steps on the heap *)

Section Views.
Implicit Types (h : heap) (l : loc).

Lemma alive h l : is_Some (dt h l) -> exists n, h !! l = Some n.
Proof. unfold dt. intros [d Hd]. destruct (h !! l) as [n|]; [by exists n|done]. Qed.

(** What each assignment changes. *)
Lemma upd_next h l v : is_Some (dt h l) -> exists h', upd l (set_next v) h = Some h'
  /\ (forall x, nx h' x = if decide (x = l) then v else nx h x) /\ (forall x, pv h' x = pv h x)
  /\ (forall x, kd h' x = kd h x) /\ (forall x, dt h' x = dt h x).
Proof.
  intros Ha. destruct (alive _ _ Ha) as [[n p k d] Hn]. unfold upd. rewrite Hn. eexists. split; [done|].
  unfold nx, pv, kd, dt. split_and!; intros x; destruct (decide (x = l)) as [->|];
    by rewrite ?lookup_insert_eq, ?lookup_insert_ne, ?Hn by done.
Qed.

Lemma upd_prev h l v : is_Some (dt h l) -> exists h', upd l (set_prev v) h = Some h'
  /\ (forall x, nx h' x = nx h x) /\ (forall x, pv h' x = if decide (x = l) then v else pv h x)
  /\ (forall x, kd h' x = kd h x) /\ (forall x, dt h' x = dt h x).
Proof.
  intros Ha. destruct (alive _ _ Ha) as [[n p k d] Hn]. unfold upd. rewrite Hn. eexists. split; [done|].
  unfold nx, pv, kd, dt. split_and!; intros x; destruct (decide (x = l)) as [->|];
    by rewrite ?lookup_insert_eq, ?lookup_insert_ne, ?Hn by done.
Qed.

Lemma upd_kids h l v : is_Some (dt h l) -> exists h', upd l (set_kids v) h = Some h'
  /\ (forall x, nx h' x = nx h x) /\ (forall x, pv h' x = pv h x)
  /\ (forall x, kd h' x = if decide (x = l) then v else kd h x) /\ (forall x, dt h' x = dt h x).
Proof.
  intros Ha. destruct (alive _ _ Ha) as [[n p k d] Hn]. unfold upd. rewrite Hn. eexists. split; [done|].
  unfold nx, pv, kd, dt. split_and!; intros x; destruct (decide (x = l)) as [->|];
    by rewrite ?lookup_insert_eq, ?lookup_insert_ne, ?Hn by done.
Qed.

(** Reading a node. *)
Lemma read_node h l : is_Some (dt h l) -> exists n, h !! l = Some n /\ next n = nx h l /\ prev n = pv h l /\ kids n = kd h l /\ Some (data n) = dt h l.
Proof.
  intros Ha. destruct (alive _ _ Ha) as [n Hn]. exists n. unfold nx, pv, kd, dt. by rewrite Hn.
Qed.

(** Only links of [R] and the first-child pointers of [A] differ. *)
Definition relinked (R A : list loc) (h h' : heap) : Prop :=
  forall l, dt h' l = dt h l /\ (l ∉ A -> kd h' l = kd h l) /\ (l ∉ R -> nx h' l = nx h l /\ pv h' l = pv h l).

Lemma stored_relinked R A h h' t :
  relinked R A h h' -> stored h t -> (forall l, l ∈ locs t -> l ∉ A) -> (forall l, l ∈ below t -> l ∉ R) -> stored h' t.
Proof.
  intros Hr Hs. induction t as [a d ts IH] using tree_ind'. inversion Hs as [? ? ? Hd Hk Hc Hts]; subst. intros HA HR.
  assert (Hsub : forall t l, t ∈ ts -> l ∈ locs t -> l ∈ below (Tree a d ts)).
  { intros t l Ht Hl. apply list_elem_of_In, in_concat. exists (locs t). split; [|by apply list_elem_of_In].
    apply in_map. by apply list_elem_of_In. }
  assert (Hroot : forall t, root t ∈ locs t) by (intros []; apply list_elem_of_here).
  constructor.
  - by rewrite (proj1 (Hr a)).
  - rewrite (proj1 (proj2 (Hr a))); [done|]. apply HA. apply list_elem_of_here.
  - intros i l Hi. assert (Hl : l ∉ R).
    { apply list_lookup_fmap_Some in Hi as (t & -> & Ht). apply HR, (Hsub t); [by eapply list_elem_of_lookup_2|done]. }
    destruct (proj2 (proj2 (Hr l)) Hl) as [-> ->]. by apply Hc.
  - rewrite !Forall_forall in *. intros t Ht. apply IH; [done|by apply Hts| |].
    + intros l Hl. apply HA. right. by apply (Hsub t).
    + intros l Hl. apply HR, (Hsub t); [done|]. destruct t. by right.
Qed.
End Views.

(** ** The operations on a chain *)

(** An array and its children, as locations. *)
Record linked (h : heap) (a : loc) (ls : list loc) : Prop := {
  linked_chain : chain h ls;
  linked_NoDup : NoDup (a :: ls);
  linked_alive : forall l, l ∈ a :: ls -> is_Some (dt h l);
  linked_first : kd h a = head ls }.

(** Rewrite with what the assignments changed. *)
Ltac views :=
  repeat match goal with
  | H : forall x, nx ?h x = _ |- context [nx ?h _] => rewrite H
  | H : forall x, pv ?h x = _ |- context [pv ?h _] => rewrite H
  | H : forall x, kd ?h x = _ |- context [kd ?h _] => rewrite H
  | H : forall x, dt ?h x = _ |- context [dt ?h _] => rewrite H
  end.

(** One assignment of the code. *)
Ltac assign lem h l v :=
  let h' := fresh "h" in
  destruct (lem h l v) as (h' & -> & ? & ? & ? & ?); [views; eauto 3 using list_elem_of_lookup_2|cbn [mbind option_bind]].

(** One read. *)
Ltac load h l :=
  let n := fresh "n" in let E1 := fresh in let E2 := fresh in let E3 := fresh in let E4 := fresh in
  destruct (read_node h l) as (n & -> & E1 & E2 & E3 & E4); [views; eauto 3 using list_elem_of_lookup_2|cbn [mbind option_bind]];
  rewrite ?E1, ?E2, ?E3; clear E1 E2 E3 E4; views.

(** Comparisons of locations of a list are comparisons of indices. *)
Ltac index_cases :=
  repeat match goal with
  | |- context [decide (?l = ?l)] => rewrite (decide_True _ _ (eq_refl l))
  | Hn : NoDup ?ls, H1 : ?ls !! ?j = Some ?l, H2 : ?ls !! ?i = Some ?m |- context [decide (?l = ?m)] =>
      let E := fresh in
      destruct (decide (l = m)) as [E|E];
      [assert (j = i) by (rewrite E in H1; exact (NoDup_lookup _ _ _ _ Hn H1 H2))
      |assert (j <> i) by (let F := fresh in intros F; rewrite F in H1; congruence)]; try (exfalso; lia)
  | Hn : ?m ∉ ?ls, H1 : ?ls !! ?j = Some ?l |- context [decide (?l = ?m)] =>
      rewrite (decide_False (P := l = m)) by (intros ->; apply Hn; exact (list_elem_of_lookup_2 _ _ _ H1))
  | Hn : ?m ∉ ?ls, H1 : ?ls !! ?j = Some ?l |- context [decide (?m = ?l)] =>
      rewrite (decide_False (P := m = l)) by (intros <-; apply Hn; exact (list_elem_of_lookup_2 _ _ _ H1))
  end.

Definition insert_at {A} (k : nat) (x : A) (l : list A) : list A := take k l ++ x :: drop k l.

Lemma lookup_insert_at {A} k (x : A) l j : (k <= length l)%nat ->
  insert_at k x l !! j = if decide (j < k)%nat then l !! j else if decide (j = k) then Some x else l !! pred j.
Proof.
  intros Hk. unfold insert_at. repeat case_decide.
  - rewrite lookup_app_l by (rewrite length_take; lia). by apply lookup_take_lt.
  - subst. rewrite lookup_app_r by (rewrite length_take; lia). by rewrite length_take, Nat.min_l, Nat.sub_diag by lia.
  - rewrite lookup_app_r by (rewrite length_take; lia). rewrite length_take, Nat.min_l by lia.
    replace (j - k)%nat with (S (pred j - k)) by lia. transitivity (drop k l !! (pred j - k)%nat); [done|].
    rewrite lookup_drop. f_equal. lia.
Qed.

Lemma length_insert_at {A} k (x : A) l : length (insert_at k x l) = S (length l).
Proof. unfold insert_at. rewrite length_app. cbn. rewrite length_take, length_drop. lia. Qed.

Lemma lookup_set {A} k (x : A) l j : (k < length l)%nat -> <[k := x]> l !! j = if decide (j = k) then Some x else l !! j.
Proof.
  intros Hk. case_decide; [subst; by apply list_lookup_insert_eq|by apply list_lookup_insert_ne].
Qed.

Lemma before_pos ls i : (0 < i)%nat -> before ls i = ls !! pred i.
Proof. by destruct i; [lia|]. Qed.

(** An equation between entries of a list and of what is left of it. *)
Ltac index_bounds :=
  repeat match goal with
  | H : ?ls !! ?j = Some _ |- _ =>
      lazymatch goal with
      | _ : (j < length ls)%nat |- _ => fail
      | _ => pose proof (lookup_lt_Some _ _ _ H)
      end
  | H : ?ls !! ?j = None |- _ =>
      lazymatch goal with
      | _ : (length ls <= j)%nat |- _ => fail
      | _ => pose proof (proj1 (lookup_ge_None _ _) H)
      end
  end.

Ltac by_index :=
  index_bounds; rewrite ?before_pos by lia;
  try match goal with |- context [before _ ?i] => is_var i; destruct i end; cbn [before] in *;
  rewrite ?last_lookup, ?head_lookup, ?list_lookup_delete, ?length_delete, ?length_insert_at, ?length_insert by eauto;
  rewrite ?lookup_insert_at, ?lookup_set by lia;
  repeat case_decide;
  first [lia|done|f_equal; lia|congruence
    |match goal with H : ?ls !! _ = Some ?q |- Some ?q = ?ls !! _ => rewrite <- H; f_equal; lia end
    |symmetry; apply lookup_ge_None; lia|apply lookup_ge_None; lia].

(** The links of what is left. *)
Ltac delete_chain :=
  let i := fresh "i" in let l := fresh "l" in let Hi := fresh "Hi" in let Hn := fresh "Hn" in let Hp := fresh "Hp" in
  intros i l Hi; rewrite list_lookup_delete in Hi; case_decide;
  match goal with H : linked _ _ _ |- _ => destruct (linked_chain _ _ _ H _ _ Hi) as [Hn Hp] end;
  split; views; index_cases; rewrite ?Hn, ?Hp; by_index.

(** The links of a list with a new location [r] in it. *)
Ltac insert_chain :=
  let i := fresh "i" in let l := fresh "l" in let Hi := fresh "Hi" in let Hn := fresh "Hn" in let Hp := fresh "Hp" in
  intros i l Hi; index_bounds; first [rewrite lookup_insert_at in Hi by lia|rewrite lookup_set in Hi by lia];
  repeat case_decide;
  try (match goal with H : linked _ _ _ |- _ => destruct (linked_chain _ _ _ H _ _ Hi) as [Hn Hp] end);
  simplify_eq; split; views; index_cases;
  repeat match goal with
  | H : nx ?h ?l = _ |- context [nx ?h ?l] => rewrite H
  | H : pv ?h ?l = _ |- context [pv ?h ?l] => rewrite H
  end; by_index.

(** What is not touched. *)
Ltac by_frame :=
  let l := fresh "l" in intros l; split_and!; [by views|intros Hno; views; rewrite ?decide_False by set_solver; done
    |intros Hno; views; repeat rewrite decide_False by (intros ->; apply Hno;
       eauto using list_elem_of_lookup_2, list_elem_of_here, list_elem_of_further); done].

Section Chains.
Context (h : heap) (a : loc) (ls : list loc).
Hypothesis (Hl : linked h a ls).

Let Hnd : NoDup ls.
Proof. pose proof (linked_NoDup _ _ _ Hl) as H. by apply NoDup_cons in H as [??]. Qed.

Let Ha : a ∉ ls.
Proof. pose proof (linked_NoDup _ _ _ Hl) as H. by apply NoDup_cons in H as [??]. Qed.

Lemma first_index x k : ls !! k = Some x -> bool_decide (kd h a = Some x) = (k =? 0)%nat.
Proof.
  intros Hk. rewrite (linked_first _ _ _ Hl). destruct (Nat.eqb_spec k 0) as [->|Hn].
  - apply bool_decide_eq_true. by destruct ls.
  - apply bool_decide_eq_false. intros E. assert (H0 : ls !! 0%nat = Some x) by by destruct ls.
    apply Hn. exact (NoDup_lookup _ _ _ _ Hnd Hk H0).
Qed.

Lemma array_item_chain k : array_item (Some a) k h = Some (ls !! k).
Proof.
  unfold array_item. destruct (read_node h a) as (n & -> & _ & _ & Hkd & _); [apply Hl; left|]. cbn [mbind option_bind].
  rewrite Hkd, (linked_first _ _ _ Hl).
  assert (Hw : forall k i, walk k (ls !! i) h = Some (ls !! (i + k)%nat)).
  { clear k. induction k as [|k IH]; intros i; destruct (ls !! i) as [l|] eqn:E; cbn [walk].
    - by rewrite Nat.add_0_r, E.
    - rewrite lookup_ge_None_2; [done|]. apply lookup_ge_None in E. lia.
    - destruct (read_node h l) as (n' & -> & Hx & _); [apply Hl; right; by eapply list_elem_of_lookup_2|].
      cbn [mbind option_bind]. rewrite Hx. destruct (linked_chain _ _ _ Hl _ _ E) as [-> _]. rewrite IH. f_equal. f_equal. lia.
    - rewrite lookup_ge_None_2; [done|]. apply lookup_ge_None in E. lia. }
  rewrite <- (Nat.add_0_l k), <- Hw. by destruct ls.
Qed.

Lemma detach_chain k x :
  ls !! k = Some x ->
  exists h', cJSON_DetachItemViaPointer (Some a) (Some x) h = Some (Some x, h')
    /\ kd h' a = head (delete k ls) /\ chain h' (delete k ls) /\ nx h' x = None /\ relinked ls [a] h h'.
Proof.
  intros Hk. unfold cJSON_DetachItemViaPointer. destruct (linked_chain _ _ _ Hl _ _ Hk) as [Hnx Hpv].
  assert (Hal : forall l, l ∈ ls -> is_Some (dt h l)) by (intros; apply Hl; by right).
  assert (Haa : is_Some (dt h a)) by (apply Hl; left).
  assert (Hxl : x ∈ ls) by (by eapply list_elem_of_lookup_2).
  load h a. load h x. rewrite (first_index x k Hk), Hnx, Hpv.
  destruct k as [|k]; cbn [Nat.eqb negb andb before] in *.
  - cbn [mbind option_bind]. load h x. rewrite Hnx, Hpv. destruct (ls !! 1%nat) as [y|] eqn:Hy.
    + assign upd_prev h y (last ls). load h0 x. rewrite Hnx. assign upd_kids h0 a (Some y).
      assign upd_prev h1 x (@None loc). assign upd_next h2 x (@None loc).
      eexists. split; [done|]. split_and!; [views; index_cases; by_index|delete_chain|views; by index_cases|by_frame].
    + cbn [mbind option_bind]. load h x. rewrite Hnx. assign upd_kids h a (@None loc).
      assign upd_prev h0 x (@None loc). assign upd_next h1 x (@None loc).
      eexists. split; [done|]. split_and!; [views; index_cases; by_index|delete_chain|views; by index_cases|by_frame].
  - destruct (lookup_lt_is_Some_2 ls k) as [q Hq]; [apply lookup_lt_Some in Hk; lia|]. rewrite Hq.
    rewrite bool_decide_eq_false_2 by done. cbn [mbind option_bind]. assign upd_next h q (ls !! S (S k)).
    load h0 x. index_cases. rewrite Hnx, Hpv, Hq. destruct (ls !! S (S k)) as [y|] eqn:Hy.
    + assign upd_prev h0 y (Some q). load h1 x. index_cases. rewrite Hnx. cbn [mbind option_bind].
      assign upd_prev h1 x (@None loc). assign upd_next h2 x (@None loc).
      eexists. split; [done|]. split_and!; [views; rewrite (linked_first _ _ _ Hl); by_index|delete_chain|views; by index_cases|by_frame].
    + cbn [mbind option_bind]. load h0 x. index_cases. rewrite Hnx, Hpv, Hq, (linked_first _ _ _ Hl).
      destruct (lookup_lt_is_Some_2 ls 0) as [c Hc]; [apply lookup_lt_Some in Hk; lia|]. rewrite head_lookup, Hc. cbn [mbind option_bind].
      assign upd_prev h0 c (Some q). assign upd_prev h1 x (@None loc). assign upd_next h2 x (@None loc).
      eexists. split; [done|]. split_and!; [views; rewrite (linked_first _ _ _ Hl); by_index|delete_chain|views; by index_cases|by_frame].
Qed.

(** A node that is not there yet. *)
Context (r : loc) (Hr : r ∉ a :: ls) (Hra : is_Some (dt h r)).

Let Hrl : r ∉ ls.
Proof. set_solver. Qed.

Lemma append_chain :
  nx h r = None ->
  exists h', add_item (Some a) (Some r) h = Some (true, h')
    /\ kd h' a = head (ls ++ [r]) /\ chain h' (ls ++ [r]) /\ relinked (r :: ls) [a] h h'.
Proof.
  intros Hnr. unfold add_item. rewrite bool_decide_eq_false_2 by set_solver.
  assert (Hal : forall l, l ∈ ls -> is_Some (dt h l)) by (intros; apply Hl; by right).
  assert (Haa : is_Some (dt h a)) by (apply Hl; left).
  replace (ls ++ [r]) with (insert_at (length ls) r ls) by (unfold insert_at; by rewrite firstn_all, drop_all).
  load h a. rewrite (linked_first _ _ _ Hl), head_lookup. destruct (ls !! 0%nat) as [c|] eqn:Hc.
  - load h c. destruct (linked_chain _ _ _ Hl _ _ Hc) as [_ Hpc]. rewrite Hpc. cbn [before]. rewrite last_lookup.
    destruct (lookup_lt_is_Some_2 ls (pred (length ls))) as [p Hp]; [apply lookup_lt_Some in Hc; lia|]. rewrite Hp.
    unfold suffix_object. assign upd_next h p (Some r). assign upd_prev h0 r (Some p). assign upd_prev h1 c (Some r).
    eexists. split; [done|]. split_and!.
    + views. rewrite (linked_first _ _ _ Hl). by_index.
    + insert_chain.
    + by_frame.
  - assert (E : length ls = 0%nat) by (apply lookup_ge_None in Hc; lia). rewrite E.
    assign upd_kids h a (Some r). assign upd_prev h0 r (Some r). assign upd_next h1 r (@None loc).
    eexists. split; [done|]. split_and!; [views; index_cases; by_index|insert_chain|by_frame].
Qed.

Lemma insert_chain_at k x :
  ls !! k = Some x ->
  exists h', cJSON_InsertItemInArray (Some a) (Z.of_nat k) (Some r) h = Some (true, h')
    /\ kd h' a = head (insert_at k r ls) /\ chain h' (insert_at k r ls) /\ relinked (r :: ls) [a] h h'.
Proof.
  intros Hk. unfold cJSON_InsertItemInArray. destruct (Z.ltb_spec (Z.of_nat k) 0); [lia|].
  assert (Hal : forall l, l ∈ ls -> is_Some (dt h l)) by (intros; apply Hl; by right).
  assert (Haa : is_Some (dt h a)) by (apply Hl; left).
  rewrite Nat2Z.id, array_item_chain, Hk. cbn [mbind option_bind]. load h a. load h x.
  destruct (linked_chain _ _ _ Hl _ _ Hk) as [Hnx Hpv]. rewrite (first_index x k Hk), Hpv.
  destruct k as [|k]; cbn [Nat.eqb negb andb before] in *.
  - assign upd_next h r (Some x). load h0 x. rewrite Hpv. assign upd_prev h0 r (last ls). assign upd_prev h1 x (Some r).
    assign upd_kids h2 a (Some r).
    eexists. split; [done|]. split_and!; [views; index_cases; by_index|insert_chain|by_frame].
  - destruct (lookup_lt_is_Some_2 ls k) as [q Hq]; [apply lookup_lt_Some in Hk; lia|]. rewrite Hq.
    rewrite bool_decide_eq_false_2 by done. assign upd_next h r (Some x). load h0 x. rewrite Hpv, Hq.
    assign upd_prev h0 r (Some q). assign upd_prev h1 x (Some r). load h2 r. index_cases. cbn [mbind option_bind].
    assign upd_next h2 q (Some r).
    eexists. split; [done|]. split_and!; [views; rewrite (linked_first _ _ _ Hl); by_index|insert_chain|by_frame].
Qed.

Lemma replace_chain k x :
  ls !! k = Some x ->
  exists h', cJSON_ReplaceItemViaPointer (Some a) (Some x) (Some r) h = (h ← cJSON_Delete (Some x) h'; Some (true, h))
    /\ kd h' a = head (<[k := r]> ls) /\ chain h' (<[k := r]> ls) /\ nx h' x = None /\ relinked (r :: ls) [a] h h'.
Proof.
  intros Hk. unfold cJSON_ReplaceItemViaPointer.
  assert (Hal : forall l, l ∈ ls -> is_Some (dt h l)) by (intros; apply Hl; by right).
  assert (Haa : is_Some (dt h a)) by (apply Hl; left).
  assert (Hxr : bool_decide (r = x) = false).
  { apply bool_decide_eq_false. intros ->. apply Hrl. by eapply list_elem_of_lookup_2. }
  load h a. destruct (lookup_lt_is_Some_2 ls 0) as [c Hc]; [apply lookup_lt_Some in Hk; lia|].
  rewrite (linked_first _ _ _ Hl), head_lookup, Hc, Hxr. load h x.
  destruct (linked_chain _ _ _ Hl _ _ Hk) as [Hnx Hpv]. destruct (linked_chain _ _ _ Hl _ _ Hc) as [_ Hpc].
  rewrite Hnx, Hpv. assign upd_next h r (ls !! S k). assign upd_prev h0 r (before ls k).
  destruct k as [|k]; cbn [before] in *.
  - assert (c = x) as -> by congruence. rewrite bool_decide_eq_true_2 by done.
    destruct (lookup_lt_is_Some_2 ls (pred (length ls))) as [p Hp]; [apply lookup_lt_Some in Hk; lia|].
    rewrite last_lookup, Hp in *. destruct (ls !! 1%nat) as [y|] eqn:Hy.
    + assign upd_prev h1 y (Some r). load h2 x. index_cases. rewrite Hpv.
      rewrite bool_decide_eq_false_2 by (intros [= ->]; pose proof (NoDup_lookup _ _ _ _ Hnd Hp Hk); index_bounds; lia). cbn [mbind option_bind].
      assign upd_kids h2 a (Some r). assign upd_next h3 x (@None loc). assign upd_prev h4 x (@None loc).
      eexists. split; [done|]. split_and!; [views; index_cases; by_index|insert_chain|views; by index_cases|by_frame].
    + cbn [mbind option_bind]. assert (p = x) as -> by (index_bounds; replace (pred (length ls)) with 0%nat in Hp by lia; congruence).
      load h1 x. index_cases. rewrite Hpv.
      rewrite bool_decide_eq_true_2 by done. assign upd_prev h1 r (Some r). assign upd_kids h2 a (Some r).
      assign upd_next h3 x (@None loc). assign upd_prev h4 x (@None loc).
      eexists. split; [done|]. split_and!; [views; index_cases; by_index|insert_chain|views; by index_cases|by_frame].
  - rewrite bool_decide_eq_false_2 by (intros ->; pose proof (NoDup_lookup _ _ _ _ Hnd Hc Hk); lia).
    destruct (lookup_lt_is_Some_2 ls k) as [q Hq]; [apply lookup_lt_Some in Hk; lia|]. rewrite Hq in *.
    destruct (ls !! S (S k)) as [y|] eqn:Hy.
    + assign upd_prev h1 y (Some r). load h2 r. index_cases. assign upd_next h2 q (Some r). load h3 r. index_cases.
      cbn [mbind option_bind]. assign upd_next h3 x (@None loc). assign upd_prev h4 x (@None loc).
      eexists. split; [done|]. split_and!; [views; rewrite (linked_first _ _ _ Hl); by_index|insert_chain|views; by index_cases|by_frame].
    + cbn [mbind option_bind]. load h1 r. index_cases. assign upd_next h1 q (Some r). load h2 r. index_cases.
      assign upd_prev h2 c (Some r). assign upd_next h3 x (@None loc). assign upd_prev h4 x (@None loc).
      eexists. split; [done|]. split_and!; [views; rewrite (linked_first _ _ _ Hl); by_index|insert_chain|views; by index_cases|by_frame].
Qed.
End Chains.

(** ** Deleting *)

Definition forest_locs (ts : list tree) : list loc := concat (map locs ts).

Lemma locs_eq t : locs t = root t :: forest_locs (subtrees t).
Proof. by destruct t. Qed.

Lemma elem_of_forest l ts : l ∈ forest_locs ts <-> exists t, t ∈ ts /\ l ∈ locs t.
Proof.
  unfold forest_locs. rewrite list_elem_of_In, in_concat. setoid_rewrite in_map_iff. split.
  - intros (? & (t & <- & Ht) & Hl). exists t. by rewrite !list_elem_of_In.
  - intros (t & Ht & Hl). apply list_elem_of_In in Ht, Hl. exists (locs t). by split; [exists t|].
Qed.

Lemma root_in t : root t ∈ locs t.
Proof. rewrite locs_eq. apply list_elem_of_here. Qed.

Lemma stored_agree h h' t : (forall l, l ∈ locs t -> h' !! l = h !! l) -> stored h t -> stored h' t.
Proof.
  intros Hh Hs. induction t as [a d ts IH] using tree_ind'. inversion Hs as [? ? ? Hd Hk Hc Hts]; subst.
  assert (Hsub : forall t l, t ∈ ts -> l ∈ locs t -> h' !! l = h !! l).
  { intros t l Ht Hl. apply Hh. rewrite locs_eq. right. apply elem_of_forest. by exists t. }
  constructor.
  - unfold dt. by rewrite Hh by apply list_elem_of_here.
  - unfold kd. by rewrite Hh by apply list_elem_of_here.
  - intros i l Hi. assert (Hl : h' !! l = h !! l).
    { apply list_lookup_fmap_Some in Hi as (t & -> & Ht). apply (Hsub t); [by eapply list_elem_of_lookup_2|apply root_in]. }
    unfold nx, pv. rewrite Hl. by apply Hc.
  - rewrite !Forall_forall in *. intros t Ht. apply IH; [done|intros; by apply (Hsub t)|by apply Hts].
Qed.

(** No node that borrows its children. *)
Inductive unshared : tree -> Prop :=
| Unshared a d ts : Z.land (type d) cJSON_IsReference = 0 -> Forall unshared ts -> unshared (Tree a d ts).

Definition without (h : heap) (ls : list loc) (h' : heap) : Prop :=
  forall l, h' !! l = if decide (l ∈ ls) then None else h !! l.

Lemma delete_nodes_spec fuel : forall ts h,
  (forall i t, ts !! i = Some t -> nx h (root t) = root <$> ts !! S i) ->
  Forall (stored h) ts -> NoDup (forest_locs ts) -> Forall unshared ts -> (length (forest_locs ts) < fuel)%nat ->
  exists h', delete_nodes fuel (head (map root ts)) h = Some h' /\ without h (forest_locs ts) h'.
Proof.
  induction fuel as [|fuel IH]; intros ts h Hn Hs Hnd Hu Hf; [lia|]. cbn [delete_nodes].
  destruct ts as [|[a d cs] ts]; [by exists h|]. cbn [map head root].
  apply Forall_cons in Hs as [Ht Hs]. inversion Ht as [? ? ? Hd Hk Hc Hcs]; subst. apply Forall_cons in Hu as [Hu Hus].
  inversion Hu as [? ? ? Href Hucs]; subst.
  change (forest_locs (Tree a d cs :: ts)) with ((a :: forest_locs cs) ++ forest_locs ts) in *.
  apply NoDup_app in Hnd as (Hnd1 & Hdis & Hnd2). apply NoDup_cons in Hnd1 as [Ha Hndc].
  rewrite length_app in Hf. cbn [length] in Hf.
  destruct (read_node h a) as (n & -> & Hnx & _ & Hkd & Hdt); [by eexists|]. cbn [mbind option_bind].
  rewrite Hd in Hdt. injection Hdt as ->. rewrite Href. cbn [Z.eqb]. rewrite Hkd, Hk.
  destruct (IH cs h) as (h1 & -> & Hw1); [|done|done|done|lia|].
  { intros i t Hi. destruct (Hc i (root t)) as [-> _]; [by rewrite list_lookup_fmap, Hi|]. by rewrite list_lookup_fmap. }
  cbn [mbind option_bind]. rewrite Hnx. specialize (Hn 0%nat (Tree a d cs) eq_refl) as Hn0. cbn in Hn0. rewrite Hn0.
  assert (Hkeep : forall l, l ∈ forest_locs ts -> delete a h1 !! l = h !! l).
  { intros l Hl. rewrite lookup_delete_ne by (intros ->; apply (Hdis l); [left|done]).
    rewrite Hw1, decide_False; [done|]. intros Hl'. apply (Hdis l); [by right|done]. }
  replace (option_map root (ts !! 0%nat)) with (head (map root ts)) by by destruct ts.
  destruct (IH ts (delete a h1)) as (h2 & -> & Hw2); [| |done|done|lia|].
  - intros i t Hi. unfold nx. rewrite Hkeep; [apply (Hn (S i) t Hi)|]. apply elem_of_forest. exists t.
    split; [by eapply list_elem_of_lookup_2|apply root_in].
  - rewrite Forall_forall in *. intros t Ht'. apply (stored_agree h); [|by apply Hs]. intros l Hl.
    apply Hkeep, elem_of_forest. by exists t.
  - exists h2. split; [done|]. intros l. rewrite Hw2. repeat case_decide; try done.
    + set_solver.
    + apply elem_of_app in H0 as [[->|Hl]%elem_of_cons|Hl]; [by rewrite lookup_delete_eq| |done].
      destruct (decide (l = a)) as [->|]; [by rewrite lookup_delete_eq|].
      rewrite lookup_delete_ne by done. rewrite Hw1. by rewrite decide_True.
    + rewrite lookup_delete_ne by set_solver. rewrite Hw1, decide_False; [done|]. set_solver.
Qed.

Lemma locs_alive h t l : stored h t -> l ∈ locs t -> is_Some (h !! l).
Proof.
  intros Hs. revert l. induction t as [a d ts IH] using tree_ind'. inversion Hs as [? ? ? Hd Hk Hc Hts]; subst.
  intros l Hl. rewrite locs_eq in Hl. apply elem_of_cons in Hl as [->|Hl].
  - unfold dt in Hd. by destruct (h !! _).
  - apply elem_of_forest in Hl as (t & Ht & Hl). rewrite Forall_forall in IH, Hts. by apply (IH t Ht (Hts t Ht)).
Qed.

Lemma cJSON_Delete_spec h t :
  stored h t -> NoDup (locs t) -> nx h (root t) = None -> unshared t ->
  exists h', cJSON_Delete (Some (root t)) h = Some h' /\ without h (locs t) h'.
Proof.
  intros Hs Hnd Hn Hu. assert (E : forest_locs [t] = locs t) by (unfold forest_locs; cbn; apply app_nil_r).
  rewrite <- E. apply (delete_nodes_spec _ [t]).
  - intros [|i] t' Hi; [|done]. by injection Hi as <-.
  - by repeat constructor.
  - by rewrite E.
  - by repeat constructor.
  - rewrite E. apply Nat.lt_succ_r. rewrite <- (size_list_to_set (C := gset loc)) by done.
    rewrite <- size_dom. apply subseteq_size. intros l Hl. apply elem_of_list_to_set in Hl.
    apply elem_of_dom. by eapply locs_alive.
Qed.
