(* ===== verification/JsonEdit.v ===== *)
(** * cJSON.c: histories of edits of a child list

    A program holds items that are in no list and edits an array or object
    with the operations of [JsonList]. On the items' trees these are
    operations on lists; the theorem states the refinement for every history. *)

From S2P Require Import Prelude CString Double Json JsonList.
From stdpp Require Import gmap.
Local Open Scope Z_scope.

(** ** An array, and items that are in no list *)

(** [ps] point to the items of [pool]. *)
Record represents (h : heap) (a : loc) (d : cJSON) (ts pool : list tree) (ps : list loc) : Prop := {
  rep_handles : ps = map root pool;
  rep_array : stored h (Tree a d ts);
  rep_pool : Forall (fun t => stored h t /\ nx h (root t) = None) pool;
  rep_NoDup : NoDup (a :: forest_locs (ts ++ pool));
  rep_unshared : Forall unshared (ts ++ pool) }.

(** Items [us], with the array [a], became items [vs]: nothing else is
    changed, and what is no longer part of them is freed. *)
Definition confined (a : loc) (us vs : list tree) (h h' : heap) : Prop :=
  (forall l, l ∉ a :: forest_locs us -> h' !! l = h !! l)
  /\ forall l, l ∈ forest_locs us -> l ∉ a :: forest_locs vs -> h' !! l = None.

Lemma confined_refl a us h : confined a us us h h.
Proof. split; [done|]. intros l Hl Hn. set_solver. Qed.

Lemma confined_trans a us vs ws h h1 h2 :
  confined a us vs h h1 -> confined a vs ws h1 h2 -> (forall l, l ∈ forest_locs vs -> l ∈ forest_locs us) -> confined a us ws h h2.
Proof.
  intros [Hu1 Hf1] [Hu2 Hf2] Hs. split.
  - intros l Hl. rewrite Hu2, Hu1; [done|done|]. set_solver.
  - intros l Hl Hn. destruct (decide (l ∈ forest_locs vs)) as [Hv|Hv]; [by apply Hf2|].
    rewrite Hu2 by set_solver. apply Hf1; set_solver.
Qed.

Lemma roots_in ts l : l ∈ map root ts -> l ∈ forest_locs ts.
Proof. intros (t & -> & Ht)%list_elem_of_fmap. apply elem_of_forest. exists t. split; [done|apply root_in]. Qed.

Lemma forest_app ts us : forest_locs (ts ++ us) = forest_locs ts ++ forest_locs us.
Proof. unfold forest_locs. by rewrite map_app, concat_app. Qed.

Lemma forest_perm ts us : ts ≡ₚ us -> forest_locs ts ≡ₚ forest_locs us.
Proof. intros Hp. unfold forest_locs. induction Hp; cbn; [done|by rewrite IHHp|by rewrite !app_assoc, (Permutation_app_comm (locs y))|by etransitivity]. Qed.

Lemma NoDup_roots ts : NoDup (forest_locs ts) -> NoDup (map root ts).
Proof.
  induction ts as [|t ts IH]; [constructor|]. change (forest_locs (t :: ts)) with (locs t ++ forest_locs ts).
  intros (_ & Hd & Hn)%NoDup_app. constructor; [|by apply IH]. intros Hr%roots_in. apply (Hd (root t)); [apply root_in|done].
Qed.

(** A root is not below anything. *)
Lemma roots_not_below ts t l : NoDup (forest_locs ts) -> t ∈ ts -> l ∈ below t -> l ∉ map root ts.
Proof.
  intros Hn Ht Hl Hr. induction ts as [|u ts IH]; [by apply not_elem_of_nil in Ht|].
  change (forest_locs (u :: ts)) with (locs u ++ forest_locs ts) in Hn. apply NoDup_app in Hn as (Hu & Hd & Hn).
  cbn [map] in Hr. assert (Hlt : l ∈ locs t) by (rewrite locs_eq; by right).
  apply elem_of_cons in Ht as [->|Ht]; apply elem_of_cons in Hr as [->|Hr].
  - rewrite locs_eq in Hu. by apply NoDup_cons in Hu as [? _].
  - apply (Hd l Hlt). by apply roots_in.
  - apply (Hd (root u) (root_in u)), elem_of_forest. by exists t.
  - by apply IH.
Qed.

Lemma same_node h h' l : dt h' l = dt h l -> kd h' l = kd h l -> nx h' l = nx h l -> pv h' l = pv h l -> h' !! l = h !! l.
Proof.
  unfold dt, kd, nx, pv. destruct (h' !! l) as [[]|], (h !! l) as [[]|]; cbn; try done. congruence.
Qed.

Lemma stored_linked h a d ts : stored h (Tree a d ts) -> NoDup (a :: map root ts) -> linked h a (map root ts).
Proof.
  intros Hs Hn. inversion Hs as [? ? ? Hd Hk Hc Hts]; subst. constructor; [done|done| |done].
  intros l [->|Hl]%elem_of_cons; [by eexists|]. apply list_elem_of_fmap in Hl as (t & -> & Ht).
  rewrite Forall_forall in Hts. unfold dt. destruct (locs_alive _ _ _ (Hts t Ht) (root_in t)) as [n ->]. by eexists.
Qed.

Section Represents.
Context (h : heap) (a : loc) (d : cJSON) (ts pool : list tree) (ps : list loc).
Hypothesis (Hrep : represents h a d ts pool ps).

Lemma rep_linked : linked h a (map root ts).
Proof.
  apply (stored_linked h a d); [apply Hrep|]. pose proof (rep_NoDup _ _ _ _ _ _ Hrep) as [Ha Hn]%NoDup_cons.
  rewrite forest_app in Ha, Hn. apply NoDup_app in Hn as (Hn & _ & _).
  constructor; [|by apply NoDup_roots]. intros Hr%roots_in. apply Ha, elem_of_app. by left.
Qed.

Lemma rep_stored t : t ∈ ts ++ pool -> stored h t.
Proof.
  pose proof (rep_array _ _ _ _ _ _ Hrep) as Hs. inversion Hs as [? ? ? Hd Hk Hc Hts]; subst.
  pose proof (rep_pool _ _ _ _ _ _ Hrep) as Hp. rewrite Forall_forall in Hts, Hp.
  intros [Ht|Ht]%elem_of_app; [by apply Hts|by apply Hp].
Qed.

(** The effect of an operation that rewires. *)
Lemma rep_relinked h' R ts' pool' :
  relinked R [a] h h' -> (forall l, l ∈ R -> l ∈ map root (ts ++ pool)) -> ts' ++ pool' ≡ₚ ts ++ pool ->
  kd h' a = head (map root ts') -> chain h' (map root ts') -> (forall t, t ∈ pool' -> nx h' (root t) = None) ->
  represents h' a d ts' pool' (map root pool') /\ confined a (ts ++ pool) (ts' ++ pool') h h'.
Proof.
  intros Hr HR Hp Hk Hc Hnx. pose proof (rep_NoDup _ _ _ _ _ _ Hrep) as Hn.
  assert (Hst : forall t, t ∈ ts ++ pool -> stored h' t).
  { intros t Ht. apply (stored_relinked R [a] h); [done|by apply rep_stored| |].
    - intros l Hl ->%list_elem_of_singleton. apply NoDup_cons in Hn as [Ha _]. apply Ha, elem_of_forest. by exists t.
    - intros l Hl HlR. apply NoDup_cons in Hn as [_ Hn]. by apply (roots_not_below _ _ _ Hn Ht Hl), HR. }
  pose proof (rep_array _ _ _ _ _ _ Hrep) as Hs. inversion Hs as [? ? ? Hd _ _ _]; subst. split.
  - constructor; [done| | | |by rewrite Hp; apply Hrep].
    + constructor; [by rewrite (proj1 (Hr a))|done|done|]. apply Forall_forall. intros t Ht. apply Hst.
      rewrite <- Hp. apply elem_of_app. by left.
    + apply Forall_forall. intros t Ht. split; [|by apply Hnx]. apply Hst. rewrite <- Hp. apply elem_of_app. by right.
    + by rewrite (forest_perm _ _ Hp).
  - split; [|intros l Hl Hno; destruct Hno; right; by rewrite (forest_perm _ _ Hp)].
    intros l Hl. destruct (Hr l) as (H1 & H2 & H3). apply same_node; [done|apply H2; set_solver| |].
    all: apply H3; intros HlR; apply Hl; right; by apply roots_in, HR.
Qed.

(** An item that has been taken out is freed. *)
Lemma rep_freed h' t :
  represents h a d ts (pool ++ [t]) ps -> without h (locs t) h' ->
  represents h' a d ts pool (map root pool) /\ confined a (ts ++ pool ++ [t]) (ts ++ pool) h h'.
Proof.
  clear Hrep. intros Hr Hw. pose proof (rep_NoDup _ _ _ _ _ _ Hr) as Hn. rewrite app_assoc, forest_app in Hn.
  replace (forest_locs [t]) with (locs t) in Hn by (unfold forest_locs; cbn; by rewrite app_nil_r).
  change (NoDup ((a :: forest_locs (ts ++ pool)) ++ locs t)) in Hn. apply NoDup_app in Hn as (Hn & Hd & _).
  assert (Hkeep : forall l, l ∈ a :: forest_locs (ts ++ pool) -> h' !! l = h !! l).
  { intros l Hl. rewrite Hw, decide_False; [done|]. by apply Hd. }
  assert (Hst : forall u, (forall l, l ∈ locs u -> l ∈ a :: forest_locs (ts ++ pool)) -> stored h u -> stored h' u).
  { intros u Hu Hs. apply (stored_agree h); [|done]. intros l Hl. by apply Hkeep, Hu. }
  split.
  - constructor; [done| | |done|].
    + apply Hst; [|apply Hr]. intros l Hl. rewrite locs_eq in Hl. cbn [root subtrees] in Hl. rewrite forest_app. set_solver.
    + pose proof (rep_pool _ _ _ _ _ _ Hr) as Hp. apply Forall_app in Hp as [Hp _]. rewrite Forall_forall in *.
      intros u Hu. destruct (Hp u Hu) as [Hs Hx].
      assert (Hul : forall l, l ∈ locs u -> l ∈ a :: forest_locs (ts ++ pool)).
      { intros l Hl. right. apply elem_of_forest. exists u. split; [by apply elem_of_app; right|done]. }
      split; [by apply Hst|]. unfold nx. rewrite Hkeep; [exact Hx|]. apply Hul, root_in.
    + pose proof (rep_unshared _ _ _ _ _ _ Hr) as Hu. rewrite app_assoc in Hu. by apply Forall_app in Hu as [? _].
  - split.
    + intros l Hl. rewrite Hw, decide_False; [done|]. intros Hlt. apply Hl. right. apply elem_of_forest. exists t.
      split; [set_solver|done].
    + intros l Hl Hno. rewrite Hw, decide_True; [done|]. apply elem_of_forest in Hl as (u & Hu & Hl).
      rewrite app_assoc in Hu. apply elem_of_app in Hu as [Hu| ->%list_elem_of_singleton]; [|done].
      destruct Hno. right. apply elem_of_forest. by exists u.
Qed.

(** What the chain lemmas say of an item outside. *)
Lemma rep_pool_loose R h' u :
  relinked R [a] h h' -> u ∈ pool -> root u ∉ R -> nx h' (root u) = None.
Proof.
  intros Hr Hu HR. destruct (Hr (root u)) as (_ & _ & H3). destruct (H3 HR) as [-> _].
  pose proof (rep_pool _ _ _ _ _ _ Hrep) as Hp. rewrite Forall_forall in Hp. by apply Hp.
Qed.

Lemma rep_roots : NoDup (map root ts ++ map root pool).
Proof.
  pose proof (rep_NoDup _ _ _ _ _ _ Hrep) as [_ Hn]%NoDup_cons. apply NoDup_roots in Hn. by rewrite map_app in Hn.
Qed.

Lemma rep_detach k t :
  ts !! k = Some t ->
  exists h', cJSON_DetachItemViaPointer (Some a) (Some (root t)) h = Some (Some (root t), h')
    /\ represents h' a d (delete k ts) (pool ++ [t]) (map root (pool ++ [t]))
    /\ confined a (ts ++ pool) (delete k ts ++ pool ++ [t]) h h'.
Proof.
  intros Hk. destruct (detach_chain h a (map root ts) rep_linked k (root t)) as (h' & Hd & Hkd & Hc & Hx & Hr).
  { by rewrite list_lookup_fmap, Hk. }
  exists h'. split; [done|]. rewrite <- list_fmap_delete in Hkd, Hc. apply (rep_relinked h' (map root ts)); try done.
  - intros l Hl. rewrite map_app. apply elem_of_app. by left.
  - pose proof (delete_Permutation _ _ _ Hk) as Hp. revert Hp. generalize (delete k ts). intros us Hp.
    rewrite Hp, app_assoc. symmetry. apply Permutation_cons_append.
  - intros u [Hu| ->%list_elem_of_singleton]%elem_of_app; [|done]. apply (rep_pool_loose _ _ _ Hr Hu).
    pose proof rep_roots as (_ & Hd' & _)%NoDup_app. intros Hru. apply (Hd' (root u) Hru). by apply list_elem_of_fmap_2.
Qed.

(** An item of the pool goes into the list, others may come out. *)
Lemma rep_swapped k t out ls h' :
  pool !! k = Some t -> ls ++ delete k pool ++ out ≡ₚ ts ++ pool ->
  relinked (root t :: map root ts) [a] h h' -> kd h' a = head (map root ls) -> chain h' (map root ls) ->
  (forall u, u ∈ out -> nx h' (root u) = None) ->
  represents h' a d ls (delete k pool ++ out) (delete k ps ++ map root out)
  /\ confined a (ts ++ pool) (ls ++ delete k pool ++ out) h h'.
Proof.
  intros Hk Hp Hr Hkd Hc Hout. rewrite (rep_handles _ _ _ _ _ _ Hrep), <- list_fmap_delete.
  change (root <$> delete k pool) with (map root (delete k pool)). rewrite <- map_app.
  assert (Ht : t ∈ pool) by (by eapply list_elem_of_lookup_2).
  apply (rep_relinked h' (root t :: map root ts)); try done.
  - intros l [->|Hl]%elem_of_cons; rewrite map_app; apply elem_of_app; [right|by left]. by apply list_elem_of_fmap_2.
  - intros u [Hu|Hu]%elem_of_app; [|by apply Hout]. apply (rep_pool_loose _ _ _ Hr); [by eapply list_elem_of_delete_inv|].
    apply list_elem_of_lookup in Hu as [j Hj]. rewrite list_lookup_delete in Hj.
    pose proof rep_roots as (_ & Hd & Hn)%NoDup_app.
    intros [E|Hru]%elem_of_cons; [|by apply (Hd (root u) Hru), list_elem_of_fmap_2, (list_elem_of_lookup_2 _ _ _ Hj)].
    apply (NoDup_lookup _ k (if decide (j < k)%nat then j else S j) (root t)) in Hn;
      [case_decide; lia|by rewrite list_lookup_fmap, Hk|by rewrite list_lookup_fmap, Hj, <- E].
Qed.

Lemma rep_placed k t ls h' :
  pool !! k = Some t -> ls ++ delete k pool ≡ₚ ts ++ pool ->
  relinked (root t :: map root ts) [a] h h' -> kd h' a = head (map root ls) -> chain h' (map root ls) ->
  represents h' a d ls (delete k pool) (delete k ps) /\ confined a (ts ++ pool) (ls ++ delete k pool) h h'.
Proof.
  intros Hk Hp Hr Hkd Hc. pose proof (rep_swapped k t [] ls h' Hk) as H. cbn [map] in H. rewrite !app_nil_r in H.
  apply H; try done. by intros u Hu%not_elem_of_nil.
Qed.

(** Its node is not one of the list. *)
Lemma rep_outside k t : pool !! k = Some t -> root t ∉ a :: map root ts /\ is_Some (dt h (root t)) /\ nx h (root t) = None.
Proof.
  intros Hk. assert (Ht : t ∈ pool) by (by eapply list_elem_of_lookup_2). split_and!.
  - pose proof (rep_NoDup _ _ _ _ _ _ Hrep) as [Ha _]%NoDup_cons. pose proof rep_roots as (_ & Hd & _)%NoDup_app.
    intros [E|Hr]%elem_of_cons; [|by apply (Hd (root t) Hr), list_elem_of_fmap_2].
    apply Ha. rewrite <- E. apply elem_of_forest. exists t. split; [set_solver|apply root_in].
  - assert (Hs : stored h t) by (apply rep_stored; set_solver). unfold dt.
    destruct (locs_alive _ _ _ Hs (root_in t)) as [n ->]. by eexists.
  - pose proof (rep_pool _ _ _ _ _ _ Hrep) as Hp. rewrite Forall_forall in Hp. by apply Hp.
Qed.

Lemma rep_append k t :
  pool !! k = Some t ->
  exists h', add_item (Some a) (Some (root t)) h = Some (true, h')
    /\ represents h' a d (ts ++ [t]) (delete k pool) (delete k ps) /\ confined a (ts ++ pool) ((ts ++ [t]) ++ delete k pool) h h'.
Proof.
  intros Hk. destruct (rep_outside k t Hk) as (Ho & Hal & Hx).
  destruct (append_chain h a (map root ts) rep_linked (root t) Ho Hal Hx) as (h' & Hadd & Hkd & Hc & Hr).
  exists h'. split; [done|]. apply (rep_placed k t); try done; [|by rewrite map_app..].
  rewrite (delete_Permutation _ _ _ Hk) at 2. by rewrite <- app_assoc.
Qed.

Lemma map_insert_at k t : map root (insert_at k t ts) = insert_at k (root t) (map root ts).
Proof. unfold insert_at. by rewrite map_app, <- fmap_take, <- fmap_drop. Qed.

Lemma rep_insert k i t :
  pool !! i = Some t -> (k < length ts)%nat ->
  exists h', cJSON_InsertItemInArray (Some a) (Z.of_nat k) (Some (root t)) h = Some (true, h')
    /\ represents h' a d (insert_at k t ts) (delete i pool) (delete i ps) /\ confined a (ts ++ pool) (insert_at k t ts ++ delete i pool) h h'.
Proof.
  intros Hi Hk. destruct (rep_outside i t Hi) as (Ho & Hal & Hx). destruct (lookup_lt_is_Some_2 ts k Hk) as [x Hkx].
  destruct (insert_chain_at h a (map root ts) rep_linked (root t) Ho Hal k (root x)) as (h' & Hadd & Hkd & Hc & Hr).
  { by rewrite list_lookup_fmap, Hkx. }
  exists h'. split; [done|]. rewrite <- map_insert_at in Hkd, Hc. apply (rep_placed i t); try done.
  unfold insert_at. rewrite (delete_Permutation _ _ _ Hi) at 2. rewrite <- (take_drop k ts) at 3.
  rewrite <- !app_assoc. cbn [app]. by rewrite (Permutation_middle (drop k ts)).
Qed.

End Represents.

Lemma rep_replace h a d ts pool ps k i t x :
  represents h a d ts pool ps -> pool !! i = Some t -> ts !! k = Some x ->
  exists h', cJSON_ReplaceItemViaPointer (Some a) (Some (root x)) (Some (root t)) h = Some (true, h')
    /\ represents h' a d (<[k := t]> ts) (delete i pool) (delete i ps) /\ confined a (ts ++ pool) (<[k := t]> ts ++ delete i pool) h h'.
Proof.
  intros Hrep Hi Hk. destruct (rep_outside _ _ _ _ _ _ Hrep i t Hi) as (Ho & Hal & Hx).
  destruct (replace_chain h a (map root ts) (rep_linked _ _ _ _ _ _ Hrep) (root t) Ho Hal k (root x)) as (h1 & Hrep1 & Hkd & Hc & Hnx & Hr).
  { by rewrite list_lookup_fmap, Hk. }
  assert (Hp : <[k:=t]> ts ++ delete i pool ++ [x] ≡ₚ ts ++ pool).
  { pose proof (delete_Permutation _ _ _ Hi) as Hp. revert Hp. generalize (delete i pool). intros us ->.
    rewrite insert_take_drop by (by eapply lookup_lt_Some). rewrite <- (take_drop_middle _ _ _ Hk) at 3.
    rewrite <- !app_assoc. apply Permutation_app_head. cbn [app]. rewrite <- !Permutation_middle, app_nil_r. constructor. }
  rewrite <- list_fmap_insert in Hkd, Hc.
  destruct (rep_swapped _ _ _ _ _ _ Hrep i t [x] (<[k:=t]> ts) h1 Hi Hp Hr Hkd Hc) as [Hr1 Hu1]; [by intros u ->%list_elem_of_singleton|].
  destruct (cJSON_Delete_spec h1 x) as (h2 & Hdel & Hw).
  { apply (rep_stored _ _ _ _ _ _ Hr1). set_solver. }
  { pose proof (rep_NoDup _ _ _ _ _ _ Hr1) as [_ Hn]%NoDup_cons. rewrite app_assoc, forest_app in Hn.
    apply NoDup_app in Hn as (_ & _ & Hn). unfold forest_locs in Hn. cbn in Hn. by rewrite app_nil_r in Hn. }
  { done. }
  { pose proof (rep_unshared _ _ _ _ _ _ Hr1) as Hu. rewrite Forall_forall in Hu. apply Hu. set_solver. }
  exists h2. rewrite Hrep1, Hdel. split; [done|]. destruct (rep_freed h1 a d _ _ _ h2 x Hr1 Hw) as [Hr2 Hu2].
  assert (Hps : delete i ps = map root (delete i pool)) by (rewrite (rep_handles _ _ _ _ _ _ Hrep); symmetry; apply list_fmap_delete).
  rewrite Hps. split; [done|]. apply (confined_trans _ _ _ _ _ _ _ Hu1 Hu2).
  intros l. by rewrite (forest_perm _ _ Hp).
Qed.

(** ** A new key *)

(** What [replace_item_in_object] does to the fields of the replacement. *)
Definition rekeyed (malloc_ok : Z -> bool) (key : bytes) (d : cJSON) : cJSON :=
  match cJSON_strdup malloc_ok (Some key) with
  | None => set_name None d
  | Some s => set_type (Z.land (type d) (Z.lnot cJSON_StringIsConst)) (set_name (Some s) d)
  end.

Definition set_fields (d : cJSON) (t : tree) : tree := Tree (root t) d (subtrees t).

Lemma rekeyed_owned malloc_ok key d : Z.land (type d) cJSON_IsReference = 0 -> Z.land (type (rekeyed malloc_ok key d)) cJSON_IsReference = 0.
Proof.
  intros Hd. unfold rekeyed. destruct (cJSON_strdup _ _); [|done]. cbn [type set_type set_name].
  by rewrite <- Z.land_assoc, (Z.land_comm (Z.lnot _)), Z.land_assoc, Hd.
Qed.

Lemma forest_set_fields ts i t d : ts !! i = Some t -> forest_locs (<[i := set_fields d t]> ts) = forest_locs ts.
Proof.
  intros Hi. unfold forest_locs. f_equal. change (locs <$> <[i := set_fields d t]> ts = locs <$> ts).
  rewrite list_fmap_insert. apply list_insert_id. rewrite list_lookup_fmap, Hi. by destruct t.
Qed.

Lemma forest_item ts i t : NoDup (forest_locs ts) -> ts !! i = Some t -> NoDup (locs t).
Proof.
  revert i. induction ts as [|u ts IH]; [done|]. change (forest_locs (u :: ts)) with (locs u ++ forest_locs ts).
  intros [|i] (H1 & _ & H2)%NoDup_app Hi; [by injection Hi as ->|by apply (IH i)].
Qed.

(** A location belongs to one item. *)
Lemma forest_owner ts i j t u l :
  NoDup (forest_locs ts) -> ts !! i = Some t -> ts !! j = Some u -> l ∈ locs t -> l ∈ locs u -> i = j.
Proof.
  revert i j. induction ts as [|v ts IH]; [done|]. change (forest_locs (v :: ts)) with (locs v ++ forest_locs ts).
  assert (Hin : forall k w, ts !! k = Some w -> l ∈ locs w -> l ∈ forest_locs ts).
  { intros k w Hk Hl. apply elem_of_forest. exists w. split; [by eapply list_elem_of_lookup_2|done]. }
  intros i j (_ & Hd & Hn)%NoDup_app Hi Hj Ht Hu. destruct i as [|i], j as [|j]; cbn in Hi, Hj; simplify_eq; [done|..].
  - destruct (Hd l Ht). by apply (Hin j u).
  - destruct (Hd l Hu). by apply (Hin i t).
  - f_equal. by apply (IH i j).
Qed.

Lemma rep_set_fields h a d ts pool ps i t e :
  represents h a d ts pool ps -> pool !! i = Some t -> Z.land (type e) cJSON_IsReference = 0 ->
  exists h', upd (root t) (set_data e) h = Some h'
    /\ represents h' a d ts (<[i := set_fields e t]> pool) ps
    /\ confined a (ts ++ pool) (ts ++ <[i := set_fields e t]> pool) h h'.
Proof.
  intros Hrep Hi He. assert (Hin : t ∈ ts ++ pool) by (apply elem_of_app; right; by eapply list_elem_of_lookup_2).
  destruct (locs_alive h t (root t) (rep_stored _ _ _ _ _ _ Hrep t Hin) (root_in t)) as [n Hn].
  unfold upd. rewrite Hn. eexists. split; [done|].
  set (h' := <[root t := set_data e n]> h). pose proof (rep_NoDup _ _ _ _ _ _ Hrep) as Hnd.
  assert (Hother : forall l, l <> root t -> h' !! l = h !! l) by (intros; by apply lookup_insert_ne).
  assert (Hnx : forall l, nx h' l = nx h l).
  { intros l. unfold nx. destruct (decide (l = root t)) as [->|Hne]; [|by rewrite Hother].
    unfold h'. rewrite lookup_insert_eq, Hn. by destruct n. }
  assert (Hforest : forest_locs (ts ++ <[i := set_fields e t]> pool) = forest_locs (ts ++ pool)).
  { by rewrite !forest_app, (forest_set_fields pool i t). }
  split; [|by split; [intros l Hl; apply Hother; intros ->; apply Hl; right; apply elem_of_forest; exists t; split; [|apply root_in]
    |rewrite Hforest; intros l ? Hno; destruct Hno; right]].
  rewrite forest_app in Hnd. apply NoDup_cons in Hnd as [Ha Hnd]. apply NoDup_app in Hnd as (_ & Hdis & Hndp).
  assert (Htp : forall l, l ∈ locs t -> l ∈ forest_locs pool).
  { intros l Hl. apply elem_of_forest. exists t. split; [by eapply list_elem_of_lookup_2|done]. }
  constructor.
  - rewrite (rep_handles _ _ _ _ _ _ Hrep). change (root <$> pool = root <$> <[i := set_fields e t]> pool).
    rewrite list_fmap_insert. symmetry. apply list_insert_id. by rewrite list_lookup_fmap, Hi.
  - apply (stored_agree h); [|apply Hrep]. intros l Hl. apply Hother. intros ->. rewrite locs_eq in Hl.
    apply elem_of_cons in Hl as [E|Hl]; [|by apply (Hdis _ Hl), Htp, root_in].
    cbn [root] in E. subst a. apply Ha, elem_of_app. right. apply Htp, root_in.
  - pose proof (rep_pool _ _ _ _ _ _ Hrep) as Hp. rewrite Forall_lookup in Hp |- *. intros j u Hj.
    apply list_lookup_insert_Some in Hj as [(<- & <- & _)|[Hne Hj]].
    + destruct (Hp i t Hi) as [Hs Hx]. split; [|by rewrite Hnx]. destruct t as [c f us]. inversion Hs as [? ? ? Hd Hk Hc Hus]; subst. cbn [root set_fields subtrees] in *.
      assert (Hnc : c ∉ forest_locs us).
      { pose proof (forest_item _ _ _ Hndp Hi) as Hn2. rewrite locs_eq in Hn2. by apply NoDup_cons in Hn2 as [? _]. }
      constructor.
      * unfold dt, h'. rewrite lookup_insert_eq. by destruct n.
      * unfold kd, h' in *. rewrite lookup_insert_eq. rewrite Hn in Hk. by destruct n.
      * intros j l Hj. rewrite Hnx. destruct (Hc j l Hj) as [Hx' Hp']. split; [done|]. revert Hp'. unfold pv. rewrite Hother; [done|].
        intros ->. apply Hnc, roots_in. by eapply list_elem_of_lookup_2.
      * rewrite Forall_forall in *. intros u Hu. apply (stored_agree h); [|by apply Hus]. intros l Hl. apply Hother. intros ->.
        apply Hnc, elem_of_forest. by exists u.
    + destruct (Hp j u Hj) as [Hs Hx]. split; [|by rewrite Hnx]. apply (stored_agree h); [|done]. intros l Hl. apply Hother. intros ->.
      apply Hne. by apply (forest_owner pool i j t u (root t) Hndp Hi Hj (root_in t)).
  - rewrite Hforest. apply Hrep.
  - pose proof (rep_unshared _ _ _ _ _ _ Hrep) as Hu. rewrite Forall_app in Hu |- *. destruct Hu as [Hu Hup]. split; [done|].
    apply Forall_insert; [done|]. rewrite Forall_lookup in Hup. destruct t as [c f us]. specialize (Hup _ _ Hi). inversion Hup; subst. by constructor.
Qed.

(** ** Lookup by key *)

Definition key_at (key : option bytes) (case_sensitive : bool) (ts : list tree) : option nat :=
  k ← key;
  j ← find_index (fun t => key_stops k case_sensitive (name (fields t))) ts;
  t ← ts !! j;
  match name (fields t) with Some _ => Some j | None => None end.

Section Lookup.
Context (h : heap) (a : loc) (d : cJSON) (ts : list tree).
Hypotheses (Hst : stored h (Tree a d ts)) (Hnd : NoDup (a :: map root ts)).

Let Hl := stored_linked h a d ts Hst Hnd.

Lemma read_child i t : ts !! i = Some t ->
  exists n, h !! root t = Some n /\ next n = root <$> ts !! S i /\ data n = fields t.
Proof.
  intros Hi. inversion Hst as [? ? ? _ _ _ Hts]; subst. rewrite Forall_lookup in Hts. specialize (Hts i t Hi).
  destruct (linked_chain _ _ _ Hl i (root t)) as [Hn _]; [by rewrite list_lookup_fmap, Hi|].
  inversion Hts as [b e us Hd _ _ _]; subst. destruct (read_node h b) as (n & Hb & Hx & _ & _ & Hdt); [by eexists|].
  exists n. split; [done|]. cbn [root] in Hn. rewrite Hx, Hn, list_lookup_fmap. split; [done|]. rewrite Hd in Hdt. by injection Hdt.
Qed.

Lemma find_node_spec stop fuel : forall i, (i <= length ts < i + fuel)%nat ->
  find_node fuel stop (root <$> ts !! i) h
  = Some (j ← find_index (fun t => stop (name (fields t))) (drop i ts); root <$> ts !! (i + j)%nat).
Proof.
  induction fuel as [|fuel IH]; intros i Hf; [lia|].
  cbn [find_node]. destruct (ts !! i) as [t|] eqn:Hi; cbn [fmap option_fmap option_map].
  - destruct (read_child i t Hi) as (n & -> & Hn & Hd). cbn [mbind option_bind]. rewrite Hd.
    rewrite (drop_S ts t i Hi). cbn [find_index]. destruct (stop (name (fields t))).
    + cbn [mbind option_bind]. by rewrite Nat.add_0_r, Hi.
    + apply lookup_lt_Some in Hi. rewrite Hn, IH by lia. f_equal. destruct (find_index _ (drop (S i) ts)) as [j|]; cbn; [|done].
      by rewrite Nat.add_succ_r.
  - rewrite drop_ge by (by apply lookup_ge_None). done.
Qed.

Lemma object_item_stored key case_sensitive :
  object_item (Some a) key case_sensitive h = Some (j ← key_at key case_sensitive ts; root <$> ts !! j).
Proof.
  unfold object_item, key_at. destruct key as [k|]; [|done]. cbn [mbind option_bind].
  destruct (read_node h a) as (n & -> & _ & _ & Hk & _); [apply Hl; left|]. cbn [mbind option_bind].
  rewrite Hk, (linked_first _ _ _ Hl), head_lookup. change (map root ts !! 0%nat) with ((root <$> ts) !! 0%nat).
  rewrite list_lookup_fmap, find_node_spec.
  - cbn [mbind option_bind]. rewrite drop_0. destruct (find_index _ ts) as [j|] eqn:E; [|done].
    destruct (find_index_Some _ _ _ E) as (t & Ht & _). cbn [mbind option_bind Nat.add]. rewrite Ht.
    cbn [fmap option_fmap option_map]. destruct (read_child j t Ht) as (m & -> & _ & Hd). cbn [mbind option_bind].
    rewrite Hd. destruct (name (fields t)); cbn [mbind option_bind]; [|done]. by rewrite Ht.
  - split; [lia|]. apply Nat.lt_succ_r. rewrite <- (length_map root ts).
    pose proof (linked_NoDup _ _ _ Hl) as [_ Hn]%NoDup_cons.
    rewrite <- (size_list_to_set (C := gset loc)) by done. rewrite <- size_dom. apply subseteq_size.
    intros l Hin. apply elem_of_list_to_set in Hin. destruct (linked_alive _ _ _ Hl l ltac:(by right)) as [e He].
    apply elem_of_dom. unfold dt in He. by destruct (h !! l).
Qed.
End Lookup.

Lemma object_item_spec h a d ts pool ps key case_sensitive :
  represents h a d ts pool ps ->
  object_item (Some a) key case_sensitive h = Some (j ← key_at key case_sensitive ts; root <$> ts !! j).
Proof.
  intros Hrep. apply (object_item_stored h a d); [apply Hrep|]. by pose proof (linked_NoDup _ _ _ (rep_linked _ _ _ _ _ _ Hrep)).
Qed.

(** ** Histories of edits *)

(** What a program does with an array [a] and items it holds. *)
Inductive edit :=
| Append (i : nat) | Insert (which : Z) (i : nat) | Replace (which : Z) (i : nat)
| ReplaceKey (key : option bytes) (case_sensitive : bool) (i : nat)
| Detach (which : Z) | DetachKey (key : option bytes) (case_sensitive : bool)
| Remove (which : Z) | RemoveKey (key : option bytes) (case_sensitive : bool).

Section Histories.
Variable malloc_ok : Z -> bool.

(** On the heap: an item handed over is no longer held, one detached is. *)
Definition run (a : loc) (e : edit) '(h, ps) : option (heap * list loc) :=
  let used (i : nat) (ok : bool) := if ok then delete i ps else ps in
  match e with
  | Append i => '(ok, h) ← add_item (Some a) (ps !! i) h; Some (h, used i ok)
  | Insert which i => '(ok, h) ← cJSON_InsertItemInArray (Some a) which (ps !! i) h; Some (h, used i ok)
  | Replace which i => '(ok, h) ← cJSON_ReplaceItemInArray (Some a) which (ps !! i) h; Some (h, used i ok)
  | ReplaceKey key cs i => '(ok, h) ← replace_item_in_object malloc_ok (Some a) key (ps !! i) cs h; Some (h, used i ok)
  | Detach which => '(r, h) ← cJSON_DetachItemFromArray (Some a) which h; Some (h, ps ++ option_list r)
  | DetachKey key cs => '(r, h) ← detach_from_object (Some a) key cs h; Some (h, ps ++ option_list r)
  | Remove which => h ← cJSON_DeleteItemFromArray (Some a) which h; Some (h, ps)
  | RemoveKey key cs => h ← delete_from_object (Some a) key cs h; Some (h, ps)
  end.

(** On lists. *)
Definition position (which : Z) (ts : list tree) : option nat :=
  if which <? 0 then None
  else if (Z.to_nat which <? length ts)%nat then Some (Z.to_nat which) else None.

Definition take_out (k : option nat) '(ts, pool) : list tree * list tree :=
  match k with
  | Some k => (delete k ts, pool ++ option_list (ts !! k))
  | None => (ts, pool)
  end.

Definition spec (e : edit) '(ts, pool) : list tree * list tree :=
  match e with
  | Append i => match pool !! i with Some t => (ts ++ [t], delete i pool) | None => (ts, pool) end
  | Insert which i =>
      match pool !! i with
      | Some t => if which <? 0 then (ts, pool)
                  else match position which ts with
                       | Some k => (insert_at k t ts, delete i pool)
                       | None => (ts ++ [t], delete i pool)
                       end
      | None => (ts, pool)
      end
  | Replace which i =>
      match position which ts, pool !! i with
      | Some k, Some t => (<[k := t]> ts, delete i pool)
      | _, _ => (ts, pool)
      end
  | ReplaceKey key cs i =>
      match key, pool !! i with
      | Some k, Some t =>
          let t := set_fields (rekeyed malloc_ok k (fields t)) t in
          match cJSON_strdup malloc_ok key, key_at key cs ts with
          | Some _, Some j => (<[j := t]> ts, delete i pool)
          | _, _ => (ts, <[i := t]> pool)
          end
      | _, _ => (ts, pool)
      end
  | Detach which => take_out (position which ts) (ts, pool)
  | DetachKey key cs => take_out (key_at key cs ts) (ts, pool)
  | Remove which => ((take_out (position which ts) (ts, pool)).1, pool)
  | RemoveKey key cs => ((take_out (key_at key cs ts) (ts, pool)).1, pool)
  end.

(** One edit. *)
Definition simulated (a : loc) (d : cJSON) (ts pool : list tree) (h : heap) (ts' pool' : list tree) (r : option (heap * list loc)) : Prop :=
  exists h' ps', r = Some (h', ps') /\ represents h' a d ts' pool' ps' /\ confined a (ts ++ pool) (ts' ++ pool') h h'.

Section Edits.
Context (h : heap) (a : loc) (d : cJSON) (ts pool : list tree) (ps : list loc).
Hypothesis (Hrep : represents h a d ts pool ps).

Lemma unchanged : simulated a d ts pool h ts pool (Some (h, ps)).
Proof. exists h, ps. split_and!; [done|done|apply confined_refl]. Qed.

Lemma handle i : ps !! i = root <$> pool !! i.
Proof. rewrite (rep_handles _ _ _ _ _ _ Hrep). apply list_lookup_fmap. Qed.

Lemma position_Some which k : position which ts = Some k -> which = Z.of_nat k /\ (k < length ts)%nat.
Proof.
  unfold position. destruct (which <? 0) eqn:E1; boolify; [done|]. destruct (_ <? _)%nat eqn:E2; boolify; [|done].
  intros [= <-]. lia.
Qed.

Lemma append_simulated i :
  simulated a d ts pool h (spec (Append i) (ts, pool)).1 (spec (Append i) (ts, pool)).2 (run a (Append i) (h, ps)).
Proof.
  cbn [run spec]. rewrite handle. destruct (pool !! i) as [t|] eqn:Hi; [|exact unchanged].
  cbn [fmap option_fmap option_map]. destruct (rep_append _ _ _ _ _ _ Hrep i t Hi) as (h' & -> & Hr & Hu). by exists h', (delete i ps).
Qed.

Lemma insert_simulated which i :
  simulated a d ts pool h (spec (Insert which i) (ts, pool)).1 (spec (Insert which i) (ts, pool)).2 (run a (Insert which i) (h, ps)).
Proof.
  cbn [run spec]. rewrite handle. destruct (pool !! i) as [t|] eqn:Hi; [|exact unchanged].
  cbn [fmap option_fmap option_map]. destruct (which <? 0) eqn:E; [unfold cJSON_InsertItemInArray; rewrite E; exact unchanged|].
  destruct (position which ts) as [k|] eqn:Hk.
  - apply position_Some in Hk as [-> Hk]. destruct (rep_insert _ _ _ _ _ _ Hrep k i t Hi Hk) as (h' & -> & Hr & Hu). by exists h', (delete i ps).
  - unfold cJSON_InsertItemInArray. rewrite E, (array_item_chain _ _ _ (rep_linked _ _ _ _ _ _ Hrep)).
    unfold position in Hk. rewrite E in Hk. destruct (_ <? _)%nat eqn:E2; [done|]. boolify.
    rewrite lookup_ge_None_2 by by rewrite length_map. cbn [mbind option_bind].
    destruct (rep_append _ _ _ _ _ _ Hrep i t Hi) as (h' & -> & Hr & Hu). by exists h', (delete i ps).
Qed.

Lemma nth_child which :
  (if which <? 0 then None else array_item (Some a) (Z.to_nat which) h)
  = (if which <? 0 then None else Some (k ← position which ts; root <$> ts !! k)).
Proof.
  unfold position. destruct (which <? 0); [done|]. rewrite (array_item_chain _ _ _ (rep_linked _ _ _ _ _ _ Hrep)).
  change (map root ts !! Z.to_nat which) with ((root <$> ts) !! Z.to_nat which). rewrite list_lookup_fmap.
  destruct (_ <? _)%nat eqn:E; boolify; cbn; [done|]. by rewrite lookup_ge_None_2.
Qed.

Lemma replace_simulated which i :
  simulated a d ts pool h (spec (Replace which i) (ts, pool)).1 (spec (Replace which i) (ts, pool)).2 (run a (Replace which i) (h, ps)).
Proof.
  cbn [run spec]. unfold cJSON_ReplaceItemInArray. pose proof (nth_child which) as Hn.
  destruct (which <? 0) eqn:E; [unfold position; rewrite E; exact unchanged|]. rewrite Hn. cbn [mbind option_bind].
  destruct (position which ts) as [k|] eqn:Hk; cbn [mbind option_bind].
  2: exact unchanged.
  apply position_Some in Hk as [_ Hk]. destruct (lookup_lt_is_Some_2 ts k Hk) as [x Hx]. rewrite Hx, handle.
  destruct (pool !! i) as [t|] eqn:Hi; [|exact unchanged]. cbn [fmap option_fmap option_map].
  destruct (rep_replace _ _ _ _ _ _ k i t x Hrep Hi Hx) as (h' & -> & Hr & Hu). by exists h', (delete i ps).
Qed.

Lemma detach_nothing item : item = None -> cJSON_DetachItemViaPointer (Some a) item h = Some (None, h).
Proof. by intros ->. Qed.

(** Both ways of detaching. *)
Lemma take_out_simulated k :
  (forall i, k = Some i -> (i < length ts)%nat) ->
  exists h' r, cJSON_DetachItemViaPointer (Some a) (k ← k; root <$> ts !! k) h = Some (r, h')
    /\ r = (k ← k; root <$> ts !! k)
    /\ represents h' a d (take_out k (ts, pool)).1 (take_out k (ts, pool)).2 (ps ++ option_list r)
    /\ confined a (ts ++ pool) ((take_out k (ts, pool)).1 ++ (take_out k (ts, pool)).2) h h'.
Proof.
  intros Hk. destruct k as [k|]; cbn [mbind option_bind take_out fst snd].
  - destruct (lookup_lt_is_Some_2 ts k (Hk k eq_refl)) as [t Ht]. rewrite Ht. cbn [fmap option_fmap option_map].
    destruct (rep_detach _ _ _ _ _ _ Hrep k t Ht) as (h' & -> & Hr & Hu). exists h', (Some (root t)).
    split_and!; [done|done| |done]. rewrite (rep_handles _ _ _ _ _ _ Hrep). cbn [option_list]. rewrite map_app in Hr. exact Hr.
  - exists h, None. cbn [option_list]. rewrite app_nil_r. split_and!; [done|done|done|apply confined_refl].
Qed.

Lemma detach_simulated which :
  exists h' r, cJSON_DetachItemFromArray (Some a) which h = Some (r, h')
    /\ r = (k ← position which ts; root <$> ts !! k)
    /\ represents h' a d (take_out (position which ts) (ts, pool)).1 (take_out (position which ts) (ts, pool)).2 (ps ++ option_list r)
    /\ confined a (ts ++ pool) ((take_out (position which ts) (ts, pool)).1 ++ (take_out (position which ts) (ts, pool)).2) h h'.
Proof.
  unfold cJSON_DetachItemFromArray. pose proof (nth_child which) as Hn. destruct (which <? 0) eqn:E.
  - unfold position. rewrite E. exists h, None. cbn [option_list take_out fst snd mbind option_bind]. rewrite app_nil_r.
    split_and!; [done|done|exact Hrep|apply confined_refl].
  - rewrite Hn. cbn [mbind option_bind]. apply take_out_simulated. intros i Hi. by apply position_Some in Hi as [_ ?].
Qed.

(** The end of both ways of deleting: what was taken out is freed. *)
Lemma freed_simulated k h1 :
  (forall i, k = Some i -> (i < length ts)%nat) ->
  represents h1 a d (take_out k (ts, pool)).1 (take_out k (ts, pool)).2 (ps ++ option_list (k ← k; root <$> ts !! k)) ->
  confined a (ts ++ pool) ((take_out k (ts, pool)).1 ++ (take_out k (ts, pool)).2) h h1 ->
  exists h', cJSON_Delete (k ← k; root <$> ts !! k) h1 = Some h' /\ represents h' a d (take_out k (ts, pool)).1 pool ps
    /\ confined a (ts ++ pool) ((take_out k (ts, pool)).1 ++ pool) h h'.
Proof.
  intros Hk Hr Hu. destruct k as [k|]; cbn [mbind option_bind take_out fst snd option_list] in *.
  2: { exists h1. rewrite app_nil_r in Hr. by split. }
  destruct (lookup_lt_is_Some_2 ts k (Hk k eq_refl)) as [t Ht]. rewrite Ht in *. cbn [fmap option_fmap option_map option_list] in *.
  destruct (cJSON_Delete_spec h1 t) as (h2 & Hdel & Hw).
  { apply (rep_stored _ _ _ _ _ _ Hr). set_solver. }
  { pose proof (rep_NoDup _ _ _ _ _ _ Hr) as [_ Hn]%NoDup_cons. rewrite app_assoc, forest_app in Hn.
    apply NoDup_app in Hn as (_ & _ & Hn). unfold forest_locs in Hn. cbn in Hn. by rewrite app_nil_r in Hn. }
  { pose proof (rep_pool _ _ _ _ _ _ Hr) as Hp. rewrite Forall_forall in Hp. apply Hp. set_solver. }
  { pose proof (rep_unshared _ _ _ _ _ _ Hr) as Hus. rewrite Forall_forall in Hus. apply Hus. set_solver. }
  exists h2. rewrite Hdel. split; [done|]. destruct (rep_freed h1 a d _ _ _ h2 t Hr Hw) as [Hr2 Hu2].
  rewrite (rep_handles _ _ _ _ _ _ Hrep). split; [done|]. apply (confined_trans _ _ _ _ _ _ _ Hu Hu2).
  intros l (u & Hu' & Hlu)%elem_of_forest.
  apply elem_of_forest. exists u. split; [|done]. pose proof (list_elem_of_delete_inv (A:=tree)) as Hdi.
  apply elem_of_app in Hu' as [Hu'|Hu']; [apply elem_of_app; left; by eapply Hdi|].
  apply elem_of_app in Hu' as [Hu'| ->%list_elem_of_singleton]; [apply elem_of_app; by right|].
  apply elem_of_app. left. by eapply list_elem_of_lookup_2.
Qed.

Lemma position_bound which i : position which ts = Some i -> (i < length ts)%nat.
Proof. by intros [_ ?]%position_Some. Qed.

Lemma key_at_Some key cs i : key_at key cs ts = Some i -> exists x, ts !! i = Some x.
Proof.
  unfold key_at. destruct key as [k|]; [|done]. cbn [mbind option_bind].
  destruct (find_index _ ts) as [j|] eqn:E; [|done]. cbn [mbind option_bind].
  destruct (find_index_Some _ _ _ E) as (t & Ht & _). rewrite Ht. cbn [mbind option_bind].
  destruct (name (fields t)); [|done]. intros [= <-]. by exists t.
Qed.

Lemma key_at_bound key cs i : key_at key cs ts = Some i -> (i < length ts)%nat.
Proof. intros [x Hx]%key_at_Some. by eapply lookup_lt_Some. Qed.

Lemma remove_simulated which :
  simulated a d ts pool h (spec (Remove which) (ts, pool)).1 pool (run a (Remove which) (h, ps)).
Proof.
  cbn [run spec fst]. unfold cJSON_DeleteItemFromArray.
  destruct (detach_simulated which) as (h1 & r & -> & -> & Hr & Hu). cbn [mbind option_bind].
  destruct (freed_simulated (position which ts) h1 (position_bound which) Hr Hu) as (h2 & Hd & Hr2 & Hu2).
  cbn [mbind option_bind] in Hd. rewrite Hd. by exists h2, ps.
Qed.

Lemma detach_key_simulated key cs :
  exists h' r, detach_from_object (Some a) key cs h = Some (r, h')
    /\ r = (k ← key_at key cs ts; root <$> ts !! k)
    /\ represents h' a d (take_out (key_at key cs ts) (ts, pool)).1 (take_out (key_at key cs ts) (ts, pool)).2 (ps ++ option_list r)
    /\ confined a (ts ++ pool) ((take_out (key_at key cs ts) (ts, pool)).1 ++ (take_out (key_at key cs ts) (ts, pool)).2) h h'.
Proof.
  unfold detach_from_object. rewrite (object_item_spec _ _ _ _ _ _ _ _ Hrep). cbn [mbind option_bind].
  apply take_out_simulated. apply key_at_bound.
Qed.

Lemma remove_key_simulated key cs :
  simulated a d ts pool h (spec (RemoveKey key cs) (ts, pool)).1 pool (run a (RemoveKey key cs) (h, ps)).
Proof.
  cbn [run spec fst]. unfold delete_from_object.
  destruct (detach_key_simulated key cs) as (h1 & r & -> & -> & Hr & Hu). cbn [mbind option_bind].
  destruct (freed_simulated (key_at key cs ts) h1 (key_at_bound key cs) Hr Hu) as (h2 & Hd & Hr2 & Hu2).
  cbn [mbind option_bind] in Hd. rewrite Hd. by exists h2, ps.
Qed.
End Edits.

Lemma delete_insert_same {A} (i : nat) (x : A) (l : list A) : delete i (<[i := x]> l) = delete i l.
Proof. revert i. induction l as [|y l IH]; intros [|i]; [done..|]. cbn. f_equal. apply IH. Qed.

(** The replacement gets its key before the member is looked up. *)
Lemma replace_key_simulated h a d ts pool ps key cs i :
  represents h a d ts pool ps ->
  simulated a d ts pool h (spec (ReplaceKey key cs i) (ts, pool)).1 (spec (ReplaceKey key cs i) (ts, pool)).2
    (run a (ReplaceKey key cs i) (h, ps)).
Proof.
  intros Hrep. cbn [run spec]. rewrite (handle _ _ _ _ _ _ Hrep). unfold replace_item_in_object.
  destruct (pool !! i) as [t|] eqn:Hi; cbn [fmap option_fmap option_map]; destruct key as [k|]; try by apply unchanged.
  assert (Ht : Z.land (type (fields t)) cJSON_IsReference = 0).
  { pose proof (rep_unshared _ _ _ _ _ _ Hrep) as Hu. rewrite Forall_app, Forall_lookup, Forall_lookup in Hu.
    destruct Hu as [_ Hu]. specialize (Hu _ _ Hi). by inversion Hu. }
  destruct (rep_outside _ _ _ _ _ _ Hrep i t Hi) as (_ & [e He] & _). unfold dt in He.
  destruct (h !! root t) as [n|] eqn:Hn; [|done]. assert (Hd : data n = fields t).
  { assert (Hs : stored h t) by (apply (rep_stored _ _ _ _ _ _ Hrep); apply elem_of_app; right; by eapply list_elem_of_lookup_2).
    inversion Hs as [? ? ? Hdt _ _ _]; subst. cbn [root fields] in *. unfold dt in Hdt. rewrite Hn in Hdt. by injection Hdt. }
  destruct (rep_set_fields _ _ _ _ _ _ i t (rekeyed malloc_ok k (fields t)) Hrep Hi (rekeyed_owned malloc_ok k _ Ht)) as (h1 & Hup & Hr1 & Hc1).
  assert (Hupd : forall l f g m, g !! l = Some m -> upd l f g = Some (<[l := f m]> g)) by (intros l f g m Hm; unfold upd; by rewrite Hm).
  rewrite (Hupd _ _ _ _ Hn). cbn [mbind option_bind]. rewrite lookup_insert_eq. cbn [mbind option_bind].
  rewrite (Hupd _ _ _ _ Hn) in Hup. destruct n as [nn np nk nd]. cbn [data set_data] in *. subst nd.
  unfold rekeyed in Hup. cbn [name set_name].
  destruct (cJSON_strdup malloc_ok (Some k)) as [s|] eqn:Es; cbn [name set_name type set_type] in *.
  2: { injection Hup as Hup. rewrite Hup. exists h1, ps. split; [done|]. by split. }
  rewrite (Hupd _ _ _ _ (lookup_insert_eq _ _ _)). cbn [mbind option_bind data set_data type set_type set_name]. rewrite insert_insert_eq.
  injection Hup as Hup. rewrite Hup. rewrite (object_item_spec _ _ _ _ _ _ _ _ Hr1). cbn [mbind option_bind].
  destruct (key_at (Some k) cs ts) as [j|] eqn:Hj; cbn [mbind option_bind].
  - destruct (key_at_Some _ _ _ _ Hj) as [x Hx]. rewrite Hx. cbn [fmap option_fmap option_map].
    destruct (rep_replace _ _ _ _ _ _ j i _ x Hr1 (list_lookup_insert_eq _ _ _ (lookup_lt_Some _ _ _ Hi)) Hx) as (h2 & Hrun & Hr2 & Hc2).
    cbn [root set_fields] in Hrun. rewrite Hrun. exists h2, (delete i ps). split; [done|]. rewrite delete_insert_same in Hr2, Hc2.
    split; [done|]. apply (confined_trans _ _ _ _ _ _ _ Hc1 Hc2). intros l. by rewrite !forest_app, (forest_set_fields _ _ _ _ Hi).
  - exists h1, ps. split; [done|]. by split.
Qed.

Lemma edit_simulated h a d ts pool ps e :
  represents h a d ts pool ps ->
  simulated a d ts pool h (spec e (ts, pool)).1 (spec e (ts, pool)).2 (run a e (h, ps)).
Proof.
  intros Hrep. destruct e as [i|which i|which i|key cs i|which|key cs|which|key cs].
  - by apply append_simulated.
  - by apply insert_simulated.
  - by apply replace_simulated.
  - by apply replace_key_simulated.
  - cbn [run spec]. destruct (detach_simulated h a d ts pool ps Hrep which) as (h' & r & -> & _ & Hr & Hc).
    by exists h', (ps ++ option_list r).
  - cbn [run spec]. destruct (detach_key_simulated h a d ts pool ps Hrep key cs) as (h' & r & -> & _ & Hr & Hc).
    by exists h', (ps ++ option_list r).
  - by apply (remove_simulated h a d ts pool ps Hrep which).
  - by apply (remove_key_simulated h a d ts pool ps Hrep key cs).
Qed.

Lemma insert_at_in {A} k (x y : A) l : y ∈ insert_at k x l -> y = x \/ y ∈ l.
Proof.
  unfold insert_at. rewrite elem_of_app, elem_of_cons. intros [H|[->|H]]; [right|by left|right].
  - apply (subseteq_take k l), H.
  - apply (subseteq_drop k l), H.
Qed.

(** No node appears from nowhere. *)
Lemma take_out_subset k ts pool t :
  t ∈ (take_out k (ts, pool)).1 ++ (take_out k (ts, pool)).2 -> t ∈ ts ++ pool.
Proof.
  destruct k as [k|]; [|done]. cbn [take_out fst snd]. rewrite !elem_of_app.
  intros [H|[H|H]]; [left; by eapply list_elem_of_delete_inv|by right|left].
  destruct (ts !! k) eqn:E; [|by apply not_elem_of_nil in H]. apply list_elem_of_singleton in H as ->.
  by eapply list_elem_of_lookup_2.
Qed.

Lemma take_out_kept k ts pool t :
  t ∈ (take_out k (ts, pool)).1 ++ pool -> t ∈ ts ++ pool.
Proof.
  intros H. apply (take_out_subset k). rewrite elem_of_app in H |- *.
  destruct H as [H|H]; [by left|right]. destruct k; cbn [take_out snd]; [set_solver|done].
Qed.

Lemma list_insert_in {A} (k : nat) (x y : A) (l : list A) : y ∈ <[k := x]> l -> y = x \/ y ∈ l.
Proof.
  intros [j Hj]%list_elem_of_lookup. apply list_lookup_insert_Some in Hj as [(_ & -> & _)|[_ Hj]]; [by left|right].
  by eapply list_elem_of_lookup_2.
Qed.

Lemma spec_subset e ts pool t :
  t ∈ (spec e (ts, pool)).1 ++ (spec e (ts, pool)).2 -> exists u, u ∈ ts ++ pool /\ locs t = locs u.
Proof.
  assert (Hd : forall i t, t ∈ delete i pool -> t ∈ ts ++ pool).
  { intros i u H. apply elem_of_app. right. by eapply list_elem_of_delete_inv. }
  assert (Hi : forall i u, pool !! i = Some u -> u ∈ ts ++ pool).
  { intros i u H. apply elem_of_app. right. by eapply list_elem_of_lookup_2. }
  assert (Hl : forall u, u ∈ ts ++ pool -> exists v, v ∈ ts ++ pool /\ locs u = locs v) by (intros u Hu; by exists u).
  destruct e as [i|which i|which i|key cs i|which|key cs|which|key cs]; cbn [spec].
  5,6: by intros H%take_out_subset; apply Hl.
  5,6: by intros H%take_out_kept; apply Hl.
  - destruct (pool !! i) as [u|] eqn:E; [|by apply Hl]. cbn [fst snd]. rewrite (elem_of_app _ _ t), elem_of_app, list_elem_of_singleton.
    intros [[H| ->]|H]; apply Hl; [set_solver|by eapply Hi|by eapply Hd].
  - destruct (pool !! i) as [u|] eqn:E; [|by apply Hl]. destruct (which <? 0); [by apply Hl|].
    destruct (position which ts); cbn [fst snd]; rewrite (elem_of_app _ _ t).
    + intros [[->|H]%insert_at_in|H]; apply Hl; [by eapply Hi|set_solver|by eapply Hd].
    + rewrite elem_of_app, list_elem_of_singleton. intros [[H| ->]|H]; apply Hl; [set_solver|by eapply Hi|by eapply Hd].
  - destruct (position which ts) as [k|]; [|by apply Hl]. destruct (pool !! i) as [u|] eqn:E; [|by apply Hl]. cbn [fst snd].
    rewrite (elem_of_app _ _ t). intros [[->|H]%list_insert_in|H]; apply Hl; [by eapply Hi|set_solver|by eapply Hd].
  - destruct key as [k|]; [|by apply Hl]. destruct (pool !! i) as [u|] eqn:E; [|by apply Hl].
    assert (Hu : forall e, exists v, v ∈ ts ++ pool /\ locs (set_fields e u) = locs v) by (intros e; exists u; split; [by eapply Hi|by destruct u]).
    assert (Hkept : forall e, t ∈ ts ++ <[i := set_fields e u]> pool -> exists v, v ∈ ts ++ pool /\ locs t = locs v).
    { intros e. rewrite (elem_of_app _ _ t). intros [H|[->|H]%list_insert_in]; [apply Hl; set_solver|apply Hu|apply Hl; set_solver]. }
    destruct (cJSON_strdup malloc_ok (Some k)), (key_at (Some k) cs ts); cbn [fst snd]; try apply Hkept.
    rewrite (elem_of_app _ _ t). intros [[->|H]%list_insert_in|H]; [apply Hu|apply Hl; set_solver|by eapply Hl, Hd].
Qed.

Fixpoint runs (a : loc) (es : list edit) (s : heap * list loc) : option (heap * list loc) :=
  match es with [] => Some s | e :: es => s ← run a e s; runs a es s end.
Definition specs (es : list edit) (s : list tree * list tree) : list tree * list tree :=
  fold_left (fun s e => spec e s) es s.

Lemma runs_simulated a d es : forall h ts pool ps,
  represents h a d ts pool ps ->
  simulated a d ts pool h (specs es (ts, pool)).1 (specs es (ts, pool)).2 (runs a es (h, ps)).
Proof.
  induction es as [|e es IH]; intros h ts pool ps Hrep; [by eapply unchanged|].
  destruct (edit_simulated h a d ts pool ps e Hrep) as (h1 & ps1 & Hr & Hrep1 & Hc1). cbn [runs specs fold_left].
  rewrite Hr. cbn [mbind option_bind]. pose proof (spec_subset e ts pool) as Hsub.
  destruct (spec e (ts, pool)) as [ts1 pool1]. cbn [fst snd] in *.
  destruct (IH h1 ts1 pool1 ps1 Hrep1) as (h2 & ps2 & Hr2 & Hrep2 & Hc2). exists h2, ps2. split_and!; [done|done|].
  apply (confined_trans _ _ _ _ _ _ _ Hc1 Hc2). intros l (t & Ht & Hl)%elem_of_forest.
  destruct (Hsub t Ht) as (u & Hu & E). apply elem_of_forest. exists u. by rewrite <- E.
Qed.
End Histories.

(** ** The items of [Json] *)

Lemma get_item_lookup l k : get_item l k = l !! k.
Proof. revert k. induction l as [|i l IH]; intros [|k]; [done..|]. apply IH. Qed.

Lemma name_item_of t : name (item_of t) = name (fields t).
Proof. by destruct t as [? [] ?]. Qed.

Lemma get_object_item_of a d ts key case_sensitive :
  get_object_item (Some (item_of (Tree a d ts))) key case_sensitive
  = item_of <$> (j ← key_at key case_sensitive ts; ts !! j).
Proof.
  unfold get_object_item, key_at. destruct key as [k|]; [|done]. cbn [mbind option_bind].
  replace (child (item_of (Tree a d ts))) with (map item_of ts) by by destruct d.
  assert (Hf : (if case_sensitive then find_sensitive k (map item_of ts) else find_insensitive k (map item_of ts))
    = item_of <$> (j ← find_index (fun t => key_stops k case_sensitive (name (fields t))) ts; ts !! j)).
  { induction ts as [|t ts IH]; [by destruct case_sensitive|]. cbn [map find_sensitive find_insensitive find_index].
    rewrite !name_item_of. unfold key_stops in *. destruct case_sensitive.
    - destruct (name (fields t)) as [s|]; [|done]. destruct (streq k s); [done|]. rewrite IH.
      by destruct (find_index _ ts).
    - destruct (case_insensitive_streq (Some k) (name (fields t))); [done|]. rewrite IH. by destruct (find_index _ ts). }
  rewrite Hf. destruct (find_index _ ts) as [j|] eqn:E; [|done].
  destruct (find_index_Some _ _ _ E) as (t & Ht & _). cbn [mbind option_bind]. rewrite Ht. cbn [fmap option_fmap option_map mbind option_bind].
  rewrite name_item_of. destruct (name (fields t)); cbn [mbind option_bind]; [|done]. by rewrite Ht.
Qed.

(** ** Property *)

(** C23: Child lists are what [Json] takes them for.  From a heap that holds an
    array or object with its children linked, and items that are in no list,
    every history of appending, inserting, replacing, detaching and deleting,
    by index or by key, runs without following a null or dangling pointer,
    whatever allocations of keys fail, and ends in a heap that holds the list
    on which the same operations on lists were done: [next] and [prev] linked,
    the first child's [prev] at the last, what was detached in no list; no
    other node is changed, and the nodes of replaced and deleted items are
    freed, and no others. In that heap the lookups by index and by key find
    the items that those of [Json] find, and appending is that of [Json]. *)
Theorem child_lists_refined malloc_ok h a d ts pool ps es (Hrep : represents h a d ts pool ps) :
  let '(ts', pool') := specs malloc_ok es (ts, pool) in
  exists h' ps', runs malloc_ok a es (h, ps) = Some (h', ps') /\ represents h' a d ts' pool' ps'
    /\ confined a (ts ++ pool) (ts' ++ pool') h h'
    /\ (forall k, array_item (Some a) k h' = Some (root <$> ts' !! k)
          /\ cJSON_GetArrayItem (Some (item_of (Tree a d ts'))) (Z.of_nat k) = item_of <$> ts' !! k)
    /\ (forall key case_sensitive, exists found,
          object_item (Some a) key case_sensitive h' = Some (root <$> found)
          /\ get_object_item (Some (item_of (Tree a d ts'))) key case_sensitive = item_of <$> found)
    /\ (forall t, add_item_to_array (Some (item_of (Tree a d ts'))) (Some (item_of t)) = (Some (item_of (Tree a d (ts' ++ [t]))), true)).
Proof.
  pose proof (runs_simulated malloc_ok a d es h ts pool ps Hrep) as Hs. destruct (specs malloc_ok es (ts, pool)) as [ts' pool']. cbn [fst snd] in Hs.
  destruct Hs as (h' & ps' & Hr & Hrep' & Hc). exists h', ps'. split_and!; [done|done|done| | |].
  - intros k. rewrite (array_item_chain _ _ _ (rep_linked _ _ _ _ _ _ Hrep')).
    change (map root ts' !! k) with ((root <$> ts') !! k). rewrite list_lookup_fmap. split; [done|].
    unfold cJSON_GetArrayItem. destruct (Z.ltb_spec (Z.of_nat k) 0); [lia|]. rewrite Nat2Z.id, get_item_lookup.
    replace (child (item_of (Tree a d ts'))) with (item_of <$> ts') by by destruct d. apply list_lookup_fmap.
  - intros key cs. exists (j ← key_at key cs ts'; ts' !! j). rewrite (object_item_spec _ _ _ _ _ _ _ _ Hrep').
    split; [|apply get_object_item_of]. by destruct (key_at key cs ts').
  - intros t. unfold add_item_to_array. cbn [item_of]. destruct d. cbn. by rewrite map_app.
Qed.

(** An array at 0 with two children, a loose item at 3 and a node of another
    list at 4. *)
Definition sample_fields (n : Z) (key : option bytes) : cJSON := Item cJSON_Number None n (of_Z n) key [].
Definition sample_array : cJSON := Item cJSON_Array None 0 dzero None [].
Definition sample_leaf (l : loc) (key : option bytes) : tree := Tree l (sample_fields (Z.of_nat l) key) [].
Definition sample_heap : heap :=
  {[ 0%nat := MkNode None None (Some 1%nat) sample_array;
     1%nat := MkNode (Some 2%nat) (Some 2%nat) None (sample_fields 1 (Some (str "id")));
     2%nat := MkNode None (Some 1%nat) None (sample_fields 2 (Some (str "Mac")));
     3%nat := MkNode None None None (sample_fields 3 None);
     4%nat := MkNode (Some 9%nat) None None (sample_fields 4 None) ]}.
Definition sample_edits : list edit :=
  [Insert 1 0; Detach 0; DetachKey (Some (str "MAC")) false; Append 1; Replace 1 0; ReplaceKey (Some (str "x")) true 0;
   Remove 0; RemoveKey (Some (str "ID")) true].

Lemma sample_represented : represents sample_heap 0 sample_array
  [sample_leaf 1 (Some (str "id")); sample_leaf 2 (Some (str "Mac"))] [sample_leaf 3 None] [3%nat].
Proof.
  assert (Hleaf : forall l key, dt sample_heap l = Some (sample_fields (Z.of_nat l) key) -> kd sample_heap l = None ->
    stored sample_heap (sample_leaf l key)) by (intros l key Hd Hk; by constructor).
  constructor; [done| | | |].
  - constructor; [done|done| |apply Forall_cons; split; [by apply Hleaf|]; apply Forall_singleton; by apply Hleaf].
    intros [|[|i]] l [= <-]; by split.
  - constructor; [|done]. split; [by apply Hleaf|done].
  - by apply (bool_decide_unpack _).
  - repeat constructor.
Qed.

Lemma child_lists_refined_witness :
  exists h' ps', runs (fun _ => true) 0 sample_edits (sample_heap, [3%nat]) = Some (h', ps') /\ ps' = [] /\ h' !! 4%nat = sample_heap !! 4%nat /\ h' !! 2%nat = None
    /\ array_item (Some 0%nat) 0 h' = Some (Some 1%nat) /\ array_item (Some 0%nat) 1 h' = Some None.
Proof.
  pose proof (child_lists_refined (fun _ => true) _ _ _ _ _ _ sample_edits sample_represented) as Hs.
  destruct (specs _ sample_edits _) as [ts' pool'] eqn:E. vm_compute in E.
  injection E as <- <-. destruct Hs as (h' & ps' & Hr & Hrep & Hc & Hi & _).
  exists h', ps'. split; [exact Hr|]. split; [by rewrite (rep_handles _ _ _ _ _ _ Hrep)|].
  split; [apply Hc; by apply (bool_decide_unpack _)|]. split; [apply Hc; by apply (bool_decide_unpack _)|].
  split; [exact (proj1 (Hi 0%nat))|exact (proj1 (Hi 1%nat))].
Defined.
