(* ===== verification/JsonParse.v ===== *)
(** * cJSON.c: the parser

    The parser walks one array of [length content] bytes with an [offset]; a
    C pointer into it is an offset or the suffix that starts there.  Every read
    the code does not guard itself is checked: [Oob] is a read outside the
    array.  The mutual recursion runs on fuel, and [OutOfFuel] is proved
    impossible for the amount [cJSON_ParseWithLengthOpts] starts with. *)

From S2P Require Import Prelude CString Double Json.
Local Open Scope Z_scope.

Record parse_buffer := { content : bytes; offset : nat; depth : nat }.

(** A [cJSON_bool] result with the buffer it leaves, or undefined behaviour. *)
Inductive parsed (A : Type) :=
| Good (x : A) (b : parse_buffer)
| Bad (b : parse_buffer)
| Oob
| OutOfFuel.
Arguments Good {A} x b.
Arguments Bad {A} b.
Arguments Oob {A}.
Arguments OutOfFuel {A}.

Definition blength (b : parse_buffer) : nat := length b.(content).
Definition can_read (b : parse_buffer) (size : nat) : bool := (b.(offset) + size <=? blength b)%nat.
Definition can_access_at_index (b : parse_buffer) (index : nat) : bool :=
  (b.(offset) + index <? blength b)%nat.
Definition at_offset (b : parse_buffer) : bytes := drop b.(offset) b.(content).
Definition at_index (b : parse_buffer) (index : nat) : option byte := b.(content) !! (b.(offset) + index)%nat.

Definition set_offset (o : nat) (b : parse_buffer) : parse_buffer :=
  {| content := b.(content); offset := o; depth := b.(depth) |}.
Definition advance (n : nat) (b : parse_buffer) : parse_buffer := set_offset (b.(offset) + n) b.
Definition retreat (b : parse_buffer) : parse_buffer := set_offset (pred b.(offset)) b.
Definition set_depth (d : nat) (b : parse_buffer) : parse_buffer :=
  {| content := b.(content); offset := b.(offset); depth := d |}.

(** [can_access_at_index(b, 0) && buffer_at_offset(b)[0] == c]. *)
Definition looking_at (c : byte) (b : parse_buffer) : bool :=
  can_access_at_index b 0 && bool_decide (at_index b 0 = Some c).

(** ** White space and the byte order mark *)

Definition is_white (b : byte) : bool := bz b <=? 32.

Definition buffer_skip_whitespace (b : parse_buffer) : parse_buffer :=
  if negb (can_access_at_index b 0) then b
  else
    let b := advance (length (take_while is_white (at_offset b))) b in
    if (b.(offset) =? blength b)%nat then retreat b else b.

Definition skip_utf8_bom (b : parse_buffer) : parse_buffer :=
  if can_access_at_index b 4 && starts_with [xef; xbb; xbf] (at_offset b)
  then advance 3 b else b.

(** ** Strings *)

(** Four hexadecimal digits; 0 when one of them is not.  [None] is a read
    outside the array. *)
Fixpoint hex4_loop (n : nat) (h : Z) (input : bytes) : option Z :=
  match n, input with
  | O, _ => Some h
  | S _, [] => None
  | S n', c :: input' =>
      if isxdigit c then
        let h := u32 (h + hex_value c) in
        hex4_loop n' (if bool_decide (n' = O) then h else u32 (Z.shiftl h 4)) input'
      else Some 0
  end.

Definition parse_hex4 (input : bytes) : option Z := hex4_loop 4 0 input.

(** The continuation bytes, last to first, and the rest of the code point. *)
Fixpoint utf8_tail (n : nat) (codepoint : Z) (out : bytes) : bytes * Z :=
  match n with
  | O => (out, codepoint)
  | S n' =>
      utf8_tail n' (Z.shiftr codepoint 6) (zb (Z.land (Z.lor codepoint 128) 191) :: out)
  end.

(** The encoding loop, for a length and a first byte mark. *)
Definition utf8_bytes (codepoint : Z) (len : nat) (mark : Z) : bytes :=
  let '(tail, rest) := utf8_tail (pred len) codepoint [] in
  zb (if (1 <? len)%nat then Z.land (Z.lor rest mark) 255 else Z.land rest 127) :: tail.

(** The UTF-8 encoding the code emits; [None] for an invalid code point. *)
Definition emit_utf8 (codepoint : Z) : option bytes :=
  if codepoint <? 128 then Some (utf8_bytes codepoint 1 0)
  else if codepoint <? 2048 then Some (utf8_bytes codepoint 2 192)
  else if codepoint <? 65536 then Some (utf8_bytes codepoint 3 224)
  else if codepoint <=? 1114111 then Some (utf8_bytes codepoint 4 240)
  else None.

(** The outcome of one escape sequence: its output and its length, failure
    (length 0) or a read outside the array. *)
Inductive escape := Escape (out : bytes) (sequence_length : nat) | BadEscape | OobEscape.

Definition utf16_emit (codepoint : Z) (sequence_length : nat) : escape :=
  match emit_utf8 codepoint with
  | Some out => Escape out sequence_length
  | None => BadEscape
  end.

(** [left] is [input_end - input_pointer]. *)
Definition utf16_literal_to_utf8 (input_pointer : bytes) (left : Z) : escape :=
  if left <? 6 then BadEscape
  else match parse_hex4 (drop 2 input_pointer) with
  | None => OobEscape
  | Some first_code =>
      if (56320 <=? first_code) && (first_code <=? 57343) then BadEscape
      else if (55296 <=? first_code) && (first_code <=? 56319) then
        let second_sequence := drop 6 input_pointer in
        if left - 6 <? 6 then BadEscape
        else match second_sequence !! 0%nat, second_sequence !! 1%nat with
        | Some s0, Some s1 =>
            if negb (beq s0 "\") || negb (beq s1 "u") then BadEscape
            else match parse_hex4 (drop 2 second_sequence) with
            | None => OobEscape
            | Some second_code =>
                if (second_code <? 56320) || (57343 <? second_code) then BadEscape
                else utf16_emit (65536 + Z.lor (Z.shiftl (Z.land first_code 1023) 10)
                                               (Z.land second_code 1023)) 12
            end
        | _, _ => OobEscape
        end
      else utf16_emit first_code 6
  end.

(** The first pass: the distance to the closing quote and the bytes skipped. *)
Fixpoint scan_string (s : bytes) : option (nat * nat) :=
  match s with
  | [] => None
  | c :: s1 =>
      if beq c x22 then Some (0, 0)%nat
      else if beq c "\" then
        match s1 with
        | [] => None
        | _ :: s2 => '(n, skipped) ← scan_string s2; Some (2 + n, 1 + skipped)%nat
        end
      else '(n, skipped) ← scan_string s1; Some (1 + n, skipped)%nat
  end.

Definition simple_escape (e : byte) : option bytes :=
  if beq e "b" then Some [x08]
  else if beq e "f" then Some [x0c]
  else if beq e "n" then Some [x0a]
  else if beq e "r" then Some [x0d]
  else if beq e "t" then Some [x09]
  else if beq e x22 || beq e "\" || beq e "/" then Some [e]
  else None.

Definition escape_at (input_pointer : bytes) (left : Z) : escape :=
  match input_pointer !! 1%nat with
  | None => OobEscape
  | Some e =>
      match simple_escape e with
      | Some out => Escape out 2
      | None => if beq e "u" then utf16_literal_to_utf8 input_pointer left else BadEscape
      end
  end.

(** The second pass.  [Unescaped out] is the text written, [BadText k] a
    failure with [k] bytes consumed. *)
Inductive text := Unescaped (out : bytes) | BadText (consumed : nat) | OobText | FuelText.

Fixpoint unescape (fuel : nat) (input_pointer : bytes) (left : Z) (consumed : nat) (out : bytes) : text :=
  match fuel with
  | O => FuelText
  | S f =>
      if left <=? 0 then Unescaped out
      else match input_pointer with
      | [] => OobText
      | c :: p =>
          if negb (beq c "\") then unescape f p (left - 1) (S consumed) (out ++ [c])
          else match escape_at input_pointer left with
          | Escape o len =>
              unescape f (drop len input_pointer) (left - Z.of_nat len) (consumed + len) (out ++ o)
          | BadEscape => BadText consumed
          | OobEscape => OobText
          end
      end
  end.

Section Alloc.
(** Whether an allocation of the given size succeeds. *)
Variable malloc_ok : Z -> bool.

(** What [parse_string] allocates for a literal of [n] bytes. *)
Definition string_allocation (n skipped : nat) : nat := (n + 1 - skipped + 1)%nat.

Definition parse_string (item : cJSON) (b : parse_buffer) : parsed cJSON :=
  match at_index b 0 with
  | None => Oob
  | Some c =>
      let start := advance 1 b in
      if negb (beq c x22) then Bad start
      else match scan_string (at_offset start) with
      | None => Bad start
      | Some (n, skipped) =>
          if negb (malloc_ok (Z.of_nat (string_allocation n skipped))) then Bad start
          else match unescape (S n) (at_offset start) (Z.of_nat n) 0 [] with
          | Unescaped out =>
              Good (set_valuestring (Some out) (set_type cJSON_String item)) (advance (n + 1) start)
          | BadText consumed => Bad (advance consumed start)
          | OobText => Oob
          | FuelText => OutOfFuel
          end
      end
  end.

(** ** Numbers *)

Definition is_number_char (c : byte) : bool :=
  isdigit c || beq c "+" || beq c "-" || beq c "e" || beq c "E" || beq c ".".

Definition parse_number (item : cJSON) (b : parse_buffer) : parsed cJSON :=
  let number_c_string := take_while is_number_char (at_offset b) in
  if negb (malloc_ok (Z.of_nat (length number_c_string) + 1)) then Bad b
  else match strtod number_c_string with
  | None => Bad b
  | Some (number, consumed) =>
      Good (set_type cJSON_Number (set_valueint (saturate number) (set_valuedouble number item)))
           (advance consumed b)
  end.

(** ** Values *)

(** [can_read(b, n) && strncmp(b, lit, n) == 0]. *)
Definition literal_at (lit : bytes) (b : parse_buffer) : bool :=
  can_read b (length lit) && starts_with lit (at_offset b).

Definition number_at (b : parse_buffer) : bool :=
  can_access_at_index b 0 &&
  match at_index b 0 with Some c => beq c "-" || isdigit c | None => false end.

(** The values that are no containers. *)
Definition parse_scalar (item : cJSON) (b : parse_buffer) : option (parsed cJSON) :=
  if literal_at (str "null") b then Some (Good (set_type cJSON_NULL item) (advance 4 b))
  else if literal_at (str "false") b then Some (Good (set_type cJSON_False item) (advance 5 b))
  else if literal_at (str "true") b then
    Some (Good (set_valueint 1 (set_type cJSON_True item)) (advance 4 b))
  else if looking_at x22 b then Some (parse_string item b)
  else if number_at b then Some (parse_number item b)
  else None.

(** The end of a container: [depth--], the chain is attached, [offset++]. *)
Definition close (t : Z) (item : cJSON) (children : list cJSON) (b : parse_buffer) : parsed cJSON :=
  Good (set_child children (set_type t item)) (advance 1 (set_depth (pred b.(depth)) b)).

Fixpoint parse_value (fuel : nat) (item : cJSON) (b : parse_buffer) : parsed cJSON :=
  match fuel with
  | O => OutOfFuel
  | S f =>
      match parse_scalar item b with
      | Some r => r
      | None =>
          if looking_at "[" b then parse_array f item b
          else if looking_at "{" b then parse_object f item b
          else Bad b
      end
  end

with parse_array (fuel : nat) (item : cJSON) (b : parse_buffer) : parsed cJSON :=
  match fuel with
  | O => OutOfFuel
  | S f =>
      if (CJSON_NESTING_LIMIT <=? b.(depth))%nat then Bad b
      else
        let b := set_depth (S b.(depth)) b in
        match at_index b 0 with
        | None => Oob
        | Some c =>
            if negb (beq c "[") then Bad b
            else
              let b := buffer_skip_whitespace (advance 1 b) in
              if looking_at "]" b then close cJSON_Array item [] b
              else if negb (can_access_at_index b 0) then Bad (retreat b)
              else
                match parse_elements f (retreat b) [] with
                | Good children b => close cJSON_Array item children b
                | Bad b => Bad b
                | Oob => Oob
                | OutOfFuel => OutOfFuel
                end
        end
  end

(** The loop of [parse_array], entered before an element. *)
with parse_elements (fuel : nat) (b : parse_buffer) (head : list cJSON) : parsed (list cJSON) :=
  match fuel with
  | O => OutOfFuel
  | S f =>
      match cJSON_New_Item malloc_ok with
      | None => Bad b
      | Some new_item =>
          match parse_value f new_item (buffer_skip_whitespace (advance 1 b)) with
          | Good current_item b =>
              let b := buffer_skip_whitespace b in
              let head := head ++ [current_item] in
              if looking_at "," b then parse_elements f b head
              else if looking_at "]" b then Good head b
              else Bad b
          | r => match r with Bad b => Bad b | Oob => Oob | _ => OutOfFuel end
          end
      end
  end

with parse_object (fuel : nat) (item : cJSON) (b : parse_buffer) : parsed cJSON :=
  match fuel with
  | O => OutOfFuel
  | S f =>
      if (CJSON_NESTING_LIMIT <=? b.(depth))%nat then Bad b
      else
        let b := set_depth (S b.(depth)) b in
        if negb (looking_at "{" b) then Bad b
        else
          let b := buffer_skip_whitespace (advance 1 b) in
          if looking_at "}" b then close cJSON_Object item [] b
          else if negb (can_access_at_index b 0) then Bad (retreat b)
          else
            match parse_members f (retreat b) [] with
            | Good children b => close cJSON_Object item children b
            | Bad b => Bad b
            | Oob => Oob
            | OutOfFuel => OutOfFuel
            end
  end

(** The loop of [parse_object], entered before a name. *)
with parse_members (fuel : nat) (b : parse_buffer) (head : list cJSON) : parsed (list cJSON) :=
  match fuel with
  | O => OutOfFuel
  | S f =>
      match cJSON_New_Item malloc_ok with
      | None => Bad b
      | Some new_item =>
          if negb (can_access_at_index b 1) then Bad b
          else match parse_string new_item (buffer_skip_whitespace (advance 1 b)) with
          | Good named b =>
              let b := buffer_skip_whitespace b in
              let current_item := set_valuestring None (set_name named.(valuestring) named) in
              if negb (looking_at ":" b) then Bad b
              else
                match parse_value f current_item (buffer_skip_whitespace (advance 1 b)) with
                | Good current_item b =>
                    let b := buffer_skip_whitespace b in
                    let head := head ++ [current_item] in
                    if looking_at "," b then parse_members f b head
                    else if looking_at "}" b then Good head b
                    else Bad b
                | r => match r with Bad b => Bad b | Oob => Oob | _ => OutOfFuel end
                end
          | r => match r with Bad b => Bad b | Oob => Oob | _ => OutOfFuel end
          end
      end
  end.

(** ** Entry points *)

(** The result: the item and [*return_parse_end], or NULL and the error
    position. *)
Inductive parse_result := ParseOk (item : cJSON) (parse_end : nat) | ParseNull (position : nat) | ParseUB.

Definition parse_fail (b : parse_buffer) : parse_result :=
  ParseNull (if (b.(offset) <? blength b)%nat then b.(offset)
             else if (0 <? blength b)%nat then pred (blength b) else 0%nat).

Definition parse_fuel (b : parse_buffer) : nat := 3 * blength b + 3.

(** [value] holds [buffer_length] bytes. *)
Definition cJSON_ParseWithLengthOpts (value : option bytes) (require_null_terminated : bool) : parse_result :=
  match value with
  | None => ParseNull 0
  | Some value =>
      let b := {| content := value; offset := 0; depth := 0 |} in
      if bool_decide (value = []) then parse_fail b
      else match cJSON_New_Item malloc_ok with
      | None => parse_fail b
      | Some item =>
          match parse_value (parse_fuel b) item (buffer_skip_whitespace (skip_utf8_bom b)) with
          | Good item b =>
              if require_null_terminated then
                let b := buffer_skip_whitespace b in
                if looking_at NUL b then ParseOk item b.(offset) else parse_fail b
              else ParseOk item b.(offset)
          | Bad b => parse_fail b
          | _ => ParseUB
          end
      end
  end.

Definition cJSON_ParseWithOpts (value : option bytes) (require_null_terminated : bool) : parse_result :=
  match value with
  | None => ParseNull 0
  | Some s => cJSON_ParseWithLengthOpts (Some (cstr s ++ [NUL])) require_null_terminated
  end.

Definition cJSON_Parse (value : option bytes) : option cJSON :=
  match cJSON_ParseWithOpts value false with
  | ParseOk item _ => Some item
  | _ => None
  end.
End Alloc.

(** ** Strings stay inside both of their buffers

    The two passes do not cut an invalid literal into the same pieces: after
    [\u] with a bad digit the second pass may stand inside an escape pair of
    the first, and may even read the closing quote as an escaped character.
    [scanning p left budget] says where the second pass is and how much of the
    allocation is left to it. *)

Fixpoint tokens (body : bytes) : option nat :=
  match body with
  | [] => Some 0%nat
  | c :: t =>
      if beq c "\" then match t with [] => None | _ :: t' => S <$> tokens t' end
      else S <$> tokens t
  end.

Inductive scanning : bytes -> Z -> nat -> Prop :=
| scanning_aligned body rest k :
    tokens body = Some k -> scanning (body ++ x22 :: rest) (Z.of_nat (length body)) k
| scanning_inside c body rest k :
    tokens body = Some k -> scanning (c :: body ++ x22 :: rest) (Z.of_nat (length (c :: body))) (S k)
| scanning_past p : scanning p (-1) 0.

Lemma scan_string_spec s n skipped :
  scan_string s = Some (n, skipped) ->
  exists body rest, s = body ++ x22 :: rest /\ length body = n /\ (skipped <= n)%nat
    /\ tokens body = Some (n - skipped)%nat.
Proof.
  revert s n skipped. fix IH 1. intros [|c s1] n k; [done|]. cbn [scan_string].
  destruct (beq_spec c x22) as [->|Hq].
  { intros [= <- <-]. by exists [], s1. }
  destruct (beq c "\") eqn:Hb.
  - destruct s1 as [|d s2]; [done|].
    destruct (scan_string s2) as [[n2 k2]|] eqn:E; [|done]. intros [= <- <-].
    destruct (IH _ _ _ E) as (body & rest & -> & <- & Hk & Ht).
    exists (c :: d :: body), rest. cbn [tokens length]. rewrite Hb, Ht.
    split_and!; [done|done|lia|]. simpl. f_equal. lia.
  - destruct (scan_string s1) as [[n2 k2]|] eqn:E; [|done]. intros [= <- <-].
    destruct (IH _ _ _ E) as (body & rest & -> & <- & Hk & Ht).
    exists (c :: body), rest. cbn [tokens length]. rewrite Hb, Ht.
    split_and!; [done|done|lia|]. cbn [fmap option_fmap option_map]. f_equal. lia.
Qed.

Lemma scanning_length p left k : scanning p left k -> 0 <= left -> left + 1 <= Z.of_nat (length p).
Proof. intros [] ?; cbn [length] in *; rewrite ?length_app in *; cbn [length] in *; lia. Qed.

(** One byte on. *)
Lemma scanning_drop1_aligned c body rest k :
  tokens (c :: body) = Some k ->
  exists k', scanning (body ++ x22 :: rest) (Z.of_nat (length body)) k'
    /\ (k' <= k)%nat /\ (c <> "\"%byte -> (k' < k)%nat /\ tokens body = Some k').
Proof.
  cbn [tokens]. intros Ht. destruct (beq_spec c "\") as [->|Hc].
  - destruct body as [|e body]; [done|].
    destruct (tokens body) as [j|] eqn:E; [|done]. injection Ht as <-.
    exists (S j). split_and!; [by apply scanning_inside|done|done].
  - destruct (tokens body) as [j|] eqn:E; [|done]. injection Ht as <-.
    exists j. split_and!; [by apply scanning_aligned|lia|intros _; split; [lia|done]].
Qed.

Lemma scanning_drop1 c p left k :
  scanning (c :: p) left k -> 0 < left -> c <> "\"%byte ->
  exists k', scanning p (left - 1) k' /\ (k' < k)%nat.
Proof.
  intros H Hl Hc. inversion H as [body rest k' Ht Hp Hz|d body rest k' Ht Hp Hz|p' Hz]; subst; [| |lia].
  - destruct body as [|d body]; [simpl in Hl; lia|]. injection Hp as -> <-.
    destruct (scanning_drop1_aligned _ _ rest _ Ht) as (j & Hj & _ & [Hlt _]%(fun f => f Hc)).
    exists j. split; [|done].
    by replace (Z.of_nat (length (c :: body)) - 1) with (Z.of_nat (length body)) by (simpl; lia).
  - exists k'. split; [|lia].
    replace (Z.of_nat (length (c :: body)) - 1) with (Z.of_nat (length body)) by (simpl; lia).
    by apply scanning_aligned.
Qed.

(** An escape pair on, possibly over the closing quote: one output byte is
    paid for. *)
Lemma scanning_drop2 p left k :
  scanning p left k -> 0 < left -> exists k', scanning (drop 2 p) (left - 2) k' /\ (k' < k)%nat.
Proof.
  intros H Hl. inversion H as [body rest k' Ht Hp Hz|c body rest k' Ht Hp Hz|p' Hz]; subst; [| |lia].
  - destruct body as [|c [|d body]]; [simpl in Hl; lia| |].
    + exists 0%nat. split; [constructor|]. cbn [tokens] in Ht. destruct (beq c "\"); [done|].
      injection Ht as <-. lia.
    + replace (Z.of_nat (length (c :: d :: body)) - 2) with (Z.of_nat (length body)) by (simpl; lia).
      cbn [app drop]. rewrite drop_0. destruct (beq_spec c "\") as [->|Hc].
      * cbn [tokens] in Ht. change (beq "\" "\") with true in Ht. cbn iota in Ht.
        destruct (tokens body) as [j|] eqn:E; [|done]. injection Ht as <-.
        exists j. split; [by apply scanning_aligned|lia].
      * destruct (scanning_drop1_aligned _ _ rest _ Ht) as (j & _ & _ & [Hlt Hj]%(fun f => f Hc)).
        destruct (scanning_drop1_aligned _ _ rest _ Hj) as (j' & Hj' & Hle & _).
        exists j'. split; [done|lia].
  - destruct body as [|d body]; [exists 0%nat; split; [constructor|lia]|].
    replace (Z.of_nat (length (c :: d :: body)) - 2) with (Z.of_nat (length body)) by (simpl; lia).
    cbn [app drop]. rewrite drop_0.
    destruct (scanning_drop1_aligned _ _ rest _ Ht) as (j' & Hj' & Hle & _).
    exists j'. split; [done|lia].
Qed.

(** [2 n] bytes on, [n] output bytes are paid for. *)
Lemma scanning_drop_even n p left k :
  scanning p left k -> 2 * Z.of_nat n <= left + 1 -> 0 < left ->
  exists k', scanning (drop (2 * n) p) (left - 2 * Z.of_nat n) k' /\ (k' + n <= k)%nat.
Proof.
  revert p left k. induction n as [|n IH]; intros p left k H Hn Hl.
  - exists k. rewrite drop_0. replace (left - 2 * Z.of_nat 0) with left by lia. split; [done|lia].
  - destruct (scanning_drop2 _ _ _ H Hl) as (k1 & H1 & Hk1).
    destruct (decide (n = 0%nat)) as [->|Hn0].
    + exists k1. split; [|lia]. by replace (left - 2 * Z.of_nat 1) with (left - 2) by lia.
    + destruct (IH _ _ _ H1) as (k2 & H2 & Hk2); [lia|lia|].
      exists k2. replace (2 * S n)%nat with (2 + 2 * n)%nat by lia. rewrite <- drop_drop.
      replace (left - 2 * Z.of_nat (S n)) with (left - 2 - 2 * Z.of_nat n) by lia.
      split; [done|lia].
Qed.

Lemma hex4_loop_some n h input :
  (n <= length input)%nat -> exists v, hex4_loop n h input = Some v.
Proof.
  revert h input. induction n as [|n IH]; intros h [|c input] Hl; simpl in Hl |- *; eauto; [lia|].
  destruct (isxdigit c); eauto with lia.
Qed.

Lemma utf8_tail_length n cp out : length (utf8_tail n cp out).1 = (n + length out)%nat.
Proof. revert cp out. induction n as [|n IH]; intros cp out; simpl; [done|]. rewrite IH. simpl. lia. Qed.

Lemma utf8_bytes_length cp len mark : (0 < len)%nat -> length (utf8_bytes cp len mark) = len.
Proof.
  intros Hl. unfold utf8_bytes. pose proof (utf8_tail_length (pred len) cp []) as H.
  destruct (utf8_tail (pred len) cp []) as [tail rest]. simpl in *. lia.
Qed.

(** At most 3 bytes for a code unit, 4 for a pair. *)
Lemma emit_utf8_length cp out :
  emit_utf8 cp = Some out -> (length out <= 4)%nat /\ (cp < 65536 -> (length out <= 3)%nat).
Proof.
  unfold emit_utf8.
  repeat case_match; boolify; intros [= <-]; rewrite utf8_bytes_length by lia; lia.
Qed.

Lemma hex_value_range c : isxdigit c = true -> 0 <= hex_value c < 16.
Proof. by_bytes c. Qed.

Definition hex4 (a b c d : byte) : Z :=
  4096 * hex_value a + 256 * hex_value b + 16 * hex_value c + hex_value d.

Lemma parse_hex4_digits a b c d rest :
  isxdigit a = true -> isxdigit b = true -> isxdigit c = true -> isxdigit d = true ->
  parse_hex4 (a :: b :: c :: d :: rest) = Some (hex4 a b c d).
Proof.
  intros Ha Hb Hc Hd. unfold parse_hex4. cbn [hex4_loop]. rewrite Ha, Hb, Hc, Hd.
  pose proof (hex_value_range a Ha). pose proof (hex_value_range b Hb).
  pose proof (hex_value_range c Hc). pose proof (hex_value_range d Hd).
  rewrite (bool_decide_eq_true_2 (0 = 0)%nat), !bool_decide_eq_false_2 by done.
  unfold hex4, u32. rewrite !Z.shiftl_mul_pow2 by lia. change (2 ^ 4) with 16.
  f_equal.
  repeat match goal with
  | |- context [?x mod 2 ^ 32] =>
      lazymatch x with context [Z.modulo] => fail | _ => rewrite (Z.mod_small x) by lia end
  end. lia.
Qed.

Lemma parse_hex4_cases input v :
  parse_hex4 input = Some v ->
  v = 0 \/ exists a b c d rest, input = a :: b :: c :: d :: rest /\ v = hex4 a b c d
    /\ isxdigit a = true /\ isxdigit b = true /\ isxdigit c = true /\ isxdigit d = true.
Proof.
  intros H. pose proof H as H0. unfold parse_hex4 in H. destruct input as [|a input]; [done|].
  cbn [hex4_loop] in H. destruct (isxdigit a) eqn:Ha; [|left; congruence].
  destruct input as [|b input]; [done|]. cbn [hex4_loop] in H.
  destruct (isxdigit b) eqn:Hb; [|left; congruence].
  destruct input as [|c input]; [done|]. cbn [hex4_loop] in H.
  destruct (isxdigit c) eqn:Hc; [|left; congruence].
  destruct input as [|d input]; [done|]. cbn [hex4_loop] in H.
  destruct (isxdigit d) eqn:Hd; [|left; congruence]. clear H.
  rewrite parse_hex4_digits in H0 by done. injection H0 as <-.
  right. exists a, b, c, d, input. done.
Qed.

Lemma parse_hex4_range input v : parse_hex4 input = Some v -> 0 <= v < 65536.
Proof.
  intros [->|(a & b & c & d & rest & -> & -> & Ha & Hb & Hc & Hd)]%parse_hex4_cases; [lia|].
  pose proof (hex_value_range a Ha). pose proof (hex_value_range b Hb).
  pose proof (hex_value_range c Hc). pose proof (hex_value_range d Hd). unfold hex4. lia.
Qed.

Lemma parse_hex4_some input : (4 <= length input)%nat -> exists v, parse_hex4 input = Some v.
Proof. apply hex4_loop_some. Qed.

(** What an escape sequence of the second pass may do. *)
Definition escape_safe (p : bytes) (left : Z) (k : nat) (e : escape) : Prop :=
  match e with
  | Escape out len =>
      exists k', scanning (drop len p) (left - Z.of_nat len) k' /\ (length out + k' <= k)%nat
        /\ (1 <= len)%nat
  | BadEscape => True
  | OobEscape => False
  end.

Lemma utf16_safe p left k :
  scanning p left k -> 0 < left -> escape_safe p left k (utf16_literal_to_utf8 p left).
Proof.
  intros H Hl. unfold utf16_literal_to_utf8. destruct (left <? 6) eqn:E6; [done|]. boolify.
  pose proof (scanning_length _ _ _ H ltac:(lia)) as Hlen.
  destruct (parse_hex4_some (drop 2 p)) as [v Hv]; [len|]. rewrite Hv.
  pose proof (parse_hex4_range _ _ Hv) as Hr.
  destruct ((56320 <=? v) && (v <=? 57343)); [done|].
  destruct ((55296 <=? v) && (v <=? 56319)) eqn:Es.
  - destruct (left - 6 <? 6) eqn:E12; [done|]. boolify.
    destruct (lookup_lt_is_Some_2 (drop 6 p) 0) as [s0 ->]; [len|].
    destruct (lookup_lt_is_Some_2 (drop 6 p) 1) as [s1 ->]; [len|].
    destruct (negb _ || negb _); [done|]. rewrite drop_drop.
    destruct (parse_hex4_some (drop (6 + 2) p)) as [w Hw]; [len|]. rewrite Hw.
    destruct ((w <? 56320) || _); [done|]. unfold utf16_emit.
    destruct (emit_utf8 _) as [out|] eqn:E; [|done].
    apply emit_utf8_length in E as [E _].
    destruct (scanning_drop_even 6 _ _ _ H ltac:(lia) Hl) as (k' & Hk' & Hle).
    exists k'. split_and!; [exact Hk'|lia|lia].
  - unfold utf16_emit. destruct (emit_utf8 v) as [out|] eqn:E; [|done].
    apply emit_utf8_length in E as [_ E]. specialize (E ltac:(lia)).
    destruct (scanning_drop_even 3 _ _ _ H ltac:(lia) Hl) as (k' & Hk' & Hle).
    exists k'. split_and!; [exact Hk'|lia|lia].
Qed.

Lemma simple_escape_length e out : simple_escape e = Some out -> length out = 1%nat.
Proof. unfold simple_escape. repeat case_match; by intros [= <-]. Qed.

Lemma escape_at_safe p left k :
  scanning p left k -> 0 < left -> escape_safe p left k (escape_at p left).
Proof.
  intros H Hl. pose proof (scanning_length _ _ _ H ltac:(lia)) as Hlen. unfold escape_at.
  destruct (lookup_lt_is_Some_2 p 1) as [e ->]; [lia|].
  destruct (simple_escape e) as [out|] eqn:E.
  - apply simple_escape_length in E. destruct (scanning_drop2 _ _ _ H Hl) as (k' & Hk' & Hle).
    exists k'. split_and!; [exact Hk'|lia|lia].
  - destruct (beq e "u"); [by apply utf16_safe|done].
Qed.

Lemma unescape_safe f p left k consumed out :
  scanning p left k -> Z.max 0 left < Z.of_nat f ->
  match unescape f p left consumed out with
  | Unescaped o => (length o <= length out + k)%nat
  | BadText c => 0 < left /\ Z.of_nat c <= Z.of_nat consumed + left
  | _ => False
  end.
Proof.
  revert p left k consumed out. induction f as [|f IH]; intros p left k consumed out H Hf.
  { inversion H; subst; lia. }
  cbn [unescape]. destruct (left <=? 0) eqn:E0; boolify; [lia|].
  pose proof (scanning_length _ _ _ H ltac:(lia)) as Hlen.
  destruct p as [|c p]; [simpl in Hlen; lia|].
  destruct (beq_spec c "\") as [->|Hc]; cbn [negb].
  - pose proof (escape_at_safe _ _ _ H ltac:(lia)) as Hs.
    destruct (escape_at _ left) as [o len| |]; cbn [escape_safe] in Hs; [|lia|done].
    destruct Hs as (k' & Hk' & Hle & H1).
    specialize (IH _ _ _ (consumed + len)%nat (out ++ o) Hk' ltac:(lia)).
    destruct (unescape f _ _ _ _); [len|lia|done|done].
  - destruct (scanning_drop1 _ _ _ _ H ltac:(lia) Hc) as (k' & Hk' & Hlt).
    specialize (IH _ _ _ (S consumed) (out ++ [c]) Hk' ltac:(lia)).
    destruct (unescape f _ _ _ _); [len|lia|done|done].
Qed.

(** ** The parser stays inside its buffer and ends *)

Definition fits (b : parse_buffer) : Prop := (b.(offset) <= blength b)%nat.

(** A parse of part of [b]: no read outside it, enough fuel, and on success
    the offset has moved forward inside the same array at the same depth. *)
Definition safe {A} (b : parse_buffer) (r : parsed A) : Prop :=
  match r with
  | Good _ b' => b'.(content) = b.(content) /\ b'.(depth) = b.(depth)
                 /\ (b.(offset) <= b'.(offset) <= blength b)%nat
  | Bad b' => b'.(content) = b.(content)
  | Oob | OutOfFuel => False
  end.

Lemma blength_content b b' : b'.(content) = b.(content) -> blength b' = blength b.
Proof. unfold blength. by intros ->. Qed.

Lemma can_access_spec b i : can_access_at_index b i = true <-> (b.(offset) + i < blength b)%nat.
Proof. apply Nat.ltb_lt. Qed.

Lemma at_index_some b i : (b.(offset) + i < blength b)%nat -> exists c, at_index b i = Some c.
Proof. apply lookup_lt_is_Some_2. Qed.

Lemma looking_at_fits c b : looking_at c b = true -> (b.(offset) < blength b)%nat.
Proof. unfold looking_at. intros [H%can_access_spec _]%andb_true_iff. lia. Qed.

(** White space: only the offset moves, never back and never out. *)
Lemma skip_spec b :
  fits b ->
  exists o, buffer_skip_whitespace b = set_offset o b /\ (b.(offset) <= o <= blength b)%nat
    /\ ((b.(offset) < blength b)%nat -> (o < blength b)%nat)
    /\ (b.(offset) = blength b -> o = blength b).
Proof.
  unfold fits, buffer_skip_whitespace. intros Hf.
  destruct (can_access_at_index b 0) eqn:E; cbn [negb].
  - apply can_access_spec in E.
    pose proof (take_while_length is_white (at_offset b)) as Hw.
    unfold at_offset in Hw at 2. rewrite length_drop in Hw. unfold blength in *.
    cbn [advance set_offset offset content]. destruct (Nat.eqb_spec
      (offset b + length (take_while is_white (at_offset b))) (length (content b))) as [E2|E2].
    + eexists. split; [unfold retreat, advance, set_offset; reflexivity|]. simpl. lia.
    + eexists. split; [unfold advance, set_offset; reflexivity|]. lia.
  - exists b.(offset). destruct b. split; [done|].
    apply not_true_iff_false in E. rewrite can_access_spec in E. simpl in *. lia.
Qed.

Ltac skip b o H :=
  let E := fresh "E" in
  destruct (skip_spec b) as (o & E & H);
    [unfold fits; cbn [offset content depth advance set_offset set_depth retreat blength] in *;
     try lia | rewrite E in * ; clear E];
    cbn [offset content depth advance set_offset set_depth retreat blength] in *.

Lemma strtod_consumed s d n : strtod s = Some (d, n) -> (n <= length s)%nat.
Proof.
  unfold strtod. repeat case_match; intros; simplify_eq; lia.
Qed.

Section Safety.
Variable malloc_ok : Z -> bool.

Lemma parse_string_safe item b :
  (b.(offset) < blength b)%nat -> safe b (parse_string malloc_ok item b).
Proof.
  intros Hb. unfold parse_string. destruct (at_index_some b 0) as [c ->]; [lia|].
  destruct (negb (beq c x22)); [done|].
  destruct (scan_string _) as [[n k]|] eqn:Es; [|done].
  destruct (negb (malloc_ok _)); [done|].
  destruct (scan_string_spec _ _ _ Es) as (body & rest & Ep & Hn & _ & Ht).
  assert (Hlen : (b.(offset) + 1 + n + 1 <= blength b)%nat).
  { apply (f_equal length) in Ep. unfold at_offset, blength in *. simpl in Ep.
    rewrite length_drop, length_app in Ep. simpl in Ep. lia. }
  rewrite Ep. pose proof (unescape_safe (S n) _ _ _ 0 [] (scanning_aligned body rest _ Ht)) as H.
  rewrite Hn in H. specialize (H ltac:(lia)).
  destruct (unescape _ _ _ _ _); [|done|done|done]. simpl. split_and!; [done|done|lia|].
  unfold blength in *. simpl. lia.
Qed.

Lemma parse_number_safe item b : fits b -> safe b (parse_number malloc_ok item b).
Proof.
  unfold fits. intros Hb. unfold parse_number. destruct (negb (malloc_ok _)); [done|].
  destruct (strtod _) as [[d n]|] eqn:E; [|done].
  apply strtod_consumed in E. pose proof (take_while_length is_number_char (at_offset b)) as Hl.
  unfold at_offset in Hl at 2. rewrite length_drop in Hl. simpl. unfold blength in *.
  split_and!; [done|done|lia|simpl; lia].
Qed.

Lemma literal_at_spec lit b : literal_at lit b = true -> (b.(offset) + length lit <= blength b)%nat.
Proof. unfold literal_at, can_read. intros [H%Nat.leb_le _]%andb_true_iff. done. Qed.

Lemma parse_scalar_safe item b r : fits b -> parse_scalar malloc_ok item b = Some r -> safe b r.
Proof.
  unfold fits, parse_scalar. intros Hb.
  destruct (literal_at (str "null") b) eqn:En.
  { intros [= <-]. apply literal_at_spec in En. simpl in *. unfold blength in *. simpl. auto with lia. }
  destruct (literal_at (str "false") b) eqn:Ef.
  { intros [= <-]. apply literal_at_spec in Ef. simpl in *. unfold blength in *. simpl. auto with lia. }
  destruct (literal_at (str "true") b) eqn:Et.
  { intros [= <-]. apply literal_at_spec in Et. simpl in *. unfold blength in *. simpl. auto with lia. }
  destruct (looking_at x22 b) eqn:Eq.
  { intros [= <-]. apply looking_at_fits in Eq. by apply parse_string_safe. }
  destruct (number_at b); [|done]. intros [= <-]. by apply parse_number_safe.
Qed.

(** What the loops of the containers do: they stop on the closing bracket. *)
Definition safe_loop {A} (b : parse_buffer) (r : parsed A) : Prop :=
  safe b r /\ match r with Good _ b' => (b'.(offset) < blength b)%nat | _ => True end.

Definition value_safe (f : nat) : Prop := forall item b,
  fits b -> (3 * (blength b - b.(offset)) + 3 <= f)%nat -> safe b (parse_value malloc_ok f item b).
Definition container_safe (parse : nat -> cJSON -> parse_buffer -> parsed cJSON) (f : nat) : Prop :=
  forall item b, (b.(offset) < blength b)%nat ->
  (3 * (blength b - b.(offset)) + 2 <= f)%nat -> safe b (parse f item b).
Definition loop_safe (loop : nat -> parse_buffer -> list cJSON -> parsed (list cJSON)) (f : nat) : Prop :=
  forall b head, (b.(offset) < blength b)%nat ->
  (3 * (blength b - b.(offset)) + 1 <= f)%nat -> safe_loop b (loop f b head).

Lemma parse_value_step f :
  container_safe (parse_array malloc_ok) f -> container_safe (parse_object malloc_ok) f ->
  value_safe (S f).
Proof.
  intros HA HO item b Hb Hf. cbn [parse_value].
  destruct (parse_scalar malloc_ok item b) as [r|] eqn:E; [by eapply parse_scalar_safe|].
  destruct (looking_at "[" b) eqn:Ea.
  { apply looking_at_fits in Ea. apply HA; lia. }
  destruct (looking_at "{" b) eqn:Eo; [|done].
  apply looking_at_fits in Eo. apply HO; lia.
Qed.

(** The common tail of the containers: an empty one, or the loop. *)
Lemma container_tail f b b0 (t : Z) item close_char
    (loop : nat -> parse_buffer -> list cJSON -> parsed (list cJSON)) :
  loop_safe loop f ->
  b0.(content) = b.(content) -> b0.(depth) = S b.(depth) -> (b.(offset) < b0.(offset) <= blength b)%nat ->
  (3 * (blength b - b.(offset)) + 1 <= f)%nat ->
  safe b
    (if looking_at close_char b0 then close t item [] b0
     else if negb (can_access_at_index b0 0) then Bad (retreat b0)
     else match loop f (retreat b0) [] with
          | Good children b => close t item children b
          | Bad b => Bad b | Oob => Oob | OutOfFuel => OutOfFuel
          end).
Proof.
  intros HL Hc Hd Ho Hf. pose proof (blength_content _ _ Hc) as Hl.
  destruct (looking_at close_char b0) eqn:E1.
  { apply looking_at_fits in E1. unfold close, safe. simpl. rewrite Hd, Hc. simpl. auto with lia. }
  destruct (can_access_at_index b0 0) eqn:E2; cbn [negb]; [|done]. apply can_access_spec in E2.
  assert (Hr : blength (retreat b0) = blength b) by done || (unfold blength in *; simpl; lia).
  destruct (HL (retreat b0) []) as [Hs Hlt]; [rewrite Hr; simpl; lia|rewrite Hr; simpl; lia|].
  rewrite Hr in Hlt. unfold safe in Hs. rewrite Hr in Hs.
  destruct (loop f (retreat b0) []) as [children b1|b1| |]; [|simpl in *; congruence|done|done].
  destruct Hs as (Hc1 & Hd1 & Ho1). simpl in *. unfold close, safe. simpl.
  rewrite Hd1, Hd, Hc1, Hc. simpl. auto with lia.
Qed.

Lemma parse_array_step f : loop_safe (parse_elements malloc_ok) f -> container_safe (parse_array malloc_ok) (S f).
Proof.
  intros HE item b Hb Hf. cbn [parse_array]. destruct (CJSON_NESTING_LIMIT <=? _)%nat; [done|].
  destruct (at_index_some (set_depth (S (depth b)) b) 0) as [c ->]; [unfold blength in *; simpl; lia|].
  destruct (negb (beq c "[")); [done|].
  skip (advance 1 (set_depth (S (depth b)) b)) o Ho; [unfold blength in *; simpl; lia|].
  apply container_tail; [done|done|done|unfold blength in *; simpl in *; lia|lia].
Qed.

Lemma parse_object_step f : loop_safe (parse_members malloc_ok) f -> container_safe (parse_object malloc_ok) (S f).
Proof.
  intros HE item b Hb Hf. cbn [parse_object]. destruct (CJSON_NESTING_LIMIT <=? _)%nat; [done|].
  destruct (negb (looking_at "{" _)); [done|].
  skip (advance 1 (set_depth (S (depth b)) b)) o Ho; [unfold blength in *; simpl; lia|].
  apply container_tail; [done|done|done|unfold blength in *; simpl in *; lia|lia].
Qed.

(** A value inside a loop, with the white space around it. *)
Lemma value_in_loop f (b : parse_buffer) item :
  value_safe f -> (b.(offset) < blength b)%nat -> (3 * (blength b - b.(offset)) <= f)%nat ->
  match parse_value malloc_ok f item (buffer_skip_whitespace (advance 1 b)) with
  | Good x b1 =>
      exists o, buffer_skip_whitespace b1 = set_offset o b1 /\ b1.(content) = b.(content)
        /\ b1.(depth) = b.(depth) /\ (b.(offset) < o <= blength b)%nat
  | Bad b1 => b1.(content) = b.(content)
  | _ => False
  end.
Proof.
  intros HV Hb Hf.
  skip (advance 1 b) o Ho; [unfold blength in *; simpl; lia|].
  change (blength (advance 1 b)) with (blength b) in *.
  assert (Hs := HV item (set_offset o (advance 1 b))).
  change (blength (set_offset o (advance 1 b))) with (blength b) in Hs.
  specialize (Hs ltac:(unfold fits; simpl; unfold blength in *; simpl; lia) ltac:(simpl; lia)).
  destruct (parse_value malloc_ok f item _) as [x b1|b1| |]; try done.
  destruct Hs as (Hc1 & Hd1 & Ho1). simpl in *.
  change (blength (set_offset o (advance 1 b))) with (blength b) in *.
  pose proof (blength_content b b1 Hc1) as Hl.
  destruct (skip_spec b1) as (o1 & -> & H1 & _); [unfold fits; lia|].
  exists o1. rewrite Hl in H1. split_and!; [done|done|done|lia|lia].
Qed.

(** After the value: a comma goes round again, the bracket ends the loop. *)
Lemma loop_tail {loop} f b b1 o (children : list cJSON) close_char :
  loop_safe loop f ->
  b1.(content) = b.(content) -> b1.(depth) = b.(depth) -> (b.(offset) < o <= blength b)%nat ->
  (3 * (blength b - b.(offset)) <= f)%nat ->
  safe_loop b
    (if looking_at "," (set_offset o b1) then loop f (set_offset o b1) children
     else if looking_at close_char (set_offset o b1) then Good children (set_offset o b1)
     else Bad (set_offset o b1)).
Proof.
  intros HL Hc Hd Ho Hf. pose proof (blength_content _ _ Hc) as Hl.
  assert (Hl' : blength (set_offset o b1) = blength b) by done.
  destruct (looking_at "," _) eqn:E1.
  { apply looking_at_fits in E1.
    destruct (HL (set_offset o b1) children) as [Hs Hlt]; [done|rewrite Hl'; simpl; lia|].
    rewrite Hl' in *. split; [|by destruct (loop f _ _)].
    destruct (loop f _ _); [|simpl in *; congruence|done|done].
    simpl in *. rewrite Hl' in Hs. rewrite Hc, Hd in Hs. split_and!; [apply Hs|apply Hs|lia|lia]. }
  destruct (looking_at close_char _) eqn:E2; [|done].
  apply looking_at_fits in E2. simpl in E2. rewrite Hl' in E2. split; [|done]. simpl.
  auto with lia.
Qed.

Lemma parse_elements_step f :
  value_safe f -> loop_safe (parse_elements malloc_ok) f -> loop_safe (parse_elements malloc_ok) (S f).
Proof.
  intros HV HL b head Hb Hf. cbn [parse_elements].
  destruct (cJSON_New_Item malloc_ok) as [i|]; [|done].
  pose proof (value_in_loop f b i HV Hb ltac:(lia)) as H.
  destruct (parse_value malloc_ok f i _) as [x b1|b1| |]; try done.
  destruct H as (o & -> & Hc & Hd & Ho). apply loop_tail; [done|done|done|done|lia].
Qed.

Lemma parse_members_step f :
  value_safe f -> loop_safe (parse_members malloc_ok) f -> loop_safe (parse_members malloc_ok) (S f).
Proof.
  intros HV HL b head Hb Hf. cbn [parse_members].
  destruct (cJSON_New_Item malloc_ok) as [i|]; [|done].
  destruct (can_access_at_index b 1) eqn:E1; cbn [negb]; [|done]. apply can_access_spec in E1.
  skip (advance 1 b) o Ho; [unfold blength in *; simpl; lia|].
  change (blength (advance 1 b)) with (blength b) in *.
  assert (Hs := parse_string_safe i (set_offset o (advance 1 b))).
  change (blength (set_offset o (advance 1 b))) with (blength b) in Hs.
  specialize (Hs ltac:(simpl; lia)).
  destruct (parse_string malloc_ok i _) as [named b1|b1| |]; try done.
  destruct Hs as (Hc1 & Hd1 & Ho1). simpl in Hc1, Hd1, Ho1.
  change (blength (set_offset o (advance 1 b))) with (blength b) in *.
  pose proof (blength_content b b1 Hc1) as Hl.
  destruct (skip_spec b1) as (o1 & -> & H1 & _); [unfold fits; lia|]. rewrite Hl in H1.
  destruct (looking_at ":" (set_offset o1 b1)) eqn:Ec; cbn [negb]; [|done].
  apply looking_at_fits in Ec. simpl in Ec. change (blength (set_offset o1 b1)) with (blength b1) in Ec.
  set (item := set_valuestring None _).
  pose proof (value_in_loop f (set_offset o1 b1) item HV Ec) as H.
  change (blength (set_offset o1 b1)) with (blength b1) in H. rewrite Hl in H. simpl offset in H.
  specialize (H ltac:(lia)).
  destruct (parse_value malloc_ok f item _) as [x b2|b2| |]; try done.
  - destruct H as (o2 & -> & Hc2 & Hd2 & Ho2). simpl in Hc2, Hd2.
    apply loop_tail; [done|congruence|congruence|lia|lia].
  - split; [|done]. simpl in *. congruence.
Qed.

Lemma parser_safe f :
  value_safe f /\ container_safe (parse_array malloc_ok) f /\ container_safe (parse_object malloc_ok) f
  /\ loop_safe (parse_elements malloc_ok) f /\ loop_safe (parse_members malloc_ok) f.
Proof.
  induction f as [|f (HV & HA & HO & HE & HM)].
  { split_and!; repeat intro; lia. }
  split_and!; [by apply parse_value_step|by apply parse_array_step|by apply parse_object_step
    |by apply parse_elements_step|by apply parse_members_step].
Qed.
End Safety.

(** C9: the parser is memory safe and total: on every text, whatever
    allocations fail, [cJSON_ParseWithOpts] never reads outside the text and
    its terminator, and it returns within [3 * length + 3] nested calls and
    loop iterations.  The end of the value and the error position it reports
    lie inside the text. *)
Theorem json_parser_safe malloc_ok (value : option bytes) (require_null_terminated : bool) :
  match cJSON_ParseWithOpts malloc_ok value require_null_terminated with
  | ParseOk _ parse_end => exists s, value = Some s /\ (parse_end <= strlen s + 1)%nat
  | ParseNull position =>
      match value with None => position = 0%nat | Some s => (position <= strlen s)%nat end
  | ParseUB => False
  end.
Proof.
  destruct value as [s|]; [|done]. unfold cJSON_ParseWithOpts, cJSON_ParseWithLengthOpts.
  rewrite bool_decide_eq_false_2 by (by destruct (cstr s)).
  set (b := {| content := cstr s ++ [NUL]; offset := 0; depth := 0 |}).
  assert (Hlen : blength b = (strlen s + 1)%nat) by (unfold blength, b, strlen; simpl; len).
  assert (Hfail : forall b', b'.(content) = b.(content) ->
    match parse_fail b' with ParseNull p => (p <= strlen s)%nat | _ => False end).
  { intros b' Hb'. unfold parse_fail. rewrite (blength_content _ _ Hb'), Hlen.
    replace (0 <? strlen s + 1)%nat with true by (symmetry; apply Nat.ltb_lt; lia).
    destruct (Nat.ltb_spec (offset b') (strlen s + 1)); lia. }
  destruct (cJSON_New_Item malloc_ok) as [i|]; [|by apply Hfail].
  assert (Hbom : exists k, skip_utf8_bom b = set_offset k b /\ (k < blength b)%nat).
  { unfold skip_utf8_bom. destruct (can_access_at_index b 4) eqn:E; cbn [andb];
      [|exists 0%nat; split; [done|lia]].
    apply can_access_spec in E. destruct (starts_with _ _); [exists 3%nat|exists 0%nat];
      (split; [done|simpl in E; lia]). }
  destruct Hbom as (k & -> & Hk).
  destruct (skip_spec (set_offset k b)) as (o & -> & Ho & Ho2 & _).
  { change (k <= blength b)%nat. lia. }
  change (blength (set_offset k b)) with (blength b) in *.
  destruct (parser_safe malloc_ok (parse_fuel b)) as [HV _].
  specialize (HV i (set_offset o (set_offset k b))).
  change (blength (set_offset o (set_offset k b))) with (blength b) in HV.
  simpl offset in *. specialize (HV ltac:(change (o <= blength b)%nat; lia)
    ltac:(unfold parse_fuel; lia)).
  destruct (parse_value _ _ _ _) as [x b1|b1| |]; [|by apply Hfail|done|done].
  destruct HV as (Hc & _ & Ho1). change (blength (set_offset o (set_offset k b))) with (blength b) in Ho1.
  destruct require_null_terminated; [|exists s; split; [done|lia]].
  pose proof (blength_content b b1 Hc) as Hl1.
  destruct (skip_spec b1) as (o1 & -> & H1 & _); [unfold fits; lia|].
  destruct (looking_at NUL _); [exists s; split; [done|simpl; lia]|by apply Hfail].
Qed.


