(* ===== verification/JsonPrint.v ===== *)
(** * cJSON.c: the printer

    The printer writes through a [printbuffer] that [ensure] grows.  The
    buffer is the list of its bytes, every store is checked against its
    length ([PrintUB] is a store or a read outside it), and a block fresh from
    the allocator holds arbitrary bytes. *)

From S2P Require Import Prelude CString Double Json.
Local Open Scope Z_scope.

Record printbuffer := {
  buffer : option bytes;      (* p->buffer; its length is p->length *)
  poffset : nat;
  pdepth : nat;
  noalloc : bool;
  format : bool
}.

Inductive printed := Printed (p : printbuffer) | PrintFail (p : printbuffer) | PrintUB.

Definition pbind (r : printed) (k : printbuffer -> printed) : printed :=
  match r with Printed p => k p | PrintFail p => PrintFail p | PrintUB => PrintUB end.
Notation "'let*' p := r 'in' k" := (pbind r (fun p => k))
  (at level 10, p name, r at level 200, k at level 200) : c_scope.
Local Open Scope c_scope.

Definition set_buffer (b : option bytes) (p : printbuffer) : printbuffer :=
  {| buffer := b; poffset := p.(poffset); pdepth := p.(pdepth); noalloc := p.(noalloc); format := p.(format) |}.
Definition set_poffset (o : nat) (p : printbuffer) : printbuffer :=
  {| buffer := p.(buffer); poffset := o; pdepth := p.(pdepth); noalloc := p.(noalloc); format := p.(format) |}.
Definition set_pdepth (d : nat) (p : printbuffer) : printbuffer :=
  {| buffer := p.(buffer); poffset := p.(poffset); pdepth := d; noalloc := p.(noalloc); format := p.(format) |}.

(** ** Texts of numbers and strings *)

Definition compare_double (a b : double) : bool :=
  let maxVal := if dgt (dabs a) (dabs b) then dabs a else dabs b in
  dle (dabs (dsub a b)) (dmul maxVal DBL_EPSILON).

(** What [print_number] leaves in [number_buffer]. *)
Definition number_text (item : cJSON) : bytes :=
  let d := item.(valuedouble) in
  if isnan d || isinf d then str "null"
  else if deq d (of_Z item.(valueint)) then print_d item.(valueint)
  else
    let text := fmt_g 15 d in
    match strtod text with
    | Some (test, _) => if compare_double test d then text else fmt_g 17 d
    | None => fmt_g 17 d
    end.

(** The escape loop of [print_string_ptr], one byte at a time.  [sprintf]'s
    terminator after "u%04x" is overwritten by the byte that follows. *)
Definition escape_byte (c : byte) : bytes :=
  if (31 <? bz c) && negb (beq c x22) && negb (beq c "\") then [c]
  else
    "\"%byte ::
    (if beq c "\" then ["\"%byte]
     else if beq c x22 then [x22]
     else if beq c x08 then ["b"%byte]
     else if beq c x0c then ["f"%byte]
     else if beq c x0a then ["n"%byte]
     else if beq c x0d then ["r"%byte]
     else if beq c x09 then ["t"%byte]
     else str "u00" ++ print_02x c).

(** The additional characters the first loop counts. *)
Definition escape_characters (c : byte) : nat :=
  if beq c x22 || beq c "\" || beq c x08 || beq c x0c || beq c x0a || beq c x0d || beq c x09 then 1
  else if bz c <? 32 then 5 else 0.

Section Print.
(** Whether an allocation of a size succeeds, and what a fresh block holds. *)
Variable malloc_ok : Z -> bool.
Variable uninit : nat -> bytes.

Definition malloc (n : nat) : option bytes :=
  if malloc_ok (Z.of_nat n) then Some (uninit n) else None.
Definition realloc (old : bytes) (n : nat) : option bytes :=
  if malloc_ok (Z.of_nat n) then Some (take n old ++ drop (length old) (uninit n)) else None.

(** [ensure(p, needed)]: on success the pointer is [buffer + offset]. *)
Definition ensure (p : printbuffer) (needed : nat) : printed :=
  match p.(buffer) with
  | None => PrintFail p
  | Some buf =>
      if ((0 <? length buf) && (length buf <=? p.(poffset)))%nat then PrintFail p
      else if INT_MAX <? Z.of_nat needed then PrintFail p
      else
        let needed := (needed + (p.(poffset) + 1))%nat in
        if (needed <=? length buf)%nat then Printed p
        else if p.(noalloc) then PrintFail p
        else if (INT_MAX / 2 <? Z.of_nat needed) && negb (Z.of_nat needed <=? INT_MAX) then PrintFail p
        else
          let newsize := if INT_MAX / 2 <? Z.of_nat needed then Z.to_nat INT_MAX else (needed * 2)%nat in
          match realloc buf newsize with
          | None => PrintFail (set_buffer None p)
          | Some newbuffer => Printed (set_buffer (Some newbuffer) p)
          end
  end.

(** [text] stored at [output[index]], from the pointer [ensure] returned. *)
Definition store (index : nat) (text : bytes) (p : printbuffer) : printed :=
  match p.(buffer) with
  | None => PrintUB
  | Some buf =>
      let pos := (p.(poffset) + index)%nat in
      if (pos + length text <=? length buf)%nat
      then Printed (set_buffer (Some (take pos buf ++ text ++ drop (pos + length text) buf)) p)
      else PrintUB
  end.

(** The idiom of the printer: [ensure(needed)], store [text], [offset += n]. *)
Definition emit (needed : nat) (text : bytes) (n : nat) (p : printbuffer) : printed :=
  let* p := ensure p needed in
  let* p := store 0 text p in
  Printed (set_poffset (p.(poffset) + n) p).

(** [offset += strlen(buffer + offset)]. *)
Definition update_offset (p : printbuffer) : printed :=
  match p.(buffer) with
  | None => Printed p
  | Some buf =>
      match find_index (fun b => beq b NUL) (drop p.(poffset) buf) with
      | Some n => Printed (set_poffset (p.(poffset) + n) p)
      | None => PrintUB
      end
  end.

Definition print_number (item : cJSON) (p : printbuffer) : printed :=
  let text := number_text item in
  if (25 <? length text)%nat then PrintFail p
  else emit (length text + 1) (text ++ [NUL]) (length text) p.

Definition print_string_ptr (input : option bytes) (p : printbuffer) : printed :=
  match input with
  | None => emit 3 [x22; x22; NUL] 0 p
  | Some s =>
      let s := cstr s in
      let escapes := sum_list (map escape_characters s) in
      let output_length := (length s + escapes)%nat in
      let* p := ensure p (output_length + 3) in
      let* p := store 0 [x22] p in
      let* p := store 1 (if (escapes =? 0)%nat then s else concat (map escape_byte s)) p in
      store (output_length + 1) [x22; NUL] p
  end.

Definition tabs (n : nat) : bytes := replicate n x09.

Section Containers.
(** The values of a container are printed by [print_value]. *)
Variable print_value : cJSON -> printbuffer -> printed.

Fixpoint print_elements (l : list cJSON) (p : printbuffer) : printed :=
  match l with
  | [] => Printed p
  | current :: next =>
      let* p := print_value current p in
      let* p := update_offset p in
      let* p := (match next with
            | [] => Printed p
            | _ =>
                let length := if p.(format) then 2%nat else 1%nat in
                emit (length + 1) (str "," ++ (if p.(format) then str " " else []) ++ [NUL]) length p
            end) in
      print_elements next p
  end.

Definition print_array (item : cJSON) (p : printbuffer) : printed :=
  if (CJSON_NESTING_LIMIT <=? p.(pdepth))%nat then PrintFail p
  else
    let* p := emit 1 (str "[") 1 p in
    let* p := print_elements item.(child) (set_pdepth (S p.(pdepth)) p) in
    let* p := emit 2 (str "]" ++ [NUL]) 0 p in
    Printed (set_pdepth (pred p.(pdepth)) p).

Fixpoint print_members (l : list cJSON) (p : printbuffer) : printed :=
  match l with
  | [] => Printed p
  | current :: next =>
      let* p := (if p.(format) then emit p.(pdepth) (tabs p.(pdepth)) p.(pdepth) p else Printed p) in
      let* p := print_string_ptr current.(name) p in
      let* p := update_offset p in
      let* p := (let length := if p.(format) then 2%nat else 1%nat in
            emit length (str ":" ++ (if p.(format) then [x09] else [])) length p) in
      let* p := print_value current p in
      let* p := update_offset p in
      let* p := (let length := ((if p.(format) then 1 else 0) + (match next with [] => 0 | _ => 1 end))%nat in
            emit (length + 1)
              ((match next with [] => [] | _ => str "," end) ++ (if p.(format) then [x0a] else []) ++ [NUL])
              length p) in
      print_members next p
  end.

Definition print_object (item : cJSON) (p : printbuffer) : printed :=
  if (CJSON_NESTING_LIMIT <=? p.(pdepth))%nat then PrintFail p
  else
    let length := if p.(format) then 2%nat else 1%nat in
    let* p := emit (length + 1) (str "{" ++ (if p.(format) then [x0a] else [])) length p in
    let* p := print_members item.(child) (set_pdepth (S p.(pdepth)) p) in
    let* p := emit (if p.(format) then S p.(pdepth) else 2%nat)
           ((if p.(format) then tabs (pred p.(pdepth)) else []) ++ str "}" ++ [NUL]) 0 p in
    Printed (set_pdepth (pred p.(pdepth)) p).
End Containers.

Fixpoint print_value (item : cJSON) (p : printbuffer) : printed :=
  let t := Z.land item.(type) 255 in
  if t =? cJSON_NULL then emit 5 (str "null" ++ [NUL]) 0 p
  else if t =? cJSON_False then emit 6 (str "false" ++ [NUL]) 0 p
  else if t =? cJSON_True then emit 5 (str "true" ++ [NUL]) 0 p
  else if t =? cJSON_Number then print_number item p
  else if t =? cJSON_Raw then
    match item.(valuestring) with
    | None => PrintFail p
    | Some s => emit (strlen s + 1) (cstr s ++ [NUL]) 0 p
    end
  else if t =? cJSON_String then print_string_ptr item.(valuestring) p
  else if t =? cJSON_Array then print_array print_value item p
  else if t =? cJSON_Object then print_object print_value item p
  else PrintFail p.

(** ** Entry points *)

(** The block returned (NULL is [NoText]). *)
Inductive print_result := Text (block : bytes) | NoText | TextUB.

Definition print (item : option cJSON) (fmt : bool) : print_result :=
  match malloc 256, item with
  | Some buf, Some item =>
      let p := {| buffer := Some buf; poffset := 0; pdepth := 0; noalloc := false; format := fmt |} in
      match let* p := print_value item p in update_offset p with
      | Printed p =>
          match p.(buffer) with
          | Some buf =>
              match realloc buf (p.(poffset) + 1) with
              | Some printed => Text printed
              | None => NoText
              end
          | None => TextUB
          end
      | PrintFail _ => NoText
      | PrintUB => TextUB
      end
  | _, _ => NoText
  end.

Definition cJSON_Print (item : option cJSON) : print_result := print item true.
Definition cJSON_PrintUnformatted (item : option cJSON) : print_result := print item false.

Definition cJSON_PrintBuffered (item : option cJSON) (prebuffer : Z) (fmt : bool) : print_result :=
  if prebuffer <? 0 then NoText
  else match malloc (Z.to_nat prebuffer), item with
  | Some buf, Some item =>
      let p := {| buffer := Some buf; poffset := 0; pdepth := 0; noalloc := false; format := fmt |} in
      match print_value item p with
      | Printed p => match p.(buffer) with Some buf => Text buf | None => TextUB end
      | PrintFail _ => NoText
      | PrintUB => TextUB
      end
  | _, _ => NoText
  end.

(** The caller's buffer is the [length] bytes of [buf]. *)
Definition cJSON_PrintPreallocated (item : option cJSON) (buf : option bytes) (fmt : bool) : printed :=
  let p := {| buffer := buf; poffset := 0; pdepth := 0; noalloc := true; format := fmt |} in
  match item, buf with
  | Some item, Some _ => print_value item p
  | _, _ => PrintFail p
  end.
End Print.

(** ** What is printed, as a function *)

Definition render_string (s : option bytes) : bytes :=
  match s with
  | None => [x22; x22]
  | Some s => x22 :: concat (map escape_byte (cstr s)) ++ [x22]
  end.

Section Render.
Variable fmt : bool.
Let opt (s : bytes) : bytes := if fmt then s else [].

(** [r] renders one element at the depth inside the container. *)
Definition render_elements (r : cJSON -> bytes) : list cJSON -> bytes :=
  fix go l := match l with
  | [] => []
  | c :: next => r c ++ (match next with [] => [] | _ => str "," ++ opt (str " ") end) ++ go next
  end.

Definition render_members (d : nat) (r : cJSON -> bytes) : list cJSON -> bytes :=
  fix go l := match l with
  | [] => []
  | c :: next =>
      opt (tabs d) ++ render_string c.(name) ++ str ":" ++ opt [x09] ++ r c
      ++ (match next with [] => [] | _ => str "," end) ++ opt [x0a] ++ go next
  end.

Fixpoint render (d : nat) (item : cJSON) : bytes :=
  let t := Z.land item.(type) 255 in
  if t =? cJSON_NULL then str "null"
  else if t =? cJSON_False then str "false"
  else if t =? cJSON_True then str "true"
  else if t =? cJSON_Number then number_text item
  else if t =? cJSON_Raw then cstr (default [] item.(valuestring))
  else if t =? cJSON_String then render_string item.(valuestring)
  else if t =? cJSON_Array then
    str "[" ++ render_elements (render (S d)) item.(child) ++ str "]"
  else
    str "{" ++ opt [x0a] ++ render_members (S d) (render (S d)) item.(child) ++ opt (tabs d) ++ str "}".

(** The items the printer accepts. *)
Fixpoint printable (d : nat) (item : cJSON) : bool :=
  let t := Z.land item.(type) 255 in
  if (t =? cJSON_NULL) || (t =? cJSON_False) || (t =? cJSON_True) then true
  else if t =? cJSON_Number then (length (number_text item) <=? 25)%nat
  else if t =? cJSON_Raw then bool_decide (is_Some item.(valuestring))
  else if t =? cJSON_String then true
  else if (t =? cJSON_Array) || (t =? cJSON_Object) then
    (d <? CJSON_NESTING_LIMIT)%nat && forallb (printable (S d)) item.(child)
  else false.
End Render.

(** ** Buffer lemmas *)

(** What has been written before the offset, and the C string at it. *)
Definition out (p : printbuffer) : bytes := take p.(poffset) (default [] p.(buffer)).
Definition pending (p : printbuffer) (t : bytes) : Prop :=
  no_nul t /\ exists rest, drop p.(poffset) (default [] p.(buffer)) = t ++ NUL :: rest.

Definition valid (p : printbuffer) : Prop :=
  exists buf, p.(buffer) = Some buf /\ (p.(poffset) <= length buf)%nat
    /\ ((0 < length buf)%nat -> (p.(poffset) < length buf)%nat).

(** The settings a print never changes. *)
Definition same (p p' : printbuffer) : Prop :=
  p'.(pdepth) = p.(pdepth) /\ p'.(noalloc) = p.(noalloc) /\ p'.(format) = p.(format).

(** A block can be got for every size, and [p] may grow. *)
Section Specs.
Variable malloc_ok : Z -> bool.
Variable uninit : nat -> bytes.
Hypothesis uninit_length : forall n, length (uninit n) = n.

Definition growing (p : printbuffer) : Prop := (forall n, malloc_ok n = true) /\ p.(noalloc) = false.

(** Room for [n] more bytes below half of INT_MAX. *)
Definition room (p : printbuffer) (n : nat) : Prop :=
  growing p /\ Z.of_nat (p.(poffset) + n) <= INT_MAX / 2.

Lemma realloc_length old n b : realloc malloc_ok uninit old n = Some b -> length b = n.
Proof.
  unfold realloc. destruct (malloc_ok _); [|done]. intros [= <-].
  rewrite length_app, length_take, length_drop, uninit_length. lia.
Qed.

Lemma ensure_spec p needed :
  valid p ->
  match ensure malloc_ok uninit p needed with
  | Printed p' =>
      exists buf, p' = set_buffer (Some buf) p /\ (p.(poffset) + needed + 1 <= length buf)%nat
        /\ out p' = out p
  | PrintFail _ => ~ room p (needed + 1)
  | PrintUB => False
  end.
Proof.
  intros (buf & Hb & Ho & Hlt). unfold ensure. rewrite Hb.
  assert (Hroom : INT_MAX / 2 = 1073741823) by reflexivity.
  assert (Hmax : INT_MAX = 2147483647) by reflexivity.
  destruct ((0 <? length buf) && (length buf <=? poffset p))%nat eqn:E0.
  { apply andb_true_iff in E0 as [E0%Nat.ltb_lt E1%Nat.leb_le]. lia. }
  destruct (INT_MAX <? Z.of_nat needed) eqn:E1; [boolify; intros [_ H]; lia|].
  destruct (needed + (poffset p + 1) <=? length buf)%nat eqn:E2.
  { apply Nat.leb_le in E2. exists buf. split_and!; [by destruct p; simpl in *; subst|lia|done]. }
  destruct (noalloc p) eqn:Ena; [intros [[_ H] _]; congruence|].
  destruct ((INT_MAX / 2 <? _) && _) eqn:E3.
  { apply andb_true_iff in E3 as [E3 _]. boolify. intros [_ H]. lia. }
  set (ns := if INT_MAX / 2 <? _ then _ else _).
  assert (Hns : (needed + (poffset p + 1) <= ns)%nat).
  { unfold ns. apply andb_false_iff in E3. destruct (INT_MAX / 2 <? _) eqn:E4; boolify; [|lia].
    destruct E3 as [E3|E3]; boolify; lia. }
  destruct (realloc malloc_ok uninit buf ns) as [nb|] eqn:Er.
  - pose proof (realloc_length _ _ _ Er) as Hl. exists nb. split_and!; [done|lia|].
    unfold out. simpl. rewrite Hb. simpl. unfold realloc in Er.
    destruct (malloc_ok _); [|done]. injection Er as <-. apply Nat.leb_gt in E2.
    rewrite take_app_le by len. rewrite take_take. f_equal. lia.
  - unfold realloc in Er. intros [[Hm _] _]. by rewrite Hm in Er.
Qed.

(** [r] extends the text written before the offset by [t] and leaves the
    depth [d]; it fails only when [ok] is false or room is short. *)
Definition writes (ok : bool) (p : printbuffer) (d : nat) (t : bytes) (r : printed) : Prop :=
  match r with
  | Printed p' => ok = true /\ valid p' /\ p'.(pdepth) = d /\ p'.(noalloc) = p.(noalloc)
                  /\ p'.(format) = p.(format) /\ out p' = out p ++ t
  | PrintFail _ => ok = true -> ~ room p (length t + 2)
  | PrintUB => False
  end.

(** The same, with the end of [t] still pending as a terminated C string. *)
Definition prints (ok : bool) (p : printbuffer) (d : nat) (t : bytes) (r : printed) : Prop :=
  match r with
  | Printed p' => exists t1 t2, t = t1 ++ t2 /\ writes ok p d t1 r /\ pending p' t2
  | PrintFail _ => ok = true -> ~ room p (length t + 2)
  | PrintUB => False
  end.

Lemma out_length p : valid p -> length (out p) = p.(poffset).
Proof. intros (buf & Hb & Ho & _). unfold out. rewrite Hb. simpl. rewrite length_take. lia. Qed.

Lemma room_mono p n m : room p n -> (m <= n)%nat -> room p m.
Proof. intros [Hg Hn] Hm. split; [done|]. lia. Qed.

(** Room left after a step that wrote [t]. *)
Lemma room_after p p' t n :
  valid p -> valid p' -> p'.(noalloc) = p.(noalloc) -> out p' = out p ++ t ->
  room p (length t + n) -> room p' n.
Proof.
  intros Hv Hv' Hna Ho [[Hm Hn] Hr]. apply (f_equal length) in Ho.
  rewrite length_app, !out_length in Ho by done. split; [split; congruence|]. lia.
Qed.

Lemma writes_bind ok1 ok2 p d1 d2 t1 t2 r k :
  valid p -> writes ok1 p d1 t1 r ->
  (forall p', valid p' -> p'.(pdepth) = d1 -> p'.(format) = p.(format) -> writes ok2 p' d2 t2 (k p')) ->
  writes (ok1 && ok2) p d2 (t1 ++ t2) (pbind r k).
Proof.
  intros Hv H1 H2. destruct r as [p1|p1|]; [| |done].
  - destruct H1 as (-> & Hv1 & Hd & Hna & Hf & Ho). specialize (H2 p1 Hv1 Hd Hf). simpl.
    destruct (k p1) as [p2|p2|]; [| |done]; simpl in H2 |- *.
    + destruct H2 as (-> & Hv2 & Hd2 & Hna2 & Hf2 & Ho2). split_and!; [done|done|done|congruence|congruence|].
      by rewrite Ho2, Ho, app_assoc.
    + intros E Hr. apply (H2 E). eapply (room_after p p1 t1); [done|done|done|done|].
      eapply room_mono; [exact Hr|]. len.
  - simpl in *. intros [E _]%andb_true_iff Hr. apply (H1 E). eapply room_mono; [exact Hr|]. len.
Qed.

Lemma prints_bind ok1 ok2 p d1 d2 t1 t2 r k :
  valid p -> writes ok1 p d1 t1 r ->
  (forall p', valid p' -> p'.(pdepth) = d1 -> p'.(format) = p.(format) -> prints ok2 p' d2 t2 (k p')) ->
  prints (ok1 && ok2) p d2 (t1 ++ t2) (pbind r k).
Proof.
  intros Hv H1 H2. destruct r as [p1|p1|]; [| |done].
  - destruct H1 as (-> & Hv1 & Hd & Hna & Hf & Ho). specialize (H2 p1 Hv1 Hd Hf). simpl.
    destruct (k p1) as [p2|p2|]; [| |done]; simpl in H2 |- *.
    + destruct H2 as (u1 & u2 & -> & (-> & Hv2 & Hd2 & Hna2 & Hf2 & Ho2) & Hp).
      exists (t1 ++ u1), u2. split_and!; [by rewrite app_assoc|done|done|done|congruence|congruence| |done].
      by rewrite Ho2, Ho, app_assoc.
    + intros E Hr. apply (H2 E). eapply (room_after p p1 t1); [done|done|done|done|].
      eapply room_mono; [exact Hr|]. len.
  - simpl in *. intros [E _]%andb_true_iff Hr. apply (H1 E). eapply room_mono; [exact Hr|]. len.
Qed.

(** [update_offset] collects the pending end. *)
Lemma update_offset_spec p t : valid p -> pending p t ->
  exists p', update_offset p = Printed p' /\ valid p' /\ p'.(pdepth) = p.(pdepth)
    /\ p'.(noalloc) = p.(noalloc) /\ p'.(format) = p.(format) /\ out p' = out p ++ t
    /\ pending p' [].
Proof.
  intros (buf & Hb & Ho & Hlt) (Hn & rest & Hd). unfold update_offset. rewrite Hb in *. simpl in Hd.
  assert (Hfi : find_index (fun b => beq b NUL) (drop (poffset p) buf) = Some (length t)).
  { rewrite Hd. clear -Hn. induction Hn as [|c t Hc _ IH]; [done|].
    cbn [app find_index]. apply negb_true_iff in Hc. rewrite Hc, IH. done. }
  rewrite Hfi. eexists. split; [done|]. simpl.
  assert (Hlen : (poffset p + length t < length buf)%nat).
  { apply (f_equal length) in Hd. rewrite length_drop, length_app in Hd. simpl in Hd. lia. }
  split_and!; [exists buf; simpl; split_and!; [done|lia|lia]|done|done|done| |].
  2: { split; [constructor|]. exists rest. simpl. rewrite Hb. simpl.
       rewrite <- drop_drop, Hd. by apply drop_app_exact. }
  unfold out. simpl. rewrite Hb. simpl. rewrite <- (take_drop (poffset p) buf) at 1.
  rewrite take_app_ge by len. f_equal. rewrite Hd. apply take_app_exact. len.
Qed.

Lemma update_writes ok p d t r : prints ok p d t r -> writes ok p d t (pbind r update_offset).
Proof.
  intros H. destruct r as [p1|p1|]; [|done|done]. simpl in *.
  destruct H as (t1 & t2 & -> & (-> & Hv & Hd & Hna & Hf & Ho) & Hp).
  destruct (update_offset_spec _ _ Hv Hp) as (p' & -> & Hv' & Hd' & Hna' & Hf' & Ho' & _).
  simpl. split_and!; [done|done|congruence|congruence|congruence|]. by rewrite Ho', Ho, app_assoc.
Qed.

Lemma store_spec p index text :
  forall buf, p.(buffer) = Some buf -> (p.(poffset) + index + length text <= length buf)%nat ->
  exists buf', store index text p = Printed (set_buffer (Some buf') p)
    /\ length buf' = length buf
    /\ buf' = take (p.(poffset) + index) buf ++ text ++ drop (p.(poffset) + index + length text) buf.
Proof.
  intros buf Hb Hl. unfold store. rewrite Hb.
  replace (_ <=? _)%nat with true by (symmetry; apply Nat.leb_le; lia).
  eexists. split_and!; [done| |done]. len.
Qed.

(** The idiom: [n] bytes of [text] are done with, the rest is at the offset. *)
Lemma emit_spec p needed text n :
  valid p -> (n <= length text <= needed + 1)%nat -> (n <= needed)%nat ->
  match emit malloc_ok uninit needed text n p with
  | Printed p' => valid p' /\ p'.(pdepth) = p.(pdepth) /\ p'.(noalloc) = p.(noalloc)
      /\ p'.(format) = p.(format) /\ out p' = out p ++ take n text
      /\ exists rest, drop p'.(poffset) (default [] p'.(buffer)) = drop n text ++ rest
  | PrintFail _ => ~ room p (needed + 1)
  | PrintUB => False
  end.
Proof.
  intros Hv Ht Hn. unfold emit. pose proof (ensure_spec p needed Hv) as H.
  pose proof (out_length p Hv) as Hol.
  destruct (ensure malloc_ok uninit p needed) as [p1|p1|]; simpl; [|done|done].
  destruct H as (buf & -> & Hlen & Ho).
  destruct (store_spec (set_buffer (Some buf) p) 0 text buf eq_refl) as (buf' & -> & Hl' & Eb);
    [simpl; lia|]. simpl in *. rewrite Nat.add_0_r in Eb.
  assert (Ho1 : out p = take (poffset p) buf) by (rewrite <- Ho; done).
  split_and!; [exists buf'; simpl; split_and!; [done|lia|lia]|done|done|done| |].
  - unfold out at 1. simpl. rewrite Ho1, Eb, take_app_ge by len. f_equal.
    rewrite take_app_le by len. f_equal. len.
  - eexists. rewrite Eb, drop_app_ge by len.
    rewrite drop_app_le by len. do 2 f_equal. len.
Qed.

Lemma emit_writes p needed text :
  valid p -> (length text <= needed <= length text + 1)%nat ->
  writes true p p.(pdepth) text (emit malloc_ok uninit needed text (length text) p).
Proof.
  intros Hv Ht. pose proof (emit_spec p needed text (length text) Hv ltac:(lia) ltac:(lia)) as H.
  destruct (emit _ _ _ _ _ _); [|intros _ Hr; apply H; eapply room_mono; [exact Hr|lia]|done].
  destruct H as (Hv' & Hd & Hna & Hf & Ho & _). rewrite take_ge in Ho by lia. by split_and!.
Qed.

(** Text with its terminator, not counted in the offset. *)
Lemma emit_writes_nul p needed text n :
  valid p -> n = length text -> needed = (n + 1)%nat ->
  writes true p p.(pdepth) text (emit malloc_ok uninit needed (text ++ [NUL]) n p).
Proof.
  intros Hv -> ->. pose proof (emit_spec p (length text + 1) (text ++ [NUL]) (length text) Hv) as H.
  specialize (H ltac:(len) ltac:(lia)).
  destruct (emit _ _ _ _ _ _); [|intros _ Hr; apply H; eapply room_mono; [exact Hr|lia]|done].
  destruct H as (Hv' & Hd & Hna & Hf & Ho & _). rewrite take_app_exact in Ho by done. by split_and!.
Qed.

Lemma emit_prints p needed text n :
  valid p -> no_nul text -> needed = (length text + 1)%nat -> n = 0%nat \/ n = length text ->
  prints true p p.(pdepth) text (emit malloc_ok uninit needed (text ++ [NUL]) n p).
Proof.
  intros Hv Hnn -> Hn. pose proof (emit_spec p (length text + 1) (text ++ [NUL]) n Hv) as H.
  specialize (H ltac:(len) ltac:(lia)).
  destruct (emit _ _ _ _ _ _) as [p'|p'|]; [|intros _ Hr; apply H; eapply room_mono; [exact Hr|lia]|done].
  destruct H as (Hv' & Hd & Hna & Hf & Ho & rest & Hp).
  exists (take n text), (drop n text). cbn [writes].
  split_and!; [by rewrite take_drop|done|done|done|done|done| |].
  - rewrite Ho. by rewrite take_app_le by lia.
  - split; [by apply Forall_drop|]. exists rest. rewrite Hp, drop_app_le, <- app_assoc by lia. done.
Qed.

(** Adjacent stores are one store. *)
Lemma store_app p buf i j t1 t2 :
  p.(buffer) = Some buf -> j = (i + length t1)%nat ->
  (p.(poffset) + i + length t1 + length t2 <= length buf)%nat ->
  pbind (store i t1 p) (store j t2) = store i (t1 ++ t2) p.
Proof.
  intros Hb -> Hl. unfold store. rewrite Hb, length_app.
  replace (_ <=? _)%nat with true by (symmetry; apply Nat.leb_le; lia).
  replace (_ <=? _)%nat with true by (symmetry; apply Nat.leb_le; lia). simpl.
  replace (_ <=? _)%nat with true by (symmetry; apply Nat.leb_le; len).
  unfold set_buffer. simpl. do 3 f_equal. rewrite take_app_ge by len. rewrite <- !app_assoc. f_equal.
  rewrite take_app_le by len. rewrite take_ge by len. do 2 f_equal.
  rewrite drop_app_ge by len. rewrite drop_app_ge by len. rewrite drop_drop. f_equal. len.
Qed.

Lemma pbind_assoc r f g : pbind (pbind r f) g = pbind r (fun p => pbind (f p) g).
Proof. by destruct r. Qed.

Lemma store3 p buf i j a b c :
  p.(buffer) = Some buf -> i = length a -> j = (length a + length b)%nat ->
  (p.(poffset) + (length a + (length b + length c)) <= length buf)%nat ->
  (let* p := store 0 a p in let* p := store i b p in store j c p) = store 0 (a ++ b ++ c) p.
Proof.
  intros Hb -> -> Hl.
  transitivity (pbind (pbind (store 0 a p) (store (length a) b)) (store (length a + length b) c)).
  { by rewrite pbind_assoc. }
  rewrite (store_app p buf) by (done || lia). rewrite (store_app p buf) by (done || len).
  by rewrite <- app_assoc.
Qed.

Lemma escape_byte_length c : length (escape_byte c) = (1 + escape_characters c)%nat.
Proof. by_bytes c. Qed.

Lemma escaped_length s :
  length (concat (map escape_byte s)) = (length s + sum_list (map escape_characters s))%nat.
Proof.
  induction s as [|c s IH]; [done|]. cbn [map concat sum_list length]. rewrite length_app, IH.
  rewrite escape_byte_length. simpl. lia.
Qed.

Lemma escaped_same s : sum_list (map escape_characters s) = 0%nat -> concat (map escape_byte s) = s.
Proof.
  induction s as [|c s IH]; [done|]. cbn [map concat]. intros H. simpl in H.
  rewrite IH by lia. assert (Hc : escape_characters c = 0%nat) by lia. clear -Hc.
  assert (E : escape_byte c = [c]); [|by rewrite E]. revert Hc.
  set (P := fun c => negb (escape_characters c =? 0)%nat || bool_decide (escape_byte c = [c])).
  intros Hc. pose proof (byte_forall P eq_refl c) as H. unfold P in H. rewrite Hc in H. simpl in H.
  by apply bool_decide_eq_true in H.
Qed.

Lemma escape_byte_no_nul c : no_nul (escape_byte c).
Proof.
  pose proof (byte_forall (fun c => forallb not_nul (escape_byte c)) eq_refl c) as H.
  apply Forall_forall. intros x Hx. apply forallb_forall with (x := x) in H; [done|].
  by apply list_elem_of_In.
Qed.

Lemma escaped_no_nul s : no_nul (concat (map escape_byte s)).
Proof.
  induction s as [|c s IH]; [constructor|]. cbn [map concat]. apply no_nul_app. split; [|done].
  apply escape_byte_no_nul.
Qed.

Lemma render_string_no_nul s : no_nul (render_string s).
Proof.
  destruct s as [s|]; cbn [render_string]; [|by repeat constructor].
  apply no_nul_cons. split; [done|]. apply no_nul_app. split; [apply escaped_no_nul|by repeat constructor].
Qed.

Lemma print_string_prints input p :
  valid p -> prints true p p.(pdepth) (render_string input) (print_string_ptr malloc_ok uninit input p).
Proof.
  intros Hv. destruct input as [s|]; cbn [print_string_ptr render_string].
  2: { apply (emit_prints p 3 [x22; x22] 0); [done|by repeat constructor|done|by left]. }
  set (u := cstr s). set (e := sum_list _). set (body := concat (map escape_byte u)).
  assert (Hbl : length body = (length u + e)%nat) by apply escaped_length.
  assert (Eb : (if (e =? 0)%nat then u else body) = body).
  { destruct (Nat.eqb_spec e 0) as [E|E]; [|done]. symmetry. by apply escaped_same. }
  rewrite Eb. pose proof (ensure_spec p (length u + e + 3) Hv) as H.
  destruct (ensure _ _ _ _) as [p1|p1|]; simpl; [|intros _ Hr; apply H; eapply room_mono; [exact Hr|len]|done].
  destruct H as (buf & -> & Hlen & Ho).
  rewrite (store3 _ buf 1 _ [x22] body [x22; NUL]) by (done || simpl; lia).
  destruct (store_spec (set_buffer (Some buf) p) 0 ([x22] ++ body ++ [x22; NUL]) buf eq_refl)
    as (b' & -> & Hl' & Eb'); [simpl; len|]. cbn [set_buffer poffset] in Eb'. rewrite Nat.add_0_r in Eb'.
  assert (Hout : out p = take (poffset p) buf) by (by rewrite <- Ho).
  exists [], (x22 :: body ++ [x22]). cbn [writes]. split_and!; [done|done| |done|done|done| |].
  - exists b'. simpl. split_and!; [done|lia|lia].
  - unfold out at 1. simpl. rewrite app_nil_r, Hout, Eb', take_app_le by len. by rewrite take_take, Nat.min_id.
  - split; [apply (render_string_no_nul (Some s))|].
    exists (drop (poffset p + length ([x22] ++ body ++ [x22; NUL])) buf).
    simpl. rewrite Eb', drop_app_ge by len. rewrite length_take, Nat.min_l, Nat.sub_diag, drop_0 by lia.
    simpl. by rewrite <- !app_assoc.
Qed.

Lemma number_text_numerals item : isnan item.(valuedouble) || isinf item.(valuedouble) = false -> numerals (number_text item).
Proof.
  unfold number_text. intros ->. destruct (deq _ _); [apply print_d_numerals|].
  destruct (strtod _) as [[test n]|]; [destruct (compare_double _ _)|]; apply fmt_g_numerals.
Qed.

Lemma number_text_no_nul item : no_nul (number_text item).
Proof.
  destruct (isnan item.(valuedouble) || isinf item.(valuedouble)) eqn:E.
  - unfold number_text. rewrite E. by repeat constructor.
  - by apply numerals_no_nul, number_text_numerals.
Qed.

Lemma prints_false p d t r : (forall p', r <> Printed p') -> r <> PrintUB -> prints false p d t r.
Proof. destruct r as [p'|p'|]; [|done|done]. intros H. by destruct (H p'). Qed.

(** The two ends of a container: the depth goes up and comes back. *)
Lemma writes_deeper ok p d d' t r : writes ok (set_pdepth d p) d' t r -> writes ok p d' t r.
Proof. destruct r; done. Qed.

Lemma prints_shallower ok p d t r :
  prints ok p (S d) t r -> prints ok p d t (let* p := r in Printed (set_pdepth (pred p.(pdepth)) p)).
Proof.
  destruct r as [p1|p1|]; [|done|done]. intros (t1 & t2 & -> & (-> & Hv & Hd & Hrest) & Hp).
  exists t1, t2. split; [done|]. split; [|exact Hp]. split; [done|]. split; [exact Hv|].
  split; [|exact Hrest]. simpl. by rewrite Hd.
Qed.

Lemma writes_nothing p : valid p -> writes true p p.(pdepth) [] (Printed p).
Proof. intros Hv. simpl. split_and!; [done|done|done|done|done|]. by rewrite app_nil_r. Qed.

Lemma writes_eq ok ok' p d t t' r : writes ok p d t r -> ok = ok' -> t = t' -> writes ok' p d t' r.
Proof. by intros ? <- <-. Qed.
Lemma prints_eq ok ok' p d t t' r : prints ok p d t r -> ok = ok' -> t = t' -> prints ok' p d t' r.
Proof. by intros ? <- <-. Qed.

Section Loops.
Variable pv : cJSON -> printbuffer -> printed.
Variables (fmt : bool) (d : nat).

Definition value_prints (c : cJSON) : Prop := forall p, valid p -> p.(pdepth) = d -> p.(format) = fmt ->
  prints (printable d c) p d (render fmt d c) (pv c p).

Lemma elements_writes l p :
  Forall value_prints l -> valid p -> p.(pdepth) = d -> p.(format) = fmt ->
  writes (forallb (printable d) l) p d (render_elements fmt (render fmt d) l) (print_elements malloc_ok uninit pv l p).
Proof.
  intros Hl. revert p. induction Hl as [|c l Hc _ IH]; intros p Hv Hd Hf.
  { eapply writes_eq; [rewrite <- Hd; by apply writes_nothing|done|done]. }
  cbn [print_elements forallb render_elements]. rewrite <- pbind_assoc.
  eapply writes_bind; [done|apply update_writes, Hc; done|]. intros p1 Hv1 Hd1 Hf1.
  eapply writes_eq; [eapply (writes_bind true _ _ d d); [done| |]|apply andb_true_l|done].
  - destruct l as [|c' l]; [rewrite <- Hd1; by apply writes_nothing|].
    rewrite Hf1, Hf, <- Hd1. destruct fmt;
      [apply (emit_writes_nul p1 3 (str ", ") 2)|apply (emit_writes_nul p1 2 (str ",") 1)]; done.
  - intros p2 Hv2 Hd2 Hf2. apply IH; congruence.
Qed.

Lemma members_writes l p :
  Forall value_prints l -> valid p -> p.(pdepth) = d -> p.(format) = fmt ->
  writes (forallb (printable d) l) p d (render_members fmt d (render fmt d) l) (print_members malloc_ok uninit pv l p).
Proof.
  intros Hl. revert p. induction Hl as [|c l Hc _ IH]; intros p Hv Hd Hf.
  { eapply writes_eq; [rewrite <- Hd; by apply writes_nothing|done|done]. }
  cbn [print_members forallb render_members].
  eapply writes_eq; [eapply (writes_bind true _ _ d d); [done| |]|apply andb_true_l|done].
  { rewrite <- Hd, Hf. destruct fmt; [|by apply writes_nothing].
    pose proof (emit_writes p (pdepth p) (tabs (pdepth p)) Hv) as H. unfold tabs in H.
    rewrite length_replicate in H. apply H. lia. }
  intros p1 Hv1 Hd1 Hf1. rewrite <- pbind_assoc.
  eapply writes_eq; [eapply (writes_bind true _ _ d d); [done| |]|apply andb_true_l|done].
  { apply update_writes. rewrite <- Hd1. by apply print_string_prints. }
  intros p2 Hv2 Hd2 Hf2.
  rewrite app_assoc. eapply writes_eq; [eapply (writes_bind true _ _ d d); [done| |]|apply andb_true_l|done].
  { rewrite <- Hd2. replace (format p2) with fmt by congruence.
    destruct fmt; [apply (emit_writes p2 2 (":"%byte :: [x09]))|apply (emit_writes p2 1 (str ":"))]; done || simpl; lia. }
  intros p3 Hv3 Hd3 Hf3. rewrite <- pbind_assoc.
  eapply writes_bind; [done|apply update_writes, Hc; congruence|].
  intros p4 Hv4 Hd4 Hf4.
  rewrite app_assoc. eapply writes_eq; [eapply (writes_bind true _ _ d d); [done| |]|apply andb_true_l|done].
  { rewrite <- Hd4. replace (format p4) with fmt by congruence.
    destruct fmt, l; [apply (emit_writes_nul p4 2 [x0a] 1)|apply (emit_writes_nul p4 3 (","%byte :: [x0a]) 2)
      |apply (emit_writes_nul p4 1 [] 0)|apply (emit_writes_nul p4 2 (str ",") 1)]; done. }
  intros p5 Hv5 Hd5 Hf5. apply IH; congruence.
Qed.
End Loops.

Lemma render_literal (s : bytes) n p :
  valid p -> n = (length s + 1)%nat -> no_nul s ->
  prints true p p.(pdepth) s (emit malloc_ok uninit n (s ++ [NUL]) 0 p).
Proof. intros Hv -> Hn. apply emit_prints; auto. Qed.

Lemma array_prints item p :
  (forall q, valid q -> q.(pdepth) = S p.(pdepth) -> q.(format) = p.(format) ->
     writes (forallb (printable (S p.(pdepth))) item.(child)) q (S p.(pdepth))
       (render_elements p.(format) (render p.(format) (S p.(pdepth))) item.(child))
       (print_elements malloc_ok uninit (print_value malloc_ok uninit) item.(child) q)) ->
  valid p ->
  prints ((p.(pdepth) <? CJSON_NESTING_LIMIT)%nat && forallb (printable (S p.(pdepth))) item.(child))
    p p.(pdepth)
    (str "[" ++ render_elements p.(format) (render p.(format) (S p.(pdepth))) item.(child) ++ str "]")
    (print_array malloc_ok uninit (print_value malloc_ok uninit) item p).
Proof.
  intros Hl Hv. unfold print_array. rewrite Nat.ltb_antisym.
  destruct (CJSON_NESTING_LIMIT <=? pdepth p)%nat; [done|]. cbn [negb andb].
  rewrite <- (andb_true_l (forallb _ _)). eapply prints_bind; [done|apply (emit_writes p 1 (str "[")); [done|simpl; lia]|].
  intros p1 Hv1 Hd1 Hf1.
  set (q := set_pdepth (S (pdepth p1)) p1).
  assert (Hq : writes (forallb (printable (S (pdepth p))) (child item)) p1 (S (pdepth p))
    (render_elements (format p) (render (format p) (S (pdepth p))) (child item))
    (print_elements malloc_ok uninit (print_value malloc_ok uninit) (child item) q)).
  { eapply writes_deeper, Hl; [exact Hv1|simpl; congruence|done]. }
  rewrite <- (andb_true_r (forallb _ _)).
  eapply prints_bind; [done|exact Hq|]. intros p2 Hv2 Hd2 Hf2.
  apply prints_shallower. rewrite <- Hd2. apply (render_literal (str "]")); [done|done|by repeat constructor].
Qed.

Lemma tabs_no_nul n : no_nul (tabs n).
Proof. by apply Forall_replicate. Qed.

Lemma object_prints item p :
  (forall q, valid q -> q.(pdepth) = S p.(pdepth) -> q.(format) = p.(format) ->
     writes (forallb (printable (S p.(pdepth))) item.(child)) q (S p.(pdepth))
       (render_members p.(format) (S p.(pdepth)) (render p.(format) (S p.(pdepth))) item.(child))
       (print_members malloc_ok uninit (print_value malloc_ok uninit) item.(child) q)) ->
  valid p ->
  prints ((p.(pdepth) <? CJSON_NESTING_LIMIT)%nat && forallb (printable (S p.(pdepth))) item.(child))
    p p.(pdepth)
    (str "{" ++ (if p.(format) then [x0a] else [])
     ++ render_members p.(format) (S p.(pdepth)) (render p.(format) (S p.(pdepth))) item.(child)
     ++ (if p.(format) then tabs p.(pdepth) else []) ++ str "}")
    (print_object malloc_ok uninit (print_value malloc_ok uninit) item p).
Proof.
  intros Hl Hv. unfold print_object. rewrite Nat.ltb_antisym.
  destruct (CJSON_NESTING_LIMIT <=? pdepth p)%nat; [done|]. cbn [negb andb].
  rewrite <- (andb_true_l (forallb _ _)), app_assoc.
  eapply prints_bind; [done| |].
  { destruct (format p); [apply (emit_writes p 3 ("{"%byte :: [x0a]))|apply (emit_writes p 2 (str "{"))];
      done || simpl; lia. }
  intros p1 Hv1 Hd1 Hf1. set (q := set_pdepth (S (pdepth p1)) p1).
  assert (Hq : writes (forallb (printable (S (pdepth p))) (child item)) p1 (S (pdepth p))
    (render_members (format p) (S (pdepth p)) (render (format p) (S (pdepth p))) (child item))
    (print_members malloc_ok uninit (print_value malloc_ok uninit) (child item) q)).
  { eapply writes_deeper, Hl; [exact Hv1|simpl; congruence|done]. }
  rewrite <- (andb_true_r (forallb _ _)).
  eapply prints_bind; [done|exact Hq|]. intros p2 Hv2 Hd2 Hf2.
  apply prints_shallower. replace (format p2) with (format p) by congruence.
  rewrite Hd2. cbn [pred]. rewrite app_assoc. destruct (format p); rewrite <- Hd2.
  - apply render_literal; [done|unfold tabs; rewrite Hd2; len|]. apply no_nul_app. split; [apply tabs_no_nul|by repeat constructor].
  - apply (render_literal (str "}")); [done|done|by repeat constructor].
Qed.

(** [print_value] writes the rendering of its item, or fails for want of room
    or because the item cannot be printed. *)
Lemma print_value_prints item p :
  valid p ->
  prints (printable p.(pdepth) item) p p.(pdepth) (render p.(format) p.(pdepth) item)
    (print_value malloc_ok uninit item p).
Proof.
  revert p. induction item as [t vs vi vd n c IH] using cJSON_ind'. intros p Hv.
  assert (HF : Forall (value_prints (print_value malloc_ok uninit) (format p) (S (pdepth p))) c).
  { eapply Forall_impl; [exact IH|]. intros x Hx r Hr Hd Hf.
    rewrite <- Hd, <- Hf. by apply Hx. }
  cbn [print_value printable render type valuestring child]. set (ty := Z.land t 255).
  destruct (ty =? cJSON_NULL); [by apply (render_literal (str "null")); repeat constructor|].
  destruct (ty =? cJSON_False); [by apply (render_literal (str "false")); repeat constructor|].
  destruct (ty =? cJSON_True); [by apply (render_literal (str "true")); repeat constructor|].
  cbn [orb]. destruct (ty =? cJSON_Number).
  { unfold print_number. rewrite Nat.leb_antisym. destruct (25 <? _)%nat; [done|].
    apply emit_prints; [done|apply number_text_no_nul|done|by right]. }
  destruct (ty =? cJSON_Raw).
  { destruct vs as [s|]; [|done].
    rewrite bool_decide_eq_true_2 by done. apply render_literal; [done|done|apply no_nul_cstr]. }
  destruct (ty =? cJSON_String); [by apply print_string_prints|].
  destruct (ty =? cJSON_Array) eqn:Ea; cbn [orb].
  { apply (array_prints (Item t vs vi vd n c)); [|done]. intros q Hq Hd Hf. by apply elements_writes. }
  destruct (ty =? cJSON_Object); [|done].
  apply (object_prints (Item t vs vi vd n c)); [|done]. intros q Hq Hd Hf. by apply members_writes.
Qed.

(** What [print] returns. *)
Lemma print_spec item fmt :
  match print malloc_ok uninit (Some item) fmt with
  | Text block => printable 0 item = true /\ block = render fmt 0 item ++ [NUL]
  | NoText =>
      (forall n, malloc_ok n = true) -> printable 0 item = true ->
      INT_MAX / 2 < Z.of_nat (length (render fmt 0 item) + 2)
  | TextUB => False
  end.
Proof.
  unfold print, malloc. destruct (malloc_ok (Z.of_nat 256)) eqn:Em; [|intros H; by rewrite H in Em].
  set (p := {| buffer := Some (uninit 256); poffset := 0; pdepth := 0; noalloc := false; format := fmt |}).
  assert (Hv : valid p) by (exists (uninit 256); simpl; split_and!; [done|lia|lia]).
  pose proof (print_value_prints item p Hv) as H. cbn [pdepth format p] in H.
  destruct (print_value malloc_ok uninit item p) as [p1|p1|]; simpl; [| |done].
  - destruct H as (t1 & t2 & Et & (Hok & Hv1 & _ & _ & _ & Ho) & Hp).
    destruct (update_offset_spec _ _ Hv1 Hp) as (p2 & -> & Hv2 & _ & _ & _ & Ho2 & [_ [rest Hd]]).
    pose proof (out_length p2 Hv2) as Hol. destruct Hv2 as (buf & Hb & Hle & _).
    assert (Hall : out p2 = render fmt 0 item) by (by rewrite Ho2, Ho, Et).
    unfold out in Hall, Hol. rewrite Hb in *. simpl in Hall, Hd, Hol.
    unfold realloc.
    destruct (malloc_ok (Z.of_nat (poffset p2 + 1))) eqn:Em2; [|intros Hm; by rewrite Hm in Em2].
    split; [done|]. rewrite drop_ge, app_nil_r.
    + rewrite <- (take_drop (poffset p2) buf) at 1. rewrite take_app_ge, Hd by len.
      rewrite Hol, Hall. by replace (_ + 1 - _)%nat with 1%nat by lia.
    + rewrite uninit_length. apply (f_equal length) in Hd. rewrite length_drop in Hd. simpl in Hd. lia.
  - intros Hm Hpr. specialize (H Hpr). apply Z.nle_gt. intros Hle. apply H. by split.
Qed.

(** C12: the printer refines [render]: whatever the item and however large its
    text, [cJSON_Print], [cJSON_PrintUnformatted] and [cJSON_PrintBuffered]
    never touch memory outside their buffer; the text they return is exactly
    the rendering of the item and its terminator; and they return NULL only
    when an allocation fails, the item cannot be printed (unknown type, nesting
    over the limit, a number text over 25 characters) or the text is longer
    than half of INT_MAX. *)
Theorem print_refines_render item fmt prebuffer :
  (match print malloc_ok uninit (Some item) fmt with
   | Text block => printable 0 item = true /\ block = render fmt 0 item ++ [NUL]
   | NoText =>
       (forall n, malloc_ok n = true) -> printable 0 item = true ->
       INT_MAX / 2 < Z.of_nat (length (render fmt 0 item) + 2)
   | TextUB => False
   end)
  /\ (match cJSON_PrintBuffered malloc_ok uninit (Some item) prebuffer fmt with
   | Text block => printable 0 item = true /\ exists rest, block = render fmt 0 item ++ NUL :: rest
   | NoText =>
       (forall n, malloc_ok n = true) -> printable 0 item = true ->
       prebuffer < 0 \/ INT_MAX / 2 < Z.of_nat (length (render fmt 0 item) + 2)
   | TextUB => False
   end).
Proof.
  split; [apply print_spec|]. unfold cJSON_PrintBuffered, malloc.
  destruct (prebuffer <? 0) eqn:E0; boolify; [by left|].
  destruct (malloc_ok _) eqn:Em; [|intros H; by rewrite H in Em]. set (block := uninit _).
  set (p := {| buffer := Some block; poffset := 0; pdepth := 0; noalloc := false; format := fmt |}).
  assert (Hv : valid p) by (exists block; simpl; split_and!; [done|lia|lia]).
  pose proof (print_value_prints item p Hv) as H. cbn [pdepth format p] in H.
  destruct (print_value malloc_ok uninit item p) as [p1|p1|]; [| |done].
  - destruct H as (t1 & t2 & -> & (Hok & (b & Hb & _) & _ & _ & _ & Ho) & [_ [rest Hd]]).
    rewrite Hb. split; [done|]. exists rest. unfold out in Ho. rewrite Hb in *. simpl in Ho, Hd.
    rewrite <- (take_drop (poffset p1) b), Ho, Hd. by rewrite <- app_assoc.
  - intros Hm Hpr. specialize (H Hpr). right. apply Z.nle_gt. intros Hle. apply H. by split.
Qed.

(** [cJSON_PrintPreallocated] never writes outside the caller's buffer,
    whatever its size; when it returns true the buffer holds the rendering of
    the item as a terminated C string. *)
Theorem print_preallocated_safe item buf fmt :
  match cJSON_PrintPreallocated malloc_ok uninit (Some item) (Some buf) fmt with
  | Printed p => printable 0 item = true /\ exists block, p.(buffer) = Some block
                 /\ exists rest, block = render fmt 0 item ++ NUL :: rest
  | PrintFail _ => True
  | PrintUB => False
  end.
Proof.
  unfold cJSON_PrintPreallocated.
  set (p := {| buffer := Some buf; poffset := 0; pdepth := 0; noalloc := true; format := fmt |}).
  assert (Hv : valid p) by (exists buf; simpl; split_and!; [done|lia|lia]).
  pose proof (print_value_prints item p Hv) as H. cbn [pdepth format p] in H.
  destruct (print_value malloc_ok uninit item p) as [p1|p1|]; [|done|done].
  destruct H as (t1 & t2 & -> & (Hok & (b & Hb & Hle & _) & _ & _ & _ & Ho) & [_ [rest Hd]]).
  split; [done|]. exists b. split; [done|]. exists rest. unfold out in Ho. rewrite Hb in *. simpl in Ho, Hd.
  rewrite <- (take_drop (poffset p1) b), Ho, Hd. by rewrite <- app_assoc.
Qed.
End Specs.

(** A small item, and a buffer one byte too short for it. *)
Definition example_array : cJSON :=
  Item cJSON_Array None 0 dzero None
    [Item cJSON_Number None 7 (of_Z 7) None []; Item cJSON_String (Some [x0a]) 0 dzero None []].

Lemma print_refines_render_witness :
  print (fun _ => true) (fun n => replicate n xff) (Some example_array) false
    = Text (render false 0 example_array ++ [NUL]).
Proof.
  destruct (print_refines_render (fun _ => true) (fun n => replicate n xff)
    (fun n => length_replicate n xff) example_array false 4) as [H _].
  destruct (print _ _ _ _) as [block| |]; [|by specialize (H (fun _ => eq_refl) eq_refl)|done].
  destruct H as [_ ->]. reflexivity.
Defined.

Lemma print_preallocated_safe_witness :
  match cJSON_PrintPreallocated (fun _ => true) (fun n => replicate n xff) (Some example_array) (Some (replicate 9 xff)) false with
  | Printed p => printable 0 example_array = true /\ exists block, p.(buffer) = Some block
                 /\ exists rest, block = render false 0 example_array ++ NUL :: rest
  | PrintFail _ => True
  | PrintUB => False
  end.
Proof.
  apply (print_preallocated_safe (fun _ => true) (fun n => replicate n xff)
    (fun n => length_replicate n xff) example_array (replicate 9 xff) false).
Defined.
