(* ===== verification/JsonUtf.v ===== *)
(** * cJSON.c: \u escapes are UTF-16, strings come out as UTF-8

    A reference encoding of Unicode scalar values, by arithmetic, and the
    proof that [utf16_literal_to_utf8] (shifts and masks) computes it. *)

From S2P Require Import Prelude CString Json JsonParse.
Local Open Scope Z_scope.

(** ** Reference *)

Definition scalar_value (cp : Z) : Prop := 0 <= cp < 55296 \/ 57344 <= cp <= 1114111.

(** RFC 3629. *)
Definition utf8_encode (cp : Z) : bytes :=
  let tail z := zb (128 + z mod 64) in
  if cp <? 128 then [zb cp]
  else if cp <? 2048 then [zb (192 + cp / 64); tail cp]
  else if cp <? 65536 then [zb (224 + cp / 4096); tail (cp / 64); tail cp]
  else [zb (240 + cp / 262144); tail (cp / 4096); tail (cp / 64); tail cp].

(** One UTF-16 code unit as JSON writes it, and a scalar value (RFC 8259). *)
Definition unit_text (u : Z) : bytes :=
  str "\u" ++ [hex_digit (u / 4096); hex_digit (u / 256 mod 16); hex_digit (u / 16 mod 16); hex_digit (u mod 16)].

Definition utf16_text (cp : Z) : bytes :=
  if cp <? 65536 then unit_text cp
  else unit_text (55296 + (cp - 65536) / 1024) ++ unit_text (56320 + (cp - 65536) mod 1024).

(** ** Masks as arithmetic *)

Lemma small_check (P : Z -> bool) n :
  forallb (fun k => P (Z.of_nat k)) (seq 0 n) = true -> forall z, 0 <= z < Z.of_nat n -> P z = true.
Proof.
  intros H z Hz. rewrite forallb_forall in H. rewrite <- (Z2Nat.id z) by lia.
  apply H. apply in_seq. lia.
Qed.

Lemma tail_mask x : 0 <= x -> Z.land (Z.lor x 128) 191 = 128 + x mod 64.
Proof.
  intros Hx. rewrite Z.land_lor_distr_l. change (Z.land 128 191) with 128.
  change 191 with (Z.lor 63 128). rewrite Z.land_lor_distr_r, <- Z.lor_assoc.
  replace (Z.lor (Z.land x 128) 128) with 128.
  2: { apply Z.bits_inj'. intros n Hn. rewrite Z.lor_spec, Z.land_spec.
       by destruct (Z.testbit x n), (Z.testbit 128 n). }
  change 63 with (Z.ones 6). rewrite Z.land_ones by lia. change (2 ^ 6) with 64.
  pose proof (small_check (fun z => Z.lor z 128 =? 128 + z) 64 eq_refl (x mod 64)
    ltac:(pose proof (Z.mod_pos_bound x 64); lia)) as H. simpl in H. lia.
Qed.

Lemma mark_mask (n : nat) mark x :
  forallb (fun k => Z.land (Z.lor (Z.of_nat k) mark) 255 =? mark + Z.of_nat k) (seq 0 n) = true ->
  0 <= x < Z.of_nat n -> Z.land (Z.lor x mark) 255 = mark + x.
Proof. intros H Hx. apply (small_check (fun z => Z.land (Z.lor z mark) 255 =? mark + z) n) in Hx; [lia|done]. Qed.

Lemma shiftr6 x : Z.shiftr x 6 = x / 64.
Proof. by rewrite Z.shiftr_div_pow2 by lia. Qed.

Lemma emit_utf8_encode cp : 0 <= cp <= 1114111 -> emit_utf8 cp = Some (utf8_encode cp).
Proof.
  intros Hcp. unfold emit_utf8, utf8_encode, utf8_bytes. cbn [pred utf8_tail].
  rewrite !shiftr6.
  assert (H1 : 0 <= cp / 64) by (apply Z.div_pos; lia).
  assert (H2 : 0 <= cp / 64 / 64) by (apply Z.div_pos; lia).
  assert (H3 : cp / 64 / 64 = cp / 4096) by (by rewrite Z.div_div).
  assert (H4 : cp / 4096 / 64 = cp / 262144) by (by rewrite Z.div_div).
  rewrite !tail_mask by lia. rewrite H3, H4.
  destruct (cp <? 128) eqn:E1; boolify.
  { cbn [Nat.ltb Nat.leb]. change 127 with (Z.ones 7). rewrite Z.land_ones by lia.
    by rewrite Z.mod_small by lia. }
  destruct (cp <? 2048) eqn:E2; boolify.
  { rewrite (mark_mask 32 192); [done|done|]. split; [lia|]. apply Z.div_lt_upper_bound; lia. }
  destruct (cp <? 65536) eqn:E3; boolify.
  { rewrite (mark_mask 16 224); [done|done|]. split; [lia|]. apply Z.div_lt_upper_bound; lia. }
  replace (cp <=? 1114111) with true by (symmetry; lia).
  rewrite (mark_mask 8 240); [done|done|]. split; [apply Z.div_pos; lia|]. apply Z.div_lt_upper_bound; lia.
Qed.

(** ** Code units *)

Lemma hex_value_digit z : 0 <= z < 16 -> hex_value (hex_digit z) = z.
Proof.
  intros Hz. apply (small_check (fun z => hex_value (hex_digit z) =? z) 16) in Hz; [lia|by vm_compute].
Qed.

Lemma parse_unit u t : 0 <= u < 65536 -> parse_hex4 (drop 2 (unit_text u ++ t)) = Some u.
Proof.
  intros Hu. change (drop 2 (unit_text u ++ t)) with (hex_digit (u / 4096) :: hex_digit (u / 256 mod 16)
    :: hex_digit (u / 16 mod 16) :: hex_digit (u mod 16) :: t).
  assert (B1 : 0 <= u / 4096 < 16) by (split; [apply Z.div_pos; lia|apply Z.div_lt_upper_bound; lia]).
  assert (B2 : 0 <= u / 256 mod 16 < 16) by (apply Z.mod_pos_bound; lia).
  assert (B3 : 0 <= u / 16 mod 16 < 16) by (apply Z.mod_pos_bound; lia).
  assert (B4 : 0 <= u mod 16 < 16) by (apply Z.mod_pos_bound; lia).
  rewrite parse_hex4_digits by by apply hex_digit_xdigit.
  unfold hex4. rewrite !hex_value_digit by done. f_equal.
  Z.to_euclidean_division_equations. lia.
Qed.

Lemma pair_mask a b : 0 <= a < 1024 -> 0 <= b < 1024 ->
  65536 + Z.lor (Z.shiftl (Z.land (55296 + a) 1023) 10) (Z.land (56320 + b) 1023) = 65536 + 1024 * a + b.
Proof.
  intros Ha Hb. change 1023 with (Z.ones 10). rewrite !Z.land_ones by lia. change (2 ^ 10) with 1024.
  replace ((55296 + a) mod 1024) with a by (Z.to_euclidean_division_equations; lia).
  replace ((56320 + b) mod 1024) with b by (Z.to_euclidean_division_equations; lia).
  assert (Hd : Z.land (Z.shiftl a 10) b = 0).
  { apply Z.bits_inj'. intros n Hn. rewrite Z.land_spec, Z.shiftl_spec, Z.bits_0 by lia.
    destruct (Z.lt_ge_cases n 10) as [Hn10|Hn10]; [by rewrite (Z.testbit_neg_r a) by lia|].
    replace (Z.testbit b n) with false; [by rewrite andb_false_r|].
    symmetry. destruct (decide (b = 0)) as [->|Hb0]; [apply Z.bits_0|].
    apply Z.bits_above_log2; [lia|]. assert (Z.log2 b < 10) by (apply Z.log2_lt_pow2; lia). lia. }
  rewrite <- Z.lxor_lor, <- Z.add_nocarry_lxor by exact Hd. rewrite Z.shiftl_mul_pow2 by lia.
  change (2 ^ 10) with 1024. lia.
Qed.

(** C22: a [\u] escape decodes to what the Unicode standards say: for every
    scalar value, its UTF-16 escape (one unit, or a surrogate pair) is
    consumed whole and replaced by its UTF-8 encoding, whatever follows. *)
Theorem utf16_decodes cp t left :
  scalar_value cp -> Z.of_nat (length (utf16_text cp)) <= left ->
  utf16_literal_to_utf8 (utf16_text cp ++ t) left = Escape (utf8_encode cp) (length (utf16_text cp)).
Proof.
  unfold scalar_value, utf16_text, utf16_literal_to_utf8. intros Hcp. destruct (cp <? 65536) eqn:E; boolify.
  - change (length (unit_text cp)) with 6%nat. intros Hl.
    replace (left <? 6) with false by (symmetry; lia). rewrite parse_unit by lia.
    replace ((56320 <=? cp) && (cp <=? 57343)) with false by (symmetry; lia).
    replace ((55296 <=? cp) && (cp <=? 56319)) with false by (symmetry; lia).
    unfold utf16_emit. by rewrite emit_utf8_encode by lia.
  - set (a := (cp - 65536) / 1024). set (b := (cp - 65536) mod 1024).
    assert (Ha : 0 <= a < 1024) by (unfold a; Z.to_euclidean_division_equations; lia).
    assert (Hb : 0 <= b < 1024) by (apply Z.mod_pos_bound; lia).
    assert (Hab : 65536 + 1024 * a + b = cp) by (unfold a, b; Z.to_euclidean_division_equations; lia).
    rewrite length_app. change (length (unit_text (55296 + a)) + length (unit_text (56320 + b)))%nat with 12%nat.
    intros Hl. replace (left <? 6) with false by (symmetry; lia).
    rewrite <- app_assoc, parse_unit by lia.
    replace ((56320 <=? 55296 + a) && (55296 + a <=? 57343)) with false by (symmetry; lia).
    replace ((55296 <=? 55296 + a) && (55296 + a <=? 56319)) with true by (symmetry; lia).
    replace (left - 6 <? 6) with false by (symmetry; lia).
    change (drop 6 (unit_text (55296 + a) ++ unit_text (56320 + b) ++ t)) with (unit_text (56320 + b) ++ t).
    change ((unit_text (56320 + b) ++ t) !! 0%nat) with (Some "\"%byte).
    change ((unit_text (56320 + b) ++ t) !! 1%nat) with (Some "u"%byte).
    cbn iota. change (negb (beq "\" "\") || negb (beq "u" "u")) with false. cbn iota.
    rewrite parse_unit by lia.
    replace ((56320 + b <? 56320) || (57343 <? 56320 + b)) with false by (symmetry; lia).
    rewrite pair_mask, Hab by done. unfold utf16_emit. by rewrite emit_utf8_encode by lia.
Qed.

Lemma utf16_decodes_witness :
  utf16_literal_to_utf8 (utf16_text 128512 ++ str "x") 13 = Escape [xf0; x9f; x98; x80] 12.
Proof. apply (utf16_decodes 128512 (str "x") 13); [right; lia|vm_compute; discriminate]. Defined.
