(* ===== verification/JsonTrip.v ===== *)
(** * cJSON.c: what is printed parses back

    The two directions of the JSON codec put together: [simple] items (the
    ones the clients build) survive printing and parsing up to [norm], which
    forgets what the text does not carry. *)

From S2P Require Import Prelude CString Double Json JsonParse JsonPrint.
Local Open Scope Z_scope.

#[global] Instance spec_float_eq_dec : EqDecision spec_float.
Proof. solve_decision. Defined.

(** Items without raw text whose numbers are integers that fit [int]. *)
Definition int_item (i : cJSON) : bool :=
  (INT_MIN <=? i.(valueint)) && (i.(valueint) <=? INT_MAX)
  && bool_decide (i.(valuedouble) = of_Z i.(valueint)).

Fixpoint simple (i : cJSON) : bool :=
  let t := Z.land i.(type) 255 in
  if t =? cJSON_Number then int_item i
  else negb (t =? cJSON_Raw) && forallb simple i.(child).

(** What the parser makes of the text of an item: types without flags, [true]
    with [valueint] 1, strings cut at their first NUL, no keys in arrays. *)
Fixpoint norm (key : option bytes) (i : cJSON) : cJSON :=
  let t := Z.land i.(type) 255 in
  if t =? cJSON_True then Item t None 1 dzero key []
  else if t =? cJSON_Number then Item t None i.(valueint) i.(valuedouble) key []
  else if t =? cJSON_String then Item t (Some (cstr (default [] i.(valuestring)))) 0 dzero key []
  else if t =? cJSON_Array then Item t None 0 dzero key (map (norm None) i.(child))
  else if t =? cJSON_Object then
    Item t None 0 dzero key (map (fun c => norm (Some (cstr (default [] c.(name)))) c) i.(child))
  else Item t None 0 dzero key [].

(** A node as the parser starts to fill it. *)
Definition blank (i : cJSON) : Prop :=
  i.(valuestring) = None /\ i.(valueint) = 0 /\ i.(valuedouble) = dzero /\ i.(child) = [].

(** ** Positions in a text *)

Definition at_text (b : parse_buffer) (s : bytes) : Prop := at_offset b = s.

Lemma at_text_length b s : at_text b s -> s <> [] -> (b.(offset) + length s = blength b)%nat.
Proof.
  unfold at_text, at_offset, blength. intros <- H. rewrite length_drop in *.
  assert (drop (offset b) (content b) <> []) by done.
  destruct (decide (offset b <= length (content b))%nat); [lia|].
  rewrite drop_ge in H by lia. done.
Qed.

Lemma at_text_advance b s1 s2 : at_text b (s1 ++ s2) -> at_text (advance (length s1) b) s2.
Proof.
  unfold at_text, at_offset, advance. simpl. intros H. rewrite <- drop_drop, H. by apply drop_app_exact.
Qed.

Lemma at_text_cons b c s : at_text b (c :: s) -> at_text (advance 1 b) s.
Proof. apply (at_text_advance b [c]). Qed.

Lemma at_text_index b s i : at_text b s -> at_index b i = s !! i.
Proof. unfold at_text, at_offset, at_index. intros <-. by rewrite lookup_drop. Qed.

Lemma at_text_access b c s : at_text b (c :: s) -> can_access_at_index b 0 = true.
Proof. intros H. apply can_access_spec. apply at_text_length in H; [|done]. simpl in H. lia. Qed.

Lemma at_text_looking b c d s : at_text b (c :: s) -> looking_at d b = beq c d.
Proof.
  intros H. unfold looking_at. rewrite (at_text_access _ _ _ H), (at_text_index _ _ _ H). simpl.
  destruct (beq_spec c d) as [->|Hn]; [by rewrite bool_decide_eq_true_2|].
  rewrite bool_decide_eq_false_2; [done|congruence].
Qed.

Lemma at_text_access1 b s : at_text (advance 1 b) s -> s <> [] -> can_access_at_index b 1 = true.
Proof.
  intros H Hs. apply can_access_spec. apply at_text_length in H; [|done].
  unfold blength in *. simpl in H. destruct s; [done|]. simpl in H. lia.
Qed.

Lemma at_text_literal b lit s :
  at_text b s -> s <> [] -> literal_at lit b = starts_with lit s.
Proof.
  intros H Hs. unfold literal_at, can_read. rewrite H.
  destruct (starts_with lit s) eqn:E; [|by rewrite andb_false_r].
  apply starts_with_true in E as [t ->]. apply at_text_length in H; [|done].
  rewrite length_app in H. rewrite andb_true_r. apply Nat.leb_le. lia.
Qed.

Lemma skip_white b w c s :
  at_text b (w ++ c :: s) -> Forall (fun x => is_white x = true) w -> is_white c = false ->
  buffer_skip_whitespace b = advance (length w) b.
Proof.
  intros H Hw Hc. unfold buffer_skip_whitespace.
  assert (Hne : w ++ c :: s <> []) by by destruct w.
  pose proof (at_text_length _ _ H Hne) as Hl. rewrite length_app in Hl. simpl in Hl.
  replace (can_access_at_index b 0) with true by (symmetry; apply can_access_spec; lia). cbn [negb].
  unfold at_text in H. rewrite H, (take_while_app_stop is_white w c s Hw Hc).
  replace (offset (advance (length w) b) =? _)%nat with false; [done|].
  symmetry. apply Nat.eqb_neq. unfold blength in *. simpl. lia.
Qed.

Lemma advance_advance n m b : advance n (advance m b) = advance (m + n) b.
Proof. unfold advance, set_offset. simpl. f_equal. lia. Qed.

Lemma advance_0 b : advance 0 b = b.
Proof. destruct b. unfold advance, set_offset. simpl. f_equal. lia. Qed.

Lemma skip_none b c s : at_text b (c :: s) -> is_white c = false -> buffer_skip_whitespace b = b.
Proof. intros H Hc. rewrite (skip_white b [] c s); [apply advance_0|done|constructor|done]. Qed.

(** The same, for a text whose first character is known. *)
Lemma skip_to b w s k c t :
  at_text b (w ++ s ++ k) -> s = c :: t -> Forall (fun x => is_white x = true) w -> is_white c = false ->
  buffer_skip_whitespace b = advance (length w) b.
Proof. intros H -> Hw Hc. by apply (skip_white b w c (t ++ k)). Qed.

(** ** Strings *)

Lemma scan_escape c t n k :
  scan_string t = Some (n, k) ->
  exists k', scan_string (escape_byte c ++ t) = Some (length (escape_byte c) + n, k')%nat.
Proof.
  intros H. destruct (31 <? bz c) eqn:E1; [destruct (negb (beq c x22) && negb (beq c "\")) eqn:E2|].
  - unfold escape_byte. rewrite E1. cbn [andb]. rewrite E2. apply andb_true_iff in E2 as [E2 E3].
    apply negb_true_iff in E2, E3. cbn [app scan_string]. rewrite E2, E3, H. by exists k.
  - apply andb_false_iff in E2. destruct E2 as [E2|E2]; apply negb_false_iff, beq_true in E2; subst c;
      cbn; rewrite H; eexists; reflexivity.
  - destruct c; try discriminate E1; cbn; rewrite H; eexists; reflexivity.
Qed.

Lemma scan_escaped s rest :
  exists k, scan_string (concat (map escape_byte s) ++ x22 :: rest) = Some (length (concat (map escape_byte s)), k).
Proof.
  induction s as [|c s (k & IH)]; [by exists 0%nat|]. cbn [map concat]. rewrite <- app_assoc.
  destruct (scan_escape c _ _ _ IH) as (k' & ->). exists k'. by rewrite length_app.
Qed.

Lemma control_codes :
  forallb (fun c => bool_decide (hex4 "0" "0" (hex_digit (bz c / 16)) (hex_digit (bz c mod 16)) = bz c)
      && (negb (bz c <? 128) || bool_decide (emit_utf8 (bz c) = Some [c]))) all_bytes = true.
Proof. vm_compute. reflexivity. Qed.

(** Control characters are written as one UTF-16 code unit. *)
Lemma utf16_control c t left :
  bz c < 128 -> 6 <= left -> utf16_literal_to_utf8 (str "\u00" ++ print_02x c ++ t) left = Escape [c] 6.
Proof.
  intros Hc Hl. unfold utf16_literal_to_utf8.
  replace (left <? 6) with false by (symmetry; lia).
  pose proof (print_02x_xdigits c) as Hx. unfold print_02x in Hx |- *.
  apply Forall_cons in Hx as [H1 Hx]. apply Forall_cons in Hx as [H2 _].
  set (h1 := hex_digit (bz c / 16)) in *. set (h2 := hex_digit (bz c mod 16)) in *.
  change (drop 2 (str "\u00" ++ [h1; h2] ++ t)) with ("0"%byte :: "0"%byte :: h1 :: h2 :: t).
  rewrite parse_hex4_digits by done.
  assert (E : hex4 "0" "0" h1 h2 = bz c /\ (bz c < 128 -> emit_utf8 (bz c) = Some [c])).
  { pose proof (byte_forall _ control_codes c) as H. cbn beta in H.
    apply andb_true_iff in H as [H3 H4]. apply bool_decide_eq_true in H3. split; [done|].
    intros Hlt. apply orb_true_iff in H4 as [H4|H4]; [boolify; lia|]. by apply bool_decide_eq_true in H4. }
  destruct E as [-> E]. pose proof (bz_range c).
  replace ((56320 <=? bz c) && (bz c <=? 57343)) with false by (symmetry; lia).
  replace ((55296 <=? bz c) && (bz c <=? 56319)) with false by (symmetry; lia).
  unfold utf16_emit. by rewrite E.
Qed.

Lemma escape_byte_cases c :
  (escape_byte c = [c] /\ beq c "\" = false)
  \/ (exists e, escape_byte c = ["\"%byte; e] /\ simple_escape e = Some [c])
  \/ (bz c < 128 /\ escape_byte c = str "\u00" ++ print_02x c).
Proof.
  destruct (31 <? bz c) eqn:E1; [destruct (negb (beq c x22) && negb (beq c "\")) eqn:E2|].
  - left. unfold escape_byte. rewrite E1. cbn [andb]. rewrite E2. split; [done|].
    apply andb_true_iff in E2 as [_ E3]. by apply negb_true_iff in E3.
  - right. left. apply andb_false_iff in E2.
    destruct E2 as [E2|E2]; apply negb_false_iff, beq_true in E2; subst c; eexists; split; reflexivity.
  - right. destruct c; try discriminate E1;
      first [right; split; [lia || reflexivity|reflexivity] | left; eexists; split; reflexivity].
Qed.

Lemma unescape_byte f c t left consumed o :
  0 <= left ->
  unescape (S f) (escape_byte c ++ t) (Z.of_nat (length (escape_byte c)) + left) consumed o
  = unescape f t left (consumed + length (escape_byte c)) (o ++ [c]).
Proof.
  intros Hl. cbn [unescape].
  assert (Hpos : (1 <= length (escape_byte c))%nat) by (rewrite escape_byte_length; lia).
  replace (Z.of_nat (length (escape_byte c)) + left <=? 0) with false by (symmetry; lia).
  destruct (escape_byte_cases c) as [[-> E]|[(e & -> & E)|[Hc ->]]].
  - cbn [app length]. rewrite E. cbn [negb]. f_equal; lia.
  - cbn [app length]. change (beq "\" "\") with true. cbn [negb]. unfold escape_at.
    cbn [lookup list_lookup]. rewrite E. cbn [drop]. rewrite drop_0. f_equal; lia.
  - rewrite <- app_assoc. change (length (str "\u00" ++ print_02x c)) with 6%nat.
    pose proof (utf16_control c t (6 + left) Hc ltac:(lia)) as E.
    change (Z.of_nat 6) with 6. unfold escape_at. cbn [app str String.list_byte_of_string].
    change (match "\"%byte :: _ with [] => _ | _ :: _ => _ end) with
      (match utf16_literal_to_utf8 (str "\u00" ++ print_02x c ++ t) (6 + left) with
       | Escape o' len => unescape f (drop len (str "\u00" ++ print_02x c ++ t)) (6 + left - Z.of_nat len)
                            (consumed + len) (o ++ o')
       | BadEscape => BadText consumed
       | OobEscape => OobText
       end).
    rewrite E. f_equal; lia.
Qed.

Lemma unescape_escaped s f rest consumed o :
  (length s < f)%nat ->
  unescape f (concat (map escape_byte s) ++ x22 :: rest)
    (Z.of_nat (length (concat (map escape_byte s)))) consumed o = Unescaped (o ++ s).
Proof.
  revert f consumed o. induction s as [|c s IH]; intros f consumed o Hf; (destruct f as [|f]; [simpl in Hf; lia|]).
  { cbn. by rewrite app_nil_r. }
  cbn [map concat]. rewrite length_app, Nat2Z.inj_add, <- app_assoc, unescape_byte by lia.
  rewrite IH by (simpl in Hf; lia). by rewrite <- app_assoc.
Qed.

Section Trip.
Variable malloc_ok : Z -> bool.
Hypothesis malloc_all : forall n, malloc_ok n = true.

Lemma parse_render_string i s b rest :
  at_text b (render_string s ++ rest) ->
  parse_string malloc_ok i b
  = Good (set_valuestring (Some (cstr (default [] s))) (set_type cJSON_String i))
      (advance (length (render_string s)) b).
Proof.
  set (u := cstr (default [] s)). set (body := concat (map escape_byte u)).
  assert (Er : render_string s = x22 :: body ++ [x22]) by by destruct s. rewrite Er.
  change ((x22 :: body ++ [x22]) ++ rest) with (x22 :: (body ++ [x22]) ++ rest).
  rewrite <- app_assoc. intros Hat. unfold parse_string.
  rewrite (at_text_index _ _ _ Hat). cbn [lookup list_lookup]. change (beq x22 x22) with true. cbn [negb].
  apply at_text_cons in Hat. unfold at_text in Hat. rewrite Hat. cbn [app].
  destruct (scan_escaped u rest) as (k & Hs). fold body in Hs. rewrite Hs, malloc_all. cbn [negb].
  unfold body at 2 3. rewrite unescape_escaped.
  - cbn [app]. rewrite advance_advance. repeat f_equal. simpl. len.
  - pose proof (escaped_length u) as Hl. fold body in Hl. lia.
Qed.

(** ** Numbers *)

(** What may follow a number. *)
Definition stop (rest : bytes) : Prop := match rest with [] => True | c :: _ => is_number_char c = false end.

Lemma number_text_int i : int_item i = true -> number_text i = print_d i.(valueint).
Proof.
  unfold int_item, number_text. intros [[H1 H2]%andb_true_iff H3]%andb_true_iff.
  apply bool_decide_eq_true in H3. boolify.
  assert (Hx : exact i.(valueint)) by (apply exact_int; lia).
  rewrite H3. pose proof (of_Z_shape _ Hx) as Hs.
  destruct (of_Z (valueint i)) eqn:E; try done; cbn [isnan isinf orb]; rewrite <- E;
    by rewrite deq_of_Z, Z.eqb_refl.
Qed.

Lemma print_d_number_chars n : Forall (fun c => is_number_char c = true) (print_d n).
Proof.
  assert (H : forall k, 0 <= k -> Forall (fun c => is_number_char c = true) (dec_nonneg k)).
  { intros k Hk. destruct (dec_nonneg_spec k Hk) as (_ & Hd & _). eapply Forall_impl; [exact Hd|].
    intros c Hc. unfold is_number_char. by rewrite Hc. }
  unfold print_d. destruct (n <? 0) eqn:E; boolify; [constructor; [done|]|]; apply H; lia.
Qed.

Lemma parse_render_number i j b rest :
  int_item i = true -> at_text b (number_text i ++ rest) -> stop rest ->
  parse_number malloc_ok j b
  = Good (set_type cJSON_Number (set_valueint i.(valueint) (set_valuedouble i.(valuedouble) j)))
      (advance (length (number_text i)) b).
Proof.
  intros Hi Hat Hst. unfold parse_number. unfold at_text in Hat. rewrite Hat, malloc_all. cbn [negb].
  rewrite number_text_int in * by done.
  assert (Ht : take_while is_number_char (print_d (valueint i) ++ rest) = print_d (valueint i)).
  { destruct rest as [|c rest]; [rewrite app_nil_r; apply take_while_all, print_d_number_chars|].
    apply take_while_app_stop; [apply print_d_number_chars|exact Hst]. }
  rewrite Ht, strtod_print_d. unfold int_item in Hi.
  apply andb_true_iff in Hi as [[H1 H2]%andb_true_iff H3]. apply bool_decide_eq_true in H3. boolify.
  rewrite <- H3. repeat f_equal. rewrite H3. apply saturate_of_Z. lia.
Qed.

(** ** First bytes *)

Lemma print_d_head n : exists c t, print_d n = c :: t /\ (c = "-"%byte \/ isdigit c = true).
Proof.
  unfold print_d. destruct (n <? 0) eqn:E; boolify; [by eauto|].
  destruct (dec_nonneg_cons n ltac:(lia)) as (c & t & -> & Hc). eauto.
Qed.

(** A rendering starts with a visible character. *)
Lemma render_head fmt d i :
  simple i = true -> printable d i = true ->
  exists c t, render fmt d i = c :: t /\ is_white c = false /\ c <> xef /\ beq c "]" = false.
Proof.
  destruct i as [t vs vi vd n ch]. cbn [simple printable render type]. set (ty := Z.land t 255). intros Hs Hp.
  destruct (ty =? cJSON_NULL); [by eexists _, _|].
  destruct (ty =? cJSON_False); [by eexists _, _|].
  destruct (ty =? cJSON_True); [by eexists _, _|]. cbn [orb] in Hp.
  destruct (ty =? cJSON_Number).
  { rewrite number_text_int by done. destruct (print_d_head (valueint (Item t vs vi vd n ch))) as (c & s & -> & Hc).
    exists c, s. split; [done|]. destruct Hc as [-> | Hc]; [done|]. split_and!; by_bytes c. }
  destruct (ty =? cJSON_Raw); [done|].
  destruct (ty =? cJSON_String); [destruct vs; by eexists _, _|].
  destruct (ty =? cJSON_Array); [by eexists _, _|]. by eexists _, _.
Qed.

(** ** Values *)

Definition trips (fmt : bool) (d : nat) (item : cJSON) : Prop :=
  forall b i rest f,
  simple item = true -> printable d item = true -> b.(depth) = d ->
  at_text b (render fmt d item ++ rest) -> stop rest -> blank i ->
  (3 * length (render fmt d item) + 3 <= f)%nat ->
  parse_value malloc_ok f i b = Good (norm i.(name) item) (advance (length (render fmt d item)) b).

Lemma starts_with_head lit l c s : beq c l = false -> starts_with (l :: lit) (c :: s) = false.
Proof.
  intros H. unfold starts_with. apply bool_decide_eq_false. simpl. intros [= -> _]. by rewrite beq_refl in H.
Qed.

(** Dispatch on the first character, for all but the literals. *)
Lemma parse_scalar_head i b c s :
  at_text b (c :: s) -> beq c "n" = false -> beq c "f" = false -> beq c "t" = false ->
  parse_scalar malloc_ok i b =
    if beq c x22 then Some (parse_string malloc_ok i b)
    else if beq c "-" || isdigit c then Some (parse_number malloc_ok i b) else None.
Proof.
  intros Hat Hn Hf Ht. unfold parse_scalar. rewrite !(at_text_literal b _ _ Hat) by done.
  rewrite (starts_with_head (str "ull") "n"), (starts_with_head (str "alse") "f"),
    (starts_with_head (str "rue") "t") by done.
  rewrite (at_text_looking _ _ _ _ Hat).
  unfold number_at. by rewrite (at_text_access _ _ _ Hat), (at_text_index _ _ _ Hat).
Qed.

Lemma set_type_blank t i key :
  blank i -> i.(name) = key -> set_type t i = Item t None 0 dzero key [].
Proof. destruct i. intros (? & ? & ? & ?) <-. simpl in *. by subst. Qed.

Lemma white_stop w c t : Forall (fun x => is_white x = true) w -> is_number_char c = false -> stop (w ++ c :: t).
Proof. intros [|x w' Hx _] Hc; [done|]. simpl. by_bytes x. Qed.

Section Loops.
Variables (fmt : bool) (d : nat).

Lemma elements_trip l :
  Forall (trips fmt d) l -> l <> [] -> forallb simple l = true -> forallb (printable d) l = true ->
  forall w b head rest f,
  b.(depth) = d -> Forall (fun x => is_white x = true) w ->
  at_text (advance 1 b) (w ++ render_elements fmt (render fmt d) l ++ str "]" ++ rest) ->
  (3 * length (render_elements fmt (render fmt d) l) + 4 <= f)%nat ->
  parse_elements malloc_ok f b head
  = Good (head ++ map (norm None) l) (advance (1 + length w + length (render_elements fmt (render fmt d) l)) b).
Proof.
  intros HF. induction HF as [|c l Hc HF IH]; [done|]. intros _ [Hs1 Hs2]%andb_true_iff [Hp1 Hp2]%andb_true_iff.
  intros w b head rest f Hd Hw Hat Hf. destruct f as [|f]; [lia|].
  cbn [render_elements] in Hat, Hf |- *. rewrite !length_app in Hf.
  cbn [parse_elements]. unfold cJSON_New_Item. rewrite malloc_all.
  destruct (render_head fmt d c Hs1 Hp1) as (h & u & Eh & Hwh & _).
  rewrite <- !app_assoc in Hat.
  rewrite (skip_to _ _ _ _ _ _ Hat Eh Hw Hwh).
  apply at_text_advance in Hat.
  rewrite (Hc (advance (length w) (advance 1 b)) zero_item _ f Hs1 Hp1 Hd Hat) by
    (done || lia || destruct l; cbn; done).
  apply at_text_advance in Hat. rewrite advance_advance in Hat |- *.
  rewrite advance_advance in Hat |- *. set (b2 := advance _ b) in *.
  destruct l as [|c' l].
  - cbn [app render_elements] in Hat. rewrite (skip_none b2 "]" rest Hat eq_refl).
    rewrite !(at_text_looking _ _ _ _ Hat). cbn [map app]. unfold b2. rewrite !length_app. cbn.
    repeat f_equal. lia.
  - rewrite <- app_assoc in Hat. cbn [app str String.list_byte_of_string] in Hat.
    rewrite (skip_none b2 _ _ Hat eq_refl), (at_text_looking _ _ _ _ Hat). cbn [beq].
    change (beq "," ",") with true. cbn iota.
    rewrite (IH ltac:(done) Hs2 Hp2 (if fmt then str " " else []) b2 _ rest f Hd);
      [|by destruct fmt; repeat constructor|by apply at_text_cons in Hat|].
    + rewrite <- app_assoc. unfold b2. rewrite advance_advance. do 2 f_equal. rewrite !length_app.
      change (length (str ",")) with 1%nat. lia.
    + rewrite length_app in Hf. change (length (str ",")) with 1%nat in Hf. lia.
Qed.

Definition key_of (c : cJSON) : option bytes := Some (cstr (default [] c.(name))).

Lemma opt_white w : Forall (fun x => is_white x = true) w -> Forall (fun x => is_white x = true) (if fmt then w else []).
Proof. by destruct fmt. Qed.

Lemma tabs_white n : Forall (fun x => is_white x = true) (tabs n).
Proof. by apply Forall_replicate. Qed.

Lemma render_string_quote s : exists t, render_string s = x22 :: t.
Proof. destruct s; by eexists. Qed.

(** One member: its name, the colon and the value. *)
Lemma member_trip c b rest f :
  trips fmt d c -> simple c = true -> printable d c = true -> b.(depth) = d -> stop rest ->
  (3 * length (render fmt d c) + 3 <= f)%nat ->
  at_text b (render_string c.(name) ++ str ":" ++ (if fmt then [x09] else []) ++ render fmt d c ++ rest) ->
  let n1 := length (render_string c.(name)) in
  let n2 := (1 + length (if fmt then [x09] else []) + length (render fmt d c))%nat in
  parse_string malloc_ok zero_item b
    = Good (set_valuestring (Some (cstr (default [] c.(name)))) (set_type cJSON_String zero_item)) (advance n1 b)
  /\ buffer_skip_whitespace (advance n1 b) = advance n1 b
  /\ looking_at ":" (advance n1 b) = true
  /\ (forall i, i.(name) = key_of c -> blank i ->
      parse_value malloc_ok f i (buffer_skip_whitespace (advance 1 (advance n1 b)))
      = Good (norm (key_of c) c) (advance (n1 + n2) b))
  /\ at_text (advance (n1 + n2) b) rest.
Proof.
  intros Hc Hs Hp Hd Hst Hf Hat n1 n2.
  pose proof (parse_render_string zero_item _ _ _ Hat) as E1.
  apply at_text_advance in Hat. fold n1 in Hat, E1.
  pose proof (skip_none _ _ _ Hat eq_refl) as E2. pose proof (at_text_looking _ _ ":" _ Hat) as E3.
  change (str ":") with [":"%byte] in Hat. cbn [app] in Hat. apply at_text_cons in Hat.
  destruct (render_head fmt d c Hs Hp) as (h & u & Eh & Hwh & _).
  pose proof (skip_to _ _ _ _ _ _ Hat Eh (opt_white [x09] ltac:(by repeat constructor)) Hwh) as E4.
  apply at_text_advance in Hat. pose proof Hat as Hend. apply at_text_advance in Hend.
  rewrite !advance_advance in Hend.
  match type of Hend with
  | at_text (advance ?k b) _ => replace k with (n1 + n2)%nat in Hend by (unfold n2; lia)
  end.
  split_and!; [done|done|done| |done].
  intros i Hi Hb. rewrite E4.
  rewrite (Hc _ i rest f Hs Hp) by done. rewrite Hi, !advance_advance.
  do 2 f_equal.
Qed.

Lemma members_trip l :
  Forall (trips fmt d) l -> l <> [] -> forallb simple l = true -> forallb (printable d) l = true ->
  forall w w2 b head rest f,
  b.(depth) = d -> Forall (fun x => is_white x = true) w -> Forall (fun x => is_white x = true) w2 ->
  at_text (advance 1 b) (w ++ render_members fmt d (render fmt d) l ++ w2 ++ str "}" ++ rest) ->
  (3 * length (render_members fmt d (render fmt d) l) + 4 <= f)%nat ->
  parse_members malloc_ok f b head
  = Good (head ++ map (fun c => norm (key_of c) c) l)
      (advance (1 + length w + length (render_members fmt d (render fmt d) l) + length w2) b).
Proof.
  intros HF. induction HF as [|c l Hc HF IH]; [done|]. intros _ [Hs1 Hs2]%andb_true_iff [Hp1 Hp2]%andb_true_iff.
  intros w w2 b head rest f Hd Hw Hw2 Hat Hf. destruct f as [|f]; [lia|].
  cbn [render_members] in Hat, Hf |- *. rewrite !length_app in Hf.
  cbn [parse_members]. unfold cJSON_New_Item. rewrite malloc_all.
  rewrite <- !app_assoc in Hat.
  assert (Hne : forall s : bytes, s ++ str "}" ++ rest <> []) by by intros [].
  rewrite (at_text_access1 _ _ Hat) by (rewrite !app_assoc, <- (app_assoc _ (str "}") rest); apply Hne).
  cbn [negb]. rewrite app_assoc in Hat. destruct (render_string_quote (name c)) as (q & Eq).
  assert (Hww : Forall (fun x => is_white x = true) (w ++ (if fmt then tabs d else []))).
  { apply Forall_app. split; [done|]. apply opt_white, tabs_white. }
  rewrite (skip_to _ _ _ _ _ _ Hat Eq Hww eq_refl). apply at_text_advance in Hat.
  rewrite advance_advance in Hat |- *. set (b1 := advance _ b) in *.
  set (tail := match l with [] => [] | _ => str "," end
    ++ (if fmt then [x0a] else []) ++ render_members fmt d (render fmt d) l ++ w2 ++ str "}" ++ rest) in *.
  assert (Hst : stop tail).
  { unfold tail. destruct l; [|done]. destruct fmt; [done|]. cbn. by apply (white_stop w2 "}"). }
  destruct (member_trip c b1 tail f Hc Hs1 Hp1 Hd Hst ltac:(lia) Hat) as (-> & -> & -> & Hval & Hat2).
  cbn [negb]. rewrite Hval by done. clear Hval.
  match type of Hat2 with at_text ?x _ => set (b2 := x) in * end.
  unfold tail in Hat2. destruct l as [|c' l].
  - cbn [render_members app] in Hat2.
    assert (Hw3 : Forall (fun x => is_white x = true) ((if fmt then [x0a] else []) ++ w2)).
    { apply Forall_app. split; [|done]. apply opt_white. by repeat constructor. }
    rewrite app_assoc in Hat2. rewrite (skip_white b2 _ "}" rest Hat2 Hw3 eq_refl).
    apply at_text_advance in Hat2. rewrite !(at_text_looking _ _ _ _ Hat2).
    change (beq "}" ",") with false. change (beq "}" "}") with true. cbn iota.
    f_equal. unfold b2, b1. rewrite !advance_advance. f_equal. cbn [render_members].
    rewrite !length_app. change (length (str ":")) with 1%nat. simpl. lia.
  - cbn [app str String.list_byte_of_string] in Hat2.
    rewrite (skip_none b2 _ _ Hat2 eq_refl), (at_text_looking _ _ _ _ Hat2).
    change (beq "," ",") with true. cbn iota. apply at_text_cons in Hat2.
    change (length (str ",")) with 1%nat in Hf.
    rewrite (IH ltac:(done) Hs2 Hp2 (if fmt then [x0a] else []) w2 b2 _ rest f Hd);
      [|apply opt_white; by repeat constructor|done|exact Hat2|lia].
    rewrite <- app_assoc. f_equal. unfold b2, b1. rewrite !advance_advance. f_equal. rewrite !length_app.
    change (length (str ":")) with 1%nat. change (length (str ",")) with 1%nat. lia.
Qed.
End Loops.


(** The loops start by skipping white space, so they do not care how much of
    it the container has skipped already. *)
Lemma parse_elements_start f b b' head :
  buffer_skip_whitespace (advance 1 b) = buffer_skip_whitespace (advance 1 b') ->
  parse_elements malloc_ok f b head = parse_elements malloc_ok f b' head.
Proof.
  intros E. destruct f as [|f]; [done|]. cbn [parse_elements]. unfold cJSON_New_Item.
  by rewrite malloc_all, E.
Qed.

Lemma parse_members_start f b b' head :
  buffer_skip_whitespace (advance 1 b) = buffer_skip_whitespace (advance 1 b') ->
  can_access_at_index b 1 = true -> can_access_at_index b' 1 = true ->
  parse_members malloc_ok f b head = parse_members malloc_ok f b' head.
Proof.
  intros E H H'. destruct f as [|f]; [done|]. cbn [parse_members]. unfold cJSON_New_Item.
  by rewrite malloc_all, E, H, H'.
Qed.

(** A container is entered at its bracket and skips to a visible character;
    a step back and a step on change nothing. *)
Lemma reenter b w c s :
  at_text (advance 1 b) (w ++ c :: s) -> Forall (fun x => is_white x = true) w -> is_white c = false ->
  let b1 := advance (1 + length w) b in
  buffer_skip_whitespace (advance 1 b) = b1 /\ at_text b1 (c :: s)
  /\ can_access_at_index b 1 = true /\ can_access_at_index (retreat b1) 1 = true
  /\ buffer_skip_whitespace (advance 1 (retreat b1)) = buffer_skip_whitespace (advance 1 b).
Proof.
  intros Hat Hw Hc b1. rewrite (skip_white _ w c s Hat Hw Hc), advance_advance.
  assert (Hat1 : at_text b1 (c :: s)) by (apply at_text_advance in Hat; by rewrite advance_advance in Hat).
  assert (Hr : advance 1 (retreat b1) = b1).
  { unfold b1, advance, retreat, set_offset. simpl. f_equal. lia. }
  split_and!; [done|done| | |].
  - apply (at_text_access1 _ _ Hat). by destruct w.
  - apply (at_text_access1 _ (c :: s)); [by rewrite Hr|done].
  - rewrite Hr. by apply (skip_none _ c s).
Qed.

Lemma close_advance t i ch n d b :
  blank i -> b.(depth) = d ->
  close t i ch (advance n (set_depth (S d) b)) = Good (Item t None 0 dzero (name i) ch) (advance (n + 1) b).
Proof.
  intros (H1 & H2 & H3 & H4) Hd. destruct b, i. simpl in *. subst. unfold close, advance, set_offset. simpl.
  do 2 f_equal. lia.
Qed.

Lemma array_trip fmt l i b rest f :
  let d := b.(depth) in
  Forall (trips fmt (S d)) l -> forallb simple l = true -> forallb (printable (S d)) l = true ->
  (d < CJSON_NESTING_LIMIT)%nat -> blank i ->
  let text := str "[" ++ render_elements fmt (render fmt (S d)) l ++ str "]" in
  at_text b (text ++ rest) -> (3 * length text + 2 <= f)%nat ->
  parse_array malloc_ok f i b
  = Good (Item cJSON_Array None 0 dzero i.(name) (map (norm None) l)) (advance (length text) b).
Proof.
  intros d HF Hs Hp Hd Hb text Hat Hf. unfold text in *. clear text.
  rewrite !length_app in Hf |- *. change (length (str "[")) with 1%nat in *. change (length (str "]")) with 1%nat in *.
  destruct f as [|f]; [lia|]. rewrite <- !app_assoc in Hat. cbn [parse_array].
  fold d. replace (CJSON_NESTING_LIMIT <=? d)%nat with false by (symmetry; apply Nat.leb_gt; lia).
  set (b0 := set_depth (S d) b).
  rewrite (at_text_index b0 _ 0 Hat). cbn [lookup list_lookup app str String.list_byte_of_string].
  change (beq "[" "[") with true. cbn [negb]. apply (at_text_cons b0) in Hat.
  destruct l as [|c l].
  - cbn [render_elements app] in Hat. rewrite (skip_none _ _ _ Hat eq_refl), (at_text_looking _ _ _ _ Hat).
    change (beq "]" "]") with true. cbn iota. unfold b0. by rewrite (close_advance _ _ _ 1).
  - pose proof Hs as Hs'. pose proof Hp as Hp'. apply andb_true_iff in Hs' as [Hs' _], Hp' as [Hp' _].
    destruct (render_head fmt (S d) c Hs' Hp') as (h & u & Eh & Hw & _ & Hh).
    pose proof Hat as Hat1. cbn [render_elements] in Hat1. rewrite Eh, <- app_assoc in Hat1. cbn [app] in Hat1.
    destruct (reenter b0 [] h _ Hat1 ltac:(constructor) Hw) as (E1 & Hat2 & _ & _ & E2).
    rewrite E1, (at_text_looking _ _ _ _ Hat2), Hh, (at_text_access _ _ _ Hat2). cbn [negb].
    rewrite (parse_elements_start _ _ _ _ E2).
    rewrite (elements_trip fmt (S d) (c :: l) HF ltac:(done) Hs Hp [] b0 [] rest f eq_refl); [|constructor|exact Hat|lia].
    cbn [app]. unfold b0. rewrite close_advance by done. do 2 f_equal; simpl; lia.
Qed.

Lemma object_trip fmt l i b rest f :
  let d := b.(depth) in
  Forall (trips fmt (S d)) l -> forallb simple l = true -> forallb (printable (S d)) l = true ->
  (d < CJSON_NESTING_LIMIT)%nat -> blank i ->
  let text := str "{" ++ (if fmt then [x0a] else []) ++ render_members fmt (S d) (render fmt (S d)) l
    ++ (if fmt then tabs d else []) ++ str "}" in
  at_text b (text ++ rest) -> (3 * length text + 2 <= f)%nat ->
  parse_object malloc_ok f i b
  = Good (Item cJSON_Object None 0 dzero i.(name) (map (fun c => norm (key_of c) c) l)) (advance (length text) b).
Proof.
  intros d HF Hs Hp Hd Hb text Hat Hf. unfold text in *. clear text.
  rewrite !length_app in Hf |- *. change (length (str "{")) with 1%nat in *. change (length (str "}")) with 1%nat in *.
  destruct f as [|f]; [lia|]. rewrite <- !app_assoc in Hat. cbn [parse_object].
  fold d. replace (CJSON_NESTING_LIMIT <=? d)%nat with false by (symmetry; apply Nat.leb_gt; lia).
  set (b0 := set_depth (S d) b).
  rewrite (at_text_looking b0 "{" "{" _ Hat). change (beq "{" "{") with true. cbn [negb].
  apply (at_text_cons b0) in Hat.
  assert (Hw1 : Forall (fun x => is_white x = true) (if fmt then [x0a] else [])) by (apply opt_white; by repeat constructor).
  assert (Hw2 : forall n, Forall (fun x => is_white x = true) (if fmt then tabs n else [])) by (intros; apply opt_white, tabs_white).
  destruct l as [|c l].
  - cbn [render_members app] in Hat. rewrite app_assoc in Hat.
    destruct (reenter b0 _ "}" rest Hat) as (E1 & Hat2 & _); [apply Forall_app; by split|done|].
    rewrite E1, (at_text_looking _ _ _ _ Hat2). change (beq "}" "}") with true. cbn iota.
    unfold b0. rewrite close_advance by done. do 2 f_equal; rewrite length_app; simpl; lia.
  - destruct (render_string_quote (name c)) as (q & Eq).
    pose proof Hat as Hat1. cbn [render_members] in Hat1. rewrite <- !app_assoc, app_assoc, Eq in Hat1. cbn [app] in Hat1.
    destruct (reenter b0 _ x22 _ Hat1) as (E1 & Hat2 & Ha & Ha2 & E2); [apply Forall_app; by split|done|].
    rewrite E1, (at_text_looking _ _ _ _ Hat2), (at_text_access _ _ _ Hat2). cbn [negb]. change (beq x22 "}") with false. cbn iota.
    rewrite (parse_members_start _ _ _ _ E2 Ha2 Ha).
    rewrite (members_trip fmt (S d) (c :: l) HF ltac:(done) Hs Hp _ _ b0 [] rest f eq_refl Hw1 (Hw2 d) Hat) by lia.
    cbn [app]. unfold b0. rewrite close_advance by done. do 2 f_equal; lia.
Qed.

Lemma value_trip fmt item : forall d, trips fmt d item.
Proof.
  induction item as [t vs vi vd n c IH] using cJSON_ind'. intros d b i rest f Hs Hp Hd Hat Hst Hb Hf.
  assert (HF : Forall (trips fmt (S d)) c) by (eapply Forall_impl; [exact IH|]; auto).
  destruct f as [|f]; [lia|]. cbn [parse_value].
  cbn [simple printable render norm type valuestring valueint valuedouble name child] in *.
  set (ty := Z.land t 255) in *.
  assert (Hblank : forall t, set_type t i = Item t None 0 dzero (name i) []) by (intros; by apply set_type_blank).
  destruct (ty =? cJSON_NULL) eqn:E1.
  { apply Z.eqb_eq in E1. rewrite E1. unfold parse_scalar.
    rewrite (at_text_literal b (str "null") _ Hat), starts_with_app, Hblank by done. done. }
  destruct (ty =? cJSON_False) eqn:E2.
  { apply Z.eqb_eq in E2. rewrite E2. unfold parse_scalar.
    rewrite (at_text_literal b (str "null") _ Hat), (at_text_literal b (str "false") _ Hat) by done.
    replace (starts_with (str "null") (str "false" ++ rest)) with false
      by (symmetry; by apply (starts_with_head (str "ull") "n")).
    rewrite starts_with_app, Hblank. done. }
  destruct (ty =? cJSON_True) eqn:E3.
  { apply Z.eqb_eq in E3. rewrite E3. unfold parse_scalar.
    rewrite !(at_text_literal b _ _ Hat) by done.
    replace (starts_with (str "null") (str "true" ++ rest)) with false
      by (symmetry; by apply (starts_with_head (str "ull") "n")).
    replace (starts_with (str "false") (str "true" ++ rest)) with false
      by (symmetry; by apply (starts_with_head (str "alse") "f")).
    rewrite starts_with_app, Hblank. done. }
  cbn [orb] in Hp. destruct (ty =? cJSON_Number) eqn:E4.
  { apply Z.eqb_eq in E4. rewrite E4. pose proof (number_text_int _ Hs) as En.
    destruct (print_d_head vi) as (h & u & Eh & Hh). cbn [valueint] in En.
    pose proof Hat as Hat1. rewrite En, Eh in Hat1. cbn [app] in Hat1.
    assert (Hc : beq h "n" = false /\ beq h "f" = false /\ beq h "t" = false /\ beq h x22 = false
      /\ (beq h "-" || isdigit h) = true).
    { destruct Hh as [-> | Hh]; [done|]. split_and!; by_bytes h. }
    destruct Hc as (H1 & H2 & H3 & H4 & H5).
    rewrite (parse_scalar_head _ _ _ _ Hat1), H4, H5 by done.
    rewrite (parse_render_number _ i b rest Hs Hat Hst). destruct i, Hb as (? & ? & ? & ?). simpl in *. by subst. }
  destruct (ty =? cJSON_Raw); [done|]. cbn [negb andb] in Hs.
  destruct (ty =? cJSON_String) eqn:E5.
  { apply Z.eqb_eq in E5. rewrite E5. destruct (render_string_quote vs) as (q & Eq).
    pose proof Hat as Hat1. rewrite Eq in Hat1. cbn [app] in Hat1.
    rewrite (parse_scalar_head _ _ _ _ Hat1) by done. change (beq x22 x22) with true. cbn iota.
    rewrite (parse_render_string i vs b rest Hat), Hblank. done. }
  destruct (ty =? cJSON_Array) eqn:E6; cbn [orb] in Hp.
  { apply Z.eqb_eq in E6. rewrite E6. apply andb_true_iff in Hp as [Hn Hp]. apply Nat.ltb_lt in Hn.
    pose proof Hat as Hat1. rewrite <- app_assoc in Hat1.
    rewrite (parse_scalar_head _ _ "[" _ Hat1), (at_text_looking _ "[" "[" _ Hat1) by done.
    change (beq "[" "[") with true. subst d. cbn iota.
    rewrite (array_trip fmt c i b rest f HF Hs Hp Hn Hb Hat) by lia. done. }
  destruct (ty =? cJSON_Object) eqn:E7; [|done].
  apply Z.eqb_eq in E7. rewrite E7. apply andb_true_iff in Hp as [Hn Hp]. apply Nat.ltb_lt in Hn.
  pose proof Hat as Hat1. rewrite <- app_assoc in Hat1.
  rewrite (parse_scalar_head _ _ "{" _ Hat1), !(at_text_looking _ "{" _ _ Hat1) by done.
  change (beq "{" "{") with true. subst d. cbn iota.
  rewrite (object_trip fmt c i b rest f HF Hs Hp Hn Hb Hat) by lia. done.
Qed.
End Trip.

(** ** The round trip *)

Lemma no_nul_str s : forallb not_nul (str s) = true -> no_nul (str s).
Proof. intros H. apply Forall_forall. intros x Hx. rewrite forallb_forall in H. by apply H, list_elem_of_In. Qed.

Lemma render_no_nul fmt item : forall d, no_nul (render fmt d item).
Proof.
  induction item as [t vs vi vd n c IH] using cJSON_ind'. intros d.
  cbn [render type valuestring child name].
  assert (Hopt : forall s, no_nul s -> no_nul (if fmt then s else []))
    by (intros s Hs; destruct fmt; [done|constructor]).
  repeat match goal with |- no_nul (if ?x =? ?y then _ else _) => destruct (x =? y) end;
    try (by apply no_nul_str).
  - apply number_text_no_nul.
  - apply no_nul_cstr.
  - apply render_string_no_nul.
  - apply no_nul_cons. split; [done|]. apply no_nul_app. split; [|by repeat constructor].
    induction IH as [|x l Hx _ IHl]; [constructor|]. cbn [render_elements].
    apply no_nul_app. split; [done|]. apply no_nul_app. split; [|done].
    destruct l; [constructor|]. apply no_nul_cons. split; [done|]. apply Hopt. by repeat constructor.
  - apply no_nul_cons. split; [done|]. apply no_nul_app. split; [apply Hopt; by repeat constructor|].
    apply no_nul_app. split; [|apply no_nul_app; split; [apply Hopt, tabs_no_nul|by repeat constructor]].
    induction IH as [|x l Hx _ IHl]; [constructor|]. cbn [render_members]. rewrite !no_nul_app.
    split_and!; [apply Hopt, tabs_no_nul|apply render_string_no_nul|by repeat constructor
      |apply Hopt; by repeat constructor|done| |apply Hopt; by repeat constructor|done].
    destruct l; by repeat constructor.
Qed.

(** The parsing half: a rendering, in any buffer that holds it as a C string. *)
Lemma parse_rendered malloc_ok fmt require_null_terminated item rest :
  (forall n, malloc_ok n = true) -> simple item = true -> printable 0 item = true ->
  cJSON_ParseWithOpts malloc_ok (Some (render fmt 0 item ++ NUL :: rest)) require_null_terminated
  = ParseOk (norm None item) (length (render fmt 0 item)).
Proof.
  intros Hm Hs Hp.
  unfold cJSON_ParseWithOpts. rewrite cstr_stop by apply render_no_nul.
  unfold cJSON_ParseWithLengthOpts. rewrite bool_decide_eq_false_2 by by destruct (render fmt 0 item).
  set (text := render fmt 0 item). set (b := {| content := text ++ [NUL]; offset := 0; depth := 0 |}).
  unfold cJSON_New_Item. rewrite Hm.
  destruct (render_head fmt 0 item Hs Hp) as (h & u & Eh & Hw & Hbom & _). fold text in Eh.
  assert (Hat : at_text b (text ++ [NUL])) by done.
  assert (Eb : skip_utf8_bom b = b).
  { unfold skip_utf8_bom. unfold at_text in Hat. rewrite Hat, Eh. cbn [app].
    rewrite (starts_with_head _ xef) by by apply beq_false. by rewrite andb_false_r. }
  assert (Es : buffer_skip_whitespace b = b).
  { apply (skip_none b h (u ++ [NUL])); [|done]. rewrite Eh in Hat. done. }
  rewrite Eb, Es.
  rewrite (value_trip malloc_ok Hm fmt item 0 b zero_item [NUL] (parse_fuel b) Hs Hp eq_refl Hat);
    [|done|done|unfold parse_fuel, blength; simpl; fold text; rewrite length_app; lia].
  fold text. apply at_text_advance in Hat.
  destruct require_null_terminated; [|done].
  assert (En : buffer_skip_whitespace (advance (length text) b) = advance (length text) b).
  { unfold buffer_skip_whitespace. rewrite (at_text_access _ _ _ Hat). cbn [negb].
    unfold at_text in Hat. rewrite Hat. cbn [take_while]. change (is_white NUL) with true. cbn iota.
    rewrite advance_advance. replace (_ =? _)%nat with true.
    - unfold advance, retreat, set_offset. simpl. f_equal. lia.
    - symmetry. apply Nat.eqb_eq. unfold blength. simpl. rewrite length_app. simpl. lia. }
  rewrite En, (at_text_looking _ _ _ _ Hat). done.
Qed.

(** C11: printing and parsing are inverse.  Every item the clients build
    ([simple]: strings of any bytes, integers that fit [int], [true], [false],
    [null], arrays and objects nested up to the limit) is printed, formatted
    or not, to a text that [cJSON_ParseWithOpts] reads to its end, giving the
    same item up to [norm] (what the text does not carry). *)
Theorem json_round_trip malloc_ok uninit fmt require_null_terminated item :
  (forall n, malloc_ok n = true) -> (forall n, length (uninit n) = n) ->
  simple item = true -> printable 0 item = true ->
  Z.of_nat (length (render fmt 0 item) + 2) <= INT_MAX / 2 ->
  exists block, print malloc_ok uninit (Some item) fmt = Text block
    /\ cJSON_ParseWithOpts malloc_ok (Some block) require_null_terminated
       = ParseOk (norm None item) (length (render fmt 0 item)).
Proof.
  intros Hm Hu Hs Hp Hl. pose proof (print_spec malloc_ok uninit Hu item fmt) as H.
  destruct (print malloc_ok uninit (Some item) fmt) as [block| |]; [|specialize (H Hm Hp); lia|done].
  destruct H as [_ ->]. eexists. split; [done|]. by apply parse_rendered.
Qed.

Definition example_item : cJSON :=
  Item cJSON_Object None 0 dzero None
    [Item cJSON_String (Some (str "file_offer")) 0 dzero (Some (str "type")) [];
     Item cJSON_Number None 2 (of_Z 2) (Some (str "v")) [];
     Item cJSON_Array None 0 dzero (Some (str "localAddresses"))
       [Item cJSON_String (Some ["a"%byte; x22; x0a; x01; xe9]) 0 dzero None []; Item cJSON_True None 0 dzero None []]].

Lemma json_round_trip_witness :
  exists block, print (fun _ => true) (fun n => replicate n xff) (Some example_item) true = Text block
    /\ cJSON_ParseWithOpts (fun _ => true) (Some block) true
       = ParseOk (norm None example_item) (length (render true 0 example_item)).
Proof.
  apply (json_round_trip (fun _ => true) (fun n => replicate n xff) true true example_item).
  - done.
  - intros n. apply length_replicate.
  - vm_compute. reflexivity.
  - vm_compute. reflexivity.
  - vm_compute. discriminate.
Defined.
