(* ===== verification/JsonType.v ===== *)
(** * What the JSON parser builds (common/cJSON.c) is well typed

    The type a node claims and the fields that are filled agree, keys are
    present exactly in objects, and nesting is bounded. *)

From S2P Require Import Prelude CString Double Json JsonParse.
Local Open Scope Z_scope.

(** Keys belong to the children of objects. *)
Definition keyed (obj : bool) (i : cJSON) : bool := match i.(name) with Some _ => obj | None => negb obj end.

(** A node at nesting level [d]. *)
Fixpoint typed (d : nat) (i : cJSON) : bool :=
  let 'Item t vs vi vd _ ch := i in
  let leaf := match ch with [] => true | _ => false end in
  let no_text := match vs with None => true | Some _ => false end in
  if (t =? cJSON_NULL) || (t =? cJSON_False) then leaf && no_text
  else if t =? cJSON_True then leaf && no_text && (vi =? 1)
  else if t =? cJSON_Number then leaf && no_text && (vi =? saturate vd)
  else if t =? cJSON_String then leaf && negb no_text
  else if t =? cJSON_Array then
    no_text && (d <? CJSON_NESTING_LIMIT)%nat
    && forallb (fun c => keyed false c && typed (S d) c) ch
  else if t =? cJSON_Object then
    no_text && (d <? CJSON_NESTING_LIMIT)%nat
    && forallb (fun c => keyed true c && typed (S d) c) ch
  else false.

(** A node the parser is about to fill. *)
Definition empty (i : cJSON) : Prop := i.(valuestring) = None /\ i.(child) = [].

(** Filled from [item] at [b]. *)
Definition filled (item : cJSON) (b : parse_buffer) (r : parsed cJSON) : Prop :=
  match r with
  | Good i b' => typed b.(depth) i = true /\ i.(name) = item.(name) /\ b'.(depth) = b.(depth)
  | _ => True
  end.

Definition list_filled (obj : bool) (b : parse_buffer) (r : parsed (list cJSON)) : Prop :=
  match r with
  | Good l b' => forallb (fun c => keyed obj c && typed b.(depth) c) l = true /\ b'.(depth) = b.(depth)
  | _ => True
  end.

Lemma skip_depth b : (buffer_skip_whitespace b).(depth) = b.(depth).
Proof. unfold buffer_skip_whitespace. destruct (negb _); [done|]. by destruct (_ =? _)%nat. Qed.

Section Typed.
Context (malloc_ok : Z -> bool).

Lemma new_item_empty i : cJSON_New_Item malloc_ok = Some i -> empty i /\ i.(name) = None.
Proof. unfold cJSON_New_Item. destruct (malloc_ok _); [|done]. by intros [= <-]. Qed.

Lemma parse_string_filled item b :
  empty item ->
  match parse_string malloc_ok item b with
  | Good i b' => typed b.(depth) i = true /\ i.(name) = item.(name) /\ b'.(depth) = b.(depth)
                 /\ i.(child) = [] /\ is_Some i.(valuestring)
  | _ => True
  end.
Proof.
  intros [Hv Hc]. unfold parse_string. destruct (at_index b 0); [|done]. destruct (negb _); [done|].
  destruct (scan_string _) as [[n skipped]|]; [|done]. destruct (negb _); [done|].
  destruct (unescape _ _ _ _ _); try done. destruct item. cbn in *. subst. by split_and!.
Qed.

Lemma parse_number_filled item b : empty item -> filled item b (parse_number malloc_ok item b).
Proof.
  intros [Hv Hc]. unfold parse_number. destruct (negb _); [done|]. destruct (strtod _) as [[number consumed]|]; [|done].
  destruct item. cbn in *. subst. split_and!; [|done|done]. by rewrite Z.eqb_refl.
Qed.

Lemma parse_scalar_filled item b r : empty item -> parse_scalar malloc_ok item b = Some r -> filled item b r.
Proof.
  intros He. pose proof (parse_string_filled item b He) as Hs. pose proof (parse_number_filled item b He) as Hn.
  destruct He as [Hv Hc]. unfold parse_scalar.
  repeat case_match; intros [= <-]; try done; try (by destruct item; cbn in *; subst).
  destruct (parse_string malloc_ok item b); [|done..]. by destruct_and?.
Qed.

(** A container from the list of its children. *)
Lemma close_filled (obj : bool) item l b0 b :
  empty item -> (b0.(depth) < CJSON_NESTING_LIMIT)%nat -> b.(depth) = S b0.(depth) ->
  forallb (fun c => keyed obj c && typed (S b0.(depth)) c) l = true ->
  filled item b0 (close (if obj then cJSON_Object else cJSON_Array) item l b).
Proof.
  intros [Hv Hc] Hd Hb Hl. unfold close, filled. destruct item as [t vs vi vd n ch]. cbn [valuestring child] in *. subst.
  cbn [depth set_depth advance set_offset]. rewrite Hb. split_and!; [|done|done].
  assert (Hn : (depth b0 <? CJSON_NESTING_LIMIT)%nat = true) by by apply Nat.ltb_lt.
  by destruct obj; cbn [typed set_child set_type type valuestring valueint valuedouble name child]; rewrite Hn, Hl.
Qed.

(** What the five functions promise, each for the fuel [f]. *)
Definition values_filled (parse : nat -> cJSON -> parse_buffer -> parsed cJSON) f : Prop :=
  forall item b, empty item -> filled item b (parse f item b).
Definition lists_filled (obj : bool) (parse : nat -> parse_buffer -> list cJSON -> parsed (list cJSON)) f : Prop :=
  forall b l, forallb (fun c => keyed obj c && typed b.(depth) c) l = true -> list_filled obj b (parse f b l).

Lemma container_filled (obj : bool) loop f item b b1 :
  lists_filled obj loop f -> empty item -> (CJSON_NESTING_LIMIT <=? b.(depth))%nat = false ->
  b1.(depth) = S b.(depth) ->
  filled item b (match loop f b1 [] with
    | Good children b => close (if obj then cJSON_Object else cJSON_Array) item children b
    | Bad b => Bad b | Oob => Oob | OutOfFuel => OutOfFuel end).
Proof.
  intros Hloop He Hd Hb1. apply Nat.leb_gt in Hd. specialize (Hloop b1 [] eq_refl).
  destruct (loop f b1 []) as [l b2| | |]; try done. destruct Hloop as [Hl Hb2]. rewrite Hb1 in Hl, Hb2.
  by apply close_filled.
Qed.

Lemma element_filled (obj : bool) b l i :
  forallb (fun c => keyed obj c && typed b.(depth) c) l = true -> keyed obj i = true -> typed b.(depth) i = true ->
  forallb (fun c => keyed obj c && typed b.(depth) c) (l ++ [i]) = true.
Proof. intros Hl Hk Ht. rewrite forallb_app, Hl. cbn. by rewrite Hk, Ht. Qed.

Lemma elements_step f :
  values_filled (parse_value malloc_ok) f -> lists_filled false (parse_elements malloc_ok) f ->
  lists_filled false (parse_elements malloc_ok) (S f).
Proof.
  intros IHv IHe.
  intros b l Hl. cbn [parse_elements]. destruct (cJSON_New_Item malloc_ok) as [item|] eqn:E; [|done].
  apply new_item_empty in E as [He Hn]. set (b1 := buffer_skip_whitespace _).
  assert (Hb1 : b1.(depth) = b.(depth)) by exact (skip_depth _). specialize (IHv item b1 He).
  destruct (parse_value malloc_ok f item b1) as [i b2| | |]; try done. destruct IHv as (Ht & Hi & Hb2).
  rewrite Hb1 in *. set (b3 := buffer_skip_whitespace b2).
  assert (Hb3 : b3.(depth) = b.(depth)) by (unfold b3; by rewrite skip_depth).
  assert (Hl' : forallb (fun c => keyed false c && typed b.(depth) c) (l ++ [i]) = true).
  { apply element_filled; [done| |done]. unfold keyed. by rewrite Hi, Hn. }
  destruct (looking_at _ b3); [|by destruct (looking_at _ b3)].
  specialize (IHe b3 (l ++ [i])). unfold list_filled in *. rewrite Hb3 in IHe. by apply IHe.
Qed.

Lemma members_step f :
  values_filled (parse_value malloc_ok) f -> lists_filled true (parse_members malloc_ok) f ->
  lists_filled true (parse_members malloc_ok) (S f).
Proof.
  intros IHv IHm.
  intros b l Hl. cbn [parse_members]. destruct (cJSON_New_Item malloc_ok) as [item|] eqn:E; [|done].
  apply new_item_empty in E as [He Hn]. destruct (negb _); [done|]. set (b1 := buffer_skip_whitespace _).
  assert (Hb1 : b1.(depth) = b.(depth)) by exact (skip_depth _). pose proof (parse_string_filled item b1 He) as Hs.
  destruct (parse_string malloc_ok item b1) as [named b2| | |]; try done. destruct Hs as (_ & _ & Hb2 & Hch & [k Hk]).
  rewrite Hk. destruct (negb _); [done|]. set (item' := set_valuestring None _).
  assert (He' : empty item') by by destruct named.
  set (b3 := buffer_skip_whitespace _). assert (Hb3 : b3.(depth) = b.(depth)).
  { unfold b3. rewrite skip_depth. cbn [advance set_offset depth]. rewrite skip_depth. congruence. }
  specialize (IHv item' b3 He').
  destruct (parse_value malloc_ok f item' b3) as [i b4| | |]; try done. destruct IHv as (Ht & Hi & Hb4).
  rewrite Hb3 in *. set (b5 := buffer_skip_whitespace b4).
  assert (Hb5 : b5.(depth) = b.(depth)) by (unfold b5; by rewrite skip_depth).
  assert (Hl' : forallb (fun c => keyed true c && typed b.(depth) c) (l ++ [i]) = true).
  { apply element_filled; [done| |done]. unfold keyed. by rewrite Hi. }
  destruct (looking_at _ b5); [|by destruct (looking_at _ b5)].
  specialize (IHm b5 (l ++ [i])). unfold list_filled in *. rewrite Hb5 in IHm. by apply IHm.
Qed.

Lemma parser_filled f :
  values_filled (parse_value malloc_ok) f /\ values_filled (parse_array malloc_ok) f
  /\ values_filled (parse_object malloc_ok) f
  /\ lists_filled false (parse_elements malloc_ok) f /\ lists_filled true (parse_members malloc_ok) f.
Proof.
  induction f as [|f (IHv & IHa & IHo & IHe & IHm)]; [by split_and!|]. split_and!.
  - intros item b He. cbn [parse_value]. destruct (parse_scalar malloc_ok item b) eqn:E; [by eapply parse_scalar_filled|].
    destruct (looking_at _ _); [by apply IHa|]. destruct (looking_at _ _); [by apply IHo|done].
  - intros item b He. cbn [parse_array]. destruct (_ <=? _)%nat eqn:Hd; [done|].
    destruct (at_index _ _); [|done]. destruct (negb _); [done|]. set (b1 := buffer_skip_whitespace _).
    assert (Hb1 : b1.(depth) = S b.(depth)) by exact (skip_depth _).
    destruct (looking_at _ b1); [apply (close_filled false); [done|by apply Nat.leb_gt|done|done]|].
    destruct (negb _); [done|]. by apply (container_filled false).
  - intros item b He. cbn [parse_object]. destruct (_ <=? _)%nat eqn:Hd; [done|].
    destruct (negb _); [done|]. set (b1 := buffer_skip_whitespace _).
    assert (Hb1 : b1.(depth) = S b.(depth)) by exact (skip_depth _).
    destruct (looking_at _ b1); [apply (close_filled true); [done|by apply Nat.leb_gt|done|done]|].
    destruct (negb _); [done|]. by apply (container_filled true).
  - by apply elements_step.
  - by apply members_step.
Qed.
End Typed.

(** Nesting is bounded. *)
Lemma typed_depth i d :
  typed d i = true -> (d <= CJSON_NESTING_LIMIT)%nat -> (item_depth i + d <= CJSON_NESTING_LIMIT + 1)%nat.
Proof.
  revert d. induction i as [t vs vi vd n ch IH] using cJSON_ind'. intros d Ht Hd.
  assert (Hleaf : ch = [] \/ (d < CJSON_NESTING_LIMIT)%nat /\ Forall (fun c => typed (S d) c = true) ch).
  { cbn [typed] in Ht. repeat case_match; boolify; auto; try done.
    all: right; repeat match goal with H : _ && _ = true |- _ => apply andb_true_iff in H as [? ?] end;
      boolify; (split; [done|]); apply Forall_forall; intros c Hc;
      match goal with H : forallb _ _ = true |- _ => rewrite forallb_forall in H;
        specialize (H c); apply andb_true_iff in H as [_ ?]; [done|by apply list_elem_of_In] end. }
  cbn [item_depth child]. destruct Hleaf as [->|[Hlt Hch]]; [cbn [fold_right]; lia|].
  assert (Hm : (fold_right (fun c d => Nat.max (item_depth c) d) 0 ch + S d <= CJSON_NESTING_LIMIT + 1)%nat); [|lia].
  clear Ht. revert Hch. induction IH as [|c ch Hc _ IHch]; intros Hch; cbn [fold_right]; [lia|].
  apply Forall_cons in Hch as [Hc' Hch]. specialize (Hc (S d) Hc' ltac:(lia)). specialize (IHch Hch). lia.
Qed.

Lemma typed_member d i c : typed d i = true -> In c i.(child) -> typed (S d) c = true.
Proof.
  destruct i as [t vs vi vd n ch]. cbn [typed child]. intros Ht Hin.
  repeat case_match; boolify; try done.
  all: repeat match goal with H : _ && _ = true |- _ => apply andb_true_iff in H as [? ?] end;
    match goal with H : forallb _ _ = true |- _ => rewrite forallb_forall in H; apply H in Hin end;
    by apply andb_true_iff in Hin as [_ ?].
Qed.

Lemma find_insensitive_in key l i : find_insensitive key l = Some i -> In i l.
Proof.
  induction l as [|c l IH]; [done|]. cbn [find_insensitive]. destruct (case_insensitive_streq _ _); [intros [= ->]; by left|].
  intros H. right. by apply IH.
Qed.

Lemma typed_string d i : typed d i = true -> cJSON_IsString (Some i) = true -> is_Some (cJSON_GetStringValue (Some i)).
Proof.
  intros Ht Hs. unfold cJSON_GetStringValue. rewrite Hs. cbn [mbind option_bind]. revert Ht Hs.
  destruct i as [t vs vi vd n ch]. destruct vs as [s|]; [by eexists|].
  cbn [typed negb]. rewrite !andb_false_r. unfold cJSON_IsString, has_type. cbn [type]. intros Ht Hs. exfalso. revert Ht.
  repeat match goal with |- context [t =? ?k] => destruct (Z.eqb_spec t k) as [->|]; [try discriminate Hs|] end; done.
Qed.

(** ** Property *)

(** C10: What a text parses to is well typed.  Whatever the text and whatever
    allocations fail, if [cJSON_ParseWithOpts] returns an item, every node of
    it has one of the seven types, the fields of that type and no others:
    strings have their text, the integer of a number is its double saturated,
    only containers have children, keys are present in objects and nowhere
    else, nesting is bounded by the limit; so an object member that claims to
    be a string has a text. *)
Theorem parsed_items_typed malloc_ok text require_null_terminated root n
    (Hparse : cJSON_ParseWithOpts malloc_ok text require_null_terminated = ParseOk root n) :
  typed 0 root = true /\ root.(name) = None /\ (item_depth root <= CJSON_NESTING_LIMIT + 1)%nat
  /\ forall key i, cJSON_GetObjectItem (Some root) key = Some i -> cJSON_IsString (Some i) = true ->
       is_Some (cJSON_GetStringValue (Some i)).
Proof.
  assert (Ht : typed 0 root = true /\ root.(name) = None).
  { revert Hparse. unfold cJSON_ParseWithOpts. destruct text as [s|]; [|done].
    unfold cJSON_ParseWithLengthOpts. case_bool_decide; [by destruct (cstr s)|].
    destruct (cJSON_New_Item malloc_ok) as [item|] eqn:E; [|done]. apply new_item_empty in E as [He Hn].
    set (b0 := buffer_skip_whitespace _). assert (Hb0 : b0.(depth) = 0%nat).
    { etransitivity; [apply skip_depth|]. unfold skip_utf8_bom. by destruct (_ && _). }
    pose proof (proj1 (parser_filled malloc_ok (parse_fuel {| content := cstr s ++ [NUL]; offset := 0; depth := 0 |})) item b0 He) as Hv.
    destruct (parse_value malloc_ok _ item b0) as [i b1| | |]; try done. destruct Hv as (Ht & Hi & _).
    rewrite Hb0 in Ht. repeat case_match; intros; simplify_eq; (split; [done|congruence]). }
  destruct Ht as [Ht Hn]. split_and!; [done|done|pose proof (typed_depth root 0 Ht); lia|].
  intros key i Hg Hs. apply (typed_string 1); [|done]. eapply typed_member; [exact Ht|].
  unfold cJSON_GetObjectItem, get_object_item in Hg. destruct (find_insensitive _ _) as [c|] eqn:E; [|done].
  apply find_insensitive_in in E. destruct (name c); [|done]. by injection Hg as <-.
Qed.

Lemma parsed_items_typed_witness :
  match cJSON_ParseWithOpts (fun _ => true) (Some (str "[null,-12,[true]]")) true with
  | ParseOk root _ =>
      (typed 0 root = true /\ root.(name) = None /\ (item_depth root <= CJSON_NESTING_LIMIT + 1)%nat
       /\ forall key i, cJSON_GetObjectItem (Some root) key = Some i -> cJSON_IsString (Some i) = true ->
            is_Some (cJSON_GetStringValue (Some i)))
      /\ map type root.(child) = [cJSON_NULL; cJSON_Number; cJSON_Array] /\ item_depth root = 3%nat
  | _ => False
  end.
Proof.
  destruct (cJSON_ParseWithOpts _ _ true) as [root n| |] eqn:E; [|revert E; vm_compute; discriminate..].
  split; [exact (parsed_items_typed _ _ _ root n E)|]. revert E. vm_compute. intros E. injection E as <- <-. auto.
Defined.
