(* ===== verification/JsonMinify.v ===== *)
(** * cJSON.c: [cJSON_Minify]

    Blanks and comments are removed in place: the text is written over itself
    behind the read position. Every access to the block is checked ([None] is
    an access outside it, or a loop that does not end). *)

From S2P Require Import Prelude CString Double Json JsonParse JsonPrint JsonTrip.
Local Open Scope Z_scope.

(** [p[i] = b]. *)
Definition poke_at (s : bytes) (i : nat) (b : byte) : option bytes :=
  if (i <? length s)%nat then Some (<[i := b]> s) else None.

Fixpoint skip_oneline_loop (fuel : nat) (s : bytes) (input : nat) : option nat :=
  match fuel with
  | O => None
  | S fuel =>
      c ← s !! input;
      if beq c NUL then Some input
      else if beq c x0a then Some (S input)
      else skip_oneline_loop fuel s (S input)
  end.
Definition skip_oneline_comment (fuel : nat) (s : bytes) (input : nat) : option nat :=
  skip_oneline_loop fuel s (input + 2).

Fixpoint skip_multiline_loop (fuel : nat) (s : bytes) (input : nat) : option nat :=
  match fuel with
  | O => None
  | S fuel =>
      c ← s !! input;
      if beq c NUL then Some input
      else if beq c "*" then
        d ← s !! S input;
        if beq d "/" then Some (input + 2)%nat else skip_multiline_loop fuel s (S input)
      else skip_multiline_loop fuel s (S input)
  end.
Definition skip_multiline_comment (fuel : nat) (s : bytes) (input : nat) : option nat :=
  skip_multiline_loop fuel s (input + 2).

Fixpoint minify_string_loop (fuel : nat) (s : bytes) (input output : nat) : option (bytes * nat * nat) :=
  match fuel with
  | O => None
  | S fuel =>
      c ← s !! input;
      if beq c NUL then Some (s, input, output)
      else
        s ← poke_at s output c;
        c ← s !! input;
        if beq c x22 then s ← poke_at s output x22; Some (s, S input, S output)
        else if beq c "\" then
          d ← s !! S input;
          if beq d x22 then s ← poke_at s (S output) d; minify_string_loop fuel s (input + 2) (output + 2)
          else minify_string_loop fuel s (S input) (S output)
        else minify_string_loop fuel s (S input) (S output)
  end.
Definition minify_string (fuel : nat) (s : bytes) (input output : nat) : option (bytes * nat * nat) :=
  c ← s !! input;
  s ← poke_at s output c;
  minify_string_loop fuel s (S input) (S output).

Definition is_blank (c : byte) : bool := beq c " " || beq c x09 || beq c x0d || beq c x0a.

Fixpoint minify_loop (fuel : nat) (s : bytes) (json into : nat) : option bytes :=
  match fuel with
  | O => None
  | S fuel =>
      c ← s !! json;
      if beq c NUL then poke_at s into NUL
      else if is_blank c then minify_loop fuel s (S json) into
      else if beq c "/" then
        d ← s !! S json;
        if beq d "/" then json ← skip_oneline_comment fuel s json; minify_loop fuel s json into
        else if beq d "*" then json ← skip_multiline_comment fuel s json; minify_loop fuel s json into
        else minify_loop fuel s (S json) into
      else if beq c x22 then '(s, json, into) ← minify_string fuel s json into; minify_loop fuel s json into
      else s ← poke_at s into c; minify_loop fuel s (S json) (S into)
  end.

Definition minify_fuel (s : bytes) : nat := S (length s).
Definition cJSON_Minify (json : option bytes) : option (option bytes) :=
  match json with
  | None => Some None
  | Some s => Some <$> minify_loop (minify_fuel s) s 0 0
  end.

(** ** What it computes, on the text *)

Inductive mode := Code | Quoted | Line | Block.

Fixpoint minified (m : mode) (s : bytes) : bytes :=
  match s with
  | [] => []
  | c :: t =>
      match m with
      | Code =>
          if is_blank c then minified Code t
          else if beq c "/" then
            match t with
            | [] => []
            | d :: t' => if beq d "/" then minified Line t' else if beq d "*" then minified Block t' else minified Code t
            end
          else if beq c x22 then c :: minified Quoted t
          else c :: minified Code t
      | Quoted =>
          if beq c x22 then c :: minified Code t
          else if beq c "\" then
            match t with
            | [] => [c]
            | d :: t' => if beq d x22 then c :: d :: minified Quoted t' else c :: minified Quoted t
            end
          else c :: minified Quoted t
      | Line => if beq c x0a then minified Code t else minified Line t
      | Block =>
          if beq c "*" then
            match t with
            | [] => []
            | d :: t' => if beq d "/" then minified Code t' else minified Block t
            end
          else minified Block t
      end
  end.

(** ** The block is what it should be *)

(** What has been written, what is waste, what is still to be read. *)
Lemma read_at (pre u : bytes) i : (pre ++ u) !! (length pre + i)%nat = u !! i.
Proof. rewrite lookup_app_r by lia. f_equal. lia. Qed.

Lemma read_head (pre : bytes) c u : (pre ++ c :: u) !! length pre = Some c.
Proof. by rewrite <- (Nat.add_0_r (length pre)), read_at. Qed.

Lemma read_next (pre : bytes) c u : (pre ++ c :: u) !! S (length pre) = u !! 0%nat.
Proof. rewrite <- Nat.add_1_r. by rewrite read_at. Qed.

(** The text after a position, up to its terminator. *)
Lemma text_head (u rest : bytes) : no_nul u ->
  exists c, (u ++ NUL :: rest) !! 0%nat = Some c /\ (beq c NUL = true <-> u = []).
Proof.
  intros Hu. destruct u as [|c u]; [by exists NUL|]. exists c. split; [done|].
  apply no_nul_cons in Hu as [Hc _]. apply not_nul_true in Hc. split; [|done].
  intros E. by apply beq_true in E.
Qed.

Lemma beq_nul c : not_nul c = true -> beq c NUL = false.
Proof. intros Hc. by apply beq_false, not_nul_true. Qed.

Lemma snoc_app {A} (pre : list A) c u : pre ++ c :: u = (pre ++ [c]) ++ u.
Proof. by rewrite <- app_assoc. Qed.

Lemma length_snoc {A} (pre : list A) c : length (pre ++ [c]) = S (length pre).
Proof. rewrite length_app. cbn. lia. Qed.

(** A loop that skips a part of the text and continues in code. *)
Definition skips (m : mode) (loop : nat -> bytes -> nat -> option nat) : Prop :=
  forall u fuel pre rest, no_nul u -> (length u < fuel)%nat ->
  exists k, loop fuel (pre ++ u ++ NUL :: rest) (length pre) = Some (length pre + k)%nat
    /\ (k <= length u)%nat /\ minified m u = minified Code (drop k u).

Lemma skips_step m u c (r : option nat) pre k :
  r = Some (length (pre ++ [c]) + k)%nat -> (k <= length u)%nat -> minified m u = minified Code (drop k u) ->
  exists k', r = Some (length pre + k')%nat /\ (k' <= length (c :: u))%nat
    /\ minified m u = minified Code (drop k' (c :: u)).
Proof.
  intros -> Hk Hm. exists (S k). rewrite length_snoc. split; [f_equal; lia|]. cbn [length drop]. split; [lia|done].
Qed.

Lemma skip_oneline_skips : skips Line skip_oneline_loop.
Proof.
  intros u. induction u as [|c u IH]; intros [|fuel] pre rest Hu Hf; cbn [length] in Hf; try lia; cbn [skip_oneline_loop].
  - cbn [app]. rewrite (read_head pre NUL rest). exists 0%nat. rewrite Nat.add_0_r. cbn. by split.
  - apply no_nul_cons in Hu as [Hc Hu]. cbn [app]. rewrite read_head. cbn [mbind option_bind]. rewrite beq_nul by done.
    cbn [minified]. destruct (beq c x0a) eqn:E.
    + exists 1%nat. split; [f_equal; lia|]. cbn. split; [lia|done].
    + rewrite snoc_app, <- length_snoc with (c := c).
      destruct (IH fuel (pre ++ [c]) rest) as (k & Hr & Hk & Hm); [done|lia|]. by eapply skips_step.
Qed.

Lemma skip_multiline_skips : skips Block skip_multiline_loop.
Proof.
  intros u. induction u as [|c u IH]; intros [|fuel] pre rest Hu Hf; cbn [length] in Hf; try lia; cbn [skip_multiline_loop].
  - cbn [app]. rewrite (read_head pre NUL rest). exists 0%nat. rewrite Nat.add_0_r. cbn. by split.
  - apply no_nul_cons in Hu as [Hc Hu]. cbn [app]. rewrite read_head, read_next. cbn [mbind option_bind].
    rewrite beq_nul by done. cbn [minified].
    assert (Hrec : exists k, skip_multiline_loop fuel (pre ++ c :: u ++ NUL :: rest) (S (length pre)) = Some (length pre + k)%nat
      /\ (k <= length (c :: u))%nat /\ minified Block u = minified Code (drop k (c :: u))).
    { rewrite snoc_app, <- length_snoc with (c := c).
      destruct (IH fuel (pre ++ [c]) rest) as (k & Hr & Hk & Hm); [done|lia|]. by eapply skips_step. }
    destruct (beq c "*"); [|done]. destruct u as [|d u']; cbn [app lookup list_lookup mbind option_bind].
    + change (beq NUL "/") with false. cbn iota. destruct Hrec as (k & Hr & Hk & Hm). exists k.
      split_and!; [done|done|]. by rewrite <- Hm.
    + destruct (beq d "/"); [|exact Hrec]. exists 2%nat. split; [done|]. cbn. split; [lia|done].
Qed.

(** Writing the byte that is read at the read position or behind it. *)
Lemma push outp waste c u :
  exists waste', poke_at ((outp ++ waste) ++ c :: u) (length outp) c = Some ((outp ++ [c]) ++ waste' ++ u)
    /\ length waste' = length waste
    /\ ((outp ++ [c]) ++ waste' ++ u) !! length (outp ++ waste) = Some c.
Proof.
  unfold poke_at. rewrite (proj2 (Nat.ltb_lt _ _)) by (rewrite !length_app; cbn; lia).
  rewrite <- app_assoc, insert_app_r_alt, Nat.sub_diag by done. destruct waste as [|w waste].
  - exists []. cbn [app]. split_and!; [|done|].
    + by rewrite <- app_assoc.
    + rewrite app_nil_r, <- app_assoc. apply (read_head outp c u).
  - exists (waste ++ [c]). split_and!.
    + cbn. by rewrite <- !app_assoc.
    + by rewrite length_snoc.
    + rewrite <- app_assoc, !length_app. cbn [app length]. rewrite read_at, <- app_assoc.
      apply (read_head waste c u).
Qed.

(** The block while it is minified. *)
Definition staged (outp waste u rest : bytes) : bytes := (outp ++ waste) ++ u ++ NUL :: rest.

Lemma staged_end outp waste rest : staged outp waste [] rest !! length (outp ++ waste) = Some NUL.
Proof. apply read_head. Qed.

Lemma staged_head outp waste c u rest : staged outp waste (c :: u) rest !! length (outp ++ waste) = Some c.
Proof. apply read_head. Qed.

Lemma staged_next outp waste c u rest :
  staged outp waste (c :: u) rest !! S (length (outp ++ waste)) = (u ++ NUL :: rest) !! 0%nat.
Proof. apply read_next. Qed.

Lemma poke_again outp c waste u rest :
  poke_at (staged (outp ++ [c]) waste u rest) (length outp) c = Some (staged (outp ++ [c]) waste u rest).
Proof.
  unfold poke_at, staged. rewrite (proj2 (Nat.ltb_lt _ _)) by (rewrite !length_app; cbn; lia). f_equal.
  apply list_insert_id. rewrite <- !app_assoc. apply (read_head outp c).
Qed.

(** [push] on a staged block, with what the loops read after it. *)
Lemma push_staged outp waste c u rest :
  exists waste', poke_at (staged outp waste (c :: u) rest) (length outp) c = Some (staged (outp ++ [c]) waste' u rest)
    /\ length waste' = length waste
    /\ length ((outp ++ [c]) ++ waste') = S (length (outp ++ waste))
    /\ staged (outp ++ [c]) waste' u rest !! length (outp ++ waste) = Some c
    /\ staged (outp ++ [c]) waste' u rest !! S (length (outp ++ waste)) = (u ++ NUL :: rest) !! 0%nat.
Proof.
  destruct (push outp waste c (u ++ NUL :: rest)) as (w & Hp & Hl & Hr). exists w.
  assert (Hn : length ((outp ++ [c]) ++ w) = S (length (outp ++ waste))) by (rewrite !length_app; cbn; lia).
  unfold staged. cbn [app]. rewrite <- (app_assoc (outp ++ [c])). split_and!; try done.
  rewrite app_assoc, <- Hn, <- (Nat.add_0_r (length ((outp ++ [c]) ++ w))). by rewrite read_at.
Qed.

Lemma minify_string_loop_spec fuel : forall u outp waste rest, no_nul u -> (length u < fuel)%nat ->
  exists q waste' u2,
    minify_string_loop fuel (staged outp waste u rest) (length (outp ++ waste)) (length outp)
    = Some (staged (outp ++ q) waste' u2 rest, length ((outp ++ q) ++ waste'), length (outp ++ q))
    /\ minified Quoted u = q ++ minified Code u2 /\ no_nul u2
    /\ (length u2 <= length u)%nat /\ (length q + length waste' + length u2 = length waste + length u)%nat.
Proof.
  induction fuel as [|fuel IH]; intros u outp waste rest Hu Hf; [lia|]. cbn [minify_string_loop].
  destruct u as [|c u].
  { rewrite staged_end. exists [], waste, []. rewrite app_nil_r. cbn. split_and!; [done|done|done|lia|lia]. }
  apply no_nul_cons in Hu as [Hc Hu]. rewrite staged_head. cbn [mbind option_bind].
  rewrite beq_nul by done. destruct (push_staged outp waste c u rest) as (w & -> & Hw & Hn & Hr0 & Hr1).
  cbn [mbind option_bind]. rewrite Hr0, Hr1. cbn [mbind option_bind minified].
  assert (Hlo : length (outp ++ [c]) = S (length outp)) by apply length_snoc.
  (* one more byte copied *)
  assert (Hrec : exists q waste' u2,
    minify_string_loop fuel (staged (outp ++ [c]) w u rest) (S (length (outp ++ waste))) (S (length outp))
    = Some (staged (outp ++ q) waste' u2 rest, length ((outp ++ q) ++ waste'), length (outp ++ q))
    /\ c :: minified Quoted u = q ++ minified Code u2 /\ no_nul u2
    /\ (length u2 <= length (c :: u))%nat /\ (length q + length waste' + length u2 = length waste + length (c :: u))%nat).
  { destruct (IH u (outp ++ [c]) w rest) as (q & w' & u2 & Hr & Hm & Hu2 & Hle & Hlen); [done|cbn in Hf; lia|].
    exists (c :: q), w', u2. rewrite <- Hn, <- Hlo, Hr, Hm. rewrite <- (app_assoc outp [c] q). cbn [app length].
    split_and!; [done|done|done|lia|lia]. }
  destruct (beq c x22) eqn:Eq.
  { apply beq_true in Eq. subst c. rewrite poke_again. cbn [mbind option_bind].
    exists [x22], w, u. rewrite Hn, Hlo. cbn [length app].
    split_and!; [done|done|done|lia|lia]. }
  destruct (beq c "\"); [|exact Hrec].
  destruct u as [|d u]; cbn [app lookup list_lookup mbind option_bind].
  { exact Hrec. }
  apply no_nul_cons in Hu as [Hd Hu]. destruct (beq d x22) eqn:Ed; [|exact Hrec].
  destruct (push_staged (outp ++ [c]) w d u rest) as (w2 & Hp & Hw2 & Hn2 & _). rewrite <- Hlo, Hp. cbn [mbind option_bind].
  destruct (IH u ((outp ++ [c]) ++ [d]) w2 rest) as (q & w' & u2 & Hr & Hm & Hu2 & Hle & Hlen); [done|cbn in Hf; lia|].
  exists (c :: d :: q), w', u2.
  replace (length (outp ++ waste) + 2)%nat with (length (((outp ++ [c]) ++ [d]) ++ w2)) by lia.
  replace (length outp + 2)%nat with (length ((outp ++ [c]) ++ [d])) by (rewrite length_snoc; lia).
  rewrite Hr, Hm, <- !app_assoc. cbn [app length]. split_and!; [done|done|done|lia|lia].
Qed.

(** What is skipped becomes waste. *)
Lemma staged_skip k outp waste u rest :
  (k <= length u)%nat ->
  staged outp waste u rest = staged outp (waste ++ take k u) (drop k u) rest
  /\ (length (outp ++ waste) + k)%nat = length (outp ++ waste ++ take k u).
Proof.
  intros Hk. split.
  - unfold staged. by rewrite <- !app_assoc, (app_assoc (take k u)), take_drop.
  - rewrite !length_app, length_take. lia.
Qed.

(** Where [minify_loop] ends from a staged block. *)
Definition ends (fuel : nat) (outp waste u rest result : bytes) : Prop :=
  exists tail, minify_loop fuel (staged outp waste u rest) (length (outp ++ waste)) (length outp)
    = Some (outp ++ result ++ NUL :: tail ++ rest)
    /\ (length result + length tail = length waste + length u)%nat.

Lemma ends_skip k fuel outp waste u rest :
  (k <= length u)%nat -> ends fuel outp (waste ++ take k u) (drop k u) rest (minified Code (drop k u)) ->
  exists tail, minify_loop fuel (staged outp waste u rest) (length (outp ++ waste) + k) (length outp)
    = Some (outp ++ minified Code (drop k u) ++ NUL :: tail ++ rest)
    /\ (length (minified Code (drop k u)) + length tail = length waste + length u)%nat.
Proof.
  intros Hk (tail & Hr & Hl). destruct (staged_skip k outp waste u rest Hk) as [-> ->].
  exists tail. split; [done|]. rewrite length_app, length_take, length_drop in Hl. lia.
Qed.

Lemma minify_loop_spec fuel : forall u outp waste rest, no_nul u -> (length u < fuel)%nat ->
  ends fuel outp waste u rest (minified Code u).
Proof.
  induction fuel as [|fuel IH]; intros u outp waste rest Hu Hf; [lia|]. unfold ends. cbn [minify_loop].
  destruct u as [|c u].
  { rewrite staged_end. destruct (push outp waste NUL rest) as (w & Hp & Hw & _). cbn [mbind option_bind].
    change (beq NUL NUL) with true. cbn iota. unfold staged. cbn [app]. rewrite Hp. exists w.
    rewrite <- app_assoc. cbn. split; [done|lia]. }
  assert (Hu' := Hu). apply no_nul_cons in Hu' as [Hc Hu']. rewrite staged_head. cbn [mbind option_bind].
  rewrite beq_nul by done. cbn [minified].
  (* a byte, or several, are left out *)
  assert (Hskip : forall k, (0 < k <= length (c :: u))%nat ->
    exists tail, minify_loop fuel (staged outp waste (c :: u) rest) (length (outp ++ waste) + k) (length outp)
      = Some (outp ++ minified Code (drop k (c :: u)) ++ NUL :: tail ++ rest)
      /\ (length (minified Code (drop k (c :: u))) + length tail = length waste + length (c :: u))%nat).
  { intros k Hk. apply ends_skip; [lia|]. apply IH; [by apply Forall_drop|]. rewrite length_drop. cbn in *. lia. }
  assert (Hone := Hskip 1%nat ltac:(cbn; lia)). rewrite Nat.add_1_r in Hone. cbn [drop] in Hone.
  assert (Hcom : forall m loop, skips m loop -> forall d u2, u = d :: u2 ->
    exists tail, (json ← loop fuel (staged outp waste (c :: u) rest) (length (outp ++ waste) + 2);
                  minify_loop fuel (staged outp waste (c :: u) rest) json (length outp))%nat
      = Some (outp ++ minified m u2 ++ NUL :: tail ++ rest)
      /\ (length (minified m u2) + length tail = length waste + length (c :: u))%nat).
  { intros m loop Hs d u2 ->. cbn in Hf. apply no_nul_cons in Hu' as [_ Hu'].
    destruct (Hs u2 fuel (outp ++ waste ++ [c; d]) rest Hu' ltac:(lia)) as (k & Hr & Hk & Hm).
    replace (length (outp ++ waste ++ [c; d])) with (length (outp ++ waste) + 2)%nat in Hr by (rewrite !length_app; cbn; lia).
    replace ((outp ++ waste ++ [c; d]) ++ u2 ++ NUL :: rest) with (staged outp waste (c :: d :: u2) rest) in Hr
      by (unfold staged; by rewrite <- !app_assoc).
    rewrite Hr, Hm. cbn [mbind option_bind]. rewrite <- Nat.add_assoc.
    destruct (Hskip (2 + k)%nat ltac:(cbn; lia)) as (tail & Hr' & Hl'). by exists tail. }
  destruct (is_blank c); [exact Hone|]. destruct (beq c "/").
  { rewrite staged_next. destruct u as [|d u2]; cbn [app lookup list_lookup mbind option_bind].
    - change (beq NUL "/") with false. change (beq NUL "*") with false. cbn iota. exact Hone.
    - destruct (beq d "/"); [by apply (Hcom Line _ skip_oneline_skips d u2)|].
      destruct (beq d "*"); [by apply (Hcom Block _ skip_multiline_skips d u2)|exact Hone]. }
  destruct (push_staged outp waste c u rest) as (w & Hp & Hw & Hn & _ & _).
  assert (Hlo : length (outp ++ [c]) = S (length outp)) by apply length_snoc.
  destruct (beq c x22).
  - unfold minify_string. rewrite staged_head. cbn [mbind option_bind]. rewrite Hp. cbn [mbind option_bind].
    rewrite <- Hn, <- Hlo.
    destruct (minify_string_loop_spec fuel u (outp ++ [c]) w rest) as (q & w' & u2 & -> & Hm & Hu2 & Hle & Hl);
      [done|cbn in Hf; lia|]. cbn [mbind option_bind]. destruct (IH u2 ((outp ++ [c]) ++ q) w' rest) as (tail & Hr & Ht);
      [done|cbn in Hf; lia|]. exists tail. rewrite Hr, Hm, <- !app_assoc. cbn [app length]. rewrite length_app, <- ?app_assoc. split; [done|lia].
  - rewrite Hp. cbn [mbind option_bind]. rewrite <- Hn, <- Hlo.
    destruct (IH u (outp ++ [c]) w rest) as (tail & Hr & Ht); [done|cbn in Hf; lia|].
    exists tail. rewrite Hr, <- !app_assoc. cbn [app length]. split; [done|lia].
Qed.

(** [cJSON_Minify] stays in its block, ends, and leaves what is behind the
    text alone. *)
Lemma minify_spec s rest : no_nul s ->
  exists tail, cJSON_Minify (Some (s ++ NUL :: rest)) = Some (Some (minified Code s ++ NUL :: tail ++ rest))
    /\ (length (minified Code s) + length tail = length s)%nat.
Proof.
  intros Hs. destruct (minify_loop_spec (minify_fuel (s ++ NUL :: rest)) s [] [] rest Hs) as (tail & Hr & Hl).
  { unfold minify_fuel. rewrite length_app. lia. }
  exists tail. unfold cJSON_Minify. unfold staged in Hr. cbn [app length] in Hr, Hl. rewrite Hr. split; [done|lia].
Qed.

(** ** Unformatting *)

(** A byte that code copies. *)
Definition plain (c : byte) : bool := negb (is_blank c || beq c "/" || beq c x22).

Lemma minified_plain p k : Forall (fun c => plain c = true) p -> minified Code (p ++ k) = p ++ minified Code k.
Proof.
  induction 1 as [|c p Hc _ IH]; [done|]. cbn [app minified]. unfold plain in Hc.
  apply negb_true_iff in Hc. apply orb_false_iff in Hc as [[Hb Hs]%orb_false_iff Hq]. by rewrite Hb, Hs, Hq, IH.
Qed.

Lemma minified_blank p k : Forall (fun c => is_blank c = true) p -> minified Code (p ++ k) = minified Code k.
Proof. induction 1 as [|c p Hc _ IH]; [done|]. cbn [app minified]. by rewrite Hc. Qed.

(** The forms an escaped byte takes. *)
Definition unquoted (c : byte) : bool := negb (beq c x22 || beq c "\").

Lemma escape_byte_forms c :
  (escape_byte c = [c] /\ unquoted c = true)
  \/ (c = "\"%byte /\ escape_byte c = str "\\")
  \/ (c = x22 /\ escape_byte c = ["\"%byte; x22])
  \/ exists d t, escape_byte c = "\"%byte :: d :: t /\ unquoted d = true /\ Forall (fun c => unquoted c = true) t.
Proof.
  set (P := fun c => (bool_decide (escape_byte c = [c]) && unquoted c)
    || (beq c "\" && bool_decide (escape_byte c = str "\\"))
    || (beq c x22 && bool_decide (escape_byte c = ["\"%byte; x22]))
    || match escape_byte c with b :: d :: t => beq b "\" && forallb unquoted (d :: t) | _ => false end).
  pose proof (byte_forall P eq_refl c) as H. unfold P in H.
  apply orb_true_iff in H as [H|H]; [apply orb_true_iff in H as [H|H]; [apply orb_true_iff in H as [H|H]|]|].
  - left. apply andb_true_iff in H as [H1 H2]. by apply bool_decide_eq_true in H1.
  - right; left. apply andb_true_iff in H as [H1 H2]. apply bool_decide_eq_true in H2. by apply beq_true in H1.
  - right; right; left. apply andb_true_iff in H as [H1 H2]. apply bool_decide_eq_true in H2. by apply beq_true in H1.
  - right; right; right. destruct (escape_byte c) as [|b [|d t]]; [done..|]. apply andb_true_iff in H as [H1 H2].
    apply beq_true in H1 as ->. cbn [forallb] in H2. apply andb_true_iff in H2 as [H2 H3]. exists d, t.
    split_and!; [done|done|]. apply Forall_forall. intros x Hx. apply (proj1 (forallb_forall _ _) H3). by apply list_elem_of_In.
Qed.

Lemma quoted_plain p k : Forall (fun c => unquoted c = true) p -> minified Quoted (p ++ k) = p ++ minified Quoted k.
Proof.
  induction 1 as [|c p Hc _ IH]; [done|]. cbn [app minified]. unfold unquoted in Hc.
  apply negb_true_iff in Hc. apply orb_false_iff in Hc as [Hq Hb]. by rewrite Hq, Hb, IH.
Qed.

(** An escaped text never starts with the quote that would close it. *)
Lemma escaped_head s k : s <> [] ->
  exists d t, concat (map escape_byte s) ++ k = d :: t /\ beq d x22 = false.
Proof.
  destruct s as [|c s]; [done|]. intros _. cbn [map concat].
  destruct (escape_byte_forms c) as [[-> Hc]|[[_ ->]|[[_ ->]|(d & t & -> & _)]]]; cbn; eexists _, _; (split; [done|]); try done.
  unfold unquoted in Hc. apply negb_true_iff in Hc. by apply orb_false_iff in Hc as [? _].
Qed.

Lemma quoted_backslash d u : beq d x22 = false ->
  minified Quoted ("\"%byte :: d :: u) = "\"%byte :: minified Quoted (d :: u).
Proof. intros E. cbn. by rewrite E. Qed.

Lemma minified_escaped s k : last s <> Some "\"%byte ->
  minified Quoted (concat (map escape_byte s) ++ x22 :: k) = concat (map escape_byte s) ++ x22 :: minified Code k.
Proof.
  induction s as [|c s IH]; intros Hl; [done|]. cbn [map concat].
  assert (Hl' : last s <> Some "\"%byte) by (destruct s; [done|exact Hl]).
  rewrite <- !app_assoc. specialize (IH Hl').
  destruct (escape_byte_forms c) as [[-> Hc]|[[-> ->]|[[-> ->]|(d & t & -> & Hd & Ht)]]].
  - rewrite quoted_plain by by repeat constructor. by rewrite IH.
  - assert (Hs : s <> []) by by intros ->. cbn [app str]. cbn.
    destruct (escaped_head s (x22 :: k) Hs) as (d & t & E & Hd). rewrite E in *. rewrite Hd. by rewrite IH.
  - cbn. by rewrite IH.
  - cbn [app]. rewrite quoted_backslash by (unfold unquoted in Hd; apply negb_true_iff in Hd; by apply orb_false_iff in Hd as [? _]).
    change (d :: t ++ concat (map escape_byte s) ++ x22 :: k) with ((d :: t) ++ concat (map escape_byte s) ++ x22 :: k).
    rewrite quoted_plain by by constructor. by rewrite IH.
Qed.

(** Strings that do not end with a backslash. *)
Definition closed (s : option bytes) : bool := negb (bool_decide (last (cstr (default [] s)) = Some "\"%byte)).

Lemma minified_string s k : closed s = true -> minified Code (render_string s ++ k) = render_string s ++ minified Code k.
Proof.
  unfold closed. intros Hs%negb_true_iff%bool_decide_eq_false. destruct s as [s|]; [|done].
  cbn [render_string app default] in *. cbn [minified]. change (is_blank x22) with false. change (beq x22 "/") with false.
  change (beq x22 x22) with true. cbn iota. rewrite <- !app_assoc. cbn [app]. by rewrite minified_escaped.
Qed.

(** Items without raw text in which no string or key ends with a backslash. *)
Fixpoint minifiable (i : cJSON) : bool :=
  let t := Z.land i.(type) 255 in
  if (t =? cJSON_NULL) || (t =? cJSON_False) || (t =? cJSON_True) || (t =? cJSON_Number) then true
  else if t =? cJSON_Raw then false
  else if t =? cJSON_String then closed i.(valuestring)
  else if t =? cJSON_Array then forallb minifiable i.(child)
  else forallb (fun c => closed c.(name) && minifiable c) i.(child).

Lemma plain_str s : forallb plain (str s) = true -> Forall (fun c => plain c = true) (str s).
Proof. intros H. apply Forall_forall. intros c Hc. apply (proj1 (forallb_forall _ _) H). by apply list_elem_of_In. Qed.

Lemma number_text_plain i : Forall (fun c => plain c = true) (number_text i).
Proof.
  destruct (isnan i.(valuedouble) || isinf i.(valuedouble)) eqn:E.
  - unfold number_text. rewrite E. by apply plain_str.
  - eapply Forall_impl; [by apply number_text_numerals|]. intros b. by_bytes b.
Qed.

Lemma tabs_blank n : Forall (fun c => is_blank c = true) (tabs n).
Proof. by apply Forall_replicate. Qed.

(** A token is copied, a separator reduced. *)
Ltac copy_token :=
  match goal with
  | |- minified Code (str ?s ++ _) = _ => rewrite (minified_plain (str s)) by by apply plain_str
  | |- minified Code (tabs ?n ++ _) = _ => rewrite (minified_blank (tabs n)) by apply tabs_blank
  | |- minified Code ([?c] ++ _) = _ => rewrite (minified_blank [c]) by by repeat constructor
  | |- _ = [] ++ _ => rewrite app_nil_l
  | |- ?p ++ _ = ?p ++ _ => f_equal
  end.

Lemma minified_render item : forall d k, minifiable item = true ->
  minified Code (render true d item ++ k) = render false d item ++ minified Code k.
Proof.
  induction item as [t vs vi vd n ch IH] using cJSON_ind'. intros d k. cbn [minifiable render type valuestring child].
  set (ty := Z.land t 255).
  destruct (ty =? cJSON_NULL); [intros _; by rewrite minified_plain by by apply plain_str|].
  destruct (ty =? cJSON_False); [intros _; by rewrite minified_plain by by apply plain_str|].
  destruct (ty =? cJSON_True); [intros _; by rewrite minified_plain by by apply plain_str|].
  destruct (ty =? cJSON_Number); [intros _; rewrite minified_plain by apply number_text_plain; done|].
  destruct (ty =? cJSON_Raw); [done|]. cbn [orb].
  destruct (ty =? cJSON_String); [intros Hc; by apply minified_string|].
  destruct (ty =? cJSON_Array); intros Hm; rewrite <- !app_assoc.
  - copy_token. copy_token. revert Hm k. induction IH as [|c l Hc _ IHl]; intros Hm k.
    { cbn [render_elements app]. by rewrite minified_plain by by apply plain_str. }
    cbn [forallb] in Hm. apply andb_true_iff in Hm as [Hm1 Hm2]. cbn [render_elements].
    rewrite <- !app_assoc, Hc by done. copy_token. rewrite <- (IHl Hm2). destruct l as [|c' l]; [done|].
    rewrite <- !app_assoc. copy_token. by copy_token.
  - do 4 copy_token. revert Hm k. induction IH as [|c l Hc _ IHl]; intros Hm k.
    { cbn [render_members app]. copy_token. by rewrite minified_plain by by apply plain_str. }
    cbn [forallb] in Hm. apply andb_true_iff in Hm as [Hm1 Hm2]. apply andb_true_iff in Hm1 as [Hn Hm1]. cbn [render_members].
    rewrite <- !app_assoc. do 2 copy_token. rewrite minified_string by done. do 5 copy_token.
    rewrite Hc by done. copy_token. rewrite <- (IHl Hm2). destruct l as [|c' l]; by repeat copy_token.
Qed.

(** ** Property *)

(** An array of a string that is one backslash, and a number. *)
Definition backslash_item : cJSON :=
  Item cJSON_Array None 0 dzero None
    [Item cJSON_String (Some (str "\")) 0 dzero None []; Item cJSON_Number None 1 (of_Z 1) None []].


