(* ===== verification/JsonCopy.v ===== *)
(** * cJSON.c: duplicating

    [cJSON_Duplicate] on the nodes of [JsonList]. [malloc] takes a location
    nothing uses. The recursion and the loop over siblings run on one fuel,
    proved enough for every item on the heap. *)

From S2P Require Import Prelude CString Double Json JsonList JsonEdit.
From stdpp Require Import gmap.
Local Open Scope Z_scope.

Definition CJSON_CIRCULAR_LIMIT : Z := 10000.

Section Duplicate.
Variable malloc_ok : Z -> bool.

(** A constructor's item, if there is one, as a node. *)
Definition create (i : option cJSON) (h : heap) : option loc * heap :=
  match i with
  | Some i => let l := fresh (dom h) in (Some l, <[l := MkNode None None None i]> h)
  | None => (None, h)
  end.
Definition new_node : heap -> option loc * heap := create (cJSON_New_Item malloc_ok).

(** An assignment to the fields of a node. *)
Definition assign_data (l : loc) (f : cJSON -> cJSON) : heap -> option heap := upd l (fun n => set_data (f (data n)) n).

(** The copies of [valuestring] and of the key: [None] when memory runs out. *)
Definition copy_valuestring (d : cJSON) : option (option bytes) :=
  match valuestring d with
  | Some _ => Some <$> cJSON_strdup malloc_ok (valuestring d)
  | None => Some None
  end.
Definition copy_key (d : cJSON) : option (option bytes) :=
  match name d with
  | Some _ => if negb (Z.land (type d) cJSON_StringIsConst =? 0) then Some (name d)
              else Some <$> cJSON_strdup malloc_ok (name d)
  | None => Some None
  end.

Fixpoint cJSON_Duplicate_rec (fuel : nat) (item : option loc) (depth : Z) (recurse : bool) (h : heap)
    : option (option loc * heap) :=
  match fuel, item with
  | O, _ => None
  | _, None => Some (None, h)
  | S fuel, Some item =>
      n ← h !! item;
      match new_node h with
      | (None, h) => Some (None, h)
      | (Some newitem, h) =>
          let fail h := h ← cJSON_Delete (Some newitem) h; Some (None, h) in
          let d := data n in
          h ← assign_data newitem (set_type (Z.land (type d) (Z.lnot cJSON_IsReference))) h;
          h ← assign_data newitem (set_valueint (valueint d)) h;
          h ← assign_data newitem (set_valuedouble (valuedouble d)) h;
          match copy_valuestring d with
          | None => fail h
          | Some vs =>
              h ← assign_data newitem (set_valuestring vs) h;
              match copy_key d with
              | None => fail h
              | Some key =>
                  h ← assign_data newitem (set_name key) h;
                  if negb recurse then Some (Some newitem, h)
                  else
                    '(ok, newchild, h) ← duplicate_children fuel (kids n) depth newitem None h;
                    if ok : bool then
                      nn ← h !! newitem;
                      h ← (match kids nn with Some c => upd c (set_prev newchild) h | None => Some h end);
                      Some (Some newitem, h)
                    else fail h
              end
          end
      end
  end
(** The loop over the children; [last] is the last copy. *)
with duplicate_children (fuel : nat) (child : option loc) (depth : Z) (newitem : loc) (last : option loc) (h : heap)
    : option (bool * option loc * heap) :=
  match fuel, child with
  | O, _ => None
  | _, None => Some (true, last, h)
  | S fuel, Some c =>
      if CJSON_CIRCULAR_LIMIT <=? depth then Some (false, last, h)
      else
        '(newchild, h) ← cJSON_Duplicate_rec fuel child (depth + 1) true h;
        match newchild with
        | None => Some (false, last, h)
        | Some nc =>
            h ← (match last with
                 | Some x => suffix_object x nc h
                 | None => upd newitem (set_kids (Some nc)) h
                 end);
            n ← h !! c;
            duplicate_children fuel (next n) depth newitem (Some nc) h
        end
  end.

Definition cJSON_Duplicate (fuel : nat) (item : option loc) (recurse : bool) (h : heap) : option (option loc * heap) :=
  cJSON_Duplicate_rec fuel item 0 recurse h.
End Duplicate.


(** ** Duplicating: what it computes *)

Section Duplicated.
Variable malloc_ok : Z -> bool.

Fixpoint nodes (t : tree) : nat := S (list_sum (map nodes (subtrees t))).

(** Whether the texts of a node can be copied, and its copy. *)
Definition texts_copied (d : cJSON) : bool :=
  malloc_ok sizeof_cJSON && bool_decide (is_Some (copy_valuestring malloc_ok d)) && bool_decide (is_Some (copy_key malloc_ok d)).
Definition copied (d : cJSON) : cJSON :=
  Item (Z.land (type d) (Z.lnot cJSON_IsReference)) (default None (copy_valuestring malloc_ok d)) (valueint d) (valuedouble d)
    (default None (copy_key malloc_ok d)) [].

Fixpoint duplicable (depth : Z) (t : tree) : bool :=
  texts_copied (fields t)
  && forallb (fun u => negb (CJSON_CIRCULAR_LIMIT <=? depth) && duplicable (depth + 1) u) (subtrees t).

Inductive copy_of : tree -> tree -> Prop :=
| CopyOf a d ts b us : Forall2 copy_of ts us -> copy_of (Tree a d ts) (Tree b (copied d) us).

(** Nodes [ls] are added. *)
Definition grown (h h' : heap) (ls : list loc) : Prop :=
  (forall l, l ∉ ls -> h' !! l = h !! l) /\ (forall l, l ∈ ls -> h !! l = None).

Lemma grown_old h h' ls l n : grown h h' ls -> h !! l = Some n -> h' !! l = Some n.
Proof. intros [H1 H2] Hl. rewrite H1; [done|]. intros Hin%H2. congruence. Qed.

Lemma grown_trans h h1 h2 ls ms : grown h h1 ls -> grown h1 h2 ms -> grown h h2 (ls ++ ms).
Proof.
  intros [H1 H2] [H3 H4]. split.
  - intros l Hl. rewrite H3, H1; set_solver.
  - intros l [Hl|Hl]%elem_of_app; [by apply H2|]. destruct (decide (l ∈ ls)); [by apply H2|]. rewrite <- H1 by done. by apply H4.
Qed.

Lemma grown_stored h h' ls t : grown h h' ls -> stored h t -> stored h' t.
Proof.
  intros Hg Hs. apply (stored_agree h); [|done]. intros l Hl. destruct (locs_alive _ _ _ Hs Hl) as [n Hn].
  rewrite Hn. by apply (grown_old h h' ls).
Qed.

Lemma grown_freed h h' ls h'' : grown h h' ls -> without h' ls h'' -> h'' = h.
Proof.
  intros [H1 H2] Hw. apply map_eq. intros l. rewrite Hw. case_decide; [by rewrite H2|by apply H1].
Qed.

Lemma upd_inv l f h h' : upd l f h = Some h' -> forall x, x <> l -> h' !! x = h !! x.
Proof. unfold upd. destruct (h !! l); [|done]. intros [= <-] x Hx. by apply lookup_insert_ne. Qed.

Lemma upd_insert l f n h : upd l f (<[l := n]> h) = Some (<[l := f n]> h).
Proof. unfold upd. rewrite lookup_insert_eq. cbn. by rewrite insert_insert_eq. Qed.

Lemma assign_insert l f n p k d h : assign_data l f (<[l := MkNode n p k d]> h) = Some (<[l := MkNode n p k (f d)]> h).
Proof. apply upd_insert. Qed.

(** A copy under construction: its children so far, not yet closed. *)
Record building (h0 h : heap) (a : loc) (d : cJSON) (us : list tree) : Prop := {
  b_grown : grown h0 h (a :: forest_locs us);
  b_node : h !! a = Some (MkNode None None (head (map root us)) d);
  b_stored : Forall (stored h) us;
  b_NoDup : NoDup (a :: forest_locs us);
  b_next : forall i u, us !! i = Some u -> nx h (root u) = root <$> us !! S i;
  b_prev : forall i u, us !! S i = Some u -> pv h (root u) = root <$> us !! i;
  b_owned : Forall unshared us }.

(** Giving it up frees every node of it. *)
Lemma building_freed h0 h a d us :
  building h0 h a d us -> Z.land (type d) cJSON_IsReference = 0 -> cJSON_Delete (Some a) h = Some h0.
Proof.
  intros Hb Hd. pose proof (b_node _ _ _ _ _ Hb) as Ha. unfold cJSON_Delete. cbn [delete_nodes].
  rewrite Ha. cbn [mbind option_bind data kids next]. rewrite Hd. cbn [Z.eqb].
  pose proof (b_NoDup _ _ _ _ _ Hb) as Hn. pose proof Hn as [Hna Hnu]%NoDup_cons.
  assert (Hsize : (length (a :: forest_locs us) <= size h)%nat).
  { rewrite <- (size_list_to_set (C := gset loc)) by done. rewrite <- size_dom. apply subseteq_size.
    intros l [->|Hl]%elem_of_list_to_set%elem_of_cons; [by apply elem_of_dom|].
    apply elem_of_forest in Hl as (u & Hu & Hl). pose proof (b_stored _ _ _ _ _ Hb) as Hs. rewrite Forall_forall in Hs.
    apply elem_of_dom. by apply (locs_alive h u l (Hs u Hu)). }
  cbn [length] in Hsize.
  destruct (delete_nodes_spec (size h) us h) as (h1 & -> & Hw); [apply Hb|apply Hb|done|apply Hb|lia|].
  cbn [mbind option_bind]. destruct (size h); [lia|]. cbn [delete_nodes]. f_equal.
  apply (grown_freed h0 h (a :: forest_locs us)); [apply Hb|]. intros l. destruct (decide (l = a)) as [->|Hl].
  - rewrite lookup_delete_eq, decide_True; [done|left].
  - rewrite lookup_delete_ne by done. rewrite Hw. by repeat case_decide; set_solver.
Qed.

(** Appending a copy of the next child. *)
Section Append.
Context (h0 h h1 : heap) (a : loc) (d : cJSON) (us : list tree) (u : tree).
Hypotheses (Hb : building h0 h a d us) (Hg : grown h h1 (locs u)) (Hu : stored h1 u) (Hnd : NoDup (locs u))
  (Hx : nx h1 (root u) = None) (Hun : unshared u).

Let Hna : a ∉ forest_locs us.
Proof. by pose proof (b_NoDup _ _ _ _ _ Hb) as [? _]%NoDup_cons. Qed.

Let Hin i v : us !! i = Some v -> root v ∈ a :: forest_locs us.
Proof. intros Hv. right. apply elem_of_forest. exists v. split; [by eapply list_elem_of_lookup_2|apply root_in]. Qed.

Lemma append_disjoint l : l ∈ a :: forest_locs us -> l ∉ locs u.
Proof.
  intros Hl Hlu. destruct Hg as [_ Hg2]. specialize (Hg2 l Hlu). pose proof (b_node _ _ _ _ _ Hb) as Ha.
  apply elem_of_cons in Hl as [->|Hl]; [congruence|]. apply elem_of_forest in Hl as (v & Hv & Hl).
  pose proof (b_stored _ _ _ _ _ Hb) as Hs. rewrite Forall_forall in Hs. destruct (locs_alive h v l (Hs v Hv) Hl). congruence.
Qed.

Let Hau : a <> root u.
Proof. intros Ea. apply (append_disjoint a ltac:(left)). rewrite Ea. apply root_in. Qed.

Lemma append_same l : l ∈ a :: forest_locs us -> h1 !! l = h !! l.
Proof. intros Hl. by apply Hg, append_disjoint. Qed.

Lemma append_forest : forest_locs (us ++ [u]) = forest_locs us ++ locs u.
Proof. rewrite forest_app. unfold forest_locs at 2. cbn. by rewrite app_nil_r. Qed.

Lemma append_NoDup : NoDup (a :: forest_locs (us ++ [u])).
Proof.
  rewrite append_forest. apply (NoDup_app (a :: forest_locs us) (locs u)).
  split_and!; [apply Hb|intros l; apply append_disjoint|done].
Qed.

Lemma append_stored R A h2 :
  relinked R A h1 h2 -> (forall l, l ∈ A -> l = a) -> (forall l, l ∈ R -> l ∈ map root (us ++ [u])) ->
  Forall (stored h2) (us ++ [u]).
Proof.
  intros Hr HA HR. pose proof append_NoDup as [Hno Hn2]%NoDup_cons.
  assert (Hst1 : Forall (stored h1) (us ++ [u])).
  { apply Forall_app. split; [|by apply Forall_singleton]. eapply Forall_impl; [apply Hb|]. intros v. by apply (grown_stored h h1 (locs u)). }
  rewrite Forall_forall in *. intros v Hv. apply (stored_relinked R A h1); [done|by apply Hst1| |].
  - intros l Hl Hl'. apply HA in Hl' as ->. apply Hno, elem_of_forest. by exists v.
  - intros l Hl Hl'. by apply (roots_not_below _ _ _ Hn2 Hv Hl), HR.
Qed.

Lemma append_grown h2 :
  (forall l, l ∉ a :: forest_locs (us ++ [u]) -> h2 !! l = h1 !! l) -> grown h0 h2 (a :: forest_locs (us ++ [u])).
Proof.
  intros Hh2. destruct (grown_trans h0 h h1 (a :: forest_locs us) (locs u)) as [G1 G2]; [apply Hb|done|].
  rewrite append_forest in *. split; [|done]. intros l Hl. rewrite Hh2 by done. by apply G1.
Qed.

Lemma append_owned : Forall unshared (us ++ [u]).
Proof. apply Forall_app. split; [apply Hb|by apply Forall_singleton]. Qed.

Lemma append_first : us = [] -> exists h2, upd a (set_kids (Some (root u))) h1 = Some h2 /\ building h0 h2 a d (us ++ [u]).
Proof.
  intros Hus. pose proof (b_node _ _ _ _ _ Hb) as Ha. unfold upd. rewrite append_same, Ha by left. cbn [mbind option_bind]. eexists. split; [done|].
  constructor; [| | |apply append_NoDup| | |apply append_owned].
  - apply append_grown. intros l Hno. apply lookup_insert_ne. intros <-. apply Hno. left.
  - rewrite lookup_insert_eq. by rewrite Hus.
  - apply (append_stored [] [a]).
    + intros l. unfold dt, kd, nx, pv. destruct (decide (l = a)) as [->|Hl]; [|by rewrite lookup_insert_ne].
      rewrite lookup_insert_eq, append_same, Ha by left. split_and!; [done|set_solver|done].
    + by intros l ->%list_elem_of_singleton.
    + by intros l ?%not_elem_of_nil.
  - rewrite Hus. intros [|i] w Hw; [|done]. injection Hw as <-. unfold nx. by rewrite lookup_insert_ne by done.
  - rewrite Hus. by intros [|i] w Hw.
Qed.

(** Locations of children are told apart by their index. *)
Let last_index i w v : us !! pred (length us) = Some v -> (us ++ [u]) !! i = Some w -> root w = root v -> i = pred (length us).
Proof.
  intros Hv Hw Er. assert (Hroots : NoDup (map root (us ++ [u]))).
  { apply NoDup_roots. by pose proof append_NoDup as [_ ?]%NoDup_cons. }
  apply (NoDup_lookup _ _ _ (root v) Hroots).
  - rewrite list_lookup_fmap, Hw. cbn. by rewrite Er.
  - rewrite list_lookup_fmap, lookup_app_l, Hv; [done|by eapply lookup_lt_Some].
Qed.

Lemma append_next v :
  us !! pred (length us) = Some v -> exists h2, suffix_object (root v) (root u) h1 = Some h2 /\ building h0 h2 a d (us ++ [u]).
Proof.
  intros Hv. pose proof (b_node _ _ _ _ _ Hb) as Ha. pose proof (lookup_lt_Some _ _ _ Hv) as Hlen.
  assert (Hva : is_Some (dt h1 (root v))).
  { destruct (locs_alive h1 v (root v)) as [n Hn]; [|apply root_in|unfold dt; rewrite Hn; by eexists].
    apply (grown_stored h h1 (locs u)); [done|]. pose proof (b_stored _ _ _ _ _ Hb) as Hs. rewrite Forall_lookup in Hs. by apply (Hs _ _ Hv). }
  assert (Hua : is_Some (dt h1 (root u))) by (unfold dt; destruct (locs_alive _ _ _ Hu (root_in u)) as [n ->]; by eexists).
  assert (Hav : a <> root v) by (intros Ea; apply Hna; rewrite Ea; apply roots_in, list_elem_of_fmap_2; by eapply list_elem_of_lookup_2).
  unfold suffix_object. destruct (upd_next h1 (root v) (Some (root u)) Hva) as (h2 & Hup1 & N1 & P1 & K1 & D1).
  rewrite Hup1. cbn [mbind option_bind].
  destruct (upd_prev h2 (root u) (Some (root v))) as (h3 & Hup2 & N2 & P2 & K2 & D2); [by rewrite D1|].
  exists h3. split; [done|]. pose proof (upd_inv _ _ _ _ Hup1) as I1. pose proof (upd_inv _ _ _ _ Hup2) as I2.
  constructor; [| | |apply append_NoDup| | |apply append_owned].
  - apply append_grown. intros l Hno. rewrite I2, I1; [done| |]; intros ->; apply Hno; right; apply roots_in, list_elem_of_fmap_2.
    + apply elem_of_app. left. by eapply list_elem_of_lookup_2.
    + set_solver.
  - rewrite I2, I1, append_same, Ha by first [done|left]. do 2 f_equal. by destruct us.
  - apply (append_stored [root v; root u] [] h3); [|by intros ? ?%not_elem_of_nil|].
    + intros l. split_and!; [by rewrite D2, D1|by rewrite K2, K1|]. intros Hno. rewrite N2, P2, N1, P1.
      by rewrite !decide_False by set_solver.
    + intros l [->| ->%list_elem_of_singleton]%elem_of_cons; rewrite map_app; apply elem_of_app; [left|right; set_solver].
      apply list_elem_of_fmap_2. by eapply list_elem_of_lookup_2.
  - intros i w Hw. rewrite N2, N1. case_decide as Ew.
    { rewrite (last_index i w v Hv Hw Ew), lookup_app_r by lia. by replace (S (pred (length us)) - length us)%nat with 0%nat by lia. }
    apply lookup_app_Some in Hw as [Hw|[Hge Hw]].
    + assert (Hi : (S i < length us)%nat).
      { pose proof (lookup_lt_Some _ _ _ Hw). destruct (decide (i = pred (length us))) as [->|]; [|lia]. congruence. }
      rewrite lookup_app_l by done. unfold nx. rewrite append_same by (by eapply Hin). by apply (b_next _ _ _ _ _ Hb).
    + destruct (i - length us)%nat as [|j] eqn:Ej; [|done]. injection Hw as <-. rewrite Hx.
      by rewrite lookup_ge_None_2 by (rewrite length_app; cbn; lia).
  - intros i w Hw. rewrite P2, P1. apply lookup_app_Some in Hw as [Hw|[Hge Hw]].
    + rewrite decide_False by (intros Ew; apply (append_disjoint (root w) (Hin _ _ Hw)); rewrite Ew; apply root_in).
      rewrite lookup_app_l by (apply lookup_lt_Some in Hw; lia). unfold pv. rewrite append_same by (by eapply Hin). by apply (b_prev _ _ _ _ _ Hb).
    + destruct (S i - length us)%nat as [|j] eqn:Ej; [|done]. injection Hw as <-. rewrite decide_True by done.
      rewrite lookup_app_l by lia. by replace i with (pred (length us)) by lia; rewrite Hv.
Qed.

Lemma building_append :
  exists h2, match last (map root us) with
             | Some x => suffix_object x (root u) h1
             | None => upd a (set_kids (Some (root u))) h1
             end = Some h2 /\ building h0 h2 a d (us ++ [u]).
Proof.
  destruct (last (map root us)) as [x|] eqn:Hl; [|apply last_None in Hl; apply append_first; by destruct us].
  rewrite last_lookup, length_map in Hl. apply list_lookup_fmap_Some in Hl as (v & -> & Hv). by apply append_next.
Qed.
End Append.

(** ** The two recursions *)

(** What [cJSON_Duplicate_rec] returns for an item. *)
Definition dup_result (t : tree) (depth : Z) (h : heap) (r : option (option loc * heap)) : Prop :=
  if duplicable depth t then
    exists u h', r = Some (Some (root u), h') /\ copy_of t u /\ grown h h' (locs u) /\ item_at h' u
      /\ nx h' (root u) = None /\ pv h' (root u) = None /\ unshared u
  else r = Some (None, h).

(** What the loop returns, from a copy with children [us]. *)
Definition loop_result (ts us : list tree) (depth : Z) (h0 : heap) (a : loc) (d : cJSON) (r : option (bool * option loc * heap)) : Prop :=
  exists vs h', building h0 h' a d (us ++ vs)
    /\ if forallb (fun u => negb (CJSON_CIRCULAR_LIMIT <=? depth) && duplicable (depth + 1) u) ts
       then r = Some (true, last (map root (us ++ vs)), h') /\ Forall2 copy_of ts vs
       else exists l, r = Some (false, l, h').

Lemma copied_owned d : Z.land (type (copied d)) cJSON_IsReference = 0.
Proof.
  unfold copied. cbn [type]. rewrite <- Z.land_assoc. replace (Z.land (Z.lnot cJSON_IsReference) cJSON_IsReference) with 0 by done.
  apply Z.land_0_r.
Qed.

Lemma copy_unshared t u : copy_of t u -> unshared u.
Proof.
  revert u. induction t as [a d ts IH] using tree_ind'. intros u Hc. inversion Hc as [? ? ? b us Hus]; subst.
  constructor; [apply copied_owned|]. clear Hc. revert us Hus. induction IH as [|t ts Ht Hts IHts]; intros us Hus; inversion Hus; subst; constructor; auto.
Qed.

Lemma building_empty h a d : h !! a = None -> building h (<[a := MkNode None None None d]> h) a d [].
Proof.
  intros Ha. constructor; [|by rewrite lookup_insert_eq|done|repeat constructor; by intros ?%not_elem_of_nil|done|done|done].
  split; [intros l Hl; apply lookup_insert_ne; set_solver|]. by intros l ->%list_elem_of_singleton.
Qed.

(** [child->prev] is set last. *)
Lemma building_closed h0 h a d us :
  building h0 h a d us ->
  exists h', match head (map root us) with Some c => upd c (set_prev (last (map root us))) h | None => Some h end = Some h'
    /\ grown h0 h' (locs (Tree a d us)) /\ item_at h' (Tree a d us) /\ nx h' a = None /\ pv h' a = None.
Proof.
  intros Hb. pose proof (b_node _ _ _ _ _ Hb) as Ha. pose proof (b_NoDup _ _ _ _ _ Hb) as Hn. pose proof Hn as [Hna Hnu]%NoDup_cons.
  destruct us as [|u us]; cbn [map head].
  - exists h. unfold nx, pv. rewrite Ha. split_and!; [done|apply Hb| |done|done]. split; [|done].
    constructor; [unfold dt; by rewrite Ha|unfold kd; by rewrite Ha|by intros i l Hi|done].
  - pose proof (b_stored _ _ _ _ _ Hb) as Hs. rewrite Forall_forall in Hs.
    assert (Hua : is_Some (dt h (root u))).
    { destruct (locs_alive h u (root u) (Hs u ltac:(left)) (root_in u)) as [n Hn']. unfold dt. rewrite Hn'. by eexists. }
    change (root u :: map root us) with (map root (u :: us)).
    destruct (upd_prev h (root u) (last (map root (u :: us))) Hua) as (h' & Hup & N & P & K & D).
    exists h'. split; [done|]. pose proof (upd_inv _ _ _ _ Hup) as I.
    assert (Hau : a <> root u) by (intros E; apply Hna; rewrite E; apply roots_in; left).
    split_and!; [| |by rewrite N; unfold nx; rewrite Ha|by rewrite P, decide_False by done; unfold pv; rewrite Ha].
    + destruct (b_grown _ _ _ _ _ Hb) as [G1 G2]. split; [|done]. intros l Hl. rewrite I; [by apply G1|].
      intros ->. apply Hl. right. apply (roots_in (u :: us)). left.
    + split; [|done]. constructor; [by rewrite D; unfold dt; rewrite Ha|by rewrite K; unfold kd; rewrite Ha| |].
      * intros i l Hi. change (map root (u :: us)) with (root <$> u :: us) in *. rewrite N, P.
        apply list_lookup_fmap_Some in Hi as (v & -> & Hv). rewrite list_lookup_fmap. split; [by apply (b_next _ _ _ _ _ Hb)|].
        destruct i as [|i]; [injection Hv as <-; by rewrite decide_True|]. rewrite decide_False.
        -- cbn [before]. rewrite list_lookup_fmap. by apply (b_prev _ _ _ _ _ Hb).
        -- intros E. pose proof (NoDup_roots _ Hnu) as Hnr. apply (NoDup_lookup _ (S i) 0 (root u)) in Hnr; [done| |done].
           change (map root (u :: us)) with (root <$> u :: us). by rewrite list_lookup_fmap, Hv, <- E.
      * rewrite Forall_forall. intros v Hv. apply (stored_relinked [root u] [] h); [|by apply Hs|by intros ? ? ?%not_elem_of_nil|].
        -- intros l. split_and!; [by rewrite D|by rewrite K|]. intros Hno. rewrite N, P, decide_False by set_solver. done.
        -- intros l Hl ->%list_elem_of_singleton. apply (roots_not_below _ _ _ Hnu Hv Hl). left.
Qed.

Lemma source_next h0 h ls t : grown h0 h ls -> stored h0 t -> exists n, h !! root t = Some n /\ next n = nx h0 (root t).
Proof.
  intros Hg Hs. destruct (locs_alive h0 t _ Hs (root_in t)) as [n Hn]. exists n. split; [by apply (grown_old h0 h ls)|].
  unfold nx. by rewrite Hn.
Qed.

Definition recursion_copies (fuel : nat) : Prop := forall t depth h,
  (2 * nodes t <= fuel)%nat -> stored h t ->
  dup_result t depth h (cJSON_Duplicate_rec malloc_ok fuel (Some (root t)) depth true h).

Definition loop_copies (fuel : nat) : Prop := forall ts us depth h0 h a d,
  (S (2 * list_sum (map nodes ts)) <= fuel)%nat -> building h0 h a d us -> Forall (stored h0) ts ->
  (forall i t, ts !! i = Some t -> nx h0 (root t) = root <$> ts !! S i) ->
  loop_result ts us depth h0 a d (duplicate_children malloc_ok fuel (head (map root ts)) depth a (last (map root us)) h).

Lemma loop_step fuel : recursion_copies fuel -> loop_copies fuel -> loop_copies (S fuel).
Proof.
  intros Hrec Hloop ts us depth h0 h a d Hf Hb Hs Hn. destruct ts as [|t ts]; cbn [map head duplicate_children].
  { exists [], h. by rewrite app_nil_r. }
  change (list_sum (map nodes (t :: ts))) with (nodes t + list_sum (map nodes ts))%nat in Hf. assert (1 <= nodes t)%nat by (destruct t; cbn; lia).
  apply Forall_cons in Hs as [Ht Hs].
  unfold loop_result. cbn [forallb]. destruct (CJSON_CIRCULAR_LIMIT <=? depth) eqn:El; cbn [negb andb].
  { exists [], h. rewrite app_nil_r. split; [done|by eexists]. }
  pose proof (Hrec t (depth + 1) h) as Hr. unfold dup_result in Hr.
  assert (Hth : stored h t) by (by apply (grown_stored h0 h _ _ (b_grown _ _ _ _ _ Hb))).
  specialize (Hr ltac:(lia) Hth). destruct (duplicable (depth + 1) t); cbn [andb].
  2: { rewrite Hr. exists [], h. rewrite app_nil_r. cbn [mbind option_bind]. split; [done|by eexists]. }
  destruct Hr as (u & h1 & -> & Hc & Hg & [Hu Hnd] & Hx & _ & Hun). cbn [mbind option_bind].
  destruct (building_append h0 h h1 a d us u Hb Hg Hu Hnd Hx Hun) as (h2 & -> & Hb2). cbn [mbind option_bind].
  destruct (source_next h0 h2 _ t (b_grown _ _ _ _ _ Hb2) Ht) as (n & -> & Hnn). cbn [mbind option_bind].
  rewrite Hnn, (Hn 0%nat t eq_refl). cbn [lookup list_lookup].
  specialize (Hloop ts (us ++ [u]) depth h0 h2 a d ltac:(lia) Hb2 Hs (fun i t Hi => Hn (S i) t Hi)).
  rewrite map_app in Hloop. cbn [map] in Hloop. rewrite last_snoc in Hloop. replace (root <$> ts !! 0%nat) with (head (map root ts)) by by destruct ts.
  unfold loop_result in Hloop. rewrite El in Hloop. cbn [negb andb] in Hloop.
  destruct Hloop as (vs & h' & Hb' & Hl). exists (u :: vs), h'. rewrite <- app_assoc in *. split; [done|].
  destruct (forallb _ ts); [|done]. destruct Hl as [-> Hvs]. split; [done|by constructor].
Qed.

Lemma recursion_step fuel : loop_copies fuel -> recursion_copies (S fuel).
Proof.
  intros Hloop [s d ts] depth h Hf Hs. inversion Hs as [? ? ? Hd Hk Hc Hts]; subst.
  unfold dup_result. cbn [cJSON_Duplicate_rec root duplicable fields subtrees].
  destruct (read_node h s) as (n & -> & _ & _ & Hkd & Hdt); [by eexists|]. cbn [mbind option_bind].
  rewrite Hd in Hdt. injection Hdt as ->. rewrite Hkd, Hk. unfold texts_copied, new_node, create, cJSON_New_Item.
  destruct (malloc_ok sizeof_cJSON); cbn [andb]; [|done].
  set (a := fresh (dom h)). assert (Ha : h !! a = None) by (apply not_elem_of_dom, is_fresh).
  rewrite !assign_insert. cbn [mbind option_bind]. rewrite !assign_insert. cbn [mbind option_bind]. rewrite !assign_insert. cbn [mbind option_bind].
  assert (Hfail : forall e, Z.land (type e) cJSON_IsReference = 0 -> cJSON_Delete (Some a) (<[a := MkNode None None None e]> h) = Some h).
  { intros e He. by apply (building_freed h _ a e [] (building_empty h a e Ha)). }
  pose proof (copied_owned d) as Ho.
  destruct (copy_valuestring malloc_ok d) as [vs|] eqn:Ev; cbn [andb];
    [|rewrite Hfail by exact Ho; by rewrite bool_decide_eq_false_2 by by intros []].
  rewrite !assign_insert. cbn [mbind option_bind].
  destruct (copy_key malloc_ok d) as [key|] eqn:Ek;
    [|rewrite Hfail by exact Ho; rewrite (bool_decide_eq_false_2 (is_Some None)) by (by intros []); by rewrite andb_false_r].
  rewrite !bool_decide_eq_true_2 by by eexists. rewrite !assign_insert. cbn [mbind option_bind andb negb].
  replace (set_name key _) with (copied d) by (unfold copied; by rewrite Ev, Ek).
  destruct (Hloop ts [] depth h _ a (copied d) ltac:(change (nodes (Tree s d ts)) with (S (list_sum (map nodes ts))) in Hf; lia) (building_empty h a (copied d) Ha) Hts) as (us & h' & Hb & Hl).
  { intros i t Hi. destruct (Hc i (root t)) as [-> _]; [by rewrite list_lookup_fmap, Hi|]. by rewrite list_lookup_fmap. }
  cbn [map last app] in *. destruct (forallb _ ts).
  - destruct Hl as [-> Hcp]. cbn [mbind option_bind]. rewrite (b_node _ _ _ _ _ Hb). cbn [mbind option_bind kids].
    destruct (building_closed h h' a (copied d) us Hb) as (h2 & -> & Hg & Hi & Hx & Hp). cbn [mbind option_bind].
    exists (Tree a (copied d) us), h2. assert (Hcopy : copy_of (Tree s d ts) (Tree a (copied d) us)) by by constructor.
    split_and!; try done; [by destruct Hi..|]. by apply (copy_unshared (Tree s d ts)).
  - destruct Hl as [l ->]. cbn [mbind option_bind]. by rewrite (building_freed h h' a (copied d) us Hb Ho).
Qed.

Lemma duplicates fuel : recursion_copies fuel /\ loop_copies fuel.
Proof.
  induction fuel as [|fuel [IHr IHl]].
  - split; [intros [] ? ? Hf; cbn in Hf; lia|intros ? ? ? ? ? ? ? Hf; lia].
  - split; [by apply recursion_step|by apply loop_step].
Qed.
End Duplicated.
