(* ===== verification/JsonCompare.v ===== *)
(** * cJSON.c: comparing

    [cJSON_Compare] on the nodes of [JsonList], where the identity of a node is
    its location, against the relation [same]; and what it says of the copies
    of [JsonCopy]. The recursion and its loops run on one fuel, proved enough
    for every two items on the heap. *)

From S2P Require Import Prelude CString Double Json JsonPrint JsonList JsonEdit JsonCopy.
From stdpp Require Import gmap.
Local Open Scope Z_scope.

Fixpoint cJSON_Compare (fuel : nat) (a b : option loc) (case_sensitive : bool) (h : heap) : option bool :=
  match fuel, a, b with
  | O, _, _ => None
  | S fuel, Some a, Some b =>
      na ← h !! a; nb ← h !! b;
      let ta := Z.land (type (data na)) 255 in
      if negb (ta =? Z.land (type (data nb)) 255) then Some false
      else if negb (existsb (Z.eqb ta) [cJSON_False; cJSON_True; cJSON_NULL; cJSON_Number; cJSON_String; cJSON_Raw; cJSON_Array; cJSON_Object])
      then Some false
      else if bool_decide (a = b) then Some true
      else if existsb (Z.eqb ta) [cJSON_False; cJSON_True; cJSON_NULL] then Some true
      else if ta =? cJSON_Number then Some (compare_double (valuedouble (data na)) (valuedouble (data nb)))
      else if (ta =? cJSON_String) || (ta =? cJSON_Raw) then
        match valuestring (data na), valuestring (data nb) with
        | Some s, Some t => Some (streq s t)
        | _, _ => Some false
        end
      else if ta =? cJSON_Array then compare_elements fuel (kids na) (kids nb) case_sensitive h
      else
        r ← compare_members fuel (kids na) b case_sensitive h;
        if r : bool then compare_members fuel (kids nb) a case_sensitive h else Some false
  | _, _, _ => Some false
  end
(** The loop over two arrays. *)
with compare_elements (fuel : nat) (a_element b_element : option loc) (case_sensitive : bool) (h : heap) : option bool :=
  match fuel, a_element, b_element with
  | O, _, _ => None
  | S fuel, Some x, Some y =>
      r ← cJSON_Compare fuel a_element b_element case_sensitive h;
      if negb r then Some false
      else
        nx ← h !! x; ny ← h !! y;
        compare_elements fuel (next nx) (next ny) case_sensitive h
  | _, _, _ => Some (bool_decide (a_element = b_element))
  end
(** Each of the two loops over members: every one is found equal in [other]. *)
with compare_members (fuel : nat) (element : option loc) (other : loc) (case_sensitive : bool) (h : heap) : option bool :=
  match fuel, element with
  | O, _ => None
  | _, None => Some true
  | S fuel, Some x =>
      n ← h !! x;
      found ← object_item (Some other) (name (data n)) case_sensitive h;
      match found with
      | None => Some false
      | Some _ =>
          r ← cJSON_Compare fuel element found case_sensitive h;
          if negb r then Some false else n ← h !! x; compare_members fuel (next n) other case_sensitive h
      end
  end.

(** ** Equal items *)

Definition kind (t : tree) : Z := Z.land (type (fields t)) 255.
Definition known (k : Z) : bool :=
  existsb (Z.eqb k) [cJSON_False; cJSON_True; cJSON_NULL; cJSON_Number; cJSON_String; cJSON_Raw; cJSON_Array; cJSON_Object].

Section Compare.
Context (case_sensitive : bool).

(** The member of [u] that has the key of [x]. *)
Definition match_in (x u : tree) : option tree :=
  j ← key_at (name (fields x)) case_sensitive (subtrees u); subtrees u !! j.

Inductive same : tree -> tree -> Prop :=
| Same t u :
    kind t = kind u -> known (kind t) = true ->
    root t = root u \/
    ((kind t = cJSON_Number -> compare_double (valuedouble (fields t)) (valuedouble (fields u)) = true)
     /\ (kind t = cJSON_String \/ kind t = cJSON_Raw ->
         exists a b, valuestring (fields t) = Some a /\ valuestring (fields u) = Some b /\ cstr a = cstr b)
     /\ (kind t = cJSON_Array -> Forall2 same (subtrees t) (subtrees u))
     /\ (kind t = cJSON_Object ->
         (forall x, x ∈ subtrees t -> exists y, match_in x u = Some y /\ same x y)
         /\ (forall y, y ∈ subtrees u -> exists x, match_in y t = Some x /\ same y x))) ->
    same t u.

Context (h : heap).

Definition decides (r : option bool) (P : Prop) : Prop := exists b, r = Some b /\ (b = true <-> P).

Lemma decides_true (P : Prop) : P -> decides (Some true) P.
Proof. intros HP. by exists true. Qed.
Lemma decides_false (P : Prop) : ~ P -> decides (Some false) P.
Proof. intros HP. exists false. by split. Qed.
Lemma decides_bool (b : bool) (P : Prop) : (b = true <-> P) -> decides (Some b) P.
Proof. by exists b. Qed.

Definition compares (fuel : nat) : Prop := forall t u,
  (2 * (nodes t + nodes u) <= fuel)%nat -> item_at h t -> item_at h u ->
  decides (cJSON_Compare fuel (Some (root t)) (Some (root u)) case_sensitive h) (same t u).

Definition siblings (ts : list tree) : Prop :=
  Forall (item_at h) ts /\ forall i t, ts !! i = Some t -> nx h (root t) = root <$> ts !! S i.

Definition compares_elements (fuel : nat) : Prop := forall ts us,
  (S (2 * (list_sum (map nodes ts) + list_sum (map nodes us))) <= fuel)%nat -> siblings ts -> siblings us ->
  decides (compare_elements fuel (head (map root ts)) (head (map root us)) case_sensitive h) (Forall2 same ts us).

Definition compares_members (fuel : nat) : Prop := forall ts u,
  (S (2 * (list_sum (map nodes ts) + list_sum (map nodes (subtrees u)))) <= fuel)%nat -> siblings ts -> item_at h u ->
  decides (compare_members fuel (head (map root ts)) (root u) case_sensitive h)
    (forall x, x ∈ ts -> exists y, match_in x u = Some y /\ same x y).

Lemma siblings_tail t ts : siblings (t :: ts) -> siblings ts.
Proof. intros [Hs Hn]. apply Forall_cons in Hs as [_ Hs]. split; [done|]. intros i u Hi. by apply (Hn (S i)). Qed.

Lemma siblings_head t ts : siblings (t :: ts) ->
  item_at h t /\ exists n, h !! root t = Some n /\ next n = head (map root ts) /\ data n = fields t.
Proof.
  intros [Hs Hn]. apply Forall_cons in Hs as [Ht _]. split; [done|]. destruct Ht as [Ht _].
  inversion Ht as [a d us Hd _ _ _]; subst. cbn [root fields] in *. destruct (read_node h a) as (n & Hr & Hx & _ & _ & Hdt); [by eexists|].
  exists n. split_and!; [done| |rewrite Hd in Hdt; by injection Hdt]. pose proof (Hn 0%nat _ eq_refl) as H0. cbn [root] in H0.
  rewrite Hx, H0. by destruct ts.
Qed.

Lemma children_siblings t : item_at h t ->
  siblings (subtrees t) /\ exists n, h !! root t = Some n /\ kids n = head (map root (subtrees t)) /\ data n = fields t.
Proof.
  intros [Hs Hnd]. inversion Hs as [a d ts Hd Hk Hc Hts]; subst. cbn [root fields subtrees]. split.
  - split.
    + rewrite locs_eq in Hnd. apply NoDup_cons in Hnd as [_ Hnd]. rewrite Forall_lookup in *. intros i t Hi.
      split; [by apply (Hts i)|]. by apply (forest_item ts i).
    + intros i t Hi. destruct (Hc i (root t)) as [-> _]; [by rewrite list_lookup_fmap, Hi|]. by rewrite list_lookup_fmap.
  - destruct (read_node h a) as (n & Hr & _ & _ & Hkd & Hdt); [by eexists|]. exists n.
    rewrite Hkd, Hk. split_and!; [done|done|]. rewrite Hd in Hdt. by injection Hdt.
Qed.

Lemma object_item_at u key : item_at h u ->
  object_item (Some (root u)) key case_sensitive h = Some (j ← key_at key case_sensitive (subtrees u); root <$> subtrees u !! j).
Proof.
  intros [Hs Hnd]. destruct u as [a d ts]. apply (object_item_stored h a d ts Hs).
  rewrite locs_eq in Hnd. apply NoDup_cons in Hnd as [Ha Hn]. cbn [root subtrees] in *.
  constructor; [|by apply NoDup_roots]. by intros Hr%roots_in.
Qed.

Lemma nodes_le t ts : t ∈ ts -> (nodes t <= list_sum (map nodes ts))%nat.
Proof.
  induction ts as [|u ts IH]; [by intros ?%not_elem_of_nil|]. change (list_sum (map nodes (u :: ts))) with (nodes u + list_sum (map nodes ts))%nat.
  intros [->|Hin]%elem_of_cons; [lia|]. specialize (IH Hin). lia.
Qed.

Lemma compare_elements_step fuel : compares fuel -> compares_elements fuel -> compares_elements (S fuel).
Proof.
  intros Hc He ts us Hf Ht Hu. destruct ts as [|t ts], us as [|u us]; cbn [map head compare_elements].
  - by apply decides_true.
  - apply decides_false. by inversion 1.
  - apply decides_false. by inversion 1.
  - change (list_sum (map nodes (t :: ts))) with (nodes t + list_sum (map nodes ts))%nat in Hf.
    change (list_sum (map nodes (u :: us))) with (nodes u + list_sum (map nodes us))%nat in Hf.
    destruct (siblings_head _ _ Ht) as (Hit & n & Hn & Hnx & _). destruct (siblings_head _ _ Hu) as (Hiu & m & Hm & Hmx & _).
    destruct (Hc t u ltac:(lia) Hit Hiu) as (r & -> & Hr). cbn [mbind option_bind]. destruct r; cbn [negb].
    + rewrite Hn, Hm. cbn [mbind option_bind]. rewrite Hnx, Hmx.
      assert (1 <= nodes t)%nat by (destruct t; cbn; lia).
      destruct (He ts us ltac:(lia) (siblings_tail _ _ Ht) (siblings_tail _ _ Hu)) as (b & -> & Hb). apply decides_bool.
      rewrite Hb, Forall2_cons. naive_solver.
    + apply decides_false. rewrite Forall2_cons. naive_solver.
Qed.

Lemma compare_members_step fuel : compares fuel -> compares_members fuel -> compares_members (S fuel).
Proof.
  intros Hc Hm ts u Hf Ht Hu. destruct ts as [|t ts]; cbn [map head compare_members].
  { apply decides_true. by intros x ?%not_elem_of_nil. }
  change (list_sum (map nodes (t :: ts))) with (nodes t + list_sum (map nodes ts))%nat in Hf.
  destruct (siblings_head _ _ Ht) as (Hit & n & Hn & Hnx & Hd). rewrite Hn. cbn [mbind option_bind].
  rewrite Hd, (object_item_at u _ Hu). cbn [mbind option_bind].
  assert (Hmatch : match_in t u = (j ← key_at (name (fields t)) case_sensitive (subtrees u); subtrees u !! j)) by done.
  assert (Hno : match_in t u = None -> ~ forall x, x ∈ t :: ts -> exists y, match_in x u = Some y /\ same x y).
  { intros Hnone Hall. destruct (Hall t ltac:(left)) as (y & Hy & _). congruence. }
  destruct (key_at _ _ _) as [j|]; cbn [mbind option_bind] in *; [|by apply decides_false, Hno].
  destruct (subtrees u !! j) as [y|] eqn:Hy; cbn [fmap option_fmap option_map]; [|by apply decides_false, Hno].
  apply list_elem_of_lookup_2 in Hy. assert (1 <= nodes t)%nat by (destruct t; cbn; lia). pose proof (nodes_le _ _ Hy).
  destruct (children_siblings u Hu) as [[Hus _] _]. rewrite Forall_forall in Hus.
  destruct (Hc t y ltac:(lia) Hit (Hus y Hy)) as (r & -> & Hr). cbn [mbind option_bind]. destruct r; cbn [negb].
  - rewrite Hnx. destruct (Hm ts u ltac:(lia) (siblings_tail _ _ Ht) Hu) as (b & -> & Hb). apply decides_bool. rewrite Hb. split.
    + intros Hall x [->|Hx]%elem_of_cons; [|by apply Hall]. exists y. split; [done|by apply Hr].
    + intros Hall x Hx. apply Hall. by right.
  - apply decides_false. intros Hall. destruct (Hall t ltac:(left)) as (y' & Hy' & Hs). rewrite Hmatch in Hy'. injection Hy' as <-.
    by apply Hr in Hs.
Qed.

Lemma compare_step fuel : compares_elements fuel -> compares_members fuel -> compares (S fuel).
Proof.
  intros He Hm t u Hf Ht Hu. cbn [cJSON_Compare].
  destruct (children_siblings t Ht) as (Hts & n & Hn & Hkn & Hdn). destruct (children_siblings u Hu) as (Hus & m & Hm' & Hkm & Hdm).
  rewrite Hn, Hm'. cbn [mbind option_bind]. rewrite Hdn, Hdm, Hkn, Hkm. fold (kind t) (kind u).
  destruct (kind t =? kind u) eqn:E; cbn [negb]; [apply Z.eqb_eq in E|apply decides_false; inversion 1; subst; by apply Z.eqb_neq in E].
  fold (known (kind t)). destruct (known (kind t)) eqn:Ek; cbn [negb]; [|apply decides_false; inversion 1; subst; congruence].
  destruct (bool_decide (root t = root u)) eqn:Er.
  { apply bool_decide_eq_true in Er. apply decides_true. constructor; [done|done|by left]. }
  apply bool_decide_eq_false in Er.
  assert (Hfuel : (S (2 * (list_sum (map nodes (subtrees t)) + list_sum (map nodes (subtrees u)))) <= fuel)%nat).
  { destruct t as [? ? ts], u as [? ? us]. cbn [subtrees]. change (nodes (Tree ?a ?b ?c)) with (S (list_sum (map nodes c))) in Hf.
    cbn [nodes subtrees] in Hf. lia. }
  assert (Hleaf : forall b, (kind t <> cJSON_Array) -> kind t <> cJSON_Object ->
    (b = true <-> (kind t = cJSON_Number -> compare_double (valuedouble (fields t)) (valuedouble (fields u)) = true)
     /\ (kind t = cJSON_String \/ kind t = cJSON_Raw ->
         exists a b, valuestring (fields t) = Some a /\ valuestring (fields u) = Some b /\ cstr a = cstr b)) ->
    decides (Some b) (same t u)).
  { intros b Ha Ho Hb. apply decides_bool. rewrite Hb. split.
    - intros [H1 H2]. constructor; [done|done|right]. by split_and!.
    - inversion 1 as [? ? _ _ [?|(H1 & H2 & _)]]; subst; [done|]. by split. }
  unfold known in Ek. cbn [existsb] in Ek.
  destruct (existsb (Z.eqb (kind t)) [cJSON_False; cJSON_True; cJSON_NULL]) eqn:E3.
  { cbn [existsb] in E3. apply Hleaf; unfold cJSON_Array, cJSON_Object, cJSON_Number, cJSON_String, cJSON_Raw, cJSON_False, cJSON_True, cJSON_NULL in *;
      [lia|lia|split; [split; lia|done]]. }
  destruct (kind t =? cJSON_Number) eqn:E4.
  { apply Z.eqb_eq in E4. apply Hleaf; rewrite E4; [done|done|]. split; [intros H; split; [done|by intros [|]]|by intros [H _]; apply H]. }
  destruct ((kind t =? cJSON_String) || (kind t =? cJSON_Raw)) eqn:E5.
  { assert (Hor : kind t = cJSON_String \/ kind t = cJSON_Raw) by lia.
    destruct (valuestring (fields t)) as [a|], (valuestring (fields u)) as [b|];
      (apply Hleaf; [by destruct Hor as [-> | ->]|by destruct Hor as [-> | ->]|]);
      (split; [try done|intros [_ H]; destruct (H Hor) as (? & ? & ? & ? & ?); simplify_eq; try by apply streq_true]).
    intros Hs%streq_true. split; [by destruct Hor as [-> | ->]|]. intros _. by exists a, b. }
  destruct (kind t =? cJSON_Array) eqn:E6.
  { apply Z.eqb_eq in E6. destruct (He (subtrees t) (subtrees u) ltac:(lia) Hts Hus) as (b & -> & Hb). apply decides_bool. rewrite Hb. split.
    - intros Hf2. constructor; [done| |right; rewrite E6; split_and!; try done; by intros [|]]. by rewrite E6.
    - inversion 1 as [? ? _ _ [?|(_ & _ & H1 & _)]]; subst; [done|by apply H1]. }
  assert (E7 : kind t = cJSON_Object).
  { unfold cJSON_Array, cJSON_Object, cJSON_Number, cJSON_String, cJSON_Raw, cJSON_False, cJSON_True, cJSON_NULL in *. cbn [existsb] in *. lia. }
  destruct (Hm (subtrees t) u ltac:(lia) Hts Hu) as (r1 & -> & Hr1). cbn [mbind option_bind].
  assert (Hsame : same t u -> (forall x, x ∈ subtrees t -> exists y, match_in x u = Some y /\ same x y)
         /\ (forall y, y ∈ subtrees u -> exists x, match_in y t = Some x /\ same y x)).
  { inversion 1 as [? ? _ _ [?|(_ & _ & _ & H1)]]; subst; [done|by apply H1]. }
  destruct r1; [|apply decides_false; intros [Hs _]%Hsame; by apply Hr1 in Hs].
  destruct (Hm (subtrees u) t ltac:(lia) Hus Ht) as (r2 & -> & Hr2). apply decides_bool. rewrite Hr2. split; [|by intros [_ ?]%Hsame].
  intros Hall. constructor; [done|by rewrite E7|right]. rewrite E7. split_and!; [done|by intros [|]|done|].
  intros _. split; [by apply Hr1|done].
Qed.

Lemma compare_decides fuel : compares fuel /\ compares_elements fuel /\ compares_members fuel.
Proof.
  induction fuel as [|fuel (Hc & He & Hm)].
  - split_and!; [intros [] [] Hf; cbn in Hf; lia|intros ? ? Hf; lia|intros ? ? Hf; lia].
  - split_and!; [by apply compare_step|by apply compare_elements_step|by apply compare_members_step].
Qed.
End Compare.

(** ** A finite number equals itself *)

Lemma shr_1_nonneg m : 0 <= shr_m m -> 0 <= shr_m (shr_1 m).
Proof. destruct m as [z r t]. cbn. by destruct z as [|[]|[]]. Qed.

Lemma iter_shr_nonneg p m : 0 <= shr_m m -> 0 <= shr_m (SpecFloat.iter_pos shr_1 p m).
Proof. revert m. induction p as [p IH|p IH|]; intros m Hm; cbn; auto using shr_1_nonneg. Qed.

Lemma shr_fexp_nonneg m e l : 0 <= m -> 0 <= shr_m (shr_fexp 53 1024 m e l).1.
Proof.
  intros Hm. unfold shr_fexp, shr. assert (Hr : 0 <= shr_m (shr_record_of_loc m l)) by by destruct l as [|[]].
  destruct (_ - e); cbn [fst]; [done|by apply iter_shr_nonneg|done].
Qed.

Lemma round_nearest_nonneg m l : 0 <= m -> 0 <= round_nearest_even m l.
Proof. intros Hm. unfold round_nearest_even. destruct l as [|[]]; [lia|destruct (Z.even m)|..]; lia. Qed.

(** What is rounded from a positive number is not below zero, and a number. *)
Lemma round_not_below m e : 0 <= m -> SFleb (S754_zero false) (binary_round_aux 53 1024 false m e loc_Exact) = true.
Proof.
  intros Hm. unfold binary_round_aux. pose proof (shr_fexp_nonneg m e loc_Exact Hm) as H1.
  destruct (shr_fexp 53 1024 m e loc_Exact) as [r e1]. cbn [fst] in H1.
  pose proof (shr_fexp_nonneg (round_nearest_even (shr_m r) (loc_of_shr_record r)) e1 loc_Exact (round_nearest_nonneg _ _ H1)) as H2.
  destruct (shr_fexp 53 1024 _ e1 loc_Exact) as [r2 e2]. cbn [fst] in H2. destruct (shr_m r2); [done| |lia].
  by destruct (_ <=? _).
Qed.

Lemma compare_double_refl v : isnan v = false -> isinf v = false -> compare_double v v = true.
Proof.
  destruct v as [s|s| |s m e]; try done; intros _ _.
  - by destruct s.
  - unfold compare_double. replace (dsub _ _) with (S754_zero false).
    + replace (if dgt _ _ then _ else _) with (S754_finite false m e) by by destruct (dgt _ _). by apply round_not_below.
    + unfold dsub, SFsub. by rewrite Z.sub_diag.
Qed.

(** ** Copies compare equal *)

Section Copies.
Context (malloc_ok : Z -> bool) (case_sensitive : bool).

(** Items that can equal another: finite numbers, texts, and keys under which
    [cJSON_GetObjectItem] finds the member itself. *)
Inductive comparable : tree -> Prop :=
| Comparable a d ts :
    known (kind (Tree a d ts)) = true ->
    (kind (Tree a d ts) = cJSON_Number -> isnan (valuedouble d) = false /\ isinf (valuedouble d) = false) ->
    (kind (Tree a d ts) = cJSON_String \/ kind (Tree a d ts) = cJSON_Raw -> is_Some (valuestring d)) ->
    (kind (Tree a d ts) = cJSON_Object -> forall i x, ts !! i = Some x -> key_at (name (fields x)) case_sensitive ts = Some i) ->
    Forall comparable ts -> comparable (Tree a d ts).

Definition same_text (a b : option bytes) : Prop :=
  match a, b with Some s, Some t => cstr s = cstr t | None, None => True | _, _ => False end.

Lemma copied_key d : texts_copied malloc_ok d = true -> same_text (name d) (name (copied malloc_ok d)).
Proof.
  unfold texts_copied, copied. intros H. cbn [name]. destruct (copy_key malloc_ok d) as [k|] eqn:E; [|by rewrite andb_false_r in H].
  clear H. unfold copy_key in E. destruct (name d) as [s|]; [|by simplify_eq].
  destruct (negb _); [by simplify_eq|]. unfold cJSON_strdup in E. destruct (malloc_ok _); simplify_eq/=. by rewrite cstr_idemp.
Qed.

Lemma copied_text d : texts_copied malloc_ok d = true -> same_text (valuestring d) (valuestring (copied malloc_ok d)).
Proof.
  unfold texts_copied, copied. intros H. cbn [valuestring]. destruct (copy_valuestring malloc_ok d) as [k|] eqn:E; [|by rewrite andb_false_r in H].
  clear H. unfold copy_valuestring in E. destruct (valuestring d) as [s|]; [|by simplify_eq].
  unfold cJSON_strdup in E. destruct (malloc_ok _); simplify_eq/=. by rewrite cstr_idemp.
Qed.

Lemma key_stops_text k k' a b : cstr k = cstr k' -> same_text a b -> key_stops k case_sensitive a = key_stops k' case_sensitive b.
Proof.
  intros Hk Hab. unfold key_stops, case_insensitive_streq, streq, strcaseeq. destruct a, b; cbn in Hab; try done.
  by rewrite Hk, Hab.
Qed.

(** Lookup by equal keys in lists with equal keys. *)
Lemma key_at_text ts us k k' :
  Forall2 (fun t u => same_text (name (fields t)) (name (fields u))) ts us -> same_text k k' ->
  key_at k case_sensitive ts = key_at k' case_sensitive us.
Proof.
  intros Hf Hk. unfold key_at. destruct k as [k|], k' as [k'|]; cbn in Hk; try done. cbn [mbind option_bind].
  assert (E : find_index (fun t => key_stops k case_sensitive (name (fields t))) ts
    = find_index (fun t => key_stops k' case_sensitive (name (fields t))) us).
  { induction Hf as [|t u ts us Htu Hf IH]; [done|]. cbn [find_index]. by rewrite (key_stops_text k k' _ _ Hk Htu), IH. }
  rewrite E. destruct (find_index _ us) as [j|]; [|done]. cbn [mbind option_bind].
  destruct (ts !! j) as [t|] eqn:Ht.
  - destruct (Forall2_lookup_l _ _ _ _ _ Hf Ht) as (u & -> & Htu). cbn [mbind option_bind].
    by destruct (name (fields t)), (name (fields u)).
  - by rewrite (proj1 (Forall2_lookup_None_l _ _ _ _ Hf) Ht) || by (apply (Forall2_length) in Hf; rewrite lookup_ge_None in Ht; rewrite (lookup_ge_None_2 us j) by lia).
Qed.

Lemma copied_kind d : Z.land (type (copied malloc_ok d)) 255 = Z.land (type d) 255.
Proof. cbn [type copied]. by rewrite <- Z.land_assoc. Qed.

(** Members of lists that agree on keys are found where they are. *)
Lemma members_found (t u : tree) :
  Forall2 (fun x y => (same case_sensitive x y /\ same case_sensitive y x) /\ same_text (name (fields x)) (name (fields y))) (subtrees t) (subtrees u) ->
  (forall i x, subtrees t !! i = Some x -> key_at (name (fields x)) case_sensitive (subtrees t) = Some i) ->
  (forall x, x ∈ subtrees t -> exists y, match_in case_sensitive x u = Some y /\ same case_sensitive x y)
  /\ (forall y, y ∈ subtrees u -> exists x, match_in case_sensitive y t = Some x /\ same case_sensitive y x).
Proof.
  intros Hsub Hkeys.
  assert (Hkey : forall k k', same_text k k' -> key_at k case_sensitive (subtrees t) = key_at k' case_sensitive (subtrees u)).
  { intros k k'. apply key_at_text. eapply Forall2_impl; [apply Hsub|]. by intros ? ? [_ ?]. }
  assert (Hrefl : forall k, same_text k k) by by intros [].
  split.
  - intros x [i Hi]%list_elem_of_lookup. destruct (Forall2_lookup_l _ _ _ _ _ Hsub Hi) as (y & Hy & [Hs _] & Hn).
    exists y. split; [|done]. unfold match_in. by rewrite <- (Hkey _ _ (Hrefl _)), (Hkeys i x Hi).
  - intros y [i Hi]%list_elem_of_lookup. destruct (Forall2_lookup_r _ _ _ _ _ Hsub Hi) as (x & Hx & [_ Hs] & Hn).
    exists x. split; [|done]. unfold match_in. by rewrite (Hkey _ _ (Hrefl _)), <- (Hkey _ _ Hn), (Hkeys i x Hx).
Qed.

Lemma copies_same t : forall u depth,
  comparable t -> duplicable malloc_ok depth t = true -> copy_of malloc_ok t u ->
  same case_sensitive t u /\ same case_sensitive u t.
Proof.
  induction t as [a d ts IH] using tree_ind'. intros u depth Hc Hd Hu.
  inversion Hc as [? ? ? Hk Hnum Htext Hkeys Hcs]; subst. inversion Hu as [? ? ? b us Hus]; subst.
  cbn [duplicable fields subtrees] in Hd. apply andb_true_iff in Hd as [Hd Hds]. rewrite forallb_forall in Hds.
  assert (Hsub : Forall2 (fun t u => (same case_sensitive t u /\ same case_sensitive u t) /\ same_text (name (fields t)) (name (fields u))) ts us).
  { clear Hc Hu Hk Hnum Htext Hkeys. induction Hus as [|t u ts us Htu Hus IHus]; constructor.
    - apply Forall_cons in IH as [IH _]. apply Forall_cons in Hcs as [Hct _].
      specialize (Hds t (or_introl eq_refl)). apply andb_true_iff in Hds as [_ Hds]. split; [by eapply IH|].
      destruct t as [? e ?]. inversion Htu; subst. cbn [duplicable fields] in *. apply copied_key. by apply andb_true_iff in Hds as [? _].
    - apply Forall_cons in IH as [_ IH]. apply Forall_cons in Hcs as [_ Hcs]. apply IHus; [done| |done].
      intros x Hx. apply Hds. by right. }
  assert (Hkind : kind (Tree b (copied malloc_ok d) us) = kind (Tree a d ts)) by apply copied_kind.
  assert (Htexts : kind (Tree a d ts) = cJSON_String \/ kind (Tree a d ts) = cJSON_Raw ->
    exists s s', valuestring d = Some s /\ valuestring (copied malloc_ok d) = Some s' /\ cstr s = cstr s').
  { intros [s Hs]%Htext. pose proof (copied_text d Hd) as Ht. rewrite Hs in Ht.
    destruct (valuestring (copied malloc_ok d)) as [s'|]; [|done]. by exists s, s'. }
  assert (Hnumber : kind (Tree a d ts) = cJSON_Number -> compare_double (valuedouble d) (valuedouble d) = true).
  { intros [Hn Hi]%Hnum. by apply compare_double_refl. }
  assert (Hmembers := fun Ho => members_found (Tree a d ts) (Tree b (copied malloc_ok d) us) Hsub (Hkeys Ho)).
  split; (constructor; [by rewrite Hkind|by rewrite ?Hkind|right]); rewrite ?Hkind; cbn [fields subtrees] in *;
    (split_and!; [exact Hnumber| | |intros Ho; by destruct (Hmembers Ho)]).
  - exact Htexts.
  - intros _. eapply Forall2_impl; [apply Hsub|]. by intros ? ? [[? _] _].
  - intros Ho. destruct (Htexts Ho) as (s & s' & H1 & H2 & H3). by exists s', s.
  - intros _. apply Forall2_flip. eapply Forall2_impl; [apply Hsub|]. by intros ? ? [[_ ?] _].
Qed.
End Copies.

Lemma copy_nodes malloc_ok t : forall u, copy_of malloc_ok t u -> nodes u = nodes t.
Proof.
  induction t as [a d ts IH] using tree_ind'. intros u Hc. inversion Hc as [? ? ? b us Hus]; subst. cbn [nodes subtrees]. f_equal.
  clear Hc. induction Hus as [|t u ts us Htu Hus IHus]; [done|]. apply Forall_cons in IH as [IHt IH].
  change (nodes u + list_sum (map nodes us) = nodes t + list_sum (map nodes ts))%nat. by rewrite (IHt u Htu), IHus.
Qed.

(** ** Property *)

(** C25: Copies are separate and equal, and comparing decides equality.  For an
    item on the heap, [cJSON_Duplicate] succeeds exactly when every node and
    text can be allocated and no nesting reaches the limit for circular
    structures; otherwise it returns NULL and the heap is what it was, down to
    the last node. On success only the nodes of the copy are new, they share
    none with the item, and nothing else is changed. [cJSON_Compare] ends on
    every two items of the heap and tells whether they are [same]; an item
    with finite numbers and distinct keys is the same as its copy, in both
    directions. *)
Theorem copies_compare_equal malloc_ok h t fuel case_sensitive
    (Ht : item_at h t) (Hf : (2 * nodes t <= fuel)%nat) :
  (if duplicable malloc_ok 0 t then
     exists u h', cJSON_Duplicate malloc_ok fuel (Some (root t)) true h = Some (Some (root u), h')
       /\ copy_of malloc_ok t u /\ item_at h' u /\ nx h' (root u) = None /\ pv h' (root u) = None
       /\ (forall l, l ∉ locs u -> h' !! l = h !! l) /\ (forall l, l ∈ locs u -> h !! l = None)
       /\ (comparable case_sensitive t -> forall fuel', (4 * nodes t <= fuel')%nat ->
             cJSON_Compare fuel' (Some (root t)) (Some (root u)) case_sensitive h' = Some true
             /\ cJSON_Compare fuel' (Some (root u)) (Some (root t)) case_sensitive h' = Some true)
   else cJSON_Duplicate malloc_ok fuel (Some (root t)) true h = Some (None, h))
  /\ (forall u fuel', item_at h u -> (2 * (nodes t + nodes u) <= fuel')%nat ->
        exists r, cJSON_Compare fuel' (Some (root t)) (Some (root u)) case_sensitive h = Some r
          /\ (r = true <-> same case_sensitive t u)).
Proof.
  split; [|intros u fuel' Hu Hf'; by apply (compare_decides case_sensitive h fuel')].
  pose proof (proj1 (duplicates malloc_ok fuel) t 0 h Hf (proj1 Ht)) as Hd. unfold dup_result in Hd.
  destruct (duplicable malloc_ok 0 t) eqn:E; [|done]. destruct Hd as (u & h' & Hd & Hc & Hg & Hi & Hx & Hp & _).
  exists u, h'. split; [done|]. split; [done|]. split; [done|]. split; [done|]. split; [done|]. split; [apply Hg|]. split; [apply Hg|].
  intros Hcm fuel' Hf'. assert (Ht' : item_at h' t) by (split; [apply (grown_stored h h' (locs u)); [done|apply Ht]|apply Ht]).
  destruct (copies_same malloc_ok case_sensitive t u 0 Hcm E Hc) as [H1 H2].
  assert (Hn : nodes u = nodes t) by by eapply copy_nodes.
  destruct (compare_decides case_sensitive h' fuel') as (Hcmp & _).
  destruct (Hcmp t u ltac:(lia) Ht' Hi) as ([] & -> & Hr1); [|by apply Hr1 in H1].
  destruct (Hcmp u t ltac:(lia) Hi Ht') as ([] & -> & Hr2); [|by apply Hr2 in H2]. done.
Qed.

(** The heap of [sample_heap]: the object at 0 with its two members. *)
Lemma copies_compare_equal_witness :
  exists u h', cJSON_Duplicate (fun _ => true) 6 (Some 0%nat) true sample_heap = Some (Some (root u), h')
    /\ (forall l, l ∈ locs u -> sample_heap !! l = None)
    /\ cJSON_Compare 12 (Some 0%nat) (Some (root u)) true h' = Some true.
Proof.
  set (t := Tree 0 sample_array [sample_leaf 1 (Some (str "id")); sample_leaf 2 (Some (str "Mac"))]).
  assert (Ht : item_at sample_heap t).
  { split; [apply sample_represented|by apply (bool_decide_unpack _)]. }
  destruct (copies_compare_equal (fun _ => true) sample_heap t 6 true Ht (le_n 6)) as [Hd _].
  change (duplicable (fun _ => true) 0 t) with true in Hd. cbv iota in Hd.
  destruct Hd as (u & h' & Hd & _ & _ & _ & _ & _ & Hnew & Hc). exists u, h'.
  split; [exact Hd|]. split; [exact Hnew|]. apply Hc; [|vm_compute; lia].
  constructor; [done|done|by intros [|]|done|].
  repeat (apply Forall_cons; split; [constructor; [done|by split|by intros [|]|done|done]|]). done.
Defined.
