(* ===== verification/JsonBuild.v ===== *)
(** * cJSON.c: typed arrays, references and hooks

    The constructors that link many nodes ([cJSON_CreateIntArray] and its
    kin), items that borrow the children of another, and [add_item_to_object],
    on the nodes of [JsonList]; the allocator hooks. *)

From S2P Require Import Prelude CString Double Json JsonList JsonEdit JsonCopy.
From stdpp Require Import gmap.
Local Open Scope Z_scope.

(** ** Typed arrays *)

Section Build.
Variable malloc_ok : Z -> bool.

(** The loop: [p] is the element before; reading behind [numbers] ends the
    process. *)
Fixpoint fill_array {A} (mk : A -> option cJSON) (count : nat) (numbers : list A) (a : loc) (p : option loc) (h : heap)
    : option (bool * option loc * heap) :=
  match count, numbers with
  | O, _ => Some (true, p, h)
  | S _, [] => None
  | S count, x :: numbers =>
      let '(n, h) := create (mk x) h in
      match n with
      | None => Some (false, p, h)
      | Some n =>
          h ← (match p with None => upd a (set_kids (Some n)) h | Some p => suffix_object p n h end);
          fill_array mk count numbers a (Some n) h
      end
  end.

Definition create_array {A} (mk : A -> option cJSON) (numbers : option (list A)) (count : Z) (h : heap) : option (option loc * heap) :=
  match numbers with
  | None => Some (None, h)
  | Some numbers =>
      if count <? 0 then Some (None, h)
      else
        let '(a, h) := create (cJSON_CreateArray malloc_ok) h in
        match a with
        | None => Some (None, h)
        | Some a =>
            '(ok, n, h) ← fill_array mk (Z.to_nat count) numbers a None h;
            if ok : bool then
              na ← h !! a;
              h ← (match kids na with Some c => upd c (set_prev n) h | None => Some h end);
              Some (Some a, h)
            else h ← cJSON_Delete (Some a) h; Some (None, h)
        end
  end.

Definition cJSON_CreateIntArray : option (list Z) -> Z -> heap -> option (option loc * heap) :=
  create_array (fun n => cJSON_CreateNumber malloc_ok (of_Z n)).
(** A [float] is the [double] it is converted to. *)
Definition cJSON_CreateFloatArray : option (list double) -> Z -> heap -> option (option loc * heap) :=
  create_array (cJSON_CreateNumber malloc_ok).
Definition cJSON_CreateDoubleArray : option (list double) -> Z -> heap -> option (option loc * heap) :=
  create_array (cJSON_CreateNumber malloc_ok).
Definition cJSON_CreateStringArray : option (list (option bytes)) -> Z -> heap -> option (option loc * heap) :=
  create_array (cJSON_CreateString malloc_ok).

(** ** References *)

Definition create_reference (item : option loc) (h : heap) : option (option loc * heap) :=
  match item with
  | None => Some (None, h)
  | Some i =>
      let '(reference, h) := new_node malloc_ok h in
      match reference with
      | None => Some (None, h)
      | Some r =>
          n ← h !! i;
          h ← upd r (fun _ => n) h;
          h ← assign_data r (set_name None) h;
          h ← assign_data r (fun d => set_type (Z.lor (type d) cJSON_IsReference) d) h;
          h ← upd r (set_prev None) h;
          h ← upd r (set_next None) h;
          Some (Some r, h)
      end
  end.

Definition borrowing (t : Z) (child : option loc) (h : heap) : option (option loc * heap) :=
  let '(item, h) := new_node malloc_ok h in
  match item with
  | None => Some (None, h)
  | Some i =>
      h ← assign_data i (set_type (Z.lor t cJSON_IsReference)) h;
      h ← upd i (set_kids child) h;
      Some (Some i, h)
  end.
Definition cJSON_CreateObjectReference : option loc -> heap -> option (option loc * heap) := borrowing cJSON_Object.
Definition cJSON_CreateArrayReference : option loc -> heap -> option (option loc * heap) := borrowing cJSON_Array.

Definition add_member (object : option loc) (string : option bytes) (item : option loc) (constant_key : bool) (h : heap)
    : option (bool * heap) :=
  match object, string, item with
  | Some o, Some _, Some i =>
      if bool_decide (o = i) then Some (false, h)
      else
        match (if constant_key then string else cJSON_strdup malloc_ok string) with
        | None => Some (false, h)
        | Some new_key =>
            h ← assign_data i (set_name (Some new_key)) h;
            h ← assign_data i (fun d => set_type (if constant_key then Z.lor (type d) cJSON_StringIsConst
                                                  else Z.land (type d) (Z.lnot cJSON_StringIsConst)) d) h;
            add_item object item h
        end
  | _, _, _ => Some (false, h)
  end.

Definition cJSON_AddItemReferenceToArray (array item : option loc) (h : heap) : option (bool * heap) :=
  match array with
  | None => Some (false, h)
  | Some _ => '(reference, h) ← create_reference item h; add_item array reference h
  end.

Definition cJSON_AddItemReferenceToObject (object : option loc) (string : option bytes) (item : option loc) (h : heap)
    : option (bool * heap) :=
  match object, string with
  | Some _, Some _ => '(reference, h) ← create_reference item h; add_member object string reference false h
  | _, _ => Some (false, h)
  end.
End Build.

(** ** Hooks *)

Section Hooks.
(** Functions are compared by their address. *)
Context {F : Type} `{EqDecision F} (malloc free realloc : F).

Record internal_hooks := Hooks { allocate : F; deallocate : F; reallocate : option F }.
Record cJSON_Hooks := UserHooks { malloc_fn : option F; free_fn : option F }.

Definition cJSON_InitHooks (hooks : option cJSON_Hooks) : internal_hooks :=
  match hooks with
  | None => Hooks malloc free (Some realloc)
  | Some hooks =>
      let a := default malloc (malloc_fn hooks) in
      let d := default free (free_fn hooks) in
      Hooks a d (if bool_decide (a = malloc) && bool_decide (d = free) then Some realloc else None)
  end.
End Hooks.

(** ** Typed arrays are linked and hold the values *)

Section Built.
Context (malloc_ok : Z -> bool) {A : Type} (mk : A -> option cJSON).
Hypothesis mk_owned : forall x d, mk x = Some d -> Z.land (type d) cJSON_IsReference = 0.

(** A node of its own for the value. *)
Definition holds (x : A) (t : tree) : Prop := mk x = Some (fields t) /\ subtrees t = [].

Lemma fill_array_spec h0 a d : forall count numbers us h,
  (count <= length numbers)%nat -> building h0 h a d us ->
  exists vs h', building h0 h' a d (us ++ vs)
    /\ if forallb (fun x => bool_decide (is_Some (mk x))) (take count numbers)
       then fill_array mk count numbers a (last (map root us)) h = Some (true, last (map root (us ++ vs)), h')
            /\ Forall2 holds (take count numbers) vs
       else exists l, fill_array mk count numbers a (last (map root us)) h = Some (false, l, h').
Proof.
  induction count as [|count IH]; intros numbers us h Hlen Hb.
  { exists [], h. by rewrite app_nil_r. }
  destruct numbers as [|x numbers]; [cbn in Hlen; lia|]. cbn [take forallb fill_array]. unfold create.
  destruct (mk x) as [e|] eqn:Ex; cbn [mbind option_bind].
  2: { rewrite bool_decide_eq_false_2 by by intros []. exists [], h. rewrite app_nil_r. split; [done|by eexists]. }
  rewrite bool_decide_eq_true_2 by by eexists. set (l := fresh (dom h)).
  assert (Hl : h !! l = None) by (apply not_elem_of_dom, is_fresh).
  set (h1 := <[l := MkNode None None None e]> h). set (u := Tree l e []).
  assert (Hn : h1 !! l = Some (MkNode None None None e)) by apply lookup_insert_eq.
  destruct (building_append h0 h h1 a d us u Hb) as (h2 & Happ & Hb2).
  - split; [intros k Hk; apply lookup_insert_ne; intros <-; apply Hk; left|]. by intros k ->%list_elem_of_singleton.
  - constructor; [by unfold dt; rewrite Hn|by unfold kd; rewrite Hn|by intros i k Hi|done].
  - cbn. repeat constructor. by intros ?%not_elem_of_nil.
  - unfold nx. cbn [root u]. by rewrite Hn.
  - constructor; [by eapply mk_owned|done].
  - destruct (IH numbers (us ++ [u]) h2 ltac:(cbn in Hlen; lia) Hb2) as (vs & h' & Hb' & Hr).
    exists (u :: vs), h'. rewrite <- app_assoc in *. split; [done|].
    rewrite map_app in Hr. cbn [map] in Hr. rewrite last_snoc in Hr. cbn [root u] in Happ, Hr.
    assert (Hstep : (match last (map root us) with None => upd a (set_kids (Some l)) h1 | Some p => suffix_object p l h1 end) = Some h2).
    { rewrite <- Happ. by destruct (last (map root us)). }
    rewrite Hstep. cbn [mbind option_bind andb]. destruct (forallb _ _); [|done]. destruct Hr as [Hr Hvs].
    split; [done|]. by constructor.
Qed.

(** What a constructor of arrays promises: [mk] makes the items. *)
Definition array_built (create_this : option (list A) -> Z -> heap -> option (option loc * heap)) (h : heap) : Prop :=
  forall numbers count, 0 <= count <= Z.of_nat (length numbers) ->
  if malloc_ok sizeof_cJSON && forallb (fun x => bool_decide (is_Some (mk x))) (take (Z.to_nat count) numbers) then
    exists a us h', create_this (Some numbers) count h = Some (Some a, h')
      /\ let t := Tree a (set_type cJSON_Array zero_item) us in
         Forall2 holds (take (Z.to_nat count) numbers) us /\ item_at h' t /\ nx h' a = None
         /\ (forall l, l ∉ locs t -> h' !! l = h !! l) /\ (forall l, l ∈ locs t -> h !! l = None)
  else create_this (Some numbers) count h = Some (None, h).

Lemma create_array_spec h : array_built (create_array malloc_ok mk) h.
Proof.
  intros numbers count Hc. unfold create_array. destruct (Z.ltb_spec count 0); [lia|]. unfold cJSON_CreateArray, cJSON_New_Item.
  destruct (malloc_ok sizeof_cJSON); cbn [fmap option_fmap option_map create andb]; [|done].
  set (a := fresh (dom h)). assert (Ha : h !! a = None) by (apply not_elem_of_dom, is_fresh).
  set (d := set_type cJSON_Array zero_item).
  destruct (fill_array_spec h a d (Z.to_nat count) numbers [] _ ltac:(lia) (building_empty h a d Ha)) as (us & h1 & Hb & Hr).
  cbn [map last app] in *. destruct (forallb _ _).
  - destruct Hr as [-> Hus]. cbn [mbind option_bind]. rewrite (b_node _ _ _ _ _ Hb). cbn [mbind option_bind kids].
    destruct (building_closed h h1 a d us Hb) as (h2 & -> & [Hg1 Hg2] & Hi & Hx & _). cbn [mbind option_bind].
    by exists a, us, h2.
  - destruct Hr as [l ->]. cbn [mbind option_bind]. by rewrite (building_freed h h1 a d us Hb).
Qed.
End Built.

(** ** References borrow *)

Lemma lor_reference t : Z.land (Z.lor t cJSON_IsReference) cJSON_IsReference =? 0 = false.
Proof.
  apply Z.eqb_neq. rewrite Z.land_lor_distr_l. intros E. apply Z.lor_eq_0_iff in E as [_ E]. by vm_compute in E.
Qed.

Lemma delete_borrower (r : loc) k d (h : heap) :
  h !! r = None -> Z.land (type d) cJSON_IsReference =? 0 = false ->
  cJSON_Delete (Some r) (<[r := MkNode None None k d]> h) = Some h.
Proof.
  intros Hr Hd. unfold cJSON_Delete. cbn [delete_nodes]. rewrite lookup_insert_eq. cbn [mbind option_bind data next]. rewrite Hd.
  cbn [mbind option_bind]. rewrite delete_insert_id by done. by destruct (size _) eqn:E; [rewrite map_size_insert_None in E by done|].
Qed.

Lemma create_reference_spec (malloc_ok : Z -> bool) (i : loc) n (h : heap) :
  h !! i = Some n ->
  if malloc_ok sizeof_cJSON then
    exists r : loc, h !! r = None /\ create_reference malloc_ok (Some i) h
      = Some (Some r, <[r := MkNode None None (kids n) (set_type (Z.lor (type (data n)) cJSON_IsReference) (set_name None (data n)))]> h)
  else create_reference malloc_ok (Some i) h = Some (None, h).
Proof.
  intros Hi. unfold create_reference, new_node, cJSON_New_Item. destruct (malloc_ok sizeof_cJSON); cbn [create]; [|done].
  set (r := fresh (dom h)). assert (Hr : h !! r = None) by (apply not_elem_of_dom, is_fresh). exists r. split; [done|].
  rewrite lookup_insert_ne by (intros ->; congruence). rewrite Hi. cbn [mbind option_bind]. rewrite upd_insert. cbn [mbind option_bind].
  destruct n as [nn np nk nd]. unfold assign_data. do 4 (rewrite upd_insert; cbn [mbind option_bind set_data set_prev set_next data kids]). done.
Qed.

(** ** Property *)

(** What is built from many nodes is linked, and borrowed nodes survive.
    [cJSON_CreateIntArray], [FloatArray], [DoubleArray] and [StringArray]
    return NULL for a negative count or no array, and otherwise, unless memory
    runs out, a new array whose children, linked, hold the first [count]
    values in order; when memory runs out, also in the middle, they return
    NULL and leave the heap as it was. Deleting a reference to an item, once it
    is made, frees the node of the reference and nothing of the item. *)
Theorem built_and_borrowed (malloc_ok : Z -> bool) (h : heap) :
  (forall numbers count, count < 0 \/ numbers = None -> cJSON_CreateIntArray malloc_ok numbers count h = Some (None, h))
  /\ array_built malloc_ok (fun n => cJSON_CreateNumber malloc_ok (of_Z n)) (cJSON_CreateIntArray malloc_ok) h
  /\ array_built malloc_ok (cJSON_CreateNumber malloc_ok) (cJSON_CreateFloatArray malloc_ok) h
  /\ array_built malloc_ok (cJSON_CreateNumber malloc_ok) (cJSON_CreateDoubleArray malloc_ok) h
  /\ array_built malloc_ok (cJSON_CreateString malloc_ok) (cJSON_CreateStringArray malloc_ok) h
  /\ (forall i, is_Some (h !! i) ->
       if malloc_ok sizeof_cJSON then
         exists r h', create_reference malloc_ok (Some i) h = Some (Some r, h') /\ kd h' r = kd h i
           /\ (forall l, l <> r -> h' !! l = h !! l) /\ cJSON_Delete (Some r) h' = Some h
       else create_reference malloc_ok (Some i) h = Some (None, h)).
Proof.
  assert (Hnum : forall v d, cJSON_CreateNumber malloc_ok v = Some d -> Z.land (type d) cJSON_IsReference = 0).
  { intros v d. unfold cJSON_CreateNumber, cJSON_New_Item. destruct (malloc_ok _); [|done]. by intros [= <-]. }
  assert (Hstr : forall s d, cJSON_CreateString malloc_ok s = Some d -> Z.land (type d) cJSON_IsReference = 0).
  { intros s d. unfold cJSON_CreateString, cJSON_New_Item. destruct (malloc_ok _); [|done]. cbn [mbind option_bind].
    destruct (cJSON_strdup malloc_ok s); [|done]. by intros [= <-]. }
  split_and!; [|by intros ? ? ?; apply create_array_spec; eauto..|].
  - intros numbers count H. unfold cJSON_CreateIntArray, create_array. destruct numbers; [|done].
    destruct (Z.ltb_spec count 0); [done|]. destruct H; [lia|done].
  - intros i [n Hn]. pose proof (create_reference_spec malloc_ok i n h Hn) as Hr. destruct (malloc_ok _); [|done].
    destruct Hr as (r & Hr & ->). eexists r, _. split; [done|]. unfold kd. rewrite lookup_insert_eq, Hn.
    split; [done|]. split; [intros l Hl; by apply lookup_insert_ne|]. apply delete_borrower; [done|apply lor_reference].
Qed.

Lemma built_and_borrowed_witness :
  (exists a us h', cJSON_CreateStringArray (fun _ => true) (Some [Some (str "a"); Some (str "b")]) 2 sample_heap = Some (Some a, h')
     /\ map (fun t => valuestring (fields t)) us = [Some (str "a"); Some (str "b")] /\ item_at h' (Tree a (set_type cJSON_Array zero_item) us))
  /\ (exists r h', create_reference (fun _ => true) (Some 0%nat) sample_heap = Some (Some r, h') /\ kd h' r = Some 1%nat
        /\ cJSON_Delete (Some r) h' = Some sample_heap).
Proof.
  destruct (built_and_borrowed (fun _ => true) sample_heap) as (_ & _ & _ & _ & Hs & Hr). split.
  - destruct (Hs [Some (str "a"); Some (str "b")] 2 ltac:(vm_compute; split; discriminate)) as (a & us & h' & Hc & Hus & Hi & _).
    exists a, us, h'. split; [exact Hc|]. split; [|exact Hi].
    inversion Hus as [|? t1 ? us1 [H1 _] H2]; subst. inversion H2 as [|? t2 ? us2 [H3 _] H4]; subst. inversion H4; subst.
    injection H1 as H1. injection H3 as H3. cbn. by rewrite <- H1, <- H3.
  - destruct (Hr 0%nat ltac:(by eexists)) as (r & h' & Hc & Hk & _ & Hd). exists r, h'. split; [exact Hc|]. split; [exact Hk|exact Hd].
Defined.
