(* ===== verification/Msg.v ===== *)
(** * The messages the clients send: common/msg.c, linux/main.c

    Every builder makes a [cJSON] object field by field and prints it.  The
    theorem at the end follows a message over the wire: the text is parsed by
    the same library and every field is read back with the accessors. *)

From S2P Require Import Prelude CString Double Codec Rfc4648 Json JsonParse JsonPrint JsonTrip.
Local Open Scope Z_scope.

Section Builders.
Context `{Base64Engine}.
Context (malloc_ok : Z -> bool) (uninit : nat -> bytes).

(** ** Idioms *)

Definition add_string (key : string) (s : option bytes) (j : option cJSON) : option cJSON :=
  (cJSON_AddStringToObject malloc_ok j (str key) s).1.
Definition add_number (key : string) (d : double) (j : option cJSON) : option cJSON :=
  (cJSON_AddNumberToObject malloc_ok j (str key) d).1.
Definition add_bool (key : string) (b : bool) (j : option cJSON) : option cJSON :=
  (cJSON_AddBoolToObject malloc_ok j (str key) b).1.

(** [cJSON_AddItemToArray(arr, cJSON_CreateString(s))] for each [s]. *)
Definition add_strings (l : list bytes) (arr : option cJSON) : option cJSON :=
  fold_left (fun arr s => (cJSON_AddItemToArray arr (cJSON_CreateString malloc_ok (Some s))).1) l arr.

(** A call that changes the last child of [j] through the pointer
    [cJSON_AddArrayToObject] returned. *)
Definition on_last_child (f : option cJSON -> option cJSON) (j : option cJSON) : option cJSON :=
  match j with
  | Some o =>
      match last o.(child), f (last o.(child)) with
      | Some _, Some arr => Some (set_child (removelast o.(child) ++ [arr]) o)
      | _, _ => j
      end
  | None => None
  end.

(** [arr = cJSON_AddArrayToObject(j, key)] and the loop over the addresses. *)
Definition add_array (key : string) (l : list bytes) (j : option cJSON) : option cJSON :=
  let '(j, ok) := cJSON_AddArrayToObject malloc_ok j (str key) in
  if ok then on_last_child (add_strings l) j else j.

(** [cJSON_PrintUnformatted(j)] as a [char *]. *)
Definition unformatted (j : option cJSON) : option bytes :=
  match cJSON_PrintUnformatted malloc_ok uninit j with Text block => Some block | _ => None end.

(** ** common/msg.c *)

Definition sc_msg_build (type : option bytes) (body : option cJSON) : option bytes :=
  match type with
  | None => None
  | Some t =>
      let root := match body with Some b => Some b | None => cJSON_CreateObject malloc_ok end in
      match root with
      | None => None
      | Some _ => unformatted (add_number "v" (of_Z 2) (add_string "type" (Some t) root))
      end
  end.

Definition sc_msg_clipboard (encrypted_b64 : option bytes) : option bytes :=
  match encrypted_b64 with
  | None => None
  | Some c => sc_msg_build (Some (str "clipboard")) (add_string "content" (Some c) (cJSON_CreateObject malloc_ok))
  end.

Definition capabilities : list bytes := [str "clipboard"; str "file_lan"; str "file_nat"; str "file_relay"].

Definition sc_msg_hello (client_type device_id app_version : option bytes) : option bytes :=
  let opt key s o := match s with Some _ => add_string key s o | None => o end in
  let o := cJSON_CreateObject malloc_ok in
  let o := opt "clientType"%string client_type o in
  let o := opt "deviceId"%string device_id o in
  let o := opt "appVersion"%string app_version o in
  let caps := add_strings capabilities (cJSON_CreateArray malloc_ok) in
  let o := (cJSON_AddItemToObject malloc_ok o (Some (str "capabilities")) caps).1 in
  sc_msg_build (Some (str "hello")) o.

(** ** linux/main.c *)

Definition build_auth_msg (sk : option bytes) : option bytes :=
  let j := cJSON_CreateObject malloc_ok in
  let j := add_string "type" (Some (str "auth")) j in
  unformatted (add_string "serverKey" sk j).

Definition build_login_msg (u p d : option bytes) : option bytes :=
  let j := cJSON_CreateObject malloc_ok in
  let j := add_string "type" (Some (str "login")) j in
  let j := add_string "username" u j in
  let j := add_string "password" p j in
  unformatted (add_string "deviceId" d j).

Definition build_clipboard_msg (enc : option bytes) : option bytes :=
  let j := cJSON_CreateObject malloc_ok in
  let j := add_string "type" (Some (str "clipboard")) j in
  unformatted (add_string "content" enc j).

Definition build_file_offer (fid fname mime : option bytes) (fsize : Z) (cksum : option bytes)
    (addrs : list bytes) : option bytes :=
  let j := cJSON_CreateObject malloc_ok in
  let j := add_string "type" (Some (str "file_offer")) j in
  let j := add_string "fileId" fid j in
  let j := add_string "fileName" fname j in
  let j := add_string "mimeType" mime j in
  let j := add_number "fileSize" (of_Z fsize) j in
  let j := add_string "checksum" cksum j in
  unformatted (add_array "localAddresses" addrs j).

Definition build_file_request (fid : option bytes) (addrs : list bytes) : option bytes :=
  let j := cJSON_CreateObject malloc_ok in
  let j := add_string "type" (Some (str "file_request")) j in
  let j := add_string "fileId" fid j in
  unformatted (add_array "localAddresses" addrs j).

Definition build_file_relay_request (fid : option bytes) : option bytes :=
  let j := cJSON_CreateObject malloc_ok in
  let j := add_string "type" (Some (str "file_relay")) j in
  unformatted (add_string "fileId" fid j).

Definition build_file_relay_data (fid : option bytes) (data : bytes) (fsize : Z) (target : option bytes) : option bytes :=
  let j := cJSON_CreateObject malloc_ok in
  let j := add_string "type" (Some (str "file_relay")) j in
  let j := add_string "fileId" fid j in
  let j := add_number "fileSize" (of_Z fsize) j in
  let j := add_string "targetDevice" target j in
  let j := match ft_base64_encode malloc_ok data with
           | Some b64 => add_string "data" (Some b64) j
           | None => j
           end in
  unformatted j.

Definition build_transfer_result (fid method : option bytes) (success : bool) (conn_ms xfer_ms : Z) : option bytes :=
  let j := cJSON_CreateObject malloc_ok in
  let j := add_string "type" (Some (str "file_transfer_result")) j in
  let j := add_string "fileId" fid j in
  let j := add_string "method" method j in
  let j := add_bool "success" success j in
  let j := add_number "connectionMs" (of_Z conn_ms) j in
  unformatted (add_number "transferMs" (of_Z xfer_ms) j).
End Builders.

(** ** Messages and their fields *)

Inductive message :=
| MHello (client_type device_id app_version : bytes)
| MClipboardV2 (content : bytes)
| MAuth (server_key : bytes)
| MLogin (username password device_id : bytes)
| MClipboard (content : bytes)
| MFileOffer (fid fname mime : bytes) (fsize : Z) (checksum : bytes) (addrs : list bytes)
| MFileRequest (fid : bytes) (addrs : list bytes)
| MRelayRequest (fid : bytes)
| MRelayData (fid data : bytes) (fsize : Z) (target : bytes)
| MTransferResult (fid method : bytes) (success : bool) (conn_ms xfer_ms : Z).

Inductive field := FString (s : bytes) | FNumber (n : Z) | FBool (b : bool) | FStrings (l : list bytes).

Section Fields.
Context `{Base64Engine}.

Definition build (malloc_ok : Z -> bool) (uninit : nat -> bytes) (m : message) : option bytes :=
  match m with
  | MHello c d v => sc_msg_hello malloc_ok uninit (Some c) (Some d) (Some v)
  | MClipboardV2 c => sc_msg_clipboard malloc_ok uninit (Some c)
  | MAuth k => build_auth_msg malloc_ok uninit (Some k)
  | MLogin u p d => build_login_msg malloc_ok uninit (Some u) (Some p) (Some d)
  | MClipboard c => build_clipboard_msg malloc_ok uninit (Some c)
  | MFileOffer i n t s c l => build_file_offer malloc_ok uninit (Some i) (Some n) (Some t) s (Some c) l
  | MFileRequest i l => build_file_request malloc_ok uninit (Some i) l
  | MRelayRequest i => build_file_relay_request malloc_ok uninit (Some i)
  | MRelayData i d s t => build_file_relay_data malloc_ok uninit (Some i) d s (Some t)
  | MTransferResult i me ok c x => build_transfer_result malloc_ok uninit (Some i) (Some me) ok c x
  end.

(** The wire format: the fields of each message, in order. *)
Definition fields (m : message) : list (string * field) :=
  match m with
  | MHello c d v => [("clientType", FString c); ("deviceId", FString d); ("appVersion", FString v);
      ("capabilities", FStrings capabilities); ("type", FString (str "hello")); ("v", FNumber 2)]
  | MClipboardV2 c => [("content", FString c); ("type", FString (str "clipboard")); ("v", FNumber 2)]
  | MAuth k => [("type", FString (str "auth")); ("serverKey", FString k)]
  | MLogin u p d => [("type", FString (str "login")); ("username", FString u); ("password", FString p);
      ("deviceId", FString d)]
  | MClipboard c => [("type", FString (str "clipboard")); ("content", FString c)]
  | MFileOffer i n t s c l => [("type", FString (str "file_offer")); ("fileId", FString i);
      ("fileName", FString n); ("mimeType", FString t); ("fileSize", FNumber s); ("checksum", FString c);
      ("localAddresses", FStrings l)]
  | MFileRequest i l => [("type", FString (str "file_request")); ("fileId", FString i);
      ("localAddresses", FStrings l)]
  | MRelayRequest i => [("type", FString (str "file_relay")); ("fileId", FString i)]
  | MRelayData i d s t => [("type", FString (str "file_relay")); ("fileId", FString i);
      ("fileSize", FNumber s); ("targetDevice", FString t);
      ("data", FString (evp_encode_block d (i32 (Z.of_nat (length d)))))]
  | MTransferResult i me ok c x => [("type", FString (str "file_transfer_result")); ("fileId", FString i);
      ("method", FString me); ("success", FBool ok); ("connectionMs", FNumber c); ("transferMs", FNumber x)]
  end%string.
End Fields.

(** Strings are C strings, numbers are [int]s. *)
Definition field_ok (f : field) : Prop :=
  match f with
  | FString s => no_nul s
  | FNumber n => INT_MIN <= n <= INT_MAX
  | FBool _ => True
  | FStrings l => Forall no_nul l
  end.

(** Field [key] of [root] holds [f], as the accessors see it. *)
Definition read_field (root : option cJSON) (key : string) (f : field) : Prop :=
  let item := cJSON_GetObjectItem root (str key) in
  match f with
  | FString s => cJSON_GetStringValue item = Some s
  | FNumber n => cJSON_GetNumberValue item = of_Z n
  | FBool b => cJSON_IsTrue item = b /\ is_Some item
  | FStrings l => exists a, item = Some a /\ cJSON_IsArray item = true
      /\ map (fun i => cJSON_GetStringValue (Some i)) a.(child) = map Some l
  end.

(** ** Trees of fields *)

Definition string_item (key : option bytes) (s : bytes) : cJSON := Item cJSON_String (Some s) 0 dzero key [].

Definition field_item (key : string) (f : field) : cJSON :=
  let k := Some (str key) in
  match f with
  | FString s => string_item k s
  | FNumber n => Item cJSON_Number None n (of_Z n) k []
  | FBool b => Item (if b then cJSON_True else cJSON_False) None 0 dzero k []
  | FStrings l => Item cJSON_Array None 0 dzero k (map (string_item None) l)
  end.

Definition message_item (fs : list (string * field)) : cJSON :=
  Item cJSON_Object None 0 dzero None (map (fun '(k, f) => field_item k f) fs).

(** The node of a field after a round trip. *)
Definition norm_field (key : string) (f : field) : cJSON :=
  match f with
  | FBool true => Item cJSON_True None 1 dzero (Some (str key)) []
  | _ => field_item key f
  end.

Lemma simple_field key f : field_ok f -> simple (field_item key f) = true.
Proof.
  destruct f as [s|n|b|l]; cbn [field_ok]; intros Hf; [done| |by destruct b|].
  - change (int_item (field_item key (FNumber n)) = true). unfold int_item. cbn [field_item valueint valuedouble].
    rewrite bool_decide_eq_true_2 by done. rewrite andb_true_r. apply andb_true_iff. lia.
  - change (forallb simple (map (string_item None) l) = true). induction l as [|s l IH]; [done|].
    inversion Hf; subst. by apply IH.
Qed.

Lemma printable_field d key f : (d < CJSON_NESTING_LIMIT)%nat -> field_ok f -> printable d (field_item key f) = true.
Proof.
  intros Hd Hok. pose proof (simple_field key f Hok) as Hs. revert Hok Hs.
  destruct f as [s|n|b|l]; cbn [field_ok]; intros Hf Hs; [done| |by destruct b|].
  - change (int_item (field_item key (FNumber n)) = true) in Hs.
    change ((length (number_text (field_item key (FNumber n))) <=? 25)%nat = true).
    rewrite number_text_int by done. apply Nat.leb_le. cbn [field_item valueint].
    etransitivity; [apply (print_d_length 10); unfold INT_MIN, INT_MAX in *; lia|lia].
  - change ((d <? CJSON_NESTING_LIMIT)%nat && forallb (printable (S d)) (map (string_item None) l) = true).
    replace (d <? CJSON_NESTING_LIMIT)%nat with true by (symmetry; by apply Nat.ltb_lt).
    cbn [andb]. clear Hs. induction l as [|s l IH]; [done|]. inversion Hf; subst. by apply IH.
Qed.

Lemma norm_string_item k s : no_nul s -> norm k (string_item None s) = string_item k s.
Proof. intros Hs. cbn. by rewrite cstr_no_nul. Qed.

Lemma norm_field_item key f : no_nul (str key) -> field_ok f ->
  norm (Some (cstr (default [] (field_item key f).(name)))) (field_item key f) = norm_field key f.
Proof.
  intros Hk. replace (default [] (name (field_item key f))) with (str key) by by destruct f as [| |[]|].
  rewrite (cstr_no_nul _ Hk). destruct f as [s|n|[]|l]; cbn [field_ok field_item]; intros Hf; try done.
  - cbn. by rewrite cstr_no_nul.
  - change (Item cJSON_Array None 0 dzero (Some (str key)) (map (norm None) (map (string_item None) l))
      = Item cJSON_Array None 0 dzero (Some (str key)) (map (string_item None) l)).
    f_equal. induction Hf as [|s l Hs _ IH]; [done|]. cbn [map]. by rewrite norm_string_item, IH.
Qed.

Definition keys_ok (fs : list (string * field)) : bool :=
  forallb (fun '(k, _) => forallb not_nul (str k)) fs
  && bool_decide (NoDup (map (fun '(k, _) => map tolower (str k)) fs)).

Definition fields_ok (fs : list (string * field)) : Prop :=
  keys_ok fs = true /\ Forall (fun '(_, f) => field_ok f) fs.

Lemma message_item_simple fs : fields_ok fs -> simple (message_item fs) = true.
Proof.
  intros [_ H]. change (forallb simple (map (fun '(k, f) => field_item k f) fs) = true).
  induction H as [|[k f] fs Hf _ IH]; [done|]. cbn [map forallb]. by rewrite simple_field, IH.
Qed.

Lemma message_item_printable fs : fields_ok fs -> printable 0 (message_item fs) = true.
Proof.
  intros [_ H]. change (forallb (printable 1) (map (fun '(k, f) => field_item k f) fs) = true).
  induction H as [|[k f] fs Hf _ IH]; [done|]. cbn [map forallb].
  rewrite printable_field, IH by (done || unfold CJSON_NESTING_LIMIT; lia). done.
Qed.

Lemma message_item_norm fs : fields_ok fs ->
  norm None (message_item fs) = Item cJSON_Object None 0 dzero None (map (fun '(k, f) => norm_field k f) fs).
Proof.
  intros [Hk H]. unfold keys_ok in Hk. apply andb_true_iff in Hk as [Hk _].
  change (Item cJSON_Object None 0 dzero None
    (map (fun c => norm (Some (cstr (default [] c.(name)))) c) (map (fun '(k, f) => field_item k f) fs))
    = Item cJSON_Object None 0 dzero None (map (fun '(k, f) => norm_field k f) fs)). f_equal.
  induction H as [|[k f] fs Hf _ IH]; [done|]. cbn [map forallb] in *.
  apply andb_true_iff in Hk as [Hk1 Hk2]. rewrite norm_field_item, IH; [done|done|by apply no_nul_str|done].
Qed.

(** ** How long a message is *)

Definition field_size (f : field) : nat :=
  match f with
  | FString s => 6 * length s + 2
  | FNumber _ => 25
  | FBool _ => 5
  | FStrings l => list_sum (map (fun s => 6 * length s + 3) l) + 2
  end%nat.

Definition message_size (fs : list (string * field)) : nat :=
  (list_sum (map (fun '(k, f) => 6 * length (str k) + 4 + field_size f) fs) + 2)%nat.

Lemma escape_byte_short c : (length (escape_byte c) <= 6)%nat.
Proof.
  pose proof (byte_forall (fun c => length (escape_byte c) <=? 6)%nat ltac:(vm_compute; reflexivity) c) as H.
  by apply Nat.leb_le.
Qed.

Lemma render_string_length s : (length (render_string (Some s)) <= 6 * length s + 2)%nat.
Proof.
  cbn [render_string length]. rewrite length_app. cbn [length].
  assert (H : forall t, (length (concat (map escape_byte t)) <= 6 * length t)%nat).
  { induction t as [|c t IH]; [done|]. cbn [map concat length]. rewrite length_app.
    pose proof (escape_byte_short c). lia. }
  specialize (H (cstr s)). unfold cstr in H |- *. pose proof (take_while_length not_nul s). lia.
Qed.

Lemma render_field_length d key f :
  field_ok f -> (length (render false d (field_item key f)) <= field_size f)%nat.
Proof.
  destruct f as [s|n|b|l]; cbn [field_ok field_size]; intros Hf.
  - apply render_string_length.
  - change (length (number_text (field_item key (FNumber n))) <= 25)%nat.
    rewrite number_text_int by (apply (simple_field key (FNumber n)); exact Hf). cbn [field_item valueint].
    etransitivity; [apply (print_d_length 10); unfold INT_MIN, INT_MAX in *; lia|lia].
  - apply Nat.leb_le. by destruct b.
  - change (length (str "[" ++ render_elements false (render false (S d)) (map (string_item None) l) ++ str "]")
      <= list_sum (map (fun s => 6 * length s + 3) l) + 2)%nat.
    rewrite !length_app. change (length (str "[")) with 1%nat. change (length (str "]")) with 1%nat.
    clear Hf. enough (length (render_elements false (render false (S d)) (map (string_item None) l))
      <= list_sum (map (fun s => 6 * length s + 3) l))%nat by lia.
    induction l as [|s l IH]; [done|]. cbn [map render_elements list_sum fold_right].
    rewrite !length_app. change (render false (S d) (string_item None s)) with (render_string (Some s)).
    pose proof (render_string_length s).
    change (foldr Nat.add 0%nat (map (fun s => 6 * length s + 3) l)%nat)
      with (list_sum (map (fun s => 6 * length s + 3) l)%nat).
    destruct l; simpl length in *; lia.
Qed.

Lemma render_message_length fs :
  fields_ok fs -> (length (render false 0 (message_item fs)) <= message_size fs)%nat.
Proof.
  intros [_ H].
  change (length (str "{" ++ [] ++ render_members false 1 (render false 1)
    (map (fun '(k, f) => field_item k f) fs) ++ [] ++ str "}") <= message_size fs)%nat.
  rewrite !length_app. unfold message_size. change (length (str "{")) with 1%nat. change (length (str "}")) with 1%nat.
  cbn [length]. enough (length (render_members false 1 (render false 1) (map (fun '(k, f) => field_item k f) fs))
    <= list_sum (map (fun '(k, f) => 6 * length (str k) + 4 + field_size f) fs))%nat by lia.
  induction H as [|[k f] fs Hf _ IH]; [done|]. cbn [map].
  change (list_sum (?x :: ?l)) with (x + list_sum l)%nat.
  cbn [render_members app]. rewrite !length_app. change (length (str ":")) with 1%nat.
  assert (En : name (field_item k f) = Some (str k)) by by destruct f as [| |[]|].
  rewrite En. pose proof (render_string_length (str k)). pose proof (render_field_length 1 k f Hf).
  destruct fs as [|[k' f'] fs]; cbn [map] in *; [simpl length in *|change (length (str ",")) with 1%nat]; lia.
Qed.

(** ** Reading back *)

Lemma name_norm_field k f : (norm_field k f).(name) = Some (str k).
Proof. by destruct f as [s|n|[]|l]. Qed.

Lemma find_field fs k f :
  keys_ok fs = true -> In (k, f) fs ->
  find_insensitive (str k) (map (fun '(k, f) => norm_field k f) fs) = Some (norm_field k f).
Proof.
  unfold keys_ok. intros [Hn Hd]%andb_true_iff Hin. apply bool_decide_eq_true in Hd.
  induction fs as [|[k' f'] fs IH]; [done|]. cbn [map forallb find_insensitive] in *.
  apply andb_true_iff in Hn as [Hk Hn]. apply NoDup_cons in Hd as [Hnin Hd].
  rewrite name_norm_field. cbn [case_insensitive_streq].
  destruct Hin as [[= -> ->]|Hin]; [by rewrite strcaseeq_refl|].
  assert (Hkn : no_nul (str k)).
  { rewrite forallb_forall in Hn. apply no_nul_str. by apply (Hn (k, f)). }
  unfold strcaseeq. rewrite !cstr_no_nul by (done || by apply no_nul_str).
  rewrite bool_decide_eq_false_2; [by apply IH|]. intros E. apply Hnin. rewrite <- E.
  apply list_elem_of_In. apply (in_map (fun '(k, _) => map tolower (str k)) fs (k, f) Hin).
Qed.

Lemma read_norm_field fs k f :
  keys_ok fs = true -> In (k, f) fs ->
  read_field (Some (Item cJSON_Object None 0 dzero None (map (fun '(k, f) => norm_field k f) fs))) k f.
Proof.
  intros Hk Hin. unfold read_field, cJSON_GetObjectItem, get_object_item. cbn [child].
  rewrite (find_field _ _ _ Hk Hin), name_norm_field.
  destruct f as [s|n|[]|l]; cbn [norm_field field_item]; try done.
  eexists. split; [done|]. split; [done|]. cbn [child]. rewrite map_map. by apply map_ext.
Qed.

(** ** The builders make these trees *)

Section Build.
Context `{HB : Base64Engine}.
Context (malloc_ok : Z -> bool) (uninit : nat -> bytes).
Hypothesis malloc_all : forall n, malloc_ok n = true.

Lemma create_object_all : cJSON_CreateObject malloc_ok = Some (message_item []).
Proof. unfold cJSON_CreateObject, cJSON_New_Item. by rewrite malloc_all. Qed.

Lemma create_string_all s : no_nul s -> cJSON_CreateString malloc_ok (Some s) = Some (string_item None s).
Proof.
  intros Hs. unfold cJSON_CreateString, cJSON_New_Item, cJSON_strdup. rewrite !malloc_all. cbn.
  by rewrite cstr_no_nul.
Qed.

Lemma add_item_all fs key i :
  no_nul (str key) ->
  (add_item_to_object malloc_ok (Some (message_item fs)) (Some (str key)) (Some i) false).1
  = Some (set_child (child (message_item fs) ++ [set_type (Z.land i.(type) (Z.lnot cJSON_StringIsConst))
                                                   (set_name (Some (str key)) i)]) (message_item fs)).
Proof. intros Hk. cbn [add_item_to_object]. unfold cJSON_strdup. rewrite malloc_all. cbn. by rewrite cstr_no_nul. Qed.

Lemma add_string_all fs key s :
  no_nul (str key) -> no_nul s ->
  add_string malloc_ok key (Some s) (Some (message_item fs)) = Some (message_item (fs ++ [(key, FString s)])).
Proof.
  intros Hk Hs. unfold add_string, cJSON_AddStringToObject. rewrite create_string_all, add_item_all by done.
  unfold message_item. by rewrite map_app.
Qed.

(** A [char] array that need not be full. *)
Lemma add_string_cstr fs key s :
  no_nul (str key) ->
  add_string malloc_ok key (Some s) (Some (message_item fs)) = Some (message_item (fs ++ [(key, FString (cstr s))])).
Proof.
  intros Hk. rewrite <- (add_string_all fs key (cstr s) Hk (no_nul_cstr s)).
  unfold add_string, cJSON_AddStringToObject, cJSON_CreateString, cJSON_strdup, strlen. by rewrite cstr_idemp.
Qed.

Lemma add_number_all fs key n :
  no_nul (str key) -> INT_MIN <= n <= INT_MAX ->
  add_number malloc_ok key (of_Z n) (Some (message_item fs)) = Some (message_item (fs ++ [(key, FNumber n)])).
Proof.
  intros Hk Hn. unfold add_number, cJSON_AddNumberToObject, cJSON_CreateNumber, cJSON_New_Item.
  rewrite malloc_all. cbn [fmap option_fmap option_map]. rewrite add_item_all by done.
  unfold message_item. rewrite map_app. cbn. by rewrite saturate_of_Z.
Qed.

Lemma add_bool_all fs key b :
  no_nul (str key) ->
  add_bool malloc_ok key b (Some (message_item fs)) = Some (message_item (fs ++ [(key, FBool b)])).
Proof.
  intros Hk. unfold add_bool, cJSON_AddBoolToObject, cJSON_CreateBool, cJSON_New_Item.
  rewrite malloc_all. cbn [fmap option_fmap option_map]. rewrite add_item_all by done.
  unfold message_item. rewrite map_app. by destruct b.
Qed.

Lemma add_strings_all l l0 k :
  Forall no_nul l ->
  add_strings malloc_ok l (Some (Item cJSON_Array None 0 dzero k (map (string_item None) l0)))
  = Some (Item cJSON_Array None 0 dzero k (map (string_item None) (l0 ++ l))).
Proof.
  intros Hl. revert l0. unfold add_strings. induction Hl as [|s l Hs _ IH]; intros l0; [by rewrite app_nil_r|].
  cbn [fold_left]. rewrite create_string_all by done.
  assert (E : (cJSON_AddItemToArray (Some (Item cJSON_Array None 0 dzero k (map (string_item None) l0)))
    (Some (string_item None s))).1 = Some (Item cJSON_Array None 0 dzero k (map (string_item None) (l0 ++ [s]))))
    by (by rewrite map_app).
  rewrite E, IH. by rewrite <- app_assoc.
Qed.

Lemma on_last_child_snoc g c a a' o :
  g (Some a) = Some a' -> on_last_child g (Some (set_child (c ++ [a]) o)) = Some (set_child (c ++ [a']) o).
Proof. intros Hg. unfold on_last_child, set_child. cbn [child]. by rewrite last_snoc, Hg, removelast_last. Qed.

Lemma add_array_all fs key l :
  no_nul (str key) -> Forall no_nul l ->
  add_array malloc_ok key l (Some (message_item fs)) = Some (message_item (fs ++ [(key, FStrings l)])).
Proof.
  intros Hk Hl. unfold add_array, cJSON_AddArrayToObject, cJSON_CreateArray, cJSON_New_Item.
  rewrite malloc_all. cbn [fmap option_fmap option_map].
  pose proof (add_item_all fs key (set_type cJSON_Array zero_item) Hk) as E.
  assert (Eok : (add_item_to_object malloc_ok (Some (message_item fs)) (Some (str key))
    (Some (set_type cJSON_Array zero_item)) false).2 = true).
  { cbn [add_item_to_object]. unfold cJSON_strdup. by rewrite malloc_all. }
  destruct (add_item_to_object _ _ _ _ _) as [j ok]. cbn [fst snd] in E, Eok. subst j ok.
  rewrite (on_last_child_snoc _ _ _ _ _ (add_strings_all l [] (Some (str key)) Hl)).
  unfold message_item. by rewrite (map_app _ fs).
Qed.

Lemma add_list_all fs key l :
  no_nul (str key) -> Forall no_nul l ->
  (cJSON_AddItemToObject malloc_ok (Some (message_item fs)) (Some (str key))
    (add_strings malloc_ok l (cJSON_CreateArray malloc_ok))).1
  = Some (message_item (fs ++ [(key, FStrings l)])).
Proof.
  intros Hk Hl. unfold cJSON_CreateArray, cJSON_New_Item. rewrite malloc_all.
  pose proof (add_strings_all l [] None Hl) as E. cbn [fmap option_fmap option_map].
  change (set_type cJSON_Array zero_item) with (Item cJSON_Array None 0 dzero None (map (string_item None) [])).
  rewrite E. unfold cJSON_AddItemToObject. rewrite add_item_all by done.
  unfold message_item. by rewrite (map_app _ fs).
Qed.

Lemma sc_msg_build_all fs t :
  no_nul t -> sc_msg_build malloc_ok uninit (Some t) (Some (message_item fs))
  = unformatted malloc_ok uninit (Some (message_item ((fs ++ [("type"%string, FString t)]) ++ [("v"%string, FNumber 2)]))).
Proof.
  intros Ht. cbn [sc_msg_build].
  rewrite add_string_all, add_number_all by (done || by apply no_nul_str). done.
Qed.

Lemma unformatted_all fs :
  fields_ok fs -> (forall n, length (uninit n) = n) ->
  Z.of_nat (length (render false 0 (message_item fs)) + 2) <= INT_MAX / 2 ->
  exists text root, unformatted malloc_ok uninit (Some (message_item fs)) = Some text
    /\ cJSON_Parse malloc_ok (Some text) = Some root
    /\ Forall (fun '(k, f) => read_field (Some root) k f) fs.
Proof.
  intros Hok Hu Hl.
  pose proof (message_item_simple fs Hok) as Hs. pose proof (message_item_printable fs Hok) as Hp.
  pose proof (print_spec malloc_ok uninit Hu (message_item fs) false) as H.
  unfold unformatted, cJSON_PrintUnformatted.
  destruct (print malloc_ok uninit (Some (message_item fs)) false) as [text| |]; [|specialize (H malloc_all Hp); lia|done].
  destruct H as [_ ->]. exists (render false 0 (message_item fs) ++ [NUL]), (norm None (message_item fs)).
  split_and!; [done| |].
  - unfold cJSON_Parse. by rewrite parse_rendered.
  - rewrite message_item_norm by done. apply Forall_forall. intros [k f] Hin.
    apply read_norm_field; [apply Hok|by apply list_elem_of_In].
Qed.

End Build.

(** [message_ok]: its strings are C strings, its numbers fit [int], relay data
    can be encoded. *)
Definition message_ok `{Base64Engine} (m : message) : Prop :=
  Forall (fun '(_, f) => field_ok f) (fields m)
  /\ match m with MRelayData _ data _ _ => Z.of_nat (length data) <= INT_MAX | _ => True end.

Lemma fields_keys `{Base64Engine} m : keys_ok (fields m) = true.
Proof. destruct m; vm_compute; reflexivity. Qed.

(** A builder makes the object of its fields. *)
Lemma build_fields `{HB : Base64Engine} malloc_ok uninit m :
  (forall n, malloc_ok n = true) -> message_ok m ->
  build malloc_ok uninit m = unformatted malloc_ok uninit (Some (message_item (fields m))).
Proof.
  intros Hm [Hok Hd]. 
  assert (Hcap : Forall no_nul capabilities) by (repeat constructor).
  assert (Hb64 : forall d, Z.of_nat (length d) <= INT_MAX ->
    ft_base64_encode malloc_ok d = Some (evp_encode_block d (i32 (Z.of_nat (length d))))).
  { intros d Hd'. unfold ft_base64_encode. by rewrite Hm. }
  destruct m; cbn [fields] in Hok; rewrite ?Forall_cons in Hok; cbn [field_ok] in Hok; destruct_and?;
    cbn [build fields].
  all: unfold sc_msg_hello, sc_msg_clipboard, build_auth_msg, build_login_msg, build_clipboard_msg,
    build_file_offer, build_file_request, build_file_relay_request, build_file_relay_data,
    build_transfer_result; rewrite ?Hb64 by done; rewrite create_object_all by done.
  all: repeat first [rewrite add_string_all by (done || by apply no_nul_str)
    | rewrite add_number_all by (done || by apply no_nul_str)
    | rewrite add_bool_all by (done || by apply no_nul_str)
    | rewrite add_array_all by (done || by apply no_nul_str)
    | rewrite add_list_all by (done || by apply no_nul_str)
    | rewrite sc_msg_build_all by (done || by apply no_nul_str)].
  all: reflexivity.
Qed.

(** C14: every message arrives as it was meant: for each of the ten messages
    the clients send, the builder returns a text, the text parses, and every
    field of the wire format reads back with the value that was put in -
    device names, file names, ciphertexts and addresses of any bytes, sizes
    and times, flags and address lists. *)
Theorem messages_read_back `{HB : Base64Engine} malloc_ok uninit (m : message) :
  (forall n, malloc_ok n = true) -> (forall n, length (uninit n) = n) -> message_ok m ->
  Z.of_nat (length (render false 0 (message_item (fields m))) + 2) <= INT_MAX / 2 ->
  exists text root,
    build malloc_ok uninit m = Some text /\ cJSON_Parse malloc_ok (Some text) = Some root
    /\ Forall (fun '(key, f) => read_field (Some root) key f) (fields m).
Proof.
  intros Hm Hu Hok Hl. rewrite build_fields by done.
  apply unformatted_all; [done| |done|done]. split; [apply fields_keys|apply Hok].
Qed.

Definition example_offer : message :=
  MFileOffer (str "id-1") ["a"%byte; x22; xc3; xa9; x0a] (str "text/plain") 1048576 (str "00ff")
    [str "192.168.1.2:5000"; str "10.0.0.7:5000"].

Lemma messages_read_back_witness :
  exists text root,
    build (H := rfc4648) (fun _ => true) (fun n => replicate n xff) example_offer = Some text
    /\ cJSON_Parse (fun _ => true) (Some text) = Some root
    /\ Forall (fun '(key, f) => read_field (Some root) key f) (fields (H := rfc4648) example_offer).
Proof.
  apply (messages_read_back (HB := rfc4648) (fun _ => true) (fun n => replicate n xff) example_offer).
  - done.
  - intros n. apply length_replicate.
  - split; [|done]. repeat constructor; vm_compute; discriminate.
  - vm_compute. discriminate.
Defined.
