(* ===== verification/Http.v ===== *)
(** * HTTP requests: the libcurl part of common/auth_http.c

    [write_cb] collects a response body in a growing block ([HttpBuf]);
    [post_json] sends one request.  libcurl is the class [Curl]: what a
    transfer delivers may depend on the requests sent before it and on the
    request itself. *)

From S2P Require Import Prelude CString Config RecvBuf JsonPrint.
Local Open Scope Z_scope.

Record HttpBuf := MkHttpBuf { hb_data : option bytes; hb_len : nat; hb_cap : Z }.

(** What is set on the handle before [curl_easy_perform]. *)
Record Request := MkRequest {
  opt_url : bytes;
  opt_httpheader : list bytes;
  opt_postfields : bytes;  (** the [CURLOPT_POSTFIELDSIZE] bytes that are sent *)
  opt_timeout : Z;
  opt_connecttimeout : Z;
  opt_nosignal : bool;
  opt_ssl_verifypeer : Z;
  opt_ssl_verifyhost : Z;
  opt_cainfo : option bytes }.

(** The chunks of the body, whether the transfer ends with [CURLE_OK], and the
    response code. *)
Record Transfer := MkTransfer { chunks : list bytes; completed : bool; response_code : Z }.

Class Curl := {
  (** [curl_easy_init] returns a handle *)
  easy_init : list Request -> bool;
  (** [curl_slist_append] finds the memory for one more element *)
  slist_append_ok : list bytes -> bool;
  (** [curl_easy_perform] after the requests of the list *)
  easy_perform : list Request -> Request -> Transfer }.

Section Http.
Context `{Curl}.
Context (malloc_ok : Z -> bool) (uninit : nat -> bytes).

(** [memcpy] and stores into a block; [None]: outside of it. *)
Definition poke (buf : bytes) (pos : nat) (text : bytes) : option bytes :=
  if (pos + length text <=? length buf)%nat
  then Some (take pos buf ++ text ++ drop (pos + length text) buf) else None.

(** The growth of [write_cb]. *)
Definition http_grow (need : Z) (buf : HttpBuf) : option HttpBuf :=
  if hb_cap buf <? need then
    let new_cap := if hb_cap buf =? 0 then 1024 else hb_cap buf * 2 in
    new_cap ← grow (grow_fuel need) new_cap need;
    p ← realloc malloc_ok uninit (default [] (hb_data buf)) (Z.to_nat new_cap);
    Some (MkHttpBuf (Some p) (hb_len buf) new_cap)
  else Some buf.

(** The result of [write_cb]; [None]: a write outside of the block. *)
Definition write_cb (chunk : bytes) (buf : HttpBuf) : option (nat * HttpBuf) :=
  let total := length chunk in
  match http_grow (Z.of_nat (hb_len buf + total + 1)) buf with
  | None => Some (0%nat, buf)
  | Some buf =>
      data ← hb_data buf;
      data ← poke data (hb_len buf) chunk;
      let len := (hb_len buf + total)%nat in
      data ← poke data len [NUL];
      Some (total, MkHttpBuf (Some data) len (hb_cap buf))
  end.

(** libcurl hands over the chunks in order and gives up when the callback
    returns a different number. *)
Fixpoint deliver (cs : list bytes) (buf : HttpBuf) : option (bool * HttpBuf) :=
  match cs with
  | [] => Some (true, buf)
  | c :: cs =>
      r ← write_cb c buf;
      if (r.1 =? length c)%nat then deliver cs r.2 else Some (false, r.2)
  end.

Definition curl_slist_append (l : list bytes) (s : bytes) : list bytes :=
  if slist_append_ok l then l ++ [s] else [].

Definition post_request (cfg : ClientConfig) (url body : bytes) : Request :=
  let headers := curl_slist_append [] (str "Content-Type: application/json") in
  let headers := curl_slist_append headers (str "Accept: application/json") in
  let tls := negb (use_tls cfg =? 0) in
  let skip := negb (skip_tls_verify cfg =? 0) in
  MkRequest url headers (cstr body) 15 10 true
    (if tls && skip then 0 else 1)
    (if tls && skip then 0 else 2)
    (if tls && negb skip && negb (beq (hd NUL (ca_cert_path cfg)) NUL)
     then Some (ca_cert_path cfg) else None).

(** Result, [out], [*http_code], and the requests sent so far. *)
Definition post_json (cfg : ClientConfig) (url body : bytes) (sent : list Request)
    : option (Z * option bytes * Z * list Request) :=
  if negb (easy_init sent) then Some (-1, None, 0, sent)
  else
    let r := post_request cfg url body in
    let t := easy_perform sent r in
    d ← deliver (chunks t) (MkHttpBuf None 0 0);
    if completed t && d.1 then Some (0, hb_data d.2, response_code t, sent ++ [r])
    else Some (-1, None, response_code t, sent ++ [r]).

(** ** Collecting a body *)

Lemma poke_spec buf pos text :
  (pos + length text <= length buf)%nat ->
  exists b, poke buf pos text = Some b /\ length b = length buf
    /\ take (pos + length text) b = take pos buf ++ text.
Proof.
  intros Hp. unfold poke. replace (_ <=? _)%nat with true by (symmetry; by apply Nat.leb_le).
  eexists. split; [done|]. split; [len|].
  rewrite app_assoc. apply take_app_exact. len.
Qed.

Lemma realloc_keeps old n p :
  (forall n, length (uninit n) = n) ->
  realloc malloc_ok uninit old n = Some p -> (length old <= n)%nat ->
  length p = n /\ take (length old) p = old.
Proof.
  intros Hu. unfold realloc. destruct (malloc_ok _); [|done]. intros [= <-] Hl. split.
  - rewrite length_app, length_take, length_drop, Hu. lia.
  - rewrite (take_ge old) by lia. by apply take_app_exact.
Qed.

(** [buf] holds [body] and its terminator (nothing when no chunk came). *)
Definition holds (body : bytes) (buf : HttpBuf) : Prop :=
  hb_len buf = length body
  /\ match hb_data buf with
     | None => body = [] /\ hb_cap buf = 0
     | Some block => hb_cap buf = Z.of_nat (length block) /\ take (S (length body)) block = body ++ [NUL]
         /\ (length body < length block)%nat
         /\ (length block <= 1024 \/ length block < 2 * (length body + 1))%nat
     end.

Hypothesis uninit_length : forall n, length (uninit n) = n.

Lemma http_grow_spec body n buf :
  holds body buf -> (length body < n)%nat ->
  match http_grow (Z.of_nat n) buf with
  | None => exists k, malloc_ok k = false
  | Some buf' => hb_len buf' = length body
      /\ exists block, hb_data buf' = Some block /\ hb_cap buf' = Z.of_nat (length block)
         /\ take (length body) block = body /\ (n <= length block)%nat
         /\ (length block <= 1024 \/ length block < 2 * n)%nat
  end.
Proof.
  intros [Hl Hd] Hn. unfold http_grow. destruct (hb_cap buf <? Z.of_nat n) eqn:E; boolify.
  - set (c0 := if hb_cap buf =? 0 then 1024 else hb_cap buf * 2).
    assert (Hc : 0 <= hb_cap buf /\ 1 <= c0 /\ hb_cap buf <= c0 /\ (c0 = 1024 \/ c0 < 2 * Z.of_nat n)).
    { unfold c0. destruct (hb_data buf) as [block|]; destruct (_ =? 0) eqn:E0; boolify; lia. }
    destruct (grow_spec (grow_fuel (Z.of_nat n)) c0 (Z.of_nat n)) as (c & Eg & H1 & H2 & H3);
      [lia|apply grow_fuel_enough; lia|unfold grow_fuel; lia|]. rewrite Eg. cbn [mbind option_bind].
    destruct (realloc _ _ _ _) as [p|] eqn:Er; cbn [mbind option_bind].
    2:{ unfold realloc in Er. destruct (malloc_ok _) eqn:Em; [done|eauto]. }
    assert (Hold : (length (default [] (hb_data buf)) <= Z.to_nat c)%nat)
      by (destruct (hb_data buf); simpl; lia).
    destruct (realloc_keeps _ _ _ uninit_length Er Hold) as [Hp Ht]. cbn [hb_len hb_data hb_cap].
    split; [done|]. exists p. split_and!; [done|lia| |lia|lia].
    destruct (hb_data buf) as [block|]; simpl in Ht.
    + destruct Hd as (_ & Hb & Hlt & _). apply (f_equal (take (length body))) in Hb.
      rewrite take_take, take_app_length, Nat.min_l in Hb by lia.
      rewrite <- Hb at 2. rewrite <- Ht, take_take, Nat.min_l; [done|lia].
    + destruct Hd as [-> _]. by destruct p.
  - destruct (hb_data buf) as [block|] eqn:Eb; [|lia]. destruct Hd as (Hc & Hb & Hlt & Hm).
    split; [done|]. exists block. split_and!; [done|done| |lia|lia].
    apply (f_equal (take (length body))) in Hb. rewrite take_take, take_app_length, Nat.min_l in Hb by lia. done.
Qed.

Lemma write_cb_spec body chunk buf :
  holds body buf ->
  exists n buf', write_cb chunk buf = Some (n, buf')
    /\ (n = length chunk /\ holds (body ++ chunk) buf'
        \/ n = 0%nat /\ buf' = buf /\ exists k, malloc_ok k = false).
Proof.
  intros Hb. unfold write_cb. pose proof (proj1 Hb) as Hl. rewrite Hl.
  pose proof (http_grow_spec body (length body + length chunk + 1) buf Hb ltac:(lia)) as Hg.
  destruct (http_grow _ buf) as [b|]; [|by eauto 10].
  destruct Hg as (Hl' & block & Hd & Hc & Ht & Hn & Hm). rewrite Hd, Hl'. cbn [mbind option_bind].
  destruct (poke_spec block (length body) chunk ltac:(lia)) as (b1 & -> & Hb1 & Ht1). cbn [mbind option_bind].
  destruct (poke_spec b1 (length body + length chunk) [NUL] ltac:(simpl; lia)) as (b2 & -> & Hb2 & Ht2).
  cbn [mbind option_bind]. do 2 eexists. split; [done|]. left. split; [done|].
  split; cbn [hb_len hb_data hb_cap]; [by rewrite length_app|].
  rewrite Ht1, Ht in Ht2. simpl in Ht2. rewrite length_app.
  replace (S (length body + length chunk)) with (length body + length chunk + 1)%nat by lia.
  split_and!; [congruence|done|lia|lia].
Qed.

Lemma deliver_spec cs body buf :
  holds body buf ->
  exists ok buf', deliver cs buf = Some (ok, buf')
    /\ if ok then holds (body ++ concat cs) buf' else exists k, malloc_ok k = false.
Proof.
  revert body buf. induction cs as [|c cs IH]; intros body buf Hb; cbn [deliver].
  - exists true, buf. split; [done|]. by rewrite app_nil_r.
  - destruct (write_cb_spec body c buf Hb) as (n & b & -> & Hn). cbn [mbind option_bind fst snd].
    destruct Hn as [[-> Hb']|(-> & -> & Hk)].
    + rewrite Nat.eqb_refl. destruct (IH _ _ Hb') as (ok & b' & E & Hok). exists ok, b'. split; [done|].
      destruct ok; [|done]. cbn [concat]. by rewrite app_assoc.
    + destruct (0 =? length c)%nat eqn:E0; [|by eauto]. boolify. destruct c; [|done].
      destruct (IH _ _ Hb) as (ok & b' & E & Hok). exists ok, b'. split; [done|]. destruct ok; [|done]. exact Hok.
Qed.

Lemma holds_empty : holds [] (MkHttpBuf None 0 0).
Proof. by split. Qed.

(** What [post_json] leaves in [out]: a terminated copy of the whole body. *)
Definition collected (body : bytes) (out : option bytes) : Prop :=
  match out with
  | None => body = []
  | Some block => take (S (length body)) block = body ++ [NUL]
  end.

Lemma post_json_spec cfg url body sent :
  exists rc out code sent', post_json cfg url body sent = Some (rc, out, code, sent')
    /\ (rc = 0 /\ (let r := post_request cfg url body in
                   let t := easy_perform sent r in
                   sent' = sent ++ [r] /\ completed t = true /\ code = response_code t
                   /\ collected (concat (chunks t)) out)
        \/ rc = -1 /\ out = None
           /\ (sent' = sent /\ easy_init sent = false
               \/ sent' = sent ++ [post_request cfg url body]
                  /\ (completed (easy_perform sent (post_request cfg url body)) = false
                      \/ exists k, malloc_ok k = false))).
Proof.
  unfold post_json. destruct (easy_init sent) eqn:Ei; cbn [negb].
  2:{ do 4 eexists. split; [done|]. right. split_and!; [done|done|]. by left. }
  destruct (deliver_spec (chunks (easy_perform sent (post_request cfg url body))) [] _ holds_empty)
    as (ok & b & -> & Hok). cbn [mbind option_bind fst snd].
  destruct (completed (easy_perform sent (post_request cfg url body))) eqn:Et; cbn [andb].
  2:{ do 4 eexists. split; [done|]. right. split_and!; [done|done|]. right. split; [done|]. by left. }
  destruct ok; do 4 eexists; (split; [done|]).
  - left. split_and!; try done. unfold collected. destruct Hok as [_ Hok]. simpl in Hok.
    by destruct (hb_data b); destruct_and?.
  - right. split_and!; [done|done|]. right. split; [done|]. by right.
Qed.
End Http.

(** The body of a response is collected byte for byte: whatever chunks the
    server sends, in whatever sizes (empty ones included), and whatever
    allocations fail, [write_cb] never writes outside of its block; when it
    accepts all of them the block holds their concatenation and a terminator,
    and is at most twice as large as needed (or the initial 1024 bytes). *)
Theorem http_body_collected malloc_ok uninit (cs : list bytes) :
  (forall n, length (uninit n) = n) ->
  let body := concat cs in
  match deliver malloc_ok uninit cs (MkHttpBuf None 0 0) with
  | None => False
  | Some (false, _) => exists k, malloc_ok k = false
  | Some (true, buf) =>
      hb_len buf = length body
      /\ match hb_data buf with
         | None => body = []
         | Some block => take (S (length body)) block = body ++ [NUL]
             /\ (length block <= Nat.max 1024 (2 * (length body + 1)))%nat
         end
  end.
Proof.
  intros Hu body. destruct (deliver_spec malloc_ok uninit Hu cs [] _ holds_empty) as (ok & b & -> & Hok).
  destruct ok; [|done]. destruct Hok as [Hl Hd]. cbn [app] in Hl, Hd. subst body. split; [done|].
  destruct (hb_data b); destruct_and?; [split; [done|lia]|done].
Qed.

(** Three chunks, one of them longer than the first block. *)
Lemma http_body_collected_witness :
  let cs := [str "{"; replicate 3000 "x"%byte; str "}"] in
  match deliver (fun _ => true) (fun n => replicate n xff) cs (MkHttpBuf None 0 0) with
  | None => False
  | Some (false, _) => exists k, (fun _ : Z => true) k = false
  | Some (true, buf) =>
      hb_len buf = length (concat cs)
      /\ match hb_data buf with
         | None => concat cs = []
         | Some block => take (S (length (concat cs))) block = concat cs ++ [NUL]
             /\ (length block <= Nat.max 1024 (2 * (length (concat cs) + 1)))%nat
         end
  end.
Proof.
  cbv zeta. apply (http_body_collected (fun _ => true) (fun n => replicate n xff)).
  intros n. apply length_replicate.
Defined.
