(* ===== verification/Auth.v ===== *)
(** * Tokens: common/auth_http.c, common/ws_client.c

    Logging in and refreshing over [Http], and the token acquisition both
    clients run before every connection. *)

From S2P Require Import Prelude CString Double Codec Json JsonParse JsonPrint JsonTrip Msg Config Http.
Local Open Scope Z_scope.

Record AuthTokens := MkTokens { access_token : bytes; refresh_token : bytes; expires_in_sec : Z }.

Definition TOKEN_LEN : nat := 1024.

(** [(long) d]; as for [int_of], the x86-64 result where C leaves it undefined. *)
Definition long_of (d : double) : Z :=
  match d with
  | S754_nan | S754_infinity _ => LONG_MIN
  | _ => let z := trunc d in if (LONG_MIN <=? z) && (z <=? LONG_MAX) then z else LONG_MIN
  end.

Section Auth.
Context `{Curl}.
Context (malloc_ok : Z -> bool) (uninit : nat -> bytes).

Definition parse_token_response (json_text : option bytes) (out : AuthTokens) : Z * AuthTokens :=
  match cJSON_Parse malloc_ok json_text with
  | None => (-1, out)
  | Some root =>
      let access := cJSON_GetObjectItemCaseSensitive (Some root) (str "accessToken") in
      let refresh := cJSON_GetObjectItemCaseSensitive (Some root) (str "refreshToken") in
      let expires := cJSON_GetObjectItemCaseSensitive (Some root) (str "expiresInSec") in
      match access, refresh with
      | Some a, Some r =>
          match cJSON_IsString access, a.(valuestring), cJSON_IsString refresh, r.(valuestring) with
          | true, Some a, true, Some r =>
              (0, MkTokens (copy_field (access_token out) a TOKEN_LEN) (copy_field (refresh_token out) r TOKEN_LEN)
                    (match expires with
                     | Some e => if cJSON_IsNumber expires then long_of e.(valuedouble) else 0
                     | None => 0
                     end))
          | _, _, _, _ => (-1, out)
          end
      | _, _ => (-1, out)
      end
  end.

(** What is written to [out], and the result. *)
Definition build_url (cfg : ClientConfig) (path : bytes) (out_len : nat) : bytes * Z :=
  let scheme := if use_tls cfg =? 0 then str "http" else str "https" in
  let text := scheme ++ str "://" ++ cstr (server_host cfg) ++ str ":" ++ print_d (server_port cfg) ++ path in
  let '(out, n) := snprintf out_len text in
  (out, if (0 <? n) && (n <? Z.of_nat out_len) then 0 else -1).

Definition login_path : bytes := str "/api/v2/auth/login".
Definition refresh_path : bytes := str "/api/v2/auth/refresh".
Definition URL_LEN : nat := 512.

Definition login_body (cfg : ClientConfig) : option bytes :=
  let body := cJSON_CreateObject malloc_ok in
  let body := add_string malloc_ok "username" (Some (username cfg)) body in
  let body := add_string malloc_ok "password" (Some (password cfg)) body in
  let body := add_string malloc_ok "deviceId" (Some (device_id cfg)) body in
  unformatted malloc_ok uninit body.

Definition refresh_body (cfg : ClientConfig) (out : AuthTokens) : option bytes :=
  let body := cJSON_CreateObject malloc_ok in
  let body := add_string malloc_ok "refreshToken" (Some (refresh_token out)) body in
  let body := add_string malloc_ok "deviceId" (Some (device_id cfg)) body in
  unformatted malloc_ok uninit body.

(** Result, tokens and requests sent so far; [None]: an invalid write. *)
Definition auth_http_login (cfg : ClientConfig) (out : AuthTokens) (sent : list Request)
    : option (Z * AuthTokens * list Request) :=
  let '(url, rc) := build_url cfg login_path URL_LEN in
  if negb (rc =? 0) then Some (-1, out, sent)
  else match login_body cfg with
  | None => Some (-1, out, sent)
  | Some body_str =>
      '(rc, data, http_code, sent) ← post_json malloc_ok uninit cfg url body_str sent;
      if negb (rc =? 0) then Some (-1, out, sent)
      else if negb (http_code =? 200) then Some (-1, out, sent)
      else let '(parsed, out) := parse_token_response data out in Some (parsed, out, sent)
  end.

Definition auth_http_refresh (cfg : ClientConfig) (out : AuthTokens) (sent : list Request)
    : option (Z * AuthTokens * list Request) :=
  if beq (hd NUL (refresh_token out)) NUL then auth_http_login cfg out sent
  else
    let '(url, rc) := build_url cfg refresh_path URL_LEN in
    if negb (rc =? 0) then Some (-1, out, sent)
    else match refresh_body cfg out with
    | None => Some (-1, out, sent)
    | Some body_str =>
        '(rc, data, http_code, sent) ← post_json malloc_ok uninit cfg url body_str sent;
        if negb (rc =? 0) then Some (-1, out, sent)
        else if negb (http_code =? 200) then auth_http_login cfg out sent
        else let '(parsed, out) := parse_token_response data out in Some (parsed, out, sent)
    end.

(** [ws_acquire_tokens] of a configuration and tokens that are not NULL. *)
Definition ws_acquire_tokens (cfg : ClientConfig) (tokens : AuthTokens) (sent : list Request)
    : option (Z * AuthTokens * list Request) :=
  let login '(tokens, sent) :=
    '(rc, tokens, sent) ← auth_http_login cfg tokens sent;
    if rc =? 0 then Some (0, tokens, sent) else Some (-1, tokens, sent) in
  if negb (beq (hd NUL (refresh_token tokens)) NUL) then
    '(rc, tokens, sent) ← auth_http_refresh cfg tokens sent;
    if rc =? 0 then Some (0, tokens, sent) else login (tokens, sent)
  else login (tokens, sent).
End Auth.

Definition ws_build_bearer_protocol (token : bytes) (out_len : nat) : bytes * Z :=
  let '(out, n) := snprintf out_len (str "bearer." ++ cstr token) in
  (out, if (0 <? n) && (n <? Z.of_nat out_len) then 0 else -1).

(** [sizeof(g_ws_subproto)] *)
Definition SUBPROTO_LEN : nat := 1200.

(** ** Tokens *)

Definition tokens_ok (t : AuthTokens) : Prop :=
  arr TOKEN_LEN (access_token t) /\ arr TOKEN_LEN (refresh_token t).

Definition no_tokens : AuthTokens := MkTokens (zeros TOKEN_LEN) (zeros TOKEN_LEN) 0.

Lemma cstr_terminator body x y : cstr (body ++ NUL :: x) = cstr (body ++ NUL :: y).
Proof. unfold cstr. induction body as [|b body IH]; [done|]. cbn [app take_while]. by rewrite IH. Qed.

(** ** What is sent *)

Definition login_fields (cfg : ClientConfig) : list (string * field) :=
  [("username", FString (cstr (username cfg))); ("password", FString (cstr (password cfg)));
   ("deviceId", FString (cstr (device_id cfg)))]%string.

Definition refresh_fields (cfg : ClientConfig) (out : AuthTokens) : list (string * field) :=
  [("refreshToken", FString (cstr (refresh_token out))); ("deviceId", FString (cstr (device_id cfg)))]%string.

Section Bodies.
Context (malloc_ok : Z -> bool) (uninit : nat -> bytes).
Hypothesis malloc_all : forall n, malloc_ok n = true.
Hypothesis uninit_length : forall n, length (uninit n) = n.

(** Every field of [fs] reads back from [body]. *)
Definition reads_back (body : bytes) (fs : list (string * field)) : Prop :=
  exists root, cJSON_Parse malloc_ok (Some body) = Some root
    /\ Forall (fun '(k, f) => read_field (Some root) k f) fs.

Lemma unformatted_reads fs :
  fields_ok fs -> Z.of_nat (message_size fs + 2) <= INT_MAX / 2 ->
  exists body, unformatted malloc_ok uninit (Some (message_item fs)) = Some body
    /\ reads_back body fs.
Proof.
  intros Hok Hs. pose proof (render_message_length fs Hok).
  destruct (unformatted_all malloc_ok uninit malloc_all fs Hok uninit_length) as (text & root & H1 & H2 & H3); [lia|].
  exists text. split; [done|]. by exists root.
Qed.

Lemma parse_cstr body : cJSON_Parse malloc_ok (Some (cstr body)) = cJSON_Parse malloc_ok (Some body).
Proof. unfold cJSON_Parse, cJSON_ParseWithOpts. by rewrite cstr_idemp. Qed.

Lemma login_body_spec cfg :
  config_wf cfg ->
  exists body, login_body malloc_ok uninit cfg = Some body /\ reads_back body (login_fields cfg).
Proof.
  intros (_ & _ & _ & Hu & Hp & _ & Hd & _). unfold login_body. rewrite create_object_all by done.
  rewrite !(add_string_cstr malloc_ok malloc_all) by by apply no_nul_str.
  apply unformatted_reads.
  - split; [vm_compute; reflexivity|]. repeat constructor; apply no_nul_cstr.
  - apply arr_strlen in Hu, Hp, Hd; [|unfold MAX_USER_LEN, MAX_PASS_LEN; lia..]. unfold message_size.
    unfold strlen, MAX_USER_LEN, MAX_PASS_LEN in *. cbn [app map list_sum fold_right field_size].
    change (length (str "username")) with 8%nat. change (length (str "password")) with 8%nat.
    change (length (str "deviceId")) with 8%nat. change (INT_MAX / 2) with 1073741823. simpl list_sum. lia.
Qed.

Lemma refresh_body_spec cfg out :
  config_wf cfg -> tokens_ok out ->
  exists body, refresh_body malloc_ok uninit cfg out = Some body /\ reads_back body (refresh_fields cfg out).
Proof.
  intros (_ & _ & _ & _ & _ & _ & Hd & _) [_ Hr]. unfold refresh_body. rewrite create_object_all by done.
  rewrite !(add_string_cstr malloc_ok malloc_all) by by apply no_nul_str.
  apply unformatted_reads.
  - split; [vm_compute; reflexivity|]. repeat constructor; apply no_nul_cstr.
  - apply arr_strlen in Hr, Hd; [|unfold MAX_USER_LEN, TOKEN_LEN; lia..]. unfold message_size.
    unfold strlen, MAX_USER_LEN, TOKEN_LEN in *. cbn [app map list_sum fold_right field_size].
    change (length (str "refreshToken")) with 12%nat.
    change (length (str "deviceId")) with 8%nat. change (INT_MAX / 2) with 1073741823. simpl list_sum. lia.
Qed.
End Bodies.

(** ** What comes back *)

Section AuthSpec.
Context `{Curl}.
Context (malloc_ok : Z -> bool) (uninit : nat -> bytes).

(** The two strings of a token response. *)
Definition token_strings (body : bytes) : option (bytes * bytes) :=
  root ← cJSON_Parse malloc_ok (Some (body ++ [NUL]));
  a ← cJSON_GetStringValue (cJSON_GetObjectItemCaseSensitive (Some root) (str "accessToken"));
  r ← cJSON_GetStringValue (cJSON_GetObjectItemCaseSensitive (Some root) (str "refreshToken"));
  Some (a, r).

(** The strings, as far as they fit. *)
Definition carries (body : bytes) (tk : AuthTokens) : Prop :=
  exists a r, token_strings body = Some (a, r)
    /\ cstr (access_token tk) = take 1023 (cstr a) /\ cstr (refresh_token tk) = take 1023 (cstr r).

(** A transfer whose response has token strings. *)
Definition granting (t : Transfer) : Prop :=
  completed t = true /\ response_code t = 200 /\ token_strings (concat (chunks t)) <> None.

Lemma parse_nothing : cJSON_Parse malloc_ok (Some [NUL]) = None.
Proof.
  unfold cJSON_Parse, cJSON_ParseWithOpts, cJSON_ParseWithLengthOpts.
  by destruct (cJSON_New_Item malloc_ok).
Qed.

Lemma parse_collected body data :
  collected body data -> cJSON_Parse malloc_ok data = cJSON_Parse malloc_ok (Some (body ++ [NUL])).
Proof.
  destruct data as [block|]; cbn [collected].
  - intros Hb. rewrite <- (take_drop (S (length body)) block), Hb, <- app_assoc.
    unfold cJSON_Parse, cJSON_ParseWithOpts. cbn [app]. by rewrite (cstr_terminator body _ []).
  - intros ->. cbn [app]. by rewrite parse_nothing.
Qed.

Lemma parse_token_response_spec body data out :
  collected body data -> tokens_ok out ->
  match token_strings body with
  | Some _ => exists out', parse_token_response malloc_ok data out = (0, out') /\ tokens_ok out' /\ carries body out'
  | None => parse_token_response malloc_ok data out = (-1, out)
  end.
Proof.
  intros Hd [Ha Hr]. unfold carries. 
  destruct (token_strings body) as [[a r]|] eqn:E; unfold token_strings in E;
    unfold parse_token_response; rewrite (parse_collected body data Hd);
    destruct (cJSON_Parse malloc_ok _) as [root|]; try done; cbn [mbind option_bind] in E;
    unfold cJSON_GetStringValue in E;
    destruct (cJSON_GetObjectItemCaseSensitive (Some root) (str "accessToken")) as [ai|]; try done;
    destruct (cJSON_GetObjectItemCaseSensitive (Some root) (str "refreshToken")) as [ri|];
    repeat case_match; simplify_option_eq; try done.
  all: destruct (copy_field_spec (access_token out) a TOKEN_LEN (proj1 Ha)) as [? ?]; [unfold TOKEN_LEN; lia|];
    destruct (copy_field_spec (refresh_token out) r TOKEN_LEN (proj1 Hr)) as [? ?]; [unfold TOKEN_LEN; lia|];
    eexists; split; [reflexivity|]; split; [by split|eauto].
Qed.

(** The requests [auth_http_login] and [auth_http_refresh] send. *)
Definition auth_request (cfg : ClientConfig) (out : AuthTokens) (r : Request) : Prop :=
  exists path body,
    r = post_request cfg (build_url cfg path URL_LEN).1 body
    /\ (build_url cfg path URL_LEN).2 = 0
    /\ (path = login_path /\ login_body malloc_ok uninit cfg = Some body
        \/ path = refresh_path /\ refresh_body malloc_ok uninit cfg out = Some body).

(** None of the requests [new], sent after [sent], is answered with tokens. *)
Definition refused (sent new : list Request) : Prop :=
  forall before r after, new = before ++ r :: after -> ~ granting (easy_perform (sent ++ before) r).

(** Memory and handles are available, and the URL fits. *)
Definition ready (cfg : ClientConfig) : Prop :=
  (forall k, malloc_ok k = true) /\ (forall sent, easy_init sent = true) /\ config_wf cfg
  /\ (build_url cfg login_path URL_LEN).2 = 0.

(** With [fin], the requests end with a login. *)
Definition ends (fin : bool) (cfg : ClientConfig) (new : list Request) : Prop :=
  fin = true -> ready cfg -> exists r, last new = Some r /\ opt_url r = (build_url cfg login_path URL_LEN).1.

(** At most [n] requests, stopping at the first one that is answered with
    tokens, which end up in [out']; otherwise nothing changes. *)
Definition attempts (fin : bool) (n : nat) (cfg : ClientConfig) (out : AuthTokens) (sent : list Request)
    (res : option (Z * AuthTokens * list Request)) : Prop :=
  exists rc out' new, res = Some (rc, out', sent ++ new) /\ tokens_ok out' /\ (length new <= n)%nat
    /\ Forall (auth_request cfg out) new
    /\ (rc = 0 /\ (exists before r, new = before ++ [r]
                   /\ granting (easy_perform (sent ++ before) r)
                   /\ carries (concat (chunks (easy_perform (sent ++ before) r))) out'
                   /\ ((forall k, malloc_ok k = true) -> refused sent before))
        \/ rc = -1 /\ out' = out /\ ((forall k, malloc_ok k = true) -> refused sent new) /\ ends fin cfg new).

Lemma refused_nil sent : refused sent [].
Proof. intros before r after E. by destruct before. Qed.

Lemma refused_app sent a b : refused sent a -> refused (sent ++ a) b -> refused sent (a ++ b).
Proof.
  intros Ha Hb before r after E. apply app_eq_app in E as [l [[-> E]|[-> E]]].
  - destruct l as [|x l]; simpl in E; simplify_eq.
    + rewrite app_nil_r in *. specialize (Hb [] r after eq_refl). by rewrite app_nil_r in Hb.
    + by apply (Ha before x l).
  - rewrite app_assoc. by apply (Hb l r after).
Qed.

Lemma refused_one sent r : ~ granting (easy_perform sent r) -> refused sent [r].
Proof.
  intros Hr before r' after E. destruct before as [|x before]; simpl in E; simplify_eq.
  - by rewrite app_nil_r.
  - by destruct before.
Qed.

Lemma attempts_none fin n cfg out sent :
  tokens_ok out -> ends fin cfg [] -> attempts fin n cfg out sent (Some (-1, out, sent)).
Proof.
  intros Hok He. exists (-1), out, []. rewrite app_nil_r. split_and!; [done|done|simpl; lia|by constructor|].
  right. split_and!; [done|done| |done]. intros _. apply refused_nil.
Qed.

Lemma attempts_failed fin n cfg out sent a :
  tokens_ok out -> (length a <= n)%nat -> Forall (auth_request cfg out) a ->
  ((forall k, malloc_ok k = true) -> refused sent a) -> ends fin cfg a ->
  attempts fin n cfg out sent (Some (-1, out, sent ++ a)).
Proof. intros Hok Hn Hr Ha He. exists (-1), out, a. split_and!; try done. by right. Qed.

(** Requests before others. *)
Lemma attempts_after fin n a cfg out sent res :
  Forall (auth_request cfg out) a -> ((forall k, malloc_ok k = true) -> refused sent a) ->
  attempts fin n cfg out (sent ++ a) res -> attempts fin (length a + n) cfg out sent res.
Proof.
  intros Hr Ha (rc & out' & new & -> & Hok & Hn & Hf & Hrc). exists rc, out', (a ++ new).
  rewrite app_assoc. split_and!; [done|done|len|by apply Forall_app|].
  destruct Hrc as [(-> & before & r & -> & Hg & Hc & Hb)|(-> & -> & Hb & He)]; [left|right].
  - split; [done|]. exists (a ++ before), r. rewrite <- !app_assoc in *. split_and!; try done.
    intros Hm. by apply refused_app; auto.
  - split_and!; [done|done| |].
    + intros Hm. by apply refused_app; auto.
    + intros Hfin Hrd. destruct (He Hfin Hrd) as (r & Hl & Hu). exists r. by rewrite last_app, Hl.
Qed.

Lemma attempts_mono fin n m cfg out sent res :
  (n <= m)%nat -> attempts fin n cfg out sent res -> attempts fin m cfg out sent res.
Proof.
  intros Hnm (rc & out' & new & ? & ? & Hn & ? & ?). exists rc, out', new. split_and!; [done|done|lia|done|done].
Qed.

Lemma ends_false cfg new : ends false cfg new.
Proof. by intros [=]. Qed.

Lemma attempts_false fin n cfg out sent res : attempts fin n cfg out sent res -> attempts false n cfg out sent res.
Proof.
  intros (rc & out' & new & ? & ? & ? & ? & [?|(? & ? & ? & _)]); exists rc, out', new; split_and!; try done;
    [by left|right; split_and!; try done; apply ends_false].
Qed.

(** The common part of both requests; [k] continues after another status. *)
Definition exchange (cfg : ClientConfig) (url body : bytes) (out : AuthTokens) (sent : list Request)
    (k : list Request -> option (Z * AuthTokens * list Request)) : option (Z * AuthTokens * list Request) :=
  '(rc, data, http_code, sent) ← post_json malloc_ok uninit cfg url body sent;
  if negb (rc =? 0) then Some (-1, out, sent)
  else if negb (http_code =? 200) then k sent
  else let '(parsed, out) := parse_token_response malloc_ok data out in Some (parsed, out, sent).

Hypothesis uninit_length : forall n, length (uninit n) = n.

Lemma exchange_attempts fin n cfg path body out sent k :
  let r := post_request cfg (build_url cfg path URL_LEN).1 body in
  tokens_ok out -> auth_request cfg out r -> (fin = true -> path = login_path) ->
  (refused sent [r] -> attempts fin (S n) cfg out sent (k (sent ++ [r]))) ->
  attempts fin (S n) cfg out sent (exchange cfg (build_url cfg path URL_LEN).1 body out sent k).
Proof.
  intros r Hok Hr Hfin Hk. unfold exchange.
  assert (Hno : ((forall k, malloc_ok k = true) -> ~ granting (easy_perform sent r)) ->
    attempts fin (S n) cfg out sent (Some (-1, out, sent ++ [r]))).
  { intros Hg. apply attempts_failed; [done|simpl; lia|by constructor|intros Hm; by apply refused_one, Hg|].
    intros Hf _. exists r. split; [done|]. by rewrite <- (Hfin Hf). }
  destruct (post_json_spec malloc_ok uninit uninit_length cfg (build_url cfg path URL_LEN).1 body sent)
    as (rc & data & code & sent' & -> & [(-> & -> & Hc & -> & Hd)|(-> & -> & [[-> Hi]|[-> Hf]])]);
    cbn [mbind option_bind Z.eqb negb].
  - fold r in Hd, Hc |- *. destruct (response_code _ =? 200) eqn:Ec; cbn [negb]; boolify.
    2:{ apply Hk, refused_one. by intros (_ & ? & _). }
    pose proof (parse_token_response_spec _ _ _ Hd Hok) as Hp.
    destruct (token_strings _) as [p|] eqn:Et.
    + destruct Hp as (out' & -> & Hok' & Hcar). exists 0, out', [r].
      split_and!; [done|done|simpl; lia|by constructor|]. left. split; [done|]. exists [], r.
      rewrite app_nil_r. split; [done|]. split; [by split_and!; [done|done|congruence]|]. split; [done|].
      intros _. apply refused_nil.
    + rewrite Hp. apply Hno. intros _. by intros (_ & _ & ?).
  - apply attempts_none; [done|]. intros _ (_ & Hi' & _). by rewrite Hi' in Hi.
  - apply Hno. intros Hm [Hc _]. fold r in Hf. destruct Hf as [Hf|[j Hj]]; [congruence|]. by rewrite Hm in Hj.
Qed.

Lemma login_attempts cfg out sent :
  tokens_ok out -> attempts true 1 cfg out sent (auth_http_login malloc_ok uninit cfg out sent).
Proof.
  intros Hok. unfold auth_http_login. pose proof (exchange_attempts true 0 cfg login_path) as He.
  assert (Hrd : ready cfg -> (build_url cfg login_path URL_LEN).2 = 0 /\ exists body, login_body malloc_ok uninit cfg = Some body).
  { intros (Hm & _ & Hwf & Hu). split; [done|].
    destruct (login_body_spec malloc_ok uninit Hm uninit_length cfg Hwf) as (body & ? & _). by exists body. }
  unfold auth_request in He.
  destruct (build_url cfg login_path URL_LEN) as [url rc] eqn:Eu.
  destruct (rc =? 0) eqn:Er; cbn [negb]; boolify.
  2:{ apply attempts_none; [done|]. intros _ Hr. by destruct (Hrd Hr). }
  destruct (login_body malloc_ok uninit cfg) as [body|] eqn:Eb.
  2:{ apply attempts_none; [done|]. intros _ Hr. by destruct (Hrd Hr) as [_ [? ?]]. }
  assert (Hr : auth_request cfg out (post_request cfg url body)).
  { exists login_path, body. rewrite Eu. auto. }
  apply (He body out sent (fun sent => Some (-1, out, sent))); [done| |done|].
  - exists login_path, body. rewrite Eu. auto.
  - intros Hn. apply attempts_failed; [done|simpl; lia|by constructor|done|].
    intros _ _. eexists. split; [done|]. by rewrite Eu.
Qed.

Lemma refresh_attempts cfg out sent :
  tokens_ok out -> attempts false 2 cfg out sent (auth_http_refresh malloc_ok uninit cfg out sent).
Proof.
  intros Hok. unfold auth_http_refresh.
  destruct (beq _ NUL); [apply (attempts_mono false 1 2); [lia|]; by apply (attempts_false true), login_attempts|].
  pose proof (exchange_attempts false 1 cfg refresh_path) as He. unfold auth_request in He.
  destruct (build_url cfg refresh_path URL_LEN) as [url rc] eqn:Eu.
  destruct (rc =? 0) eqn:Er; cbn [negb]; boolify; [|apply attempts_none; [done|apply ends_false]].
  destruct (refresh_body malloc_ok uninit cfg out) as [body|] eqn:Eb; [|apply attempts_none; [done|apply ends_false]].
  assert (Hr : auth_request cfg out (post_request cfg url body)).
  { exists refresh_path, body. rewrite Eu. auto. }
  apply (He body out sent (fun sent => auth_http_login malloc_ok uninit cfg out sent)); [done| |done|].
  - exists refresh_path, body. rewrite Eu. auto.
  - intros Hn. apply (attempts_after false 1 [post_request cfg url body]); [by constructor|done|].
    by apply (attempts_false true), login_attempts.
Qed.

(** A second try when the first one gives nothing. *)
Lemma attempts_or fin n m cfg out sent first (second : AuthTokens * list Request -> option (Z * AuthTokens * list Request)) :
  attempts false n cfg out sent first ->
  (forall sent, attempts fin m cfg out sent (second (out, sent))) ->
  attempts fin (n + m) cfg out sent
    ('(rc, tokens, sent) ← first; if rc =? 0 then Some (0, tokens, sent) else second (tokens, sent)).
Proof.
  intros (rc & out' & new & -> & Hok & Hn & Hf & Hrc) H2. cbn [mbind option_bind].
  destruct Hrc as [(-> & Hg)|(-> & -> & Hb & _)]; cbn [Z.eqb].
  - exists 0, out', new. split_and!; try done; [lia|]. by left.
  - apply (attempts_mono fin (length new + m)); [lia|]. by apply attempts_after.
Qed.

Lemma acquire_attempts cfg tokens sent :
  tokens_ok tokens -> attempts true 3 cfg tokens sent (ws_acquire_tokens malloc_ok uninit cfg tokens sent).
Proof.
  intros Hok. unfold ws_acquire_tokens.
  assert (Hl : forall sent, attempts true 1 cfg tokens sent
    ('(rc, tokens, sent) ← auth_http_login malloc_ok uninit cfg tokens sent;
     if rc =? 0 then Some (0, tokens, sent) else Some (-1, tokens, sent))).
  { intros s. destruct (login_attempts cfg tokens s Hok) as (rc & out' & new & -> & H1 & H2 & H3 & Hrc).
    cbn [mbind option_bind]. exists rc, out', new.
    split_and!; [destruct Hrc as [[-> _]|[-> _]]; done|done..]. }
  destruct (negb _); [|by eapply attempts_mono, Hl; lia].
  apply (attempts_or true 2 1 cfg tokens sent _ (fun '(tokens, sent) =>
    '(rc, tokens, sent) ← auth_http_login malloc_ok uninit cfg tokens sent;
    if rc =? 0 then Some (0, tokens, sent) else Some (-1, tokens, sent))); [by apply refresh_attempts|apply Hl].
Qed.
End AuthSpec.

(** ** Properties *)

(** C15: tokens only come from the server, and only completely.  Whatever the
    server answers and whatever allocations fail, [ws_acquire_tokens] sends at
    most three requests and keeps both token arrays terminated.  It returns 0
    exactly when the last of them completed with status 200 and a body that
    carries both token strings, which are then stored (cut to the arrays) and
    give a bearer subprotocol that fits its buffer; otherwise it returns -1
    with the tokens untouched, and every request it sent was refused.  When
    nothing but the server can fail, it does not give up before a login. *)
Theorem tokens_acquired `{Curl} malloc_ok uninit cfg tokens sent :
  (forall n, length (uninit n) = n) -> tokens_ok tokens ->
  exists rc tokens' new,
    ws_acquire_tokens malloc_ok uninit cfg tokens sent = Some (rc, tokens', sent ++ new)
    /\ tokens_ok tokens' /\ (length new <= 3)%nat
    /\ (rc = 0
        /\ (exists before r, new = before ++ [r]
              /\ granting malloc_ok (easy_perform (sent ++ before) r)
              /\ carries malloc_ok (concat (chunks (easy_perform (sent ++ before) r))) tokens'
              /\ ((forall k, malloc_ok k = true) -> refused malloc_ok sent before))
        /\ ws_build_bearer_protocol (access_token tokens') SUBPROTO_LEN
           = (str "bearer." ++ cstr (access_token tokens'), 0)
      \/ rc = -1 /\ tokens' = tokens
        /\ ((forall k, malloc_ok k = true) -> refused malloc_ok sent new)
        /\ (ready malloc_ok cfg ->
            exists r, last new = Some r /\ opt_url r = (build_url cfg login_path URL_LEN).1)).
Proof.
  intros Hu Hok.
  destruct (acquire_attempts malloc_ok uninit Hu cfg tokens sent Hok) as (rc & out' & new & -> & Hok' & Hn & _ & Hrc).
  exists rc, out', new. split_and!; try done. destruct Hrc as [[-> Hg]|(-> & -> & Hb & He)]; [left|right].
  - split_and!; [done|done|]. unfold ws_build_bearer_protocol, snprintf.
    destruct Hok' as [Ha _]. apply arr_strlen in Ha; [|unfold TOKEN_LEN; lia].
    set (text := str "bearer." ++ _).
    assert (Hl : (0 < length text < 1200)%nat).
    { unfold text. rewrite length_app. unfold strlen, TOKEN_LEN in Ha. change (length (str "bearer.")) with 7%nat. lia. }
    rewrite take_ge by (unfold SUBPROTO_LEN; lia).
    replace ((0 <? _) && _) with true; [done|]. symmetry. unfold SUBPROTO_LEN.
    apply andb_true_iff. split; apply Z.ltb_lt; lia.
  - split_and!; try done. by apply He.
Qed.

Lemma build_url_fits cfg path n :
  (build_url cfg path n).2 = 0 ->
  (build_url cfg path n).1
  = (if use_tls cfg =? 0 then str "http" else str "https") ++ str "://"
    ++ cstr (server_host cfg) ++ str ":" ++ print_d (server_port cfg) ++ path.
Proof.
  unfold build_url, snprintf.
  destruct ((0 <? Z.of_nat (length _)) && _) eqn:E; [|done]. boolify. intros _. cbn [fst]. apply take_ge. lia.
Qed.

Lemma auth_request_sends `{Curl} malloc_ok uninit cfg out r :
  (forall k, malloc_ok k = true) -> (forall n, length (uninit n) = n) -> config_wf cfg -> tokens_ok out ->
  auth_request malloc_ok uninit cfg out r ->
  exists path body fs,
    (path = login_path /\ fs = login_fields cfg \/ path = refresh_path /\ fs = refresh_fields cfg out)
    /\ r = post_request cfg (build_url cfg path URL_LEN).1 body
    /\ (build_url cfg path URL_LEN).2 = 0 /\ reads_back malloc_ok (opt_postfields r) fs.
Proof.
  intros Hm Hu Hwf Hok (path & body & -> & Hrc & Hb). exists path, body. cbn [post_request opt_postfields].
  unfold reads_back. rewrite parse_cstr. fold (reads_back malloc_ok body).
  destruct Hb as [[-> Hb]|[-> Hb]].
  - destruct (login_body_spec malloc_ok uninit Hm Hu cfg Hwf) as (b & E & Hr). rewrite Hb in E. injection E as <-.
    exists (login_fields cfg). auto.
  - destruct (refresh_body_spec malloc_ok uninit Hm Hu cfg out Hwf Hok) as (b & E & Hr). rewrite Hb in E. injection E as <-.
    exists (refresh_fields cfg out). auto.
Qed.


(** A server that accepts one password, in a response cut into chunks, and
    refuses every refresh. *)
Definition dq (b : byte) : byte := if beq b "'" then x22 else b.

Definition example_server : Curl := {|
  easy_init _ := true;
  slist_append_ok _ := true;
  easy_perform sent r :=
    match strstr (opt_postfields r) (str "open sesame") with
    | Some _ => MkTransfer [map dq (str "{'accessToken':'tok-1"); map dq (str "','refreshToken':'ref-1','expiresInSec':900}")] true 200
    | None => MkTransfer [str "{}"] true 401
    end |}.

Definition example_config : ClientConfig :=
  set_server_host (strncpy (zeros 256) (str "clip.example.org") 255)
    (set_username (strncpy (zeros 128) (str "ali") 127)
      (set_password (strncpy (zeros 128) (str "open sesame") 127)
        (set_device_id (strncpy (zeros 128) (str "laptop") 127)
          (set_use_tls 1 config_set_defaults)))).

Definition example_tokens : AuthTokens := MkTokens (zeros 1024) (strncpy (zeros 1024) (str "stale") 1023) 0.

(** A stale refresh token: one refresh, refused, then a login. *)
Lemma tokens_acquired_witness :
  let acquire := ws_acquire_tokens (H := example_server) (fun _ => true) (fun n => replicate n xff)
    example_config example_tokens [] in
  (exists rc tokens' new,
    acquire = Some (rc, tokens', [] ++ new)
    /\ tokens_ok tokens' /\ (length new <= 3)%nat
    /\ (rc = 0
        /\ (exists before r, new = before ++ [r]
              /\ granting (fun _ => true) (easy_perform (Curl := example_server) ([] ++ before) r)
              /\ carries (fun _ => true) (concat (chunks (easy_perform (Curl := example_server) ([] ++ before) r))) tokens'
              /\ ((forall k, (fun _ : Z => true) k = true) -> refused (H := example_server) (fun _ => true) [] before))
        /\ ws_build_bearer_protocol (access_token tokens') SUBPROTO_LEN
           = (str "bearer." ++ cstr (access_token tokens'), 0)
      \/ rc = -1 /\ tokens' = example_tokens
        /\ ((forall k, (fun _ : Z => true) k = true) -> refused (H := example_server) (fun _ => true) [] new)
        /\ (ready (H := example_server) (fun _ => true) example_config ->
            exists r, last new = Some r /\ opt_url r = (build_url example_config login_path URL_LEN).1)))
  /\ match acquire with
     | Some (rc, tk, sent) => rc = 0 /\ cstr (access_token tk) = str "tok-1" /\ expires_in_sec tk = 900
         /\ map opt_url sent = [str "https://clip.example.org:8080/api/v2/auth/refresh";
                                str "https://clip.example.org:8080/api/v2/auth/login"]
     | None => False
     end.
Proof.
  cbv zeta. split.
  - apply (tokens_acquired (H := example_server)); [intros n; apply length_replicate|].
    split; split; vm_compute; reflexivity.
  - vm_compute. repeat split.
Defined.

