(* ===== verification/Clip.v ===== *)
(** * The clipboard of the Linux client: linux/main.c, lines 105-569

    Commands run by [popen] are the class [Shell]: what a command prints when
    it is read, and whether it can be started. What the client writes to the
    clipboard is the list of commands it starts with their input ([Piped]).
    The conversions of stb_image and the selections of the X server are
    parameters. *)

From S2P Require Import Prelude CString RecvBuf JsonPrint Http.
Local Open Scope Z_scope.

Definition MAX_CLIPBOARD_SIZE : nat := 1024 * 1024.

Class Shell := {
  (** [popen(cmd, "r")]: what the command prints *)
  popen_r : bytes -> option bytes;
  (** [popen(cmd, "w")] gives a stream *)
  popen_w : bytes -> bool;
  (** [x11_read_selection(XInternAtom(name))] *)
  x11_read_selection : bytes -> option bytes;
  (** the atoms of the TARGETS selection, by name ([XGetAtomName]) *)
  x11_targets : option (list (option bytes));
  (** [stbi_load_from_memory] and [stbi_write_png_to_func]: the chunks written *)
  stb_bmp_to_png : bytes -> option (list bytes) }.

Record Piped := MkPiped { command : bytes; input : bytes }.

(** A block of memory, of which the first [n] bytes are data. *)
Record Block := MkBlock { contents : bytes; used : nat }.

Section Clip.
Context `{Shell}.
Context (malloc_ok : Z -> bool) (uninit : nat -> bytes).

Definition pipe_to (cmd text : bytes) : list Piped := if popen_w cmd then [MkPiped cmd text] else [].

(** ** Text *)

(** The loop of both [get_text] functions: the block, its terminator set. *)
Definition read_text (cmd : bytes) : option bytes :=
  out ← popen_r cmd;
  if negb (malloc_ok (Z.of_nat MAX_CLIPBOARD_SIZE)) then None
  else
    let text := take (MAX_CLIPBOARD_SIZE - 1) out in
    if (length text =? 0)%nat then None else Some (text ++ [NUL]).

Definition xclip_clipboard_get_text : option bytes := read_text (str "xclip -selection clipboard -o 2>/dev/null").
Definition wl_clipboard_get_text : option bytes := read_text (str "wl-paste --no-newline 2>/dev/null").

Definition x11_clipboard_get_text : option bytes :=
  let data := match x11_read_selection (str "UTF8_STRING") with
              | Some d => Some d
              | None => x11_read_selection (str "STRING")
              end in
  d ← data;
  if (length d =? 0)%nat then None
  else if malloc_ok (Z.of_nat (length d) + 1) then Some (d ++ [NUL]) else None.

Definition xclip_clipboard_set_text (text : bytes) : list Piped :=
  pipe_to (str "xclip -selection clipboard -i 2>/dev/null") (cstr text)
  ++ pipe_to (str "xclip -selection primary -i 2>/dev/null") (cstr text).

Definition wl_clipboard_set_text (text : bytes) : list Piped := pipe_to (str "wl-copy 2>/dev/null") (cstr text).

(** ** Types *)

(** [fread(buf, 1, buf_size - 1, fp)] into [g_cached_types]. *)
Definition read_types (cmd : bytes) (buf_size : nat) : bytes :=
  match popen_r cmd with
  | None => []
  | Some out => take (buf_size - 1) out
  end.

Definition xclip_clipboard_refresh_types (buf_size : nat) : bytes :=
  read_types (str "xclip -selection clipboard -t TARGETS -o 2>/dev/null") buf_size.
Definition wl_clipboard_refresh_types (buf_size : nat) : bytes :=
  read_types (str "wl-paste --list-types 2>/dev/null") buf_size.

(** The loop of [x11_clipboard_refresh_types]: [text] is in the buffer so far,
    [pos] what the [snprintf]s returned. *)
Fixpoint x11_types (names : list (option bytes)) (buf_size pos : nat) (text : bytes) : bytes :=
  match names with
  | [] => text
  | n :: names =>
      if (pos <? buf_size - 64)%nat then
        match n with
        | Some n =>
            let '(out, len) := snprintf (buf_size - pos) (cstr n ++ [x0a]) in
            x11_types names buf_size (pos + Z.to_nat len) (text ++ out)
        | None => x11_types names buf_size pos text
        end
      else text
  end.

Definition x11_clipboard_refresh_types (buf_size : nat) : bytes :=
  match x11_targets with Some names => x11_types names buf_size 0 [] | None => [] end.

Definition TYPES_LEN : nat := 4096.

Definition clipboard_has_image (types : bytes) : bool :=
  bool_decide (strstr (cstr types) (str "image/png") <> None)
  || bool_decide (strstr (cstr types) (str "image/jpeg") <> None).

Definition clipboard_has_file (types : bytes) : bool :=
  bool_decide (strstr (cstr types) (str "text/uri-list") <> None)
  || bool_decide (strstr (cstr types) (str "x-special/gnome-copied-files") <> None).

Definition allowed : list bytes :=
  [str "image/png"; str "image/jpeg"; str "image/bmp"; str "image/gif"; str "image/webp";
   str "text/uri-list"; str "x-special/gnome-copied-files"; str "TARGETS"].

Definition is_safe_mime (mime : bytes) : bool := existsb (streq mime) allowed.

(** ** Reading one type *)

(** The loop of both [read_type] functions; the block has [cap] bytes. [None]
    when the fuel runs out, [Some None] when [realloc] fails. *)
Fixpoint read_loop (fuel : nat) (out buf : bytes) (cap : nat) : option (option (bytes * nat)) :=
  match fuel with
  | O => None
  | S fuel =>
      let chunk := take (cap - length buf) out in
      if (length chunk =? 0)%nat then Some (Some (buf, cap))
      else
        let buf := buf ++ chunk in
        let out := drop (length chunk) out in
        if (cap <=? length buf)%nat then
          if malloc_ok (Z.of_nat (cap * 2)) then read_loop fuel out buf (cap * 2) else Some None
        else read_loop fuel out buf cap
  end.

Definition read_pipe (cmd : bytes) : option Block :=
  out ← popen_r cmd;
  if negb (malloc_ok (Z.of_nat MAX_CLIPBOARD_SIZE)) then None
  else match read_loop (S (length out)) out [] MAX_CLIPBOARD_SIZE with
  | Some (Some (buf, cap)) =>
      if (length buf =? 0)%nat then None else Some (MkBlock (buf ++ uninit (cap - length buf)) (length buf))
  | _ => None
  end.

Definition CMD_LEN : nat := 256.

Definition xclip_clipboard_read_type (mime : bytes) : option Block :=
  if is_safe_mime mime then
    read_pipe (snprintf CMD_LEN (str "xclip -selection clipboard -t " ++ cstr mime ++ str " -o 2>/dev/null")).1
  else None.

Definition wl_clipboard_read_type (mime : bytes) : option Block :=
  if is_safe_mime mime then
    read_pipe (snprintf CMD_LEN (str "wl-paste --type " ++ cstr mime ++ str " 2>/dev/null")).1
  else None.

(** A selection is copied to a block of its size. *)
Definition x11_clipboard_read_type (mime : bytes) : option Block :=
  if is_safe_mime mime then (fun d => MkBlock d (length d)) <$> x11_read_selection (cstr mime) else None.

(** ** Writing images and files *)

(** [dynbuf_write]; [None]: a write through the null pointer [realloc] gave. *)
Definition dynbuf_write (data : bytes) (b : Block) : option Block :=
  let cap := length (contents b) in
  let need := (used b + length data)%nat in
  let grown :=
    if (cap <? need)%nat then
      let newcap := if (cap =? 0)%nat then 4096 else Z.of_nat cap * 2 in
      newcap ← grow (grow_fuel (Z.of_nat need)) newcap (Z.of_nat need);
      realloc malloc_ok uninit (contents b) (Z.to_nat newcap)
    else Some (contents b) in
  c ← grown;
  c ← poke c (used b) data;
  Some (MkBlock c need).

Fixpoint dynbuf_writes (chunks : list bytes) (b : Block) : option Block :=
  match chunks with
  | [] => Some b
  | c :: cs => b ← dynbuf_write c b; dynbuf_writes cs b
  end.

Definition bmp_to_png_buf (bmp : bytes) : option bytes :=
  chunks ← stb_bmp_to_png bmp;
  b ← dynbuf_writes chunks (MkBlock [] 0);
  if (used b =? 0)%nat then None else Some (take (used b) (contents b)).

(** The data and type both [set_image] functions write. *)
Definition image_to_write (data mime : bytes) : bytes * bytes :=
  let mime := if (strlen mime =? 0)%nat then str "image/png" else cstr mime in
  if streq mime (str "image/bmp") && (2 <? length data)%nat && starts_with (str "BM") data then
    match bmp_to_png_buf data with
    | Some png => (png, str "image/png")
    | None => (data, mime)
    end
  else (data, mime).

Definition xclip_clipboard_set_image (data mime : bytes) : list Piped :=
  let '(data, mime) := image_to_write data mime in
  pipe_to (snprintf CMD_LEN (str "xclip -selection clipboard -t " ++ mime ++ str " -i 2>/dev/null")).1 data.

Definition wl_clipboard_set_image (data mime : bytes) : list Piped :=
  let '(data, mime) := image_to_write data mime in
  pipe_to (snprintf CMD_LEN (str "wl-copy --type " ++ mime ++ str " 2>/dev/null")).1 data.

Definition xclip_clipboard_set_file (filepath : bytes) : list Piped :=
  pipe_to (str "xclip -selection clipboard -t x-special/gnome-copied-files -i 2>/dev/null")
    (str "copy" ++ [x0a] ++ str "file://" ++ cstr filepath).

Definition wl_clipboard_set_file (filepath : bytes) : list Piped :=
  pipe_to (str "wl-copy --type x-special/gnome-copied-files 2>/dev/null") (str "copy" ++ [x0a] ++ cstr filepath).
End Clip.
