(* ===== verification/X11.v ===== *)
(** * linux/main.c: reading an X11 selection, and the X11 event loop

    The X server and the owner of the selection are an arbitrary environment:
    what each poll of the event queue gives and what each read of the property
    gives. The theorems say what the reader makes of every environment. *)

From S2P Require Import Prelude CString RecvBuf Json JsonPrint Clip.
Local Open Scope Z_scope.

(** ** The environment *)

Inductive xevent :=
| SelectionNotify (selection target property : Z)
| PropertyNotify (atom : Z) (new_value : bool)
| OtherEvent.

(** What [XGetWindowProperty] returns. *)
Record xprop := XProp { actual_type : Z; format : Z; nitems : Z; prop_data : option bytes }.

Inductive xrequest := Convert (selection target : Z) | DeleteProperty.

(** [polls]: the event of each turn of a waiting loop, if one is pending (after
    the last there is none); [props]: the property each time it is read (after
    the last it does not exist); [requests]: what was asked of the server. *)
Record XEnv := MkXEnv { polls : list (option xevent); props : list xprop; requests : list xrequest }.

Definition request (r : xrequest) (e : XEnv) : XEnv := MkXEnv (polls e) (props e) (requests e ++ [r]).

Definition get_property (e : XEnv) : xprop * XEnv :=
  match props e with
  | [] => (XProp 0 0 0 None, e)
  | p :: ps => (p, MkXEnv (polls e) ps (requests e))
  end.

(** The waiting loops: [n] turns of [XPending] with [XNextEvent], or a sleep of
    10 ms; other events are thrown away. *)
Fixpoint wait_polls (accept : xevent -> bool) (n : nat) (ps : list (option xevent)) : option xevent * list (option xevent) :=
  match n, ps with
  | O, _ => (None, ps)
  | S _, [] => (None, [])
  | S n, None :: ps => wait_polls accept n ps
  | S n, Some ev :: ps => if accept ev then (Some ev, ps) else wait_polls accept n ps
  end.
Definition wait_event (accept : xevent -> bool) (n : nat) (e : XEnv) : option xevent * XEnv :=
  let '(ev, ps) := wait_polls accept n (polls e) in (ev, MkXEnv ps (props e) (requests e)).

Definition is_selection_notify (ev : xevent) : bool := match ev with SelectionNotify _ _ _ => true | _ => false end.
Definition is_new_value (prop : Z) (ev : xevent) : bool :=
  match ev with PropertyNotify a v => (a =? prop) && v | _ => false end.

(** Bytes of an item: a [long] for format 32. *)
Definition unit_size (f : Z) : Z := if f =? 32 then 8 else if f =? 16 then 2 else 1.

(** ** [x11_read_selection_ex] *)

Section Read.
Variables (malloc_ok : Z -> bool) (uninit : nat -> bytes).
Variables (incr_atom g_prop_atom : Z).

(** The [while (1)] of an incremental transfer. [None]: out of fuel, or an
    access outside a block or through a null pointer. *)
Fixpoint incr_loop (fuel : nat) (buf : bytes) (total : nat) (e : XEnv) : option (bytes * nat * XEnv) :=
  match fuel with
  | O => None
  | S fuel =>
      let '(got_prop, e) := wait_event (is_new_value g_prop_atom) 200 e in
      match got_prop with
      | None => Some (buf, total, e)
      | Some _ =>
          let '(p, e) := get_property e in
          match prop_data p with
          | None => Some (buf, total, e)
          | Some d =>
              if nitems p =? 0 then Some (buf, total, e)
              else
                let chunk_size := Z.to_nat (nitems p * unit_size (format p)) in
                let need := (total + chunk_size)%nat in
                buf ← (if (length buf <? need)%nat then
                         cap ← grow (grow_fuel (Z.of_nat need)) (Z.of_nat (length buf)) (Z.of_nat need);
                         realloc malloc_ok uninit buf (Z.to_nat cap)
                       else Some buf);
                if (length d <? chunk_size)%nat then None
                else incr_loop fuel (take total buf ++ take chunk_size d ++ drop need buf) need e
          end
      end
  end.

Definition x11_read_selection_ex (connected : bool) (selection target : Z) (e : XEnv) : option (option Block * XEnv) :=
  if negb connected then Some (None, e)
  else
    let e := request (Convert selection target) e in
    let '(ev, e) := wait_event is_selection_notify 100 e in
    match ev with
    | Some (SelectionNotify _ _ property) =>
        if property =? 0 then Some (None, e)
        else
          let '(p, e) := get_property e in
          if actual_type p =? incr_atom then
            let e := request DeleteProperty e in
            if negb (malloc_ok 65536) then Some (None, e)
            else
              '(buf, total, e) ← incr_loop (S (length (props e))) (uninit (Z.to_nat 65536)) 0 e;
              if (total =? 0)%nat then Some (None, e) else Some (Some (MkBlock buf total), e)
          else
            let '(p, e) := get_property e in
            match prop_data p with
            | None => Some (None, e)
            | Some d =>
                if nitems p =? 0 then Some (None, e)
                else
                  let data_size := Z.to_nat (nitems p * unit_size (format p)) in
                  if malloc_ok (Z.of_nat data_size) then
                    if (length d <? data_size)%nat then None
                    else Some (Some (MkBlock (take data_size d) data_size), e)
                  else Some (None, e)
            end
    | _ => Some (None, e)
    end.
End Read.

(** ** What is received, without the buffer *)

(** Xlib gives the items with the size their format says. *)
Definition well_formed (p : xprop) : Prop :=
  0 <= nitems p /\ forall d, prop_data p = Some d -> Z.of_nat (length d) = nitems p * unit_size (format p).

Section Streams.
Context (g_prop_atom : Z).

(** An incremental transfer from [e]: the chunks, and whether an empty property
    ended it or the next one did not come in time. *)
Inductive incr_stream : XEnv -> list bytes -> bool -> XEnv -> Prop :=
| stream_timeout e e' : wait_event (is_new_value g_prop_atom) 200 e = (None, e') -> incr_stream e [] false e'
| stream_end e ev e1 p e' :
    wait_event (is_new_value g_prop_atom) 200 e = (Some ev, e1) -> get_property e1 = (p, e') ->
    (prop_data p = None \/ nitems p = 0) -> incr_stream e [] true e'
| stream_chunk e ev e1 p e2 d ds complete e' :
    wait_event (is_new_value g_prop_atom) 200 e = (Some ev, e1) -> get_property e1 = (p, e2) ->
    prop_data p = Some d -> nitems p <> 0 -> incr_stream e2 ds complete e' -> incr_stream e (d :: ds) complete e'.

Lemma wait_event_props accept n e : props (wait_event accept n e).2 = props e.
Proof. unfold wait_event. by destruct (wait_polls _ _ _). Qed.

Lemma get_property_props e p e' :
  get_property e = (p, e') -> Forall well_formed (props e) ->
  Forall well_formed (props e') /\ (length (props e') <= length (props e))%nat
  /\ (prop_data p <> None -> (length (props e') < length (props e))%nat /\ well_formed p).
Proof.
  unfold get_property. destruct (props e) as [|q ps] eqn:E; intros [= <- <-] Hw.
  - rewrite E. by split_and!.
  - cbn [props length]. apply Forall_cons in Hw as [Hq Hw]. split_and!; [done|lia|split; [lia|done]].
Qed.

Lemma incr_loop_spec malloc_ok uninit (Hm : forall n, malloc_ok n = true) (Hu : forall n, length (uninit n) = n) fuel :
  forall buf total e, (length (props e) < fuel)%nat -> Forall well_formed (props e) -> (1 <= length buf)%nat -> (total <= length buf)%nat ->
  exists ds complete e' buf', incr_stream e ds complete e'
    /\ incr_loop malloc_ok uninit g_prop_atom fuel buf total e = Some (buf', (total + length (concat ds))%nat, e')
    /\ take (total + length (concat ds)) buf' = take total buf ++ concat ds /\ (total + length (concat ds) <= length buf')%nat.
Proof.
  induction fuel as [|fuel IH]; intros buf total e Hf Hw Hb Ht; [lia|]. cbn [incr_loop].
  pose proof (wait_event_props (is_new_value g_prop_atom) 200 e) as Hp.
  destruct (wait_event _ 200 e) as [[ev|] e1] eqn:Ewait; cbn [snd] in Hp.
  2: { exists [], false, e1, buf. cbn. rewrite Nat.add_0_r, app_nil_r. split_and!; [by constructor|done|done|done]. }
  destruct (get_property e1) as [p e2] eqn:Eget. rewrite <- Hp in Hw, Hf.
  destruct (get_property_props e1 p e2 Eget Hw) as (Hw2 & _ & Hdata).
  destruct (prop_data p) as [d|] eqn:Ed.
  2: { exists [], true, e2, buf. cbn. rewrite Nat.add_0_r, app_nil_r. split_and!; [by eapply stream_end; eauto|done|done|done]. }
  destruct (Z.eqb_spec (nitems p) 0) as [E0|E0].
  { exists [], true, e2, buf. cbn. rewrite Nat.add_0_r, app_nil_r. split_and!; [by eapply stream_end; eauto|done|done|done]. }
  destruct (Hdata ltac:(done)) as [Hlt [Hpos Hlen]]. specialize (Hlen d Ed). rewrite <- Hlen, Nat2Z.id.
  set (need := (total + length d)%nat).
  assert (Hgrown : exists buf1, (if (length buf <? need)%nat then
       cap ← grow (grow_fuel (Z.of_nat need)) (Z.of_nat (length buf)) (Z.of_nat need); realloc malloc_ok uninit buf (Z.to_nat cap)
     else Some buf) = Some buf1 /\ take total buf1 = take total buf /\ (need <= length buf1)%nat /\ (length buf <= length buf1)%nat).
  { destruct (Nat.ltb_spec (length buf) need) as [Hlt1|Hge]; [|by exists buf].
    destruct (grow_spec (grow_fuel (Z.of_nat need)) (Z.of_nat (length buf)) (Z.of_nat need)) as (c & -> & H1 & H2 & _);
      [lia|apply grow_fuel_enough; lia|unfold grow_fuel; lia|]. cbn [mbind option_bind]. unfold realloc. rewrite Hm.
    eexists. split; [done|]. rewrite (take_ge buf (Z.to_nat c)) by lia. split; [by rewrite take_app_le by lia|].
    rewrite length_app, length_drop, Hu. lia. }
  destruct Hgrown as (buf1 & Hg & Htake & Hlen1 & Hmono). cbn zeta. fold need. rewrite Hg. cbn [mbind option_bind].
  destruct (Nat.ltb_spec (length d) (length d)); [lia|]. rewrite firstn_all.
  set (buf2 := take total buf1 ++ d ++ drop need buf1).
  assert (Hl0 : length (take total buf1) = total) by (rewrite length_take; unfold need in *; lia).
  assert (Hl2 : length buf2 = length buf1) by (unfold buf2; rewrite !length_app, length_drop, Hl0; unfold need in *; lia).
  destruct (IH buf2 need e2) as (ds & c & e' & buf' & Hs & Hr & Ht2 & Hle); [lia|done|lia|lia|].
  exists (d :: ds), c, e', buf'. cbn [concat]. rewrite length_app, Nat.add_assoc. fold need.
  split_and!; [by eapply stream_chunk|done| |done]. rewrite Ht2. rewrite app_assoc. f_equal. unfold buf2, need.
  rewrite app_assoc, take_app_le by (rewrite length_app, Hl0; lia). rewrite firstn_all2 by (rewrite length_app, Hl0; lia).
  by rewrite Htake.
Qed.
End Streams.

(** ** The X11 event loop of [clipboard_monitor] *)

Inductive xf_event := XfClipboard | XfPrimary | XfOther.

(** What the loop calls: the handler of CLIPBOARD changes (behind its gates),
    and that of PRIMARY changes. *)
Inductive call := CallClipboard (at_ms : Z) | CallPrimary (at_ms : Z).

(** The inner loop: events with the time each is handled; [pending] is
    [primary_pending_ms]. *)
Fixpoint drain (events : list (xf_event * Z)) (pending : Z) : list call * Z :=
  match events with
  | [] => ([], pending)
  | (ev, now) :: events =>
      let '(calls, pending') := drain events (match ev with XfPrimary => now | _ => pending end) in
      ((match ev with XfClipboard => [CallClipboard now] | _ => [] end) ++ calls, pending')
  end.

(** A turn of the outer loop, that ends at [now]. *)
Definition monitor_turn (events : list (xf_event * Z)) (now : Z) (pending : Z) : list call * Z :=
  let '(calls, pending) := drain events pending in
  if (0 <? pending) && (500 <=? now - pending) then (calls ++ [CallPrimary now], 0) else (calls, pending).

Fixpoint monitor_turns (turns : list (list (xf_event * Z) * Z)) (pending : Z) : list call * Z :=
  match turns with
  | [] => ([], pending)
  | (events, now) :: turns =>
      let '(calls, pending) := monitor_turn events now pending in
      let '(rest, pending) := monitor_turns turns pending in (calls ++ rest, pending)
  end.

(** The time of the last PRIMARY change, or [t]. *)
Fixpoint last_primary (events : list (xf_event * Z)) (t : Z) : Z :=
  match events with
  | [] => t
  | (ev, now) :: events => last_primary events (match ev with XfPrimary => now | _ => t end)
  end.

Definition clipboard_call (ev : xf_event * Z) : option call := match ev.1 with XfClipboard => Some (CallClipboard ev.2) | _ => None end.
Definition is_primary (ev : xf_event * Z) : bool := match ev.1 with XfPrimary => true | _ => false end.
Definition is_primary_call (c : call) : bool := match c with CallPrimary _ => true | _ => false end.
Definition due (pending now : Z) : bool := (0 <? pending) && (500 <=? now - pending).

Lemma drain_spec events : forall pending, drain events pending = (omap clipboard_call events, last_primary events pending).
Proof.
  induction events as [|[ev now] events IH]; intros pending; [done|]. cbn [drain last_primary omap list_omap fst snd]. rewrite IH.
  by destruct ev.
Qed.

Lemma monitor_turn_spec events now pending :
  let p := last_primary events pending in
  monitor_turn events now pending
  = (omap clipboard_call events ++ (if due p now then [CallPrimary now] else []), if due p now then 0 else p).
Proof.
  unfold monitor_turn, due. rewrite drain_spec. destruct ((0 <? _) && _); [done|]. by rewrite app_nil_r.
Qed.

Lemma monitor_turns_app turns1 turns2 : forall pending,
  monitor_turns (turns1 ++ turns2) pending
  = let '(calls1, p1) := monitor_turns turns1 pending in let '(calls2, p2) := monitor_turns turns2 p1 in (calls1 ++ calls2, p2).
Proof.
  induction turns1 as [|[events now] turns IH]; intros pending; cbn [app monitor_turns].
  { by destruct (monitor_turns turns2 pending). }
  destruct (monitor_turn events now pending) as [calls p]. rewrite IH. destruct (monitor_turns turns p) as [calls1 p1].
  destruct (monitor_turns turns2 p1) as [calls2 p2]. by rewrite app_assoc.
Qed.

Lemma no_primary_calls events : List.filter is_primary_call (omap clipboard_call events) = [].
Proof. induction events as [|[[] t] events IH]; [done|apply IH..]. Qed.

Lemma last_primary_none events p : List.filter is_primary events = [] -> last_primary events p = p.
Proof. induction events as [|[[] t] events IH]; cbn; [done|apply IH|done|apply IH]. Qed.

Lemma last_primary_cases events p : last_primary events p = p \/ In (XfPrimary, last_primary events p) events.
Proof.
  revert p. induction events as [|[ev t] events IH]; intros p; cbn [last_primary]; [by left|].
  destruct (IH (match ev with XfPrimary => t | _ => p end)) as [->|H]; [destruct ev; [by left|right; by left|by left]|right; by right].
Qed.

(** The calls for PRIMARY changes: as many at most as changes, each 500 ms
    after one. *)
Lemma primary_calls turns : forall pending,
  let calls := List.filter is_primary_call (monitor_turns turns pending).1 in
  (length calls <= length (List.filter is_primary (concat (map fst turns))) + (if (0 <? pending)%Z then 1 else 0))%nat
  /\ forall n, In (CallPrimary n) calls -> exists t, 0 < t /\ t + 500 <= n /\ (t = pending \/ In (XfPrimary, t) (concat (map fst turns))).
Proof.
  induction turns as [|[events now] turns IH]; intros pending; cbn [monitor_turns map fst concat]; [split; [cbn; lia|done]|].
  rewrite monitor_turn_spec. set (p := last_primary events pending).
  destruct (IH (if due p now then 0 else p)) as [Hc Hin]. destruct (monitor_turns turns _) as [rest p'] eqn:E. cbn [fst] in *.
  rewrite !List.filter_app, no_primary_calls, !length_app. cbn [app].
  assert (Hp : (if 0 <? p then 1 else 0) <= Z.of_nat (length (List.filter is_primary events)) + (if 0 <? pending then 1 else 0)).
  { unfold p. destruct (last_primary_cases events pending) as [->|H]; [destruct (0 <? pending); lia|].
    assert (0 < length (List.filter is_primary events))%nat; [|repeat case_match; lia].
    assert (Hi : In (XfPrimary, last_primary events pending) (List.filter is_primary events)) by by apply List.filter_In.
    by destruct (List.filter is_primary events); [|cbn; lia]. }
  assert (Hsrc : forall t, t = p -> t = pending \/ In (XfPrimary, t) events).
  { intros t ->. unfold p. destruct (last_primary_cases events pending) as [H|H]; [left|right]; done. }
  split.
  - revert Hc Hp. generalize (length (List.filter is_primary events)) (length (List.filter is_primary (concat (map fst turns)))) (length (List.filter is_primary_call rest)).
    intros k1 k2 k3 Hc Hp. destruct (due p now) eqn:Ed; cbn [List.filter is_primary_call length Z.ltb Z.compare] in *.
    + unfold due in Ed. destruct (0 <? p) eqn:E0; [|done]. destruct (0 <? pending); lia.
    + destruct (0 <? p), (0 <? pending); lia.
  - intros n Hn. rewrite in_app_iff in Hn.
    destruct Hn as [Hn|Hn].
    + destruct (due p now) eqn:Ed; [|done]. cbn in Hn. destruct Hn as [[= <-]|[]]. unfold due in Ed.
      exists p. split; [lia|]. split; [lia|]. rewrite in_app_iff. destruct (Hsrc p eq_refl); auto.
    + destruct (Hin n Hn) as (t & H1 & H2 & H3). exists t. split; [done|]. split; [done|]. rewrite in_app_iff.
      destruct H3 as [H3|H3]; [|auto]. destruct (due p now); [lia|]. destruct (Hsrc t H3); auto.
Qed.

(** ** Properties *)


(** An owner that sends 3 bytes of an incremental transfer and then nothing,
    behind an answer to another question. *)
Definition stalled : XEnv :=
  MkXEnv [None; Some OtherEvent; Some (SelectionNotify 7 8 1); Some (PropertyNotify 5 false); Some (PropertyNotify 5 true); None]
    [XProp 99 32 1 None; XProp 4 8 3 (Some (str "abc"))] [].



