(* ===== verification/FileUri.v ===== *)
(** * Copied files: [url_decode_inplace], [clipboard_get_file_uri] and the
    MIME types (linux/main.c)

    The file managers offer a copied file as a percent-encoded URI. The
    decoder writes the path over the URI in place; [url_decode] is what it
    computes. *)

From S2P Require Import Prelude CString JsonPrint Http Clip.
Local Open Scope Z_scope.

(** ** Percent decoding *)

(** [url_decode_inplace(s)]: the array afterwards; [None]: an access outside
    of it, or out of fuel. *)
Fixpoint url_decode_loop (fuel : nat) (s : bytes) (src dst : nat) : option bytes :=
  match fuel with
  | O => None
  | S fuel =>
      c ← s !! src;
      if beq c NUL then poke s dst [NUL]
      else
        let copy := s' ← poke s dst [c]; url_decode_loop fuel s' (S src) (S dst) in
        if beq c "%" then
          a ← s !! S src;
          if beq a NUL then copy
          else
            b ← s !! S (S src);
            if beq b NUL then copy
            else match sscanf_2x (drop (S src) s) with
            | Some byte => s' ← poke s dst [zb byte]; url_decode_loop fuel s' (src + 3) (S dst)
            | None => copy
            end
        else copy
  end.

Definition url_decode_inplace (s : bytes) : option bytes := url_decode_loop (S (length s)) s 0 0.

Fixpoint url_decode (s : bytes) : bytes :=
  match s with
  | [] => []
  | c :: s1 =>
      match s1 with
      | a :: b :: s3 =>
          if beq c "%" then
            match sscanf_2x s1 with
            | Some byte => zb byte :: url_decode s3
            | None => c :: url_decode s1
            end
          else c :: url_decode s1
      | _ => c :: url_decode s1
      end
  end.

(** ** The URI of a copied file *)

(** [strchr] in a block that need not be terminated; [None]: it runs off. *)
Fixpoint mem_strchr (block : bytes) (c : byte) : option (option nat) :=
  match block with
  | [] => None
  | b :: block' =>
      if beq b c then Some (Some 0%nat)
      else if beq b NUL then Some None
      else option_map S <$> mem_strchr block' c
  end.

Inductive fetched := Path (p : bytes) | NoFile | Invalid.

Section Uri.
Context (malloc_ok : Z -> bool).

(** [strchr(s, c)], and a NUL over what it finds. *)
Definition cut_at (c : byte) (s : bytes) : option bytes :=
  r ← mem_strchr s c;
  Some (match r with Some i => <[i := NUL]> s | None => s end).

(** From the first newline to the path: both formats end with this. *)
Definition uri_path (s : bytes) : fetched :=
  match s ← cut_at x0a s; cut_at x0d s with
  | None => Invalid
  | Some s =>
      if starts_with (str "file://") (cstr s) then
        let p := drop 7 (cstr s) in
        if malloc_ok (Z.of_nat (length p) + 1) then
          match url_decode_inplace (p ++ [NUL]) with Some path => Path (cstr path) | None => Invalid end
        else Invalid  (* the null pointer of strdup is decoded *)
      else NoFile
  end.

Definition gnome_path (s : bytes) : fetched :=
  match mem_strchr s x0a with
  | None => Invalid
  | Some None => NoFile
  | Some (Some nl) => uri_path (drop (S nl) s)
  end.

Definition clipboard_get_file_uri (read_type : bytes -> option Block) : fetched :=
  let gnome :=
    match read_type (str "x-special/gnome-copied-files") with
    | Some data => gnome_path (contents data)
    | None => NoFile
    end in
  match read_type (str "text/uri-list") with
  | Some data => match uri_path (contents data) with NoFile => gnome | r => r end
  | None => gnome
  end.
End Uri.

(** ** Image types *)

(** [clipboard_get_image(out_len, mime_out)] with the type it stores. *)
Definition clipboard_get_image (read_type : bytes -> option Block) : option (bytes * bytes) :=
  let get mime := (fun b => (take (used b) (contents b), mime)) <$> read_type mime in
  match get (str "image/png") with
  | Some r => Some r
  | None => get (str "image/jpeg")
  end.

Definition mime_from_extension (filename : bytes) : bytes :=
  match strrchr filename "." with
  | None => str "application/octet-stream"
  | Some i =>
      let ext := drop (S i) (cstr filename) in
      if strcaseeq ext (str "png") then str "image/png"
      else if strcaseeq ext (str "jpg") || strcaseeq ext (str "jpeg") then str "image/jpeg"
      else if strcaseeq ext (str "gif") then str "image/gif"
      else if strcaseeq ext (str "webp") then str "image/webp"
      else if strcaseeq ext (str "bmp") then str "image/bmp"
      else if strcaseeq ext (str "pdf") then str "application/pdf"
      else if strcaseeq ext (str "txt") then str "text/plain"
      else str "application/octet-stream"
  end.

(** [strrchr(path, '/')], or the whole path. *)
Definition basename (path : bytes) : bytes :=
  match strrchr path "/" with Some i => drop (S i) (cstr path) | None => cstr path end.

(** ** The decoder in place *)

Lemma poke_prefix pre d x post :
  poke (pre ++ d :: post) (length pre) [x] = Some (pre ++ x :: post).
Proof.
  unfold poke. replace (_ <=? _)%nat with true by (symmetry; apply Nat.leb_le; rewrite length_app; simpl; lia).
  rewrite take_app_length. f_equal. f_equal. simpl. f_equal.
  rewrite drop_app_ge by (simpl; lia). simpl length. by replace (length pre + 1 - length pre)%nat with 1%nat by lia.
Qed.

(** A write at [out] while [mid] is old text and [cs] has just been read. *)
Lemma poke_front out l t y :
  l <> [] -> poke (out ++ l ++ t) (length out) [y] = Some ((out ++ [y]) ++ drop 1 l ++ t).
Proof. intros Hl. destruct l as [|d l]; [done|]. cbn [app]. rewrite poke_prefix. by rewrite <- app_assoc. Qed.

Lemma no_nul_head c s : no_nul (c :: s) -> beq c NUL = false /\ no_nul s.
Proof. intros H. apply no_nul_cons in H as [Hc Hs]. split; [|done]. unfold not_nul in Hc. by destruct (beq c NUL). Qed.

Lemma lookup_past (pre : bytes) x post : (pre ++ x :: post) !! length pre = Some x.
Proof. rewrite lookup_app_r by lia. by rewrite Nat.sub_diag. Qed.

(** [out] is written, [mid] is old text, [s] is still to be read. *)
Lemma url_decode_loop_spec n fuel s out mid rest :
  (length s < n)%nat -> (length s < fuel)%nat -> no_nul s ->
  exists rest', url_decode_loop fuel (out ++ mid ++ s ++ NUL :: rest) (length out + length mid) (length out)
    = Some (out ++ url_decode s ++ NUL :: rest').
Proof.
  revert fuel s out mid. induction n as [|n IH]; [lia|]. intros fuel s out mid Hn Hf Hs.
  destruct fuel as [|fuel]; [lia|]. cbn [url_decode_loop].
  rewrite (app_assoc out), <- length_app. destruct s as [|c s1].
  - cbn [app]. rewrite lookup_past. cbn [mbind option_bind]. rewrite beq_refl.
    rewrite <- app_assoc. replace (mid ++ NUL :: rest) with ((mid ++ [NUL]) ++ rest) by (by rewrite <- app_assoc).
    rewrite poke_front by (by destruct mid). eexists. rewrite <- app_assoc. reflexivity.
  - apply no_nul_head in Hs as [Hc Hs1]. simpl in Hn, Hf.
    (* one step of the loop: the character or the decoded byte [y], after [cs] *)
    assert (Hstep : forall cs s2 y k, c :: s1 = cs ++ s2 -> length cs = k -> (0 < k)%nat -> no_nul s2 ->
      exists rest', (s' ← poke ((out ++ mid) ++ (c :: s1) ++ NUL :: rest) (length out) [y];
        url_decode_loop fuel s' (length (out ++ mid) + k) (S (length out)))
      = Some (out ++ (y :: url_decode s2) ++ NUL :: rest')).
    { intros cs s2 y k E Hk Hk0 Hs2. rewrite E.
      replace ((out ++ mid) ++ (cs ++ s2) ++ NUL :: rest) with (out ++ (mid ++ cs) ++ s2 ++ NUL :: rest)
        by (by rewrite <- !app_assoc).
      rewrite poke_front by (destruct mid; [by destruct cs; [simpl in Hk; lia|]|done]). cbn [mbind option_bind].
      apply (f_equal length) in E. rewrite length_app in E. simpl in E.
      destruct (IH fuel s2 (out ++ [y]) (drop 1 (mid ++ cs))) as [rest' H]; [lia|lia|done|].
      exists rest'. replace (length (out ++ mid) + k)%nat with (length (out ++ [y]) + length (drop 1 (mid ++ cs)))%nat
        by (rewrite length_drop, !length_app; simpl; lia).
      replace (S (length out)) with (length (out ++ [y])) by (rewrite length_app; simpl; lia).
      rewrite H. by rewrite <- app_assoc. }
    assert (Hcopy : exists rest', (s' ← poke ((out ++ mid) ++ (c :: s1) ++ NUL :: rest) (length out) [c];
        url_decode_loop fuel s' (S (length (out ++ mid))) (S (length out)))
      = Some (out ++ (c :: url_decode s1) ++ NUL :: rest')).
    { destruct (Hstep [c] s1 c 1%nat eq_refl eq_refl ltac:(lia) Hs1) as [rest' H]. exists rest'.
      by replace (S (length (out ++ mid))) with (length (out ++ mid) + 1)%nat by lia. }
    cbn [app]. rewrite lookup_past. cbn [mbind option_bind]. rewrite Hc. cbn [app] in Hcopy.
    replace ((out ++ mid) ++ c :: s1 ++ NUL :: rest) with (((out ++ mid) ++ [c]) ++ s1 ++ NUL :: rest) in *
      by (by rewrite <- app_assoc).
    replace (S (length (out ++ mid))) with (length ((out ++ mid) ++ [c])) in *
      by (rewrite (length_app _ [c]); simpl; lia).
    destruct s1 as [|a s2].
    { destruct (beq c "%"); [|exact Hcopy]. cbn [app]. rewrite lookup_past. cbn [mbind option_bind].
      rewrite beq_refl. exact Hcopy. }
    apply no_nul_head in Hs1 as [Ha Hs2]. cbn [app]. rewrite lookup_past. cbn [mbind option_bind]. rewrite Ha.
    destruct s2 as [|b s3].
    { destruct (beq c "%"); [|exact Hcopy].
      replace (((out ++ mid) ++ [c]) ++ a :: [] ++ NUL :: rest) with ((((out ++ mid) ++ [c]) ++ [a]) ++ NUL :: rest)
        by (by rewrite <- !app_assoc).
      replace (S (length ((out ++ mid) ++ [c]))) with (length (((out ++ mid) ++ [c]) ++ [a]))
        by (rewrite (length_app _ [a]); simpl; lia).
      rewrite lookup_past. cbn [mbind option_bind]. rewrite beq_refl.
      rewrite <- (app_assoc _ [a]). exact Hcopy. }
    apply no_nul_head in Hs2 as [Hb Hs3].
    assert (Eb : (((out ++ mid) ++ [c]) ++ a :: (b :: s3) ++ NUL :: rest) !! S (length ((out ++ mid) ++ [c])) = Some b).
    { replace (((out ++ mid) ++ [c]) ++ a :: (b :: s3) ++ NUL :: rest)
        with ((((out ++ mid) ++ [c]) ++ [a]) ++ b :: s3 ++ NUL :: rest) by (by rewrite <- !app_assoc).
      replace (S (length ((out ++ mid) ++ [c]))) with (length (((out ++ mid) ++ [c]) ++ [a]))
        by (rewrite (length_app _ [a]); simpl; lia). apply lookup_past. }
    rewrite Eb. cbn [mbind option_bind]. rewrite Hb.
    assert (Escan : sscanf_2x (drop (length ((out ++ mid) ++ [c])) (((out ++ mid) ++ [c]) ++ a :: (b :: s3) ++ NUL :: rest))
      = sscanf_2x (a :: b :: s3)).
    { rewrite drop_app_length. unfold sscanf_2x.
      change (a :: (b :: s3) ++ NUL :: rest) with ((a :: b :: s3) ++ NUL :: rest).
      assert (Hab : no_nul (a :: b :: s3)).
      { apply no_nul_cons. split; [by unfold not_nul; rewrite Ha|]. apply no_nul_cons.
        split; [by unfold not_nul; rewrite Hb|done]. }
      by rewrite cstr_stop, cstr_no_nul by done. }
    rewrite Escan. cbn [url_decode]. destruct (beq c "%"); [|exact Hcopy].
    destruct (sscanf_2x (a :: b :: s3)) as [v|]; [|exact Hcopy].
    destruct (Hstep [c; a; b] s3 (zb v) 3%nat eq_refl eq_refl ltac:(lia) Hs3) as [rest' H]. exists rest'.
    rewrite <- H. cbn [app]. rewrite <- !app_assoc. reflexivity.
Qed.

Lemma url_decode_inplace_spec s rest :
  no_nul s -> exists rest', url_decode_inplace (s ++ NUL :: rest) = Some (url_decode s ++ NUL :: rest').
Proof.
  intros Hs. apply (url_decode_loop_spec (S (length s)) _ s [] [] rest); [lia|rewrite length_app; lia|done].
Qed.

(** ** Spellings of a path *)

(** A byte of a line. *)
Definition plain (c : byte) : bool := negb (beq c NUL || beq c x0a || beq c x0d).

(** [encodes p u]: [u] is a percent-encoding of [p]; any byte may be escaped,
    in upper or lower case, [%] must be. *)
Inductive encodes : bytes -> bytes -> Prop :=
| enc_nil : encodes [] []
| enc_plain c p u : plain c = true -> c <> "%"%byte -> encodes p u -> encodes (c :: p) (c :: u)
| enc_escape h l p u : isxdigit h = true -> isxdigit l = true -> encodes p u ->
    encodes (zb (16 * hex_value h + hex_value l) :: p) ("%"%byte :: h :: l :: u).

Lemma xdigit_plain b : isxdigit b = true -> plain b = true.
Proof. by_bytes b. Qed.

Lemma encodes_plain p u : encodes p u -> Forall (fun c => plain c = true) u.
Proof.
  induction 1 as [|c p u Hc _ _ IH|h l p u Hh Hl _ IH]; [constructor|by constructor|].
  repeat constructor; [by apply xdigit_plain..|done].
Qed.

Lemma url_decode_plain c s : c <> "%"%byte -> url_decode (c :: s) = c :: url_decode s.
Proof.
  intros Hc. cbn [url_decode]. apply beq_false in Hc. rewrite Hc. by destruct s as [|? [|? ?]].
Qed.

Lemma encodes_decode p u : encodes p u -> url_decode u = p.
Proof.
  induction 1 as [|c p u _ Hc _ IH|h l p u Hh Hl _ IH]; [done|by rewrite url_decode_plain, IH|].
  cbn [url_decode]. rewrite beq_refl, sscanf_2x_xdigits by done. by rewrite IH.
Qed.

(** ** Lines of the selections *)

Lemma mem_strchr_found pre c post :
  Forall (fun b => beq b c = false /\ beq b NUL = false) pre ->
  mem_strchr (pre ++ c :: post) c = Some (Some (length pre)).
Proof.
  induction 1 as [|b pre [H1 H2] _ IH]; cbn [app mem_strchr].
  - by rewrite beq_refl.
  - by rewrite H1, H2, IH.
Qed.

Lemma mem_strchr_stop pre c post :
  c <> NUL -> Forall (fun b => beq b c = false /\ beq b NUL = false) pre ->
  mem_strchr (pre ++ NUL :: post) c = Some None.
Proof.
  intros Hc. induction 1 as [|b pre [H1 H2] _ IH]; cbn [app mem_strchr].
  - assert (E : beq NUL c = false) by by apply beq_false. by rewrite E.
  - by rewrite H1, H2, IH.
Qed.

Lemma mem_strchr_runs_off pre c :
  Forall (fun b => beq b c = false /\ beq b NUL = false) pre -> mem_strchr pre c = None.
Proof. induction 1 as [|b pre [H1 H2] _ IH]; [done|]. cbn [mem_strchr]. by rewrite H1, H2, IH. Qed.

Lemma plain_not c l :
  c = x0a \/ c = x0d -> Forall (fun b => plain b = true) l ->
  Forall (fun b => beq b c = false /\ beq b NUL = false) l.
Proof.
  intros Hc Hl. eapply Forall_impl; [exact Hl|]. intros b Hb. unfold plain in Hb.
  apply negb_true_iff in Hb. boolify. destruct Hc as [-> | ->]; split; by apply beq_false.
Qed.

Lemma plain_no_nul l : Forall (fun b => plain b = true) l -> no_nul l.
Proof.
  intros Hl. eapply Forall_impl; [exact Hl|]. intros b Hb. unfold plain in Hb. unfold not_nul. by destruct (beq b NUL).
Qed.

(** What may follow a URI: the end of its line, or a NUL. *)
Definition line_end (tail : bytes) : Prop :=
  exists t, tail = x0a :: t \/ tail = x0d :: x0a :: t \/ tail = NUL :: t.

Lemma cut_line l tail :
  Forall (fun b => plain b = true) l -> line_end tail ->
  exists t, (s ← cut_at x0a (l ++ tail); cut_at x0d s) = Some (l ++ NUL :: t).
Proof.
  intros Hl [t [-> | [-> | ->]]]; unfold cut_at.
  - rewrite mem_strchr_found by (apply plain_not; auto). cbn [mbind option_bind].
    rewrite insert_app_r_alt, Nat.sub_diag by lia. cbn [insert list_insert].
    rewrite mem_strchr_stop by (done || apply plain_not; auto). by exists t.
  - replace (l ++ x0d :: x0a :: t) with ((l ++ [x0d]) ++ x0a :: t) by (by rewrite <- app_assoc).
    rewrite mem_strchr_found.
    2:{ apply Forall_app. split; [apply plain_not; auto|by repeat constructor]. }
    cbn [mbind option_bind]. rewrite insert_app_r_alt, Nat.sub_diag by lia. cbn [insert list_insert].
    rewrite <- app_assoc. cbn [app]. rewrite mem_strchr_found by (apply plain_not; auto). cbn [mbind option_bind].
    rewrite insert_app_r_alt, Nat.sub_diag by lia. cbn [insert list_insert]. by eexists.
  - rewrite mem_strchr_stop by (done || apply plain_not; auto). cbn [mbind option_bind].
    rewrite mem_strchr_stop by (done || apply plain_not; auto). by exists t.
Qed.

Lemma uri_path_line malloc_ok l tail :
  (forall n, malloc_ok n = true) -> Forall (fun b => plain b = true) l -> line_end tail ->
  uri_path malloc_ok (l ++ tail)
  = if starts_with (str "file://") l then Path (cstr (url_decode (drop 7 l))) else NoFile.
Proof.
  intros Hm Hl Ht. unfold uri_path. destruct (cut_line l tail Hl Ht) as [t ->].
  assert (Hn : no_nul l) by by apply plain_no_nul. rewrite cstr_stop by done.
  destruct (starts_with _ _); [|done]. rewrite Hm.
  destruct (url_decode_inplace_spec (drop 7 l) []) as [r ->].
  { by apply Forall_drop. }
  f_equal. generalize (url_decode (drop 7 l)). intros d. unfold cstr.
  induction d as [|b d IH]; [done|]. cbn [app take_while]. destruct (not_nul b); [by rewrite IH|done].
Qed.

Lemma file_uri_line malloc_ok p u tail :
  (forall n, malloc_ok n = true) -> no_nul p -> encodes p u -> line_end tail ->
  uri_path malloc_ok (str "file://" ++ u ++ tail) = Path p.
Proof.
  intros Hm Hp He Ht. rewrite app_assoc, uri_path_line; [|done| |done].
  - rewrite starts_with_app, drop_app_length' by done. by rewrite (encodes_decode p u He), cstr_no_nul.
  - apply Forall_app. split; [by repeat constructor|by eapply encodes_plain].
Qed.

(** C17: copying a file yields its path.  For every path and every
    percent-encoding of it, [clipboard_get_file_uri] decodes the
    [text/uri-list] selection to that path, in place and without leaving its
    arrays, whether the line ends with LF, CR LF or a NUL; failing that it
    does the same for the second line of [x-special/gnome-copied-files].
    Where the block ends with the URI - the file managers send no final
    newline - the search for the end of the line runs off the block. *)
Theorem file_uri_decoded malloc_ok read_type p u tail action
    (Hm : forall n, malloc_ok n = true) (Hp : no_nul p) (Hu : encodes p u) (Ht : line_end tail)
    (Ha : Forall (fun b => plain b = true) action) :
  let uris := read_type (str "text/uri-list") in
  let gnome := read_type (str "x-special/gnome-copied-files") in
  let result := clipboard_get_file_uri malloc_ok read_type in
  ((contents <$> uris) = Some (str "file://" ++ u ++ tail) -> result = Path p)
  /\ (uris = None -> (contents <$> gnome) = Some (action ++ [x0a] ++ str "file://" ++ u ++ tail) -> result = Path p)
  /\ (uris = None -> (contents <$> gnome) = Some (action ++ [x0a] ++ str "file://" ++ u) -> result = Invalid).
Proof.
  cbv zeta. unfold clipboard_get_file_uri.
  assert (Hg : forall x, gnome_path malloc_ok (action ++ [x0a] ++ x) = uri_path malloc_ok x).
  { intros x. unfold gnome_path. cbn [app]. rewrite mem_strchr_found by (apply plain_not; auto).
    replace (action ++ x0a :: x) with ((action ++ [x0a]) ++ x) by (by rewrite <- app_assoc).
    rewrite (drop_app_exact _ (action ++ [x0a])); [done|]. rewrite length_app. simpl. lia. }
  split_and!.
  - destruct (read_type _) as [b|]; [|done]. intros E. apply (inj Some) in E. rewrite E. by rewrite (file_uri_line malloc_ok p u tail).
  - intros ->. destruct (read_type _) as [b|]; [|done]. intros E. apply (inj Some) in E. rewrite E, Hg. by apply file_uri_line.
  - intros ->. destruct (read_type _) as [b|]; [|done]. intros E. apply (inj Some) in E. rewrite E, Hg.
    unfold uri_path, cut_at. rewrite mem_strchr_runs_off; [done|].
    apply plain_not; [auto|]. apply Forall_app. split; [by repeat constructor|by eapply encodes_plain].
Qed.

(** "/tmp/a b%" copied as "file:///tmp/a%20b%25". *)
Lemma file_uri_decoded_witness :
  let p := str "/tmp/a b%" in
  let u := str "/tmp/a%20b%25" in
  let block t := Some (MkBlock (str "file://" ++ u ++ t) 22) in
  let gnome t := Some (MkBlock (str "copy" ++ [x0a] ++ str "file://" ++ u ++ t) 27) in
  let uris mime := if bool_decide (mime = str "text/uri-list") then block [x0d; x0a; xff] else None in
  let open_ended mime := if bool_decide (mime = str "text/uri-list") then None else gnome [] in
  let get read_type := clipboard_get_file_uri (fun _ => true) read_type in
  ((contents <$> uris (str "text/uri-list")) = Some (str "file://" ++ u ++ [x0d; x0a; xff]) -> get uris = Path p)
  /\ get uris = Path p /\ get open_ended = Invalid.
Proof.
  cbv zeta.
  assert (He : encodes (str "/tmp/a b%") (str "/tmp/a%20b%25")).
  { do 6 (apply enc_plain; [reflexivity|discriminate|]).
    apply (enc_escape "2" "0"); [reflexivity..|]. apply enc_plain; [reflexivity|discriminate|].
    apply (enc_escape "2" "5"); [reflexivity..|]. apply enc_nil. }
  split; [|split; vm_compute; reflexivity].
  refine (proj1 (file_uri_decoded (fun _ => true) _ (str "/tmp/a b%") (str "/tmp/a%20b%25") [x0d; x0a; xff] (str "copy") _ _ _ _ _)).
  - done.
  - by repeat constructor.
  - exact He.
  - exists [xff]. auto.
  - by repeat constructor.
Defined.
