(* ===== verification/Bits.v ===== *)
(** * Bit strings as numbers

    A stream of bytes that is read from its least significant bit is the number
    [le_val]; codes written one after the other are the number [pack]. *)

From S2P Require Import Prelude.
Local Open Scope Z_scope.

Fixpoint le_val (s : bytes) : Z := match s with [] => 0 | b :: s => bz b + 256 * le_val s end.

(** Codes with their widths. *)
Abbreviation codes := (list (Z * nat)).
Fixpoint pack (cs : codes) : Z := match cs with [] => 0 | (c, n) :: cs => c + 2 ^ Z.of_nat n * pack cs end.
Fixpoint width (cs : codes) : nat := match cs with [] => 0 | (_, n) :: cs => n + width cs end.

Definition code_ok (c : Z * nat) : Prop := 0 <= c.1 < 2 ^ Z.of_nat c.2.

Lemma pow256 n : 256 ^ Z.of_nat n = 2 ^ (8 * Z.of_nat n).
Proof. by rewrite Z.pow_mul_r by lia. Qed.

Lemma pow2_split n m : 2 ^ Z.of_nat (n + m) = 2 ^ Z.of_nat n * 2 ^ Z.of_nat m.
Proof. rewrite Nat2Z.inj_add. by rewrite Z.pow_add_r by lia. Qed.

Lemma le_val_app a b : le_val (a ++ b) = le_val a + 2 ^ (8 * Z.of_nat (length a)) * le_val b.
Proof.
  induction a as [|x a IH]; [cbn; lia|]. cbn [app le_val length]. rewrite IH.
  replace (8 * Z.of_nat (S (length a))) with (8 + 8 * Z.of_nat (length a)) by lia. rewrite Z.pow_add_r by lia. lia.
Qed.

Lemma le_val_range a : 0 <= le_val a < 2 ^ (8 * Z.of_nat (length a)).
Proof.
  induction a as [|x a IH]; [done|]. cbn [le_val length]. pose proof (bz_range x).
  replace (8 * Z.of_nat (S (length a))) with (8 + 8 * Z.of_nat (length a)) by lia. rewrite Z.pow_add_r by lia. lia.
Qed.

Lemma width_app a b : width (a ++ b) = (width a + width b)%nat.
Proof. induction a as [|[c n] a IH]; [done|]. cbn. rewrite IH. lia. Qed.

Lemma pack_app a b : pack (a ++ b) = pack a + 2 ^ Z.of_nat (width a) * pack b.
Proof. induction a as [|[c n] a IH]; cbn [app pack width]; [rewrite Z.pow_0_r; lia|]. rewrite IH, pow2_split. lia. Qed.

Lemma pack_range cs : Forall code_ok cs -> 0 <= pack cs < 2 ^ Z.of_nat (width cs).
Proof.
  induction 1 as [|[c n] cs Hc _ IH]; [done|]. cbn [pack width]. unfold code_ok in Hc. cbn in Hc. rewrite pow2_split. nia.
Qed.

(** Disjoint bits: [|] is [+]. *)
Lemma lor_disjoint a b n : 0 <= n -> 0 <= a < 2 ^ n -> Z.lor a (b * 2 ^ n) = a + b * 2 ^ n.
Proof.
  intros Hn Ha. rewrite <- (Z.shiftl_mul_pow2 b n) by done.
  assert (H0 : Z.land a (Z.shiftl b n) = 0); [|by rewrite Z.add_nocarry_lxor, Z.lxor_lor].
  apply Z.bits_inj_iff'. intros i Hi. rewrite Z.land_spec, Z.bits_0, Z.shiftl_spec by done.
  destruct (Z_lt_le_dec i n) as [Hl|Hl]; [by rewrite (Z.testbit_neg_r b), andb_false_r by lia|].
  destruct (Z.eq_dec a 0) as [->|Hz]; [by rewrite Z.bits_0|].
  rewrite (Z.bits_above_log2 a i); [done|lia|].
  apply Z.log2_lt_pow2; [lia|]. eapply Z.lt_le_trans; [apply Ha|]. apply Z.pow_le_mono_r; lia.
Qed.

Lemma land_low a n : 0 <= n -> Z.land a (Z.shiftl 1 n - 1) = a mod 2 ^ n.
Proof. intros Hn. rewrite Z.shiftl_1_l, Z.sub_1_r, <- Z.ones_equiv. by apply Z.land_ones. Qed.
