(* ===== verification/Deflate.v ===== *)
(** * stb_image_write.h: the compressor behind the PNG writer

    [stbi_zlib_compress] with the growing blocks, the bit buffer and the hash
    table of the code. What it writes is described by tokens: literals and
    copies; [Inflate] reads them back. The blocks it grows are assumed to be
    had, as the code asserts. *)

From stdpp Require Import gmap.
From S2P Require Import Prelude Bits.
Local Open Scope Z_scope.

(** ** Stretchy buffers *)

(** [stbiw__sbn] is the length; [sb_m] is [stbiw__sbm], 0 for a null pointer. *)
Record sbuf := Sbuf { sb_data : bytes; sb_m : Z }.

Definition sbcount (a : sbuf) : Z := Z.of_nat (length (sb_data a)).

Definition sbgrowf (a : sbuf) (increment : Z) : sbuf :=
  Sbuf (sb_data a) (if sb_m a =? 0 then increment + 1 else 2 * sb_m a + increment).

Definition sbpush (a : sbuf) (v : Z) : sbuf :=
  let a := if (sb_m a =? 0) || (sb_m a <=? sbcount a + 1) then sbgrowf a 1 else a in
  Sbuf (sb_data a ++ [zb v]) (sb_m a).

(** ** The bit buffer *)

Record writer := Writer { w_out : sbuf; bitbuf : Z; bitcount : nat }.

(** The fuel is the number of bits. *)
Fixpoint zlib_flushf (fuel : nat) (w : writer) : writer :=
  match fuel with
  | O => w
  | S fuel =>
      if (8 <=? bitcount w)%nat then
        zlib_flushf fuel (Writer (sbpush (w_out w) (bitbuf w)) (Z.shiftr (bitbuf w) 8) (bitcount w - 8))
      else w
  end.

Definition zlib_add (code : Z) (codebits : nat) (w : writer) : writer :=
  let w := Writer (w_out w) (Z.lor (bitbuf w) (u32 (Z.shiftl code (Z.of_nat (bitcount w))))) (bitcount w + codebits) in
  zlib_flushf (bitcount w) w.

Fixpoint zlib_bitrev_loop (codebits : nat) (code res : Z) : Z :=
  match codebits with
  | O => res
  | S codebits => zlib_bitrev_loop codebits (Z.shiftr code 1) (Z.lor (Z.shiftl res 1) (Z.land code 1))
  end.
Definition zlib_bitrev (code : Z) (codebits : nat) : Z := zlib_bitrev_loop codebits code 0.

Definition zlib_huffa (b : Z) (c : nat) : writer -> writer := zlib_add (zlib_bitrev b c) c.
Definition zlib_huff1 (n : Z) := zlib_huffa (0x30 + n) 8.
Definition zlib_huff2 (n : Z) := zlib_huffa (0x190 + n - 144) 9.
Definition zlib_huff3 (n : Z) := zlib_huffa (0 + n - 256) 7.
Definition zlib_huff4 (n : Z) := zlib_huffa (0xc0 + n - 280) 8.
Definition zlib_huff (n : Z) : writer -> writer :=
  if n <=? 143 then zlib_huff1 n else if n <=? 255 then zlib_huff2 n
  else if n <=? 279 then zlib_huff3 n else zlib_huff4 n.
Definition zlib_huffb (n : Z) : writer -> writer := if n <=? 143 then zlib_huff1 n else zlib_huff2 n.

(** ** Matches *)

Definition ZHASH : Z := 16384.

(** [stbiw__zlib_countm] of two positions; [None]: a read behind the data. *)
Fixpoint countm_loop (n : nat) (a b : bytes) : option nat :=
  match n with
  | O => Some 0%nat
  | S n => match a, b with
           | x :: a, y :: b => if beq x y then S <$> countm_loop n a b else Some 0%nat
           | _, _ => None
           end
  end.
Definition zlib_countm (data : bytes) (a b limit : nat) : option nat :=
  countm_loop (Nat.min limit 258) (drop a data) (drop b data).

Definition zhash (data : bytes) (i : nat) : option Z :=
  match drop i data with
  | d0 :: d1 :: d2 :: _ =>
      let hash := u32 (bz d0 + Z.shiftl (bz d1) 8 + Z.shiftl (bz d2) 16) in
      let hash := Z.lxor hash (u32 (Z.shiftl hash 3)) in
      let hash := u32 (hash + Z.shiftr hash 5) in
      let hash := Z.lxor hash (u32 (Z.shiftl hash 4)) in
      let hash := u32 (hash + Z.shiftr hash 17) in
      let hash := Z.lxor hash (u32 (Z.shiftl hash 25)) in
      let hash := u32 (hash + Z.shiftr hash 6) in
      Some (Z.land hash (ZHASH - 1))
  | _ => None
  end.

(** The first loop over [hlist]: the longest match, the last of them. *)
Fixpoint find_best (data : bytes) (i : nat) (hlist : list nat) (best : nat) (bestloc : option nat) : option (nat * option nat) :=
  match hlist with
  | [] => Some (best, bestloc)
  | p :: hlist =>
      if Z.of_nat i - 32768 <? Z.of_nat p then
        d ← zlib_countm data p i (length data - i);
        if (best <=? d)%nat then find_best data i hlist d (Some p) else find_best data i hlist best bestloc
      else find_best data i hlist best bestloc
  end.

(** The second: is there a longer match at the next byte? *)
Fixpoint next_better (data : bytes) (i : nat) (hlist : list nat) (best : nat) : option bool :=
  match hlist with
  | [] => Some false
  | p :: hlist =>
      if Z.of_nat i - 32767 <? Z.of_nat p then
        e ← zlib_countm data p (i + 1) (length data - i - 1);
        if (best <? e)%nat then Some true else next_better data i hlist best
      else next_better data i hlist best
  end.

Definition lengthc : list Z := [3;4;5;6;7;8;9;10;11;13;15;17;19;23;27;31;35;43;51;59;67;83;99;115;131;163;195;227;258;259].
Definition lengtheb : list Z := [0;0;0;0;0;0;0;0;1;1;1;1;2;2;2;2;3;3;3;3;4;4;4;4;5;5;5;5;0].
Definition distc : list Z := [1;2;3;4;5;7;9;13;17;25;33;49;65;97;129;193;257;385;513;769;1025;1537;2049;3073;4097;6145;8193;12289;16385;24577;32768].
Definition disteb : list Z := [0;0;0;0;1;1;2;2;3;3;4;4;5;5;6;6;7;7;8;8;9;9;10;10;11;11;12;12;13;13].

(** [for (j=0; v > table[j+1]-1; ++j)], over [table + 1]. *)
Fixpoint code_index (next : list Z) (v : Z) (j : nat) : option nat :=
  match next with
  | [] => None
  | b :: next => if b - 1 <? v then code_index next v (S j) else Some j
  end.

Definition write_match (best d : Z) (w : writer) : option writer :=
  j ← code_index (tail lengthc) best 0;
  lc ← lengthc !! j; le ← lengtheb !! j;
  let w := zlib_huff (Z.of_nat j + 257) w in
  let w := if le =? 0 then w else zlib_add (best - lc) (Z.to_nat le) w in
  j ← code_index (tail distc) d 0;
  dc ← distc !! j; de ← disteb !! j;
  let w := zlib_add (zlib_bitrev (Z.of_nat j) 5) 5 w in
  Some (if de =? 0 then w else zlib_add (d - dc) (Z.to_nat de) w).

(** ** The main loop *)

Abbreviation hash_table := (gmap Z (list nat)).

Definition hlist (t : hash_table) (h : Z) : list nat := default [] (t !! h).

(** The bucket of [h] halved when it is full, with [i] behind. *)
Definition hash_insert (quality : nat) (h : Z) (i : nat) (t : hash_table) : hash_table :=
  let l := hlist t h in
  let l := if (length l =? 2 * quality)%nat then drop quality l else l in
  <[h := l ++ [i]]> t.

(** The fuel is the length of the data. *)
Fixpoint compress_loop (fuel : nat) (quality : nat) (data : bytes) (i : nat) (t : hash_table) (w : writer) : option (nat * writer) :=
  if (i + 3 <? length data)%nat then
    match fuel with
    | O => None
    | S fuel =>
        h ← zhash data i;
        '(best, bestloc) ← find_best data i (hlist t h) 3 None;
        let t := hash_insert quality h i t in
        bestloc ← (match bestloc with
                   | None => Some None
                   | Some p =>
                       h ← zhash data (i + 1);
                       better ← next_better data i (hlist t h) best;
                       Some (if better : bool then None else Some p)
                   end);
        match bestloc with
        | Some p =>
            let d := Z.of_nat i - Z.of_nat p in
            if (d <=? 32767) && (best <=? 258)%nat then
              w ← write_match (Z.of_nat best) d w; compress_loop fuel quality data (i + best) t w
            else None
        | None =>
            b ← data !! i;
            compress_loop fuel quality data (i + 1) t (zlib_huffb (bz b) w)
        end
    end
  else Some (i, w).

(** [while (bitcount) stbiw__zlib_add(0,1)]: at most 7 times. *)
Fixpoint pad (fuel : nat) (w : writer) : writer :=
  match fuel with
  | O => w
  | S fuel => if (bitcount w =? 0)%nat then w else pad fuel (zlib_add 0 1 w)
  end.

(** ** Stored blocks *)

(** [None]: the [memcpy] does not fit the block. *)
Definition stored_block (rest : bytes) (out : sbuf) : option (sbuf * bytes) :=
  let blocklen := Z.min (Z.of_nat (length rest)) 32767 in
  let out := sbpush out (if Z.of_nat (length rest) =? blocklen then 1 else 0) in
  let out := sbpush out blocklen in
  let out := sbpush out (Z.shiftr blocklen 8) in
  let out := sbpush out (Z.lnot blocklen) in
  let out := sbpush out (Z.shiftr (Z.lnot blocklen) 8) in
  let n := Z.to_nat blocklen in
  if sbcount out + blocklen <=? sb_m out
  then Some (Sbuf (sb_data out ++ take n rest) (sb_m out), drop n rest) else None.

Fixpoint stored_blocks (fuel : nat) (rest : bytes) (out : sbuf) : option sbuf :=
  match rest with
  | [] => Some out
  | _ => match fuel with
         | O => None
         | S fuel => '(out, rest) ← stored_block rest out; stored_blocks fuel rest out
         end
  end.

(** ** Adler-32 *)

Definition adler_byte (s : Z * Z) (b : byte) : Z * Z :=
  let s1 := u32 (fst s + bz b) in (s1, u32 (snd s + s1)).

(** The most bytes whose sums stay below 2^32. *)
Definition NMAX : nat := Z.to_nat 5552.

(** Blocks of 5552 bytes behind a first, shorter one; the sums are reduced
    once a block. The fuel is the number of blocks. *)
Fixpoint adler_blocks (fuel : nat) (data : bytes) (blocklen : nat) (s : Z * Z) : Z * Z :=
  match data with
  | [] => s
  | _ => match fuel with
         | O => s
         | S fuel =>
             let '(s1, s2) := fold_left adler_byte (take blocklen data) s in
             adler_blocks fuel (drop blocklen data) NMAX (s1 mod 65521, s2 mod 65521)
         end
  end.
Definition adler (data : bytes) : Z * Z :=
  let n := length data in adler_blocks (n / NMAX + 2) data (n mod NMAX) (1, 0).

(** ** [stbi_zlib_compress] *)

(** The length above which the block is stored. *)
Definition stored_limit (data_len : Z) : Z := data_len + 2 + (data_len + 32766) / 32767 * 5.

Definition write_block (quality : nat) (data : bytes) (out : sbuf) : option writer :=
  let w := zlib_add 1 2 (zlib_add 1 1 (Writer out 0 0)) in
  '(i, w) ← compress_loop (length data) quality data 0 ∅ w;
  let w := fold_left (fun w b => zlib_huffb (bz b) w) (drop i data) w in
  Some (pad 8 (zlib_huff 256 w)).

Definition stbi_zlib_compress (malloc_ok : Z -> bool) (data : bytes) (quality : nat) : option (option bytes) :=
  let data_len := Z.of_nat (length data) in
  if negb (malloc_ok (ZHASH * 8)) then Some None
  else
    let quality := Nat.max quality 5 in
    let out := sbpush (sbpush (Sbuf [] 0) 0x78) 0x5e in
    w ← write_block quality data out;
    let out := w_out w in
    if (INT_MAX <? data_len + 32766) || (INT_MAX <? stored_limit data_len) then None
    else
    out ← (if stored_limit data_len <? sbcount out then
             stored_blocks (length data) data (Sbuf (take 2 (sb_data out)) (sb_m out))
           else Some out);
    let '(s1, s2) := adler data in
    let out := sbpush (sbpush (sbpush (sbpush out (Z.shiftr s2 8)) s2) (Z.shiftr s1 8)) s1 in
    Some (Some (sb_data out)).

(** ** What the bit buffer holds *)

Definition sb_ok (a : sbuf) : Prop := sbcount a <= sb_m a.

Lemma sbpush_data a v : sb_data (sbpush a v) = sb_data a ++ [zb v].
Proof. unfold sbpush. by destruct (_ || _). Qed.

Lemma sbpush_ok a v : sb_ok a -> sb_ok (sbpush a v).
Proof.
  unfold sb_ok, sbpush, sbcount. intros Ha.
  destruct ((sb_m a =? 0) || (sb_m a <=? _)) eqn:E; cbn [sb_data sb_m sbgrowf]; rewrite length_app; cbn [length].
  - destruct (sb_m a =? 0) eqn:E0; boolify; lia.
  - boolify. lia.
Qed.

(** [its] is what was written behind [pre]. *)
Definition writes (pre : bytes) (its : codes) (w : writer) : Prop :=
  sb_ok (w_out w) /\ (0 <= bitbuf w < 2 ^ Z.of_nat (bitcount w)) /\
  exists body, sb_data (w_out w) = pre ++ body
    /\ le_val body + 2 ^ (8 * Z.of_nat (length body)) * bitbuf w = pack its
    /\ (8 * length body + bitcount w)%nat = width its.

Lemma flush_writes pre its fuel : forall w,
  writes pre its w -> (bitcount w <= fuel)%nat ->
  writes pre its (zlib_flushf fuel w) /\ (bitcount (zlib_flushf fuel w) < 8)%nat.
Proof.
  induction fuel as [|fuel IH]; intros w Hw Hf; cbn [zlib_flushf]; [split; [done|lia]|].
  destruct (8 <=? bitcount w)%nat eqn:E; boolify; [|split; [done|lia]].
  apply IH; cbn [bitcount]; [|lia]. destruct Hw as (Hok & Hb & body & Hd & Hv & Hn).
  set (n := (bitcount w - 8)%nat). assert (Hbc : bitcount w = (8 + n)%nat) by (unfold n; lia).
  unfold writes. cbn [w_out bitbuf bitcount]. split; [by apply sbpush_ok|].
  rewrite Z.shiftr_div_pow2 by lia. rewrite Hbc, pow2_split in Hb. change (2 ^ Z.of_nat 8) with 256 in Hb.
  change (2 ^ 8) with 256. split; [dlia|]. exists (body ++ [zb (bitbuf w)]). rewrite sbpush_data, Hd, app_assoc.
  split; [done|]. rewrite le_val_app, length_app. cbn [le_val length]. rewrite bz_zb. split.
  - rewrite <- Hv. replace (8 * Z.of_nat (length body + 1)) with (8 * Z.of_nat (length body) + 8) by lia.
    rewrite Z.pow_add_r by lia. change (2 ^ 8) with 256. rewrite (Z_div_mod_eq_full (bitbuf w) 256) at 3. lia.
  - rewrite <- Hn, Hbc. lia.
Qed.

Lemma zlib_add_writes pre its w c n :
  writes pre its w -> (bitcount w < 8)%nat -> 0 <= c < 2 ^ Z.of_nat n -> (n <= 24)%nat ->
  writes pre (its ++ [(c, n)]) (zlib_add c n w) /\ (bitcount (zlib_add c n w) < 8)%nat.
Proof.
  intros (Hok & Hb & body & Hd & Hv & Hn) H8 Hc H24. unfold zlib_add. apply flush_writes; [|done].
  assert (Hsh : u32 (Z.shiftl c (Z.of_nat (bitcount w))) = c * 2 ^ Z.of_nat (bitcount w)).
  { rewrite Z.shiftl_mul_pow2 by lia. apply Z.mod_small. split; [lia|].
    apply Z.lt_le_trans with (2 ^ Z.of_nat n * 2 ^ Z.of_nat (bitcount w)); [nia|].
    rewrite <- Z.pow_add_r by lia. apply Z.pow_le_mono_r; lia. }
  unfold writes. cbn [w_out bitbuf bitcount]. rewrite Hsh, lor_disjoint by lia. split; [done|].
  split; [rewrite pow2_split; nia|]. exists body. split; [done|]. rewrite pack_app, width_app. cbn [pack width].
  split; [|lia]. rewrite <- Hv, <- Hn. replace (Z.of_nat (8 * length body + bitcount w)) with (8 * Z.of_nat (length body) + Z.of_nat (bitcount w)) by lia.
  rewrite Z.pow_add_r by lia. lia.
Qed.

(** ** The code of a symbol *)

Definition sym_code (n : Z) : Z * nat :=
  if n <=? 143 then (zlib_bitrev (0x30 + n) 8, 8%nat) else if n <=? 255 then (zlib_bitrev (0x190 + n - 144) 9, 9%nat)
  else if n <=? 279 then (zlib_bitrev (0 + n - 256) 7, 7%nat) else (zlib_bitrev (0xc0 + n - 280) 8, 8%nat).
Definition dist_code (j : nat) : Z * nat := (zlib_bitrev (Z.of_nat j) 5, 5%nat).

Lemma zlib_huff_add n w : zlib_huff n w = zlib_add (sym_code n).1 (sym_code n).2 w.
Proof. unfold zlib_huff, sym_code. by repeat destruct (_ <=? _). Qed.

Lemma zlib_huffb_huff n : n <= 255 -> zlib_huffb n = zlib_huff n.
Proof. intros Hn. unfold zlib_huffb, zlib_huff. by rewrite (proj2 (Z.leb_le n 255)). Qed.

Lemma zlib_bitrev_loop_range n : forall code res k, 0 <= res < 2 ^ Z.of_nat k -> 0 <= zlib_bitrev_loop n code res < 2 ^ Z.of_nat (k + n).
Proof.
  induction n as [|n IH]; intros code res k Hr; cbn [zlib_bitrev_loop]; [by rewrite Nat.add_0_r|].
  replace (k + S n)%nat with (S k + n)%nat by lia. apply IH.
  assert (Hl : Z.land code 1 = code mod 2 ^ 1) by by apply (Z.land_ones code 1).
  rewrite Hl, Z.lor_comm, Z.shiftl_mul_pow2 by lia. pose proof (Z.mod_pos_bound code (2 ^ 1) ltac:(lia)).
  rewrite lor_disjoint by lia. rewrite Nat2Z.inj_succ, Z.pow_succ_r by lia. lia.
Qed.

Lemma zlib_bitrev_range c n : 0 <= zlib_bitrev c n < 2 ^ Z.of_nat n.
Proof. apply (zlib_bitrev_loop_range n c 0 0). done. Qed.

Lemma sym_code_ok n : code_ok (sym_code n) /\ (7 <= (sym_code n).2 <= 9)%nat.
Proof. unfold code_ok, sym_code. repeat destruct (_ <=? _); cbn [fst snd]; (split; [apply zlib_bitrev_range|lia]). Qed.

(** A copy: the code of its length, extra bits, the code of its distance,
    extra bits. *)
Definition extra_code (k e : Z) : codes := if e =? 0 then [] else [(k, Z.to_nat e)].
Inductive copy_codes : Z -> Z -> codes -> Prop :=
| copy_codes_intro j lc le k j' dc de k' :
    lengthc !! j = Some lc -> lengtheb !! j = Some le -> 0 <= k < 2 ^ le ->
    distc !! j' = Some dc -> disteb !! j' = Some de -> 0 <= k' < 2 ^ de ->
    copy_codes (lc + k) (dc + k') (sym_code (Z.of_nat j + 257) :: extra_code k le ++ dist_code j' :: extra_code k' de).

Lemma code_index_spec next v : forall j r,
  code_index next v j = Some r -> exists k, r = (j + k)%nat /\ (forall b, next !! k = Some b -> v < b) /\ (k < length next)%nat
    /\ forall k' b, (k' < k)%nat -> next !! k' = Some b -> b <= v.
Proof.
  induction next as [|b next IH]; intros j r; cbn [code_index]; [done|]. destruct (b - 1 <? v) eqn:E; boolify; intros H.
  - destruct (IH _ _ H) as (k & -> & Hk & Hl & Hlt). exists (S k). split; [lia|]. cbn. split; [done|]. split; [lia|].
    intros [|k'] b' Hk' Hb; [injection Hb as <-; lia|]. apply (Hlt k'); [lia|done].
  - injection H as <-. exists 0%nat. split; [lia|]. cbn. split; [intros b' [= <-]; lia|]. split; [lia|]. intros; lia.
Qed.

Lemma code_index_total next v : forall j, Exists (fun b => v < b) next -> is_Some (code_index next v j).
Proof.
  induction next as [|b next IH]; intros j H; [by apply Exists_nil in H|]. cbn. destruct (b - 1 <? v) eqn:E; boolify; [|done].
  apply IH. apply Exists_cons in H as [H|H]; [lia|done].
Qed.

(** The tables leave no gap: where the next base is, the extra bits end. *)
Definition table_ok (base extra : list Z) : Prop :=
  length base = S (length extra) /\ forall j b e b', base !! j = Some b -> extra !! j = Some e -> base !! S j = Some b' -> 0 <= e /\ b' - b <= 2 ^ e.

Lemma table_ok_check base extra :
  length base = S (length extra) ->
  Forall (fun be => 0 <= be.2 /\ be.1.2 - be.1.1 <= 2 ^ be.2) (zip (zip base (tail base)) extra) -> table_ok base extra.
Proof.
  intros Hl Hf. split; [done|]. intros j b e b' Hb He Hb'. rewrite Forall_lookup in Hf.
  apply (Hf j ((b, b'), e)). apply lookup_zip_with_Some. exists (b, b'), e. split_and!; [done| |done].
  apply lookup_zip_with_Some. exists b, b'. split_and!; [done|done|]. by destruct base.
Qed.

Lemma table_index base extra v j b0 :
  table_ok base extra -> base !! 0%nat = Some b0 -> b0 <= v -> code_index (tail base) v 0 = Some j ->
  exists b e, base !! j = Some b /\ extra !! j = Some e /\ 0 <= v - b < 2 ^ e /\ 0 <= e.
Proof.
  intros [Hl Ht] H0 Hv Hj. destruct (code_index_spec _ _ _ _ Hj) as (k & -> & Hk & Hkl & Hlt). cbn [Nat.add].
  destruct base as [|b1 base]; [done|]. cbn in H0. injection H0 as ->. cbn [tail length] in *.
  destruct (lookup_lt_is_Some_2 (b0 :: base) k) as [b Hb]; [cbn; lia|].
  destruct (lookup_lt_is_Some_2 extra k) as [e He]; [lia|]. destruct (lookup_lt_is_Some_2 base k) as [b' Hb']; [lia|].
  destruct (Ht k b e b' Hb He Hb') as [He0 Hgap]. specialize (Hk _ Hb'). exists b, e. split_and!; [done|done| |lia|done].
  destruct k as [|k]; [cbn in Hb; injection Hb as <-; lia|]. specialize (Hlt k b ltac:(lia) Hb). lia.
Qed.

Lemma lengthc_ok : table_ok lengthc lengtheb.
Proof. apply table_ok_check; [done|]. by apply (bool_decide_eq_true_1 (Forall _ _)). Qed.
Lemma distc_ok : table_ok distc disteb.
Proof. apply table_ok_check; [done|]. by apply (bool_decide_eq_true_1 (Forall _ _)). Qed.

Lemma extra_writes pre its w k e :
  writes pre its w -> (bitcount w < 8)%nat -> 0 <= k < 2 ^ e -> 0 <= e <= 24 ->
  let w' := if e =? 0 then w else zlib_add k (Z.to_nat e) w in
  writes pre (its ++ extra_code k e) w' /\ (bitcount w' < 8)%nat.
Proof.
  intros Hw H8 Hk He. unfold extra_code. destruct (e =? 0); cbv zeta; [by rewrite app_nil_r|].
  apply zlib_add_writes; [done|done|rewrite Z2Nat.id by lia; done|lia].
Qed.

Lemma extra_small : Forall (fun e => e <= 24) lengtheb /\ Forall (fun e => e <= 24) disteb.
Proof. split; by apply (bool_decide_eq_true_1 (Forall _ _)). Qed.

Lemma huff_writes pre its w n :
  writes pre its w -> (bitcount w < 8)%nat -> writes pre (its ++ [sym_code n]) (zlib_huff n w) /\ (bitcount (zlib_huff n w) < 8)%nat.
Proof.
  intros Hw H8. rewrite zlib_huff_add. destruct (sym_code_ok n) as [Hc Hn]. destruct (sym_code n) as [c m].
  apply zlib_add_writes; [done|done|done|cbn in *; lia].
Qed.

Lemma write_match_writes pre its w best d :
  writes pre its w -> (bitcount w < 8)%nat -> 3 <= best <= 258 -> 1 <= d <= 32767 ->
  exists w' cs, write_match best d w = Some w' /\ copy_codes best d cs /\ writes pre (its ++ cs) w' /\ (bitcount w' < 8)%nat.
Proof.
  intros Hw H8 Hb Hd. unfold write_match.
  destruct (code_index_total (tail lengthc) best 0) as [j Hj].
  { apply Exists_exists. exists 259. split; [|lia]. by apply list_elem_of_In; vm_compute; repeat (try (left; reflexivity); right). }
  destruct (table_index _ _ best j 3 lengthc_ok eq_refl ltac:(lia) Hj) as (lc & le & Hlc & Hle & Hk & He).
  destruct (code_index_total (tail distc) d 0) as [j' Hj'].
  { apply Exists_exists. exists 32768. split; [|lia]. by apply list_elem_of_In; vm_compute; repeat (try (left; reflexivity); right). }
  destruct (table_index _ _ d j' 1 distc_ok eq_refl ltac:(lia) Hj') as (dc & de & Hdc & Hde & Hk' & He').
  rewrite Hj. cbn [mbind option_bind]. rewrite Hlc, Hle. cbn [mbind option_bind]. rewrite Hj'. cbn [mbind option_bind].
  rewrite Hdc, Hde. cbn [mbind option_bind]. destruct extra_small as [Hs Hs'].
  rewrite Forall_lookup in Hs, Hs'. specialize (Hs _ _ Hle). specialize (Hs' _ _ Hde).
  destruct (huff_writes pre its w (Z.of_nat j + 257) Hw H8) as [H1 N1].
  destruct (extra_writes pre _ _ (best - lc) le H1 N1 Hk ltac:(lia)) as [H2 N2]. cbv zeta in H2, N2.
  destruct (zlib_add_writes pre _ _ (zlib_bitrev (Z.of_nat j') 5) 5 H2 N2 (zlib_bitrev_range _ _) ltac:(lia)) as [H3 N3].
  destruct (extra_writes pre _ _ (d - dc) de H3 N3 Hk' ltac:(lia)) as [H4 N4]. cbv zeta in H4, N4.
  eexists _, (sym_code (Z.of_nat j + 257) :: extra_code (best - lc) le ++ dist_code j' :: extra_code (d - dc) de).
  split; [done|]. split; [|split; [|exact N4]].
  - rewrite <- (Zplus_minus lc best) at 1. rewrite <- (Zplus_minus dc d) at 1. by econstructor.
  - rewrite <- !app_assoc in H4. exact H4.
Qed.

(** ** The codes written for the data *)

(** From position [i] to position [j]: bytes, and copies of what was before. *)
Inductive emits (data : bytes) : nat -> codes -> nat -> Prop :=
| emits_nil i : emits data i [] i
| emits_literal i b cs j : data !! i = Some b -> emits data (i + 1) cs j -> emits data i (sym_code (bz b) :: cs) j
| emits_copy i len d cs cs' j :
    (1 <= d <= i)%nat -> (3 <= len)%nat -> (i + len <= length data)%nat ->
    (forall k, (k < len)%nat -> data !! (i - d + k)%nat = data !! (i + k)%nat) ->
    copy_codes (Z.of_nat len) (Z.of_nat d) cs -> emits data (i + len) cs' j -> emits data i (cs ++ cs') j.

Lemma emits_app data i cs j cs' k : emits data i cs j -> emits data j cs' k -> emits data i (cs ++ cs') k.
Proof.
  induction 1 as [|i b cs j Hb _ IH|i len d cs0 cs j H1 H2 H3 H4 H5 _ IH]; intros H; [done|..].
  - cbn. apply emits_literal; auto.
  - rewrite <- app_assoc. eapply emits_copy; eauto.
Qed.

Lemma countm_loop_spec n : forall a b, (n <= length a)%nat -> (n <= length b)%nat ->
  exists d, countm_loop n a b = Some d /\ (d <= n)%nat /\ forall k, (k < d)%nat -> a !! k = b !! k.
Proof.
  induction n as [|n IH]; intros a b Ha Hb; cbn; [exists 0%nat; split_and!; [done|lia|lia]|].
  destruct a as [|x a], b as [|y b]; cbn in Ha, Hb; [lia..|]. destruct (beq x y) eqn:E; boolify.
  - subst y. destruct (IH a b) as (d & -> & Hd & Hk); [lia|lia|]. exists (S d). split_and!; [done|lia|].
    intros [|k] Hlt; [done|]. apply (Hk k). lia.
  - exists 0%nat. split_and!; [done|lia|lia].
Qed.

Lemma zlib_countm_spec data p i limit :
  (p <= i)%nat -> (limit <= length data - i)%nat ->
  exists d, zlib_countm data p i limit = Some d /\ (d <= limit)%nat /\ (d <= 258)%nat
    /\ forall k, (k < d)%nat -> data !! (p + k)%nat = data !! (i + k)%nat.
Proof.
  intros Hp Hl. unfold zlib_countm.
  destruct (countm_loop_spec (Nat.min limit 258) (drop p data) (drop i data)) as (d & -> & Hd & Hk); [rewrite length_drop; lia..|].
  exists d. split_and!; [done|lia|lia|]. intros k Hlt. rewrite <- !lookup_drop. by apply Hk.
Qed.

(** A match of [best] bytes at [p], for position [i]. *)
Definition match_at (data : bytes) (i best p : nat) : Prop :=
  (p < i)%nat /\ Z.of_nat i - Z.of_nat p <= 32767 /\ (best <= length data - i)%nat /\ (best <= 258)%nat
  /\ forall k, (k < best)%nat -> data !! (p + k)%nat = data !! (i + k)%nat.

Lemma find_best_spec data i l : forall best bl,
  Forall (fun p => (p < i)%nat) l -> (3 <= best)%nat -> (forall p, bl = Some p -> match_at data i best p) ->
  exists best' bl', find_best data i l best bl = Some (best', bl') /\ (3 <= best')%nat /\ forall p, bl' = Some p -> match_at data i best' p.
Proof.
  induction l as [|p l IH]; intros best bl Hl Hb Hm; cbn [find_best]; [by exists best, bl|].
  apply Forall_cons in Hl as [Hp Hl]. destruct (_ <? _) eqn:E; boolify; [|by apply IH].
  destruct (zlib_countm_spec data p i (length data - i)) as (d & -> & H1 & H2 & H3); [lia|lia|]. cbn [mbind option_bind].
  destruct (best <=? d)%nat eqn:Ed; boolify; [|by apply IH]. apply IH; [done|lia|].
  intros q [= <-]. unfold match_at. split_and!; [done|lia|lia|lia|done].
Qed.

Lemma next_better_total data i l best :
  Forall (fun p => (p <= i)%nat) l -> is_Some (next_better data i l best).
Proof.
  induction l as [|p l IH]; intros Hl; cbn [next_better]; [by eexists|]. apply Forall_cons in Hl as [Hp Hl].
  destruct (_ <? _); [|by apply IH].
  destruct (zlib_countm_spec data p (i + 1) (length data - i - 1)) as (d & -> & _); [lia|lia|]. cbn [mbind option_bind]. destruct (best <? d)%nat; [by eexists|by apply IH].
Qed.

Lemma zhash_total data i : (i + 3 <= length data)%nat -> is_Some (zhash data i).
Proof.
  intros Hi. unfold zhash. assert (Hl : (3 <= length (drop i data))%nat) by (rewrite length_drop; lia).
  destruct (drop i data) as [|a [|b [|c r]]]; cbn in Hl; [lia..|]. by eexists.
Qed.

(** All positions in the table are behind. *)
Definition table_below (t : hash_table) (i : nat) : Prop := forall h, Forall (fun p => (p < i)%nat) (hlist t h).

Lemma hash_insert_below quality h i t j :
  table_below t i -> (i < j)%nat -> table_below (hash_insert quality h i t) j.
Proof.
  intros Ht Hij h'. unfold hash_insert. set (l := if (_ : bool) then _ else _).
  assert (Hl : Forall (fun p => (p < j)%nat) (l ++ [i])).
  { apply Forall_app. split; [|by apply Forall_singleton].
    apply (Forall_impl (fun p => (p < i)%nat)); [|intros; lia]. unfold l. destruct (_ =? _)%nat; [apply Forall_drop|]; apply Ht. }
  unfold hlist. destruct (decide (h = h')) as [->|Hn].
  - by rewrite lookup_insert_eq.
  - rewrite lookup_insert_ne by done. apply (Forall_impl (fun p => (p < i)%nat)); [apply Ht|intros; lia].
Qed.

Lemma literal_writes pre its w b :
  writes pre its w -> (bitcount w < 8)%nat -> writes pre (its ++ [sym_code (bz b)]) (zlib_huffb (bz b) w) /\ (bitcount (zlib_huffb (bz b) w) < 8)%nat.
Proof. intros Hw H8. rewrite zlib_huffb_huff by (pose proof (bz_range b); lia). by apply huff_writes. Qed.

Lemma compress_loop_emits pre quality data fuel : forall i t w its,
  (length data - i <= fuel)%nat -> (i <= length data)%nat -> table_below t i -> writes pre its w -> (bitcount w < 8)%nat ->
  exists j w' cs, compress_loop fuel quality data i t w = Some (j, w') /\ emits data i cs j /\ (j <= length data)%nat
    /\ writes pre (its ++ cs) w' /\ (bitcount w' < 8)%nat.
Proof.
  induction fuel as [|fuel IH]; intros i t w its Hf Hi Ht Hw H8; cbn [compress_loop].
  { destruct (_ <? _)%nat eqn:E; boolify; [lia|]. exists i, w, []. rewrite app_nil_r. split_and!; [done|constructor|done..]. }
  destruct (i + 3 <? length data)%nat eqn:E; boolify.
  2: { exists i, w, []. rewrite app_nil_r. split_and!; [done|constructor|done..]. }
  destruct (zhash_total data i) as [h ->]; [lia|]. cbn [mbind option_bind].
  destruct (find_best_spec data i (hlist t h) 3 None) as (best & bl & -> & Hbest & Hm); [apply Ht|lia|done|]. cbn [mbind option_bind].
  set (t' := hash_insert quality h i t). assert (Ht' : forall j, (i < j)%nat -> table_below t' j) by (intros; by apply hash_insert_below).
  assert (Hlazy : exists bl', (match bl with
       | None => Some None
       | Some p => h ← zhash data (i + 1); better ← next_better data i (hlist t' h) best; Some (if better : bool then None else Some p)
       end) = Some bl' /\ (bl' = None \/ bl' = bl)).
  { destruct bl as [p|]; [|by eexists; split; [|left]]. destruct (zhash_total data (i + 1)) as [h' ->]; [lia|]. cbn [mbind option_bind].
    destruct (next_better_total data i (hlist t' h') best) as [better ->].
    { apply (Forall_impl (fun p => (p < i + 1)%nat)); [apply Ht'; lia|intros; lia]. }
    cbn. destruct better; eexists; (split; [done|]); auto. }
  destruct Hlazy as (bl' & -> & Hbl'). cbn [mbind option_bind]. destruct bl' as [p|].
  - destruct Hbl' as [|<-]; [done|]. destruct (Hm p eq_refl) as (Hp & Hd & Hlen & H258 & Heq).
    assert (Htest : (Z.of_nat i - Z.of_nat p <=? 32767) && (best <=? 258)%nat = true) by (apply andb_true_iff; split; [lia|apply Nat.leb_le; lia]).
    rewrite Htest. destruct (write_match_writes pre its w (Z.of_nat best) (Z.of_nat i - Z.of_nat p) Hw H8) as (w' & cs & -> & Hc & Hw' & H8'); [lia|lia|].
    cbn [mbind option_bind].
    destruct (IH (i + best)%nat t' w' (its ++ cs)) as (j & w2 & cs2 & Hr & He & Hj & Hw2 & H82); [lia|lia|apply Ht'; lia|done|done|].
    exists j, w2, (cs ++ cs2). rewrite app_assoc. split_and!; [done| |done..].
    apply (emits_copy _ _ best (i - p)); [lia|lia|lia| | |done].
    + intros k Hk. replace (i - (i - p) + k)%nat with (p + k)%nat by lia. by apply Heq.
    + by replace (Z.of_nat (i - p)) with (Z.of_nat i - Z.of_nat p) by lia.
  - destruct (lookup_lt_is_Some_2 data i) as [b Hb]; [lia|]. rewrite Hb. cbn [mbind option_bind].
    destruct (literal_writes pre its w b Hw H8) as [Hw' H8'].
    destruct (IH (i + 1)%nat t' (zlib_huffb (bz b) w) (its ++ [sym_code (bz b)])) as (j & w2 & cs2 & Hr & He & Hj & Hw2 & H82);
      [lia|lia|apply Ht'; lia|done|done|].
    exists j, w2, (sym_code (bz b) :: cs2). rewrite <- app_assoc in Hw2. split_and!; [done|by apply emits_literal|done..].
Qed.

Lemma literals_emit pre data : forall rest its w i,
  rest = drop i data -> (i <= length data)%nat -> writes pre its w -> (bitcount w < 8)%nat ->
  let w' := fold_left (fun w b => zlib_huffb (bz b) w) rest w in
  exists cs, emits data i cs (length data) /\ writes pre (its ++ cs) w' /\ (bitcount w' < 8)%nat.
Proof.
  induction rest as [|b rest IH]; intros its w i Hr Hi Hw H8; cbn [fold_left]; cbv zeta.
  - exists []. rewrite app_nil_r. split_and!; [|done..].
    assert (i = length data) as -> by (apply (f_equal length) in Hr; rewrite length_drop in Hr; cbn in Hr; lia). constructor.
  - assert (Hb : data !! i = Some b) by (rewrite <- (Nat.add_0_r i), <- lookup_drop; by rewrite <- Hr).
    assert (Hlt : (i < length data)%nat) by by eapply lookup_lt_Some.
    destruct (literal_writes pre its w b Hw H8) as [Hw' H8'].
    destruct (IH (its ++ [sym_code (bz b)]) (zlib_huffb (bz b) w) (i + 1)%nat) as (cs & He & Hw2 & H82); [|lia|done|done|].
    { rewrite (drop_S _ _ _ Hb) in Hr. rewrite Nat.add_1_r. by injection Hr. }
    exists (sym_code (bz b) :: cs). rewrite <- app_assoc in Hw2. split_and!; [by apply emits_literal|done..].
Qed.

(** ** The end of the block *)

Lemma pad_writes pre fuel : forall its w,
  writes pre its w -> (bitcount w < 8)%nat -> (bitcount w = 0 \/ 8 - bitcount w <= fuel)%nat ->
  exists n, writes pre (its ++ replicate n (0, 1%nat)) (pad fuel w) /\ bitcount (pad fuel w) = 0%nat.
Proof.
  induction fuel as [|fuel IH]; intros its w Hw H8 Hf; cbn [pad]; [exists 0%nat; rewrite app_nil_r; split; [done|lia]|].
  destruct (bitcount w =? 0)%nat eqn:E; boolify; [exists 0%nat; by rewrite app_nil_r|].
  destruct (zlib_add_writes pre its w 0 1 Hw H8) as [Hw' H8']; [done|lia|].
  assert (Hbc : bitcount (zlib_add 0 1 w) = ((bitcount w + 1) mod 8)%nat).
  { destruct Hw as (_ & _ & body & _ & _ & Hn). destruct Hw' as (_ & _ & body' & _ & _ & Hn'). rewrite width_app in Hn'. cbn [width] in Hn'.
    apply (Nat.mod_unique _ _ (length body' - length body)); lia. }
  assert (Hcase : bitcount (zlib_add 0 1 w) = 0%nat \/ bitcount (zlib_add 0 1 w) = (bitcount w + 1)%nat).
  { rewrite Hbc. destruct (decide (bitcount w = 7)%nat) as [->|]; [by left|right; apply Nat.mod_small; lia]. }
  destruct (IH (its ++ [(0, 1%nat)]) (zlib_add 0 1 w) Hw' H8') as (n & Hn & Hz); [lia|].
  exists (S n). by rewrite <- app_assoc in Hn.
Qed.

Lemma pack_zeros n : pack (replicate n (0, 1%nat)) = 0.
Proof. induction n as [|n IH]; [done|]. cbn [replicate pack]. rewrite IH. lia. Qed.
Lemma width_zeros n : width (replicate n (0, 1%nat)) = n.
Proof. induction n as [|n IH]; [done|]. cbn [replicate width]. by rewrite IH. Qed.

(** BFINAL, BTYPE, the codes of the data, the end of the block. *)
Definition block_codes (cs : codes) : codes := (1, 1%nat) :: (1, 2%nat) :: cs ++ [sym_code 256].

(** The whole block: bits of the codes, rounded up to bytes. *)
Definition fixed_block (data body : bytes) : Prop :=
  exists cs, emits data 0 cs (length data) /\ le_val body = pack (block_codes cs)
    /\ (width (block_codes cs) <= 8 * length body)%nat.

Lemma write_block_spec pre quality data out :
  sb_ok out -> sb_data out = pre ->
  exists w body, write_block quality data out = Some w /\ sb_ok (w_out w) /\ sb_data (w_out w) = pre ++ body /\ fixed_block data body.
Proof.
  intros Hok Hpre. unfold write_block.
  assert (H0 : writes pre [] (Writer out 0 0)) by (split; [done|split; [done|]]; exists []; rewrite app_nil_r; done).
  destruct (zlib_add_writes pre [] _ 1 1 H0) as [H1 N1]; [cbn; lia|done|lia|].
  destruct (zlib_add_writes pre _ _ 1 2 H1 N1) as [H2 N2]; [done|lia|]. cbn [app] in H2.
  assert (Ht : table_below ∅ 0) by (intros h; unfold hlist; rewrite lookup_empty; constructor).
  destruct (compress_loop_emits pre quality data (length data) 0 ∅ _ _ ltac:(lia) ltac:(lia) Ht H2 N2)
    as (i & w & cs & Hr & He & Hi & Hw & Hw8). rewrite Hr. cbn [mbind option_bind].
  destruct (literals_emit pre data (drop i data) _ w i eq_refl Hi Hw Hw8) as (cs' & He' & Hw' & Hw8').
  destruct (huff_writes pre _ _ 256 Hw' Hw8') as [Hw2 Hw28].
  destruct (pad_writes pre 8 _ _ Hw2 Hw28) as (n & (Hok' & Hb & body & Hd & Hv & Hn) & Hz); [lia|].
  eexists _, body. split; [done|]. split; [done|]. split; [done|].
  exists (cs ++ cs'). split; [by eapply emits_app|]. clear Hd Hok'. set (w2 := pad 8 _) in *. clearbody w2.
  assert (H00 : bitbuf w2 = 0) by (rewrite Hz in Hb; cbn in Hb; lia). rewrite H00 in Hv. rewrite Hz in Hn.
  rewrite pack_app, pack_zeros in Hv. rewrite width_app, width_zeros in Hn.
  assert (Hc : ((([(1, 1%nat); (1, 2%nat)] ++ cs) ++ cs') ++ [sym_code 256]) = block_codes (cs ++ cs')) by (unfold block_codes; by rewrite <- !app_assoc).
  rewrite Hc in *. split; lia.
Qed.

(** ** Stored blocks *)

Definition stored_header (rest : bytes) : bytes :=
  let blocklen := Z.min (Z.of_nat (length rest)) 32767 in
  [zb (if Z.of_nat (length rest) =? blocklen then 1 else 0); zb blocklen; zb (Z.shiftr blocklen 8);
   zb (Z.lnot blocklen); zb (Z.shiftr (Z.lnot blocklen) 8)].
Definition stored_len (rest : bytes) : nat := Z.to_nat (Z.min (Z.of_nat (length rest)) 32767).

(** The bytes of a stream of stored blocks. *)
Inductive stored_stream : bytes -> bytes -> Prop :=
| stored_nil : stored_stream [] []
| stored_cons rest s : rest <> [] -> stored_stream (drop (stored_len rest) rest) s ->
    stored_stream rest (stored_header rest ++ take (stored_len rest) rest ++ s).

Definition stored_need (n : Z) : Z := n + (n + 32766) / 32767 * 5.

Lemma stored_need_step n : 1 <= n -> stored_need (n - Z.min n 32767) + Z.min n 32767 + 5 <= stored_need n.
Proof.
  intros Hn. unfold stored_need. destruct (Z_le_dec n 32767).
  - rewrite Z.min_l by lia. rewrite Z.sub_diag. change ((0 + 32766) / 32767) with 0. dlia.
  - rewrite Z.min_r by lia. dlia.
Qed.

Lemma sbpush_m a v : sb_ok a -> sb_m a <= sb_m (sbpush a v).
Proof. unfold sb_ok, sbpush, sbcount. intros. destruct (_ || _); cbn; [|lia]. destruct (sb_m a =? 0) eqn:E; boolify; lia. Qed.

Lemma stored_block_spec rest out :
  rest <> [] -> sb_ok out -> sbcount out + stored_need (Z.of_nat (length rest)) <= sb_m out ->
  exists out', stored_block rest out = Some (out', drop (stored_len rest) rest) /\ sb_ok out'
    /\ sb_data out' = sb_data out ++ stored_header rest ++ take (stored_len rest) rest
    /\ sbcount out' + stored_need (Z.of_nat (length (drop (stored_len rest) rest))) <= sb_m out'.
Proof.
  intros Hne Hok Hneed. unfold stored_block. set (blocklen := Z.min (Z.of_nat (length rest)) 32767).
  set (o1 := sbpush out _). set (o2 := sbpush o1 _). set (o3 := sbpush o2 _). set (o4 := sbpush o3 _). set (o5 := sbpush o4 _).
  assert (Hok1 : sb_ok o1) by by apply sbpush_ok. assert (Hok2 : sb_ok o2) by by apply sbpush_ok.
  assert (Hok3 : sb_ok o3) by by apply sbpush_ok. assert (Hok4 : sb_ok o4) by by apply sbpush_ok.
  assert (Hok5 : sb_ok o5) by by apply sbpush_ok.
  assert (Hm : sb_m out <= sb_m o5).
  { eapply Z.le_trans; [by apply (sbpush_m out)|]. eapply Z.le_trans; [by apply (sbpush_m o1)|].
    eapply Z.le_trans; [by apply (sbpush_m o2)|]. eapply Z.le_trans; [by apply (sbpush_m o3)|]. by apply (sbpush_m o4). }
  assert (Hd : sb_data o5 = sb_data out ++ stored_header rest) by (unfold o5, o4, o3, o2, o1; by rewrite !sbpush_data, <- !app_assoc).
  assert (Hc : sbcount o5 = sbcount out + 5) by (unfold sbcount; rewrite Hd, length_app; cbn; lia).
  assert (Hr : 1 <= Z.of_nat (length rest)) by (destruct rest; [done|cbn; lia]).
  assert (Hlen : Z.of_nat (length (drop (stored_len rest) rest)) = Z.of_nat (length rest) - blocklen) by (rewrite length_drop; unfold stored_len, blocklen; lia).
  pose proof (stored_need_step _ Hr) as Hgap. fold blocklen in Hgap.
  assert (Hpos : forall n, 0 <= n -> n <= stored_need n) by (intros; unfold stored_need; dlia).
  specialize (Hpos (Z.of_nat (length rest) - blocklen) ltac:(unfold blocklen; lia)).
  destruct (_ <=? _) eqn:E; boolify; [|lia]. eexists. split; [done|]. unfold sb_ok, sbcount in *. cbn [sb_data sb_m].
  rewrite !length_app, Hd, app_assoc in *. rewrite Hlen.
  assert (Ht : Z.of_nat (length (take (Z.to_nat blocklen) rest)) = blocklen) by (rewrite length_take; unfold blocklen; lia).
  rewrite length_app in *. split_and!; [lia|done|lia].
Qed.

Lemma stored_blocks_spec fuel : forall rest out,
  (length rest <= fuel)%nat -> sb_ok out -> sbcount out + stored_need (Z.of_nat (length rest)) <= sb_m out ->
  exists out' s, stored_blocks fuel rest out = Some out' /\ sb_data out' = sb_data out ++ s /\ stored_stream rest s.
Proof.
  induction fuel as [|fuel IH]; intros rest out Hf Hok Hneed.
  - destruct rest; [|cbn in Hf; lia]. exists out, []. rewrite app_nil_r. by split_and!; [..|constructor].
  - destruct rest as [|b rest]; [exists out, []; rewrite app_nil_r; by split_and!; [..|constructor]|]. cbn [stored_blocks].
    destruct (stored_block_spec (b :: rest) out) as (o1 & -> & Hok1 & Hd1 & Hn1); [done..|]. cbn [mbind option_bind].
    destruct (IH (drop (stored_len (b :: rest)) (b :: rest)) o1) as (o2 & s & Hr & Hd2 & Hs); [|done|done|].
    { rewrite length_drop. unfold stored_len. cbn [length] in *. lia. }
    exists o2, (stored_header (b :: rest) ++ take (stored_len (b :: rest)) (b :: rest) ++ s). split_and!; [done| |by constructor].
    rewrite Hd2, Hd1. by rewrite <- !app_assoc.
Qed.

Lemma stored_stream_length data s : stored_stream data s -> Z.of_nat (length s) <= stored_need (Z.of_nat (length data)).
Proof.
  induction 1 as [|rest s Hne Hs IH]; [done|]. rewrite !length_app, length_take. rewrite length_drop in IH.
  assert (Hr : 1 <= Z.of_nat (length rest)) by (destruct rest; [done|cbn; lia]). pose proof (stored_need_step _ Hr) as Hstep.
  unfold stored_len in *. replace (Z.of_nat (length rest - _)) with (Z.of_nat (length rest) - Z.min (Z.of_nat (length rest)) 32767) in IH by lia.
  cbn [stored_header length]. lia.
Qed.

(** ** Adler-32 *)

(** As RFC 1950 defines it: reduced at every byte. *)
Definition adler32_byte (s : Z * Z) (b : byte) : Z * Z := let s1 := (s.1 + bz b) mod 65521 in (s1, (s.2 + s1) mod 65521).
Definition adler32 (data : bytes) : Z * Z := fold_left adler32_byte data (1, 0).

(** The sums after [k] bytes of a block, not reduced since its start. *)
Definition adler_near (k : nat) (s r : Z * Z) : Prop :=
  let k := Z.of_nat k in
  0 <= s.1 <= 65520 + 255 * k /\ 0 <= s.2 /\ 2 * s.2 <= 2 * (65520 + 65520 * k) + 255 * k * (k + 1)
  /\ s.1 mod 65521 = r.1 /\ s.2 mod 65521 = r.2.

Lemma adler_step k s r b :
  (k < NMAX)%nat -> adler_near k s r ->
  adler_near (S k) (adler_byte s b) (adler32_byte r b).
Proof.
  intros Hk (H1 & H2 & H3 & H4 & H5). change NMAX with (Z.to_nat 5552) in Hk. pose proof (bz_range b) as Hb. unfold adler_byte, adler32_byte.
  destruct s as [s1 s2], r as [r1 r2]. cbn [fst snd] in *. unfold u32.
  assert (Hu1 : (s1 + bz b) mod 2 ^ 32 = s1 + bz b) by (apply Z.mod_small; lia). rewrite Hu1.
  assert (Hu2 : (s2 + (s1 + bz b)) mod 2 ^ 32 = s2 + (s1 + bz b)) by (apply Z.mod_small; nia). rewrite Hu2.
  subst r1 r2. unfold adler_near. cbn [fst snd]. rewrite Nat2Z.inj_succ. split_and!; [lia|lia|lia|nia| |].
  - by rewrite Z.add_mod_idemp_l by lia.
  - rewrite (Z.add_mod_idemp_l s1) by lia. by rewrite <- Z.add_mod by lia.
Qed.

Lemma adler_fold l : forall k s r,
  (k + length l <= NMAX)%nat -> adler_near k s r ->
  adler_near (k + length l) (fold_left adler_byte l s)
    (fold_left adler32_byte l r).
Proof.
  induction l as [|b l IH]; intros k s r Hk Hn; cbn [fold_left length] in *; [by rewrite Nat.add_0_r|].
  replace (k + S (length l))%nat with (S k + length l)%nat by lia. apply IH; [lia|]. apply adler_step; [lia|done].
Qed.

Lemma adler_reduce k s r : adler_near k s r -> adler_near 0 (s.1 mod 65521, s.2 mod 65521) r.
Proof.
  intros (_ & _ & _ & H1 & H2). unfold adler_near. cbn [fst snd]. pose proof (Z.mod_pos_bound s.1 65521 ltac:(lia)).
  pose proof (Z.mod_pos_bound s.2 65521 ltac:(lia)). rewrite !Z.mod_mod by lia. split_and!; lia || done.
Qed.

Lemma adler_near_0 s r : adler_near 0 s r -> 0 <= s.1 < 65521 -> 0 <= s.2 < 65521 -> s = r.
Proof. intros (_ & _ & _ & H1 & H2) B1 B2. rewrite Z.mod_small in H1, H2 by done. destruct s, r. cbn in *. by subst. Qed.

Lemma adler_blocks_spec fuel : forall data blocklen s r,
  (blocklen <= NMAX)%nat -> (length data <= blocklen + NMAX * (fuel - 1))%nat -> (data <> [] -> 0 < fuel)%nat ->
  adler_near 0 s r -> 0 <= s.1 < 65521 -> 0 <= s.2 < 65521 ->
  adler_blocks fuel data blocklen s = fold_left adler32_byte data r.
Proof.
  induction fuel as [|fuel IH]; intros data blocklen s r Hb Hl Hf Hn B1 B2; (destruct data as [|b data]; [by apply adler_near_0|]).
  - specialize (Hf ltac:(done)). lia.
  - cbn [adler_blocks]. set (d := b :: data) in *.
    pose proof (adler_fold (take blocklen d) 0 s r ltac:(rewrite length_take; lia) Hn) as Hn1. apply adler_reduce in Hn1.
    destruct (fold_left adler_byte (take blocklen d) s) as [s1 s2]. cbn [fst snd] in Hn1.
    rewrite (IH (drop blocklen d) NMAX (s1 mod 65521, s2 mod 65521) _ ltac:(lia)) with (3 := Hn1); cbn [fst snd].
    + by rewrite <- fold_left_app, take_drop.
    + rewrite length_drop. destruct fuel; cbn [Nat.sub] in *; [lia|]. rewrite Nat.sub_0_r in *. lia.
    + intros Hd. destruct fuel; [|lia]. exfalso. apply Hd. apply drop_ge. cbn [Nat.sub] in Hl. lia.
    + apply Z.mod_pos_bound. lia.
    + apply Z.mod_pos_bound. lia.
Qed.

(** The deferred reduction never overflows 32 bits. *)
Lemma adler_spec data : adler data = adler32 data.
Proof.
  assert (H0 : (0 < NMAX)%nat) by (unfold NMAX; lia).
  assert (Hm : (length data mod NMAX < NMAX)%nat) by (apply Nat.mod_upper_bound; lia).
  apply adler_blocks_spec; cbn [fst snd]; [lia| |lia|unfold adler_near; cbn [fst snd]; split_and!; lia || done|lia|lia].
  pose proof (Nat.div_mod_eq (length data) NMAX). replace (length data / NMAX + 2 - 1)%nat with (length data / NMAX + 1)%nat by lia. lia.
Qed.

Definition adler_be (data : bytes) : bytes :=
  let '(s1, s2) := adler32 data in [zb (Z.shiftr s2 8); zb s2; zb (Z.shiftr s1 8); zb s1].

(** What [stbi_zlib_compress] returns. *)
Lemma stbi_zlib_compress_spec malloc_ok data quality :
  data <> [] -> malloc_ok (ZHASH * 8) = true -> Z.of_nat (length data) <= 2 ^ 30 ->
  exists body, stbi_zlib_compress malloc_ok data quality = Some (Some ([x78; x5e] ++ body ++ adler_be data))
    /\ (fixed_block data body \/ stored_stream data body) /\ Z.of_nat (length body) <= stored_need (Z.of_nat (length data)).
Proof.
  intros Hne Hm Hmax. unfold stbi_zlib_compress. rewrite Hm. cbn [negb]. change (2 ^ 30) with 1073741824 in Hmax.
  set (out := sbpush (sbpush (Sbuf [] 0) 0x78) 0x5e).
  destruct (write_block_spec [x78; x5e] (Nat.max quality 5) data out) as (w & body & -> & Hok & Hd & Hb); [done|done|]. cbn [mbind option_bind].
  unfold adler_be. rewrite adler_spec. destruct (adler32 data) as [s1 s2].
  rewrite (proj2 (Z.ltb_ge INT_MAX _)) by (unfold INT_MAX; lia). unfold stored_limit.
  rewrite (proj2 (Z.ltb_ge INT_MAX _)) by (unfold INT_MAX; dlia). cbn [orb].
  destruct (_ <? sbcount (w_out w)) eqn:E; boolify.
  - destruct (stored_blocks_spec (length data) data (Sbuf (take 2 (sb_data (w_out w))) (sb_m (w_out w)))) as (out' & s & -> & Hd' & Hs); [done| | |].
    + unfold sb_ok, sbcount in *. cbn [sb_data sb_m]. rewrite length_take. lia.
    + unfold sb_ok, sbcount, stored_need in *. cbn [sb_data sb_m]. rewrite length_take. rewrite Hd in *. cbn [app length] in *. lia.
    + cbn [mbind option_bind]. rewrite !sbpush_data, Hd', Hd. cbn [sb_data].
      exists s. rewrite <- !app_assoc. cbn [app take]. rewrite firstn_O. split; [done|]. split; [by right|by apply stored_stream_length].
  - cbn [mbind option_bind]. rewrite !sbpush_data. unfold sbcount in E. rewrite Hd in *. exists body. rewrite <- !app_assoc.
    split; [done|]. split; [by left|]. rewrite length_app in E. unfold stored_need. cbn [length] in E. lia.
Qed.

Lemma length_adler_be data : length (adler_be data) = 4%nat.
Proof. unfold adler_be. by destruct (adler32 data). Qed.
