(* ===== verification/Inflate.v ===== *)
(** * stb_image.h: the zlib decoder behind the PNG reader

    The state is that of [stbi__zbuf]; the pointers are what is left to read
    and what was written. Every access to an array is checked: [ZOob] is an
    access outside or a read of memory never written. *)

From stdpp Require Import gmap.
From S2P Require Import Prelude.
Local Open Scope Z_scope.

(** [ZFail]: [stbi__err], the caller frees everything; [ZFuel]: out of fuel. *)
Inductive zres (A : Type) := ZOk (a : A) | ZFail | ZOob | ZFuel.
Arguments ZOk {A} a.
Arguments ZFail {A}.
Arguments ZOob {A}.
Arguments ZFuel {A}.

#[global] Instance zres_ret : MRet zres := fun A a => ZOk a.
#[global] Instance zres_bind : MBind zres := fun A B f m =>
  match m with ZOk a => f a | ZFail => ZFail | ZOob => ZOob | ZFuel => ZFuel end.

(** ** Arrays *)

(** A partial array of [n] elements: what was never written has no value. *)
Definition arr_set (n : Z) (i v : Z) (a : gmap Z Z) : zres (gmap Z Z) :=
  if (0 <=? i) && (i <? n) then ZOk (<[i := v]> a) else ZOob.
Definition arr_get (a : gmap Z Z) (i : Z) : zres Z := match a !! i with Some v => ZOk v | None => ZOob end.

(** Of a constant table. *)
Definition tbl_get (t : list Z) (i : Z) : zres Z :=
  if i <? 0 then ZOob else match t !! Z.to_nat i with Some v => ZOk v | None => ZOob end.

(** ** Huffman tables *)

Definition ZFAST_BITS : Z := 9.
Definition ZFAST_MASK : Z := 511.
Definition ZNSYMS : Z := 288.

(** [fast] is cleared when it is built: what is not in it is 0. *)
Record zhuffman := Zhuffman {
  fast : gmap Z Z; firstcode : gmap Z Z; maxcode : gmap Z Z; firstsymbol : gmap Z Z;
  zsize : gmap Z Z; value : gmap Z Z }.
Definition zhuffman_uninit : zhuffman := Zhuffman ∅ ∅ ∅ ∅ ∅ ∅.

Definition bitreverse16 (n : Z) : Z :=
  let n := Z.lor (Z.shiftr (Z.land n 0xAAAA) 1) (Z.shiftl (Z.land n 0x5555) 1) in
  let n := Z.lor (Z.shiftr (Z.land n 0xCCCC) 2) (Z.shiftl (Z.land n 0x3333) 2) in
  let n := Z.lor (Z.shiftr (Z.land n 0xF0F0) 4) (Z.shiftl (Z.land n 0x0F0F) 4) in
  Z.lor (Z.shiftr (Z.land n 0xFF00) 8) (Z.shiftl (Z.land n 0x00FF) 8).
Definition bit_reverse (v bits : Z) : Z := Z.shiftr (bitreverse16 v) (16 - bits).

(** [++sizes[sizelist[i]]] *)
Fixpoint count_sizes (sizelist : list Z) (sizes : gmap Z Z) : zres (gmap Z Z) :=
  match sizelist with
  | [] => ZOk sizes
  | s :: sizelist => sizes ← arr_set 17 s (default 0 (sizes !! s) + 1) sizes; count_sizes sizelist sizes
  end.

(** The loop over the code lengths: [next_code] and the first three arrays. *)
Fixpoint assign_codes (ls : list Z) (sizes : gmap Z Z) (code k : Z) (next_code : gmap Z Z) (z : zhuffman) : zres (gmap Z Z * zhuffman) :=
  match ls with
  | [] => ZOk (next_code, z)
  | i :: ls =>
      let n := default 0 (sizes !! i) in
      next_code ← arr_set 16 i code next_code;
      fc ← arr_set 16 i (code mod 2 ^ 16) (firstcode z);
      fs ← arr_set 16 i (k mod 2 ^ 16) (firstsymbol z);
      let code := code + n in
      if negb (n =? 0) && (Z.shiftl 1 i <=? code - 1) then ZFail
      else
        mc ← arr_set 17 i (Z.shiftl code (16 - i)) (maxcode z);
        assign_codes ls sizes (Z.shiftl code 1) (k + n) next_code (Zhuffman (fast z) fc mc fs (zsize z) (value z))
  end.

(** [while (j < (1 << 9)) { fast[j] = fastv; j += (1 << s); }]; the fuel is the
    number of entries. *)
Fixpoint fill_fast (fuel : nat) (j step fastv : Z) (f : gmap Z Z) : zres (gmap Z Z) :=
  if 512 <=? j then ZOk f
  else match fuel with
       | O => ZFuel
       | S fuel => f ← arr_set 512 j fastv f; fill_fast fuel (j + step) step fastv f
       end.

(** The loop over the symbols, from symbol [i]. *)
Fixpoint place_symbols (sizelist : list Z) (i : Z) (next_code : gmap Z Z) (z : zhuffman) : zres zhuffman :=
  match sizelist with
  | [] => ZOk z
  | s :: sizelist =>
      if s =? 0 then place_symbols sizelist (i + 1) next_code z
      else
        nc ← arr_get next_code s; fc ← arr_get (firstcode z) s; fs ← arr_get (firstsymbol z) s;
        let c := nc - fc + fs in
        let fastv := Z.lor (Z.shiftl s 9) i mod 2 ^ 16 in
        sz ← arr_set ZNSYMS c s (zsize z);
        va ← arr_set ZNSYMS c (i mod 2 ^ 16) (value z);
        f ← (if s <=? ZFAST_BITS then fill_fast 512 (bit_reverse nc s) (Z.shiftl 1 s) fastv (fast z) else ZOk (fast z));
        place_symbols sizelist (i + 1) (<[s := nc + 1]> next_code)
          (Zhuffman f (firstcode z) (maxcode z) (firstsymbol z) sz va)
  end.

Definition lengths15 : list Z := [1;2;3;4;5;6;7;8;9;10;11;12;13;14;15].

(** Over the tables that were there before: only [fast] is cleared. *)
Definition zbuild_huffman (sizelist : list Z) (z : zhuffman) : zres zhuffman :=
  let z := Zhuffman ∅ (firstcode z) (maxcode z) (firstsymbol z) (zsize z) (value z) in
  sizes ← count_sizes sizelist ∅;
  let sizes := <[0 := 0]> sizes in
  if existsb (fun i => Z.shiftl 1 i <? default 0 (sizes !! i)) lengths15 then ZFail
  else
    '(next_code, z) ← assign_codes lengths15 sizes 0 0 ∅ z;
    mc ← arr_set 17 16 0x10000 (maxcode z);
    place_symbols sizelist 0 next_code (Zhuffman (fast z) (firstcode z) mc (firstsymbol z) (zsize z) (value z)).

(** ** The bit buffer *)

Record zbuf := Zbuf {
  zbuffer : bytes; num_bits : Z; hit_zeof_once : bool; code_buffer : Z;
  zout : bytes; zout_size : Z; z_expandable : bool;
  z_length : zhuffman; z_distance : zhuffman }.

Definition set_bits (b : bytes) (n : Z) (c : Z) (z : zbuf) : zbuf :=
  Zbuf b n (hit_zeof_once z) c (zout z) (zout_size z) (z_expandable z) (z_length z) (z_distance z).
Definition set_hit (h : bool) (z : zbuf) : zbuf :=
  Zbuf (zbuffer z) (num_bits z) h (code_buffer z) (zout z) (zout_size z) (z_expandable z) (z_length z) (z_distance z).
Definition set_zout (o : bytes) (n : Z) (z : zbuf) : zbuf :=
  Zbuf (zbuffer z) (num_bits z) (hit_zeof_once z) (code_buffer z) o n (z_expandable z) (z_length z) (z_distance z).
Definition set_tables (l d : zhuffman) (z : zbuf) : zbuf :=
  Zbuf (zbuffer z) (num_bits z) (hit_zeof_once z) (code_buffer z) (zout z) (zout_size z) (z_expandable z) l d.

Definition zeof (z : zbuf) : bool := match zbuffer z with [] => true | _ => false end.
Definition zget8 (z : zbuf) : Z * zbuf :=
  match zbuffer z with [] => (0, z) | b :: r => (bz b, set_bits r (num_bits z) (code_buffer z) z) end.

(** The [do ... while (num_bits <= 24)]: at most 4 times for [0 <= num_bits]. *)
Fixpoint fill_bits (fuel : nat) (z : zbuf) : zbuf :=
  match fuel with
  | O => z
  | S fuel =>
      if Z.shiftl 1 (num_bits z) <=? code_buffer z then set_bits [] (num_bits z) (code_buffer z) z
      else
        let '(b, z) := zget8 z in
        let z := set_bits (zbuffer z) (num_bits z + 8) (Z.lor (code_buffer z) (u32 (Z.shiftl b (num_bits z)))) z in
        if num_bits z <=? 24 then fill_bits fuel z else z
  end.

Definition zreceive (n : Z) (z : zbuf) : Z * zbuf :=
  let z := if num_bits z <? n then fill_bits 4 z else z in
  (Z.land (code_buffer z) (Z.shiftl 1 n - 1), set_bits (zbuffer z) (num_bits z - n) (Z.shiftr (code_buffer z) n) z).

(** [for (s = 10; ; ++s) if (k < maxcode[s]) break;], over the lengths left. *)
Fixpoint slow_length (ss : list Z) (k : Z) (mc : gmap Z Z) : zres Z :=
  match ss with
  | [] => ZOob
  | s :: ss => m ← arr_get mc s; if k <? m then ZOk s else slow_length ss k mc
  end.

Definition zhuffman_decode_slowpath (h : zhuffman) (z : zbuf) : zres (Z * zbuf) :=
  let k := bit_reverse (code_buffer z) 16 in
  s ← slow_length [10;11;12;13;14;15;16] k (maxcode h);
  if 16 <=? s then ZFail
  else
    fc ← arr_get (firstcode h) s; fs ← arr_get (firstsymbol h) s;
    let b := Z.shiftr k (16 - s) - fc + fs in
    if ZNSYMS <=? b then ZFail
    else
      sz ← arr_get (zsize h) b;
      if negb (sz =? s) then ZFail
      else
        v ← arr_get (value h) b;
        ZOk (v, set_bits (zbuffer z) (num_bits z - s) (Z.shiftr (code_buffer z) s) z).

(** [ZFail] also stands for the result -1. *)
Definition zhuffman_decode (h : zhuffman) (z : zbuf) : zres (Z * zbuf) :=
  z ← (if num_bits z <? 16 then
         if zeof z then
           if negb (hit_zeof_once z) then ZOk (set_hit true (set_bits (zbuffer z) (num_bits z + 16) (code_buffer z) z))
           else ZFail
         else ZOk (fill_bits 4 z)
       else ZOk z);
  let b := default 0 (fast h !! Z.land (code_buffer z) ZFAST_MASK) in
  if negb (b =? 0) then
    let s := Z.shiftr b 9 in
    ZOk (Z.land b 511, set_bits (zbuffer z) (num_bits z - s) (Z.shiftr (code_buffer z) s) z)
  else zhuffman_decode_slowpath h z.

(** ** Output *)

Definition UINT_MAX : Z := 4294967295.

Fixpoint grow_limit (fuel : nat) (limit need : Z) : zres Z :=
  if limit <? need then
    match fuel with
    | O => ZFuel
    | S fuel => if UINT_MAX / 2 <? limit then ZFail else grow_limit fuel (u32 (limit * 2)) need
    end
  else ZOk limit.

Definition stbi_zlength_base : list Z := [3;4;5;6;7;8;9;10;11;13;15;17;19;23;27;31;35;43;51;59;67;83;99;115;131;163;195;227;258;0;0].
Definition stbi_zlength_extra : list Z := [0;0;0;0;0;0;0;0;1;1;1;1;2;2;2;2;3;3;3;3;4;4;4;4;5;5;5;5;0;0;0].
Definition stbi_zdist_base : list Z := [1;2;3;4;5;7;9;13;17;25;33;49;65;97;129;193;257;385;513;769;1025;1537;2049;3073;4097;6145;8193;12289;16385;24577;0;0].
Definition stbi_zdist_extra : list Z := [0;0;0;0;1;1;2;2;3;3;4;4;5;5;6;6;7;7;8;8;9;9;10;10;11;11;12;12;13;13].

Section Decode.
Context (malloc_ok : Z -> bool).

Definition zlen (z : zbuf) : Z := Z.of_nat (length (zout z)).

Definition zexpand (n : Z) (z : zbuf) : zres zbuf :=
  if negb (z_expandable z) then ZFail
  else
    let cur := u32 (zlen z) in
    if UINT_MAX - cur <? n then ZFail
    else
      limit ← grow_limit 33 (u32 (zout_size z)) (cur + n);
      if malloc_ok limit then ZOk (set_zout (zout z) limit z) else ZFail.

(** A write behind the end of the block is [ZOob]. *)
Definition zput (s : bytes) (z : zbuf) : zres zbuf :=
  if zlen z + Z.of_nat (length s) <=? zout_size z then ZOk (set_zout (zout z ++ s) (zout_size z) z) else ZOob.

(** [len] times [*zout++ = *p++], with [p] at [dist] before the end. *)
Fixpoint zcopy (len : nat) (dist : nat) (z : zbuf) : zres zbuf :=
  match len with
  | O => ZOk z
  | S len =>
      match zout z !! (length (zout z) - dist)%nat with
      | Some v => z ← zput [v] z; zcopy len dist z
      | None => ZOob
      end
  end.

(** One symbol of [stbi__parse_huffman_block]: [true] at the end of the block. *)
Definition huffman_symbol (a : zbuf) : zres (bool * zbuf) :=
  '(z, a) ← zhuffman_decode (z_length a) a;
  if z <? 256 then
    a ← (if zout_size a <=? zlen a then zexpand 1 a else ZOk a);
    a ← zput [zb z] a;
    ZOk (false, a)
  else if z =? 256 then
    if hit_zeof_once a && (num_bits a <? 16) then ZFail else ZOk (true, a)
  else if 286 <=? z then ZFail
  else
    let z := z - 257 in
    len ← tbl_get stbi_zlength_base z; e ← tbl_get stbi_zlength_extra z;
    let '(len, a) := if e =? 0 then (len, a) else let '(k, a) := zreceive e a in (len + k, a) in
    '(z, a) ← zhuffman_decode (z_distance a) a;
    if 30 <=? z then ZFail
    else
      dist ← tbl_get stbi_zdist_base z; e ← tbl_get stbi_zdist_extra z;
      let '(dist, a) := if e =? 0 then (dist, a) else let '(k, a) := zreceive e a in (dist + k, a) in
      if zlen a <? dist then ZFail
      else
        a ← (if zout_size a - zlen a <? len then zexpand len a else ZOk a);
        a ← (if dist =? 1 then
               match zout a !! (length (zout a) - 1)%nat with
               | Some v => zput (replicate (Z.to_nat len) v) a
               | None => ZOob
               end
             else zcopy (Z.to_nat len) (Z.to_nat dist) a);
        ZOk (false, a).

Fixpoint parse_huffman_block (fuel : nat) (a : zbuf) : zres zbuf :=
  match fuel with
  | O => ZFuel
  | S fuel => '(ended, a) ← huffman_symbol a; if ended : bool then ZOk a else parse_huffman_block fuel a
  end.

(** ** Dynamic tables *)

Definition length_dezigzag : list Z := [16;17;18;0;8;7;9;6;10;5;11;4;12;3;13;2;14;1;15].

Fixpoint read_codelengths (ls : list Z) (sizes : list Z) (a : zbuf) : list Z * zbuf :=
  match ls with
  | [] => (sizes, a)
  | i :: ls => let '(s, a) := zreceive 3 a in read_codelengths ls (<[Z.to_nat i := s]> sizes) a
  end.

(** The loop over [lencodes]: what was stored so far; [455] is its size. *)
Fixpoint read_lencodes (fuel : nat) (h : zhuffman) (ntot : Z) (lencodes : list Z) (a : zbuf) : zres (list Z * zbuf) :=
  let n := Z.of_nat (length lencodes) in
  if n <? ntot then
    match fuel with
    | O => ZFuel
    | S fuel =>
        '(c, a) ← zhuffman_decode h a;
        if 19 <=? c then ZFail
        else if c <? 16 then
          if n <? 455 then read_lencodes fuel h ntot (lencodes ++ [c]) a else ZOob
        else
          '(c, fill, a) ← (if c =? 16 then
                             let '(k, a) := zreceive 2 a in
                             match last lencodes with None => ZFail | Some f => ZOk (k + 3, f, a) end
                           else if c =? 17 then let '(k, a) := zreceive 3 a in ZOk (k + 3, 0, a)
                           else let '(k, a) := zreceive 7 a in ZOk (k + 11, 0, a));
          if ntot - n <? c then ZFail
          else if n + c <=? 455 then read_lencodes fuel h ntot (lencodes ++ replicate (Z.to_nat c) fill) a else ZOob
    end
  else ZOk (lencodes, a).

Definition compute_huffman_codes (a : zbuf) : zres zbuf :=
  let '(hlit, a) := zreceive 5 a in let hlit := hlit + 257 in
  let '(hdist, a) := zreceive 5 a in let hdist := hdist + 1 in
  let '(hclen, a) := zreceive 4 a in let hclen := hclen + 4 in
  let ntot := hlit + hdist in
  let '(codelength_sizes, a) := read_codelengths (take (Z.to_nat hclen) length_dezigzag) (replicate 19 0) a in
  z_codelength ← zbuild_huffman codelength_sizes zhuffman_uninit;
  '(lencodes, a) ← read_lencodes 455 z_codelength ntot [] a;
  if negb (Z.of_nat (length lencodes) =? ntot) then ZFail
  else
    l ← zbuild_huffman (take (Z.to_nat hlit) lencodes) (z_length a);
    let a := set_tables l (z_distance a) a in
    d ← zbuild_huffman (take (Z.to_nat hdist) (drop (Z.to_nat hlit) lencodes)) (z_distance a);
    ZOk (set_tables (z_length a) d a).

(** ** Stored blocks *)

(** [while (num_bits > 0) header[k++] = ...] *)
Fixpoint drain_header (fuel : nat) (header : list Z) (a : zbuf) : zres (list Z * zbuf) :=
  if 0 <? num_bits a then
    match fuel with
    | O => ZOob
    | S fuel =>
        drain_header fuel (header ++ [Z.land (code_buffer a) 255])
          (set_bits (zbuffer a) (num_bits a - 8) (Z.shiftr (code_buffer a) 8) a)
    end
  else ZOk (header, a).

Fixpoint fill_header (fuel : nat) (header : list Z) (a : zbuf) : list Z * zbuf :=
  match fuel with
  | O => (header, a)
  | S fuel =>
      if (length header <? 4)%nat then let '(b, a) := zget8 a in fill_header fuel (header ++ [b]) a else (header, a)
  end.

Definition parse_uncompressed_block (a : zbuf) : zres zbuf :=
  let a := if negb (Z.land (num_bits a) 7 =? 0) then (zreceive (Z.land (num_bits a) 7) a).2 else a in
  '(header, a) ← drain_header 4 [] a;
  if num_bits a <? 0 then ZFail
  else
    let '(header, a) := fill_header 4 header a in
    match header with
    | [h0; h1; h2; h3] =>
        let len := h1 * 256 + h0 in let nlen := h3 * 256 + h2 in
        if negb (nlen =? Z.lxor len 0xffff) then ZFail
        else if Z.of_nat (length (zbuffer a)) <? len then ZFail
        else
          a ← (if zout_size a <? zlen a + len then zexpand len a else ZOk a);
          let n := Z.to_nat len in
          a ← zput (take n (zbuffer a)) a;
          ZOk (set_bits (drop n (zbuffer a)) (num_bits a) (code_buffer a) a)
    | _ => ZOob
    end.

(** ** The stream *)

Definition parse_zlib_header (a : zbuf) : zres zbuf :=
  let '(cmf, a) := zget8 a in
  let cm := Z.land cmf 15 in
  let '(flg, a) := zget8 a in
  if zeof a then ZFail
  else if negb ((cmf * 256 + flg) mod 31 =? 0) then ZFail
  else if negb (Z.land flg 32 =? 0) then ZFail
  else if negb (cm =? 8) then ZFail
  else ZOk a.

Definition stbi_zdefault_length : list Z := replicate 144 8 ++ replicate 112 9 ++ replicate 24 7 ++ replicate 8 8.
Definition stbi_zdefault_distance : list Z := replicate 32 5.

Definition block_tables (type : Z) (a : zbuf) : zres zbuf :=
  if type =? 1 then
    l ← zbuild_huffman stbi_zdefault_length (z_length a);
    d ← zbuild_huffman stbi_zdefault_distance (z_distance a);
    ZOk (set_tables l d a)
  else compute_huffman_codes a.

(** A block: the flag of the last one. *)
Definition parse_block (fuel : nat) (a : zbuf) : zres (bool * zbuf) :=
  let '(final, a) := zreceive 1 a in
  let '(type, a) := zreceive 2 a in
  a ← (if type =? 0 then parse_uncompressed_block a
       else if type =? 3 then ZFail
       else a ← block_tables type a; parse_huffman_block fuel a);
  ZOk (negb (final =? 0), a).

(** [fuel]: for the blocks, and for the symbols of each. *)
Fixpoint parse_blocks (n fuel : nat) (a : zbuf) : zres zbuf :=
  match n with
  | O => ZFuel
  | S n => '(final, a) ← parse_block fuel a; if final : bool then ZOk a else parse_blocks n fuel a
  end.

Definition parse_zlib (fuel : nat) (parse_header : bool) (a : zbuf) : zres zbuf :=
  a ← (if parse_header then parse_zlib_header a else ZOk a);
  parse_blocks fuel fuel (set_hit false (set_bits (zbuffer a) 0 0 a)).

Definition do_zlib (fuel : nat) (ibuffer : bytes) (olen : Z) (exp parse_header : bool) : zres zbuf :=
  parse_zlib fuel parse_header (Zbuf ibuffer 0 false 0 [] olen exp zhuffman_uninit zhuffman_uninit).

Definition stbi_zlib_decode_malloc_guesssize_headerflag (fuel : nat) (buffer : bytes) (initial_size : Z) (parse_header : bool) : zres bytes :=
  if malloc_ok (u64 initial_size) then a ← do_zlib fuel buffer initial_size true parse_header; ZOk (zout a) else ZFail.
End Decode.
