(* ===== verification/Huffman.v ===== *)
(** * The Huffman tables of stb_image.h are complete

    Whatever code lengths a file gives, [zbuild_huffman] refuses them or
    fills its arrays so that decoding finds every entry it looks at. *)

From stdpp Require Import gmap.
From S2P Require Import Prelude Bits Inflate.
Local Open Scope Z_scope.

(** ** Safe computations *)

(** The computation fails properly, or its result is [P]: no access outside
    an array, and enough fuel. *)
Definition zsafe {A} (P : A -> Prop) (r : zres A) : Prop :=
  match r with ZOk a => P a | ZFail => True | _ => False end.

Lemma zsafe_bind {A B} (P : A -> Prop) (Q : B -> Prop) (m : zres A) (f : A -> zres B) :
  zsafe P m -> (forall a, P a -> zsafe Q (f a)) -> zsafe Q (m ≫= f).
Proof. destruct m; try done. intros HP HQ. by apply HQ. Qed.

Lemma zsafe_weaken {A} (P Q : A -> Prop) (m : zres A) : zsafe P m -> (forall a, P a -> Q a) -> zsafe Q m.
Proof. destruct m; try done. intros HP HQ. by apply HQ. Qed.

Lemma arr_set_safe n i v a : 0 <= i < n -> arr_set n i v a = ZOk (<[i := v]> a).
Proof. intros Hi. unfold arr_set. destruct (_ && _) eqn:E; [done|]. apply andb_false_iff in E as [E|E]; boolify; lia. Qed.

(** ** Reversed bits *)

Definition swap_bits (m1 m2 k n : Z) : Z := Z.lor (Z.shiftr (Z.land n m1) k) (Z.shiftl (Z.land n m2) k).

Lemma bitreverse16_steps n :
  bitreverse16 n = swap_bits 0xFF00 0x00FF 8 (swap_bits 0xF0F0 0x0F0F 4 (swap_bits 0xCCCC 0x3333 2 (swap_bits 0xAAAA 0x5555 1 n))).
Proof. done. Qed.

Lemma swap_bits_lor m1 m2 k a b : swap_bits m1 m2 k (Z.lor a b) = Z.lor (swap_bits m1 m2 k a) (swap_bits m1 m2 k b).
Proof.
  unfold swap_bits. rewrite !Z.land_lor_distr_l, Z.shiftr_lor, Z.shiftl_lor.
  apply Z.bits_inj'. intros i Hi. rewrite !Z.lor_spec. by destruct (Z.testbit _ i), (Z.testbit _ i), (Z.testbit _ i).
Qed.

Lemma bitreverse16_lor a b : bitreverse16 (Z.lor a b) = Z.lor (bitreverse16 a) (bitreverse16 b).
Proof. by rewrite !bitreverse16_steps, !swap_bits_lor. Qed.

Lemma bitreverse16_low n : bitreverse16 n = bitreverse16 (Z.land n 0xFFFF).
Proof.
  unfold bitreverse16 at 1 2. cbv zeta. by rewrite <- !(Z.land_assoc n 0xFFFF).
Qed.

(** A predicate decided for all numbers below a bound. *)
Definition below (n : nat) (p : Z -> bool) : bool := forallb (fun i => p (Z.of_nat i)) (seq 0 n).

Lemma below_spec n p i : below n p = true -> 0 <= i < Z.of_nat n -> p i = true.
Proof.
  intros H Hi. unfold below in H. rewrite forallb_forall in H. rewrite <- (Z2Nat.id i) by lia. apply H. apply in_seq. lia.
Qed.

(** The first nine bits of the reversal are the reversal of nine bits. *)
Lemma reversed_prefix n : Z.shiftr (bit_reverse n 16) 7 = bit_reverse (Z.land n 511) 9.
Proof.
  unfold bit_reverse. change (16 - 16) with 0. change (16 - 9) with 7. rewrite Z.shiftr_0_r, (bitreverse16_low n).
  set (h := Z.land (Z.shiftr n 9) 127). assert (Hh : 0 <= h < 128).
  { unfold h. change 127 with (Z.ones 7). rewrite Z.land_ones by lia. change 128 with (2 ^ 7). apply Z.mod_pos_bound. lia. }
  replace (Z.land n 0xFFFF) with (Z.lor (Z.land n 511) (Z.shiftl h 9)).
  2:{ apply Z.bits_inj'. intros i Hi. change 0xFFFF with (Z.ones 16). change 511 with (Z.ones 9).
      unfold h. change 127 with (Z.ones 7). rewrite Z.lor_spec, Z.shiftl_spec, !Z.land_spec by done.
      rewrite !Z.testbit_ones by lia. destruct (Z_lt_le_dec i 9) as [H9|H9].
      - rewrite (Z.testbit_neg_r (Z.shiftr n 9)) by lia. rewrite orb_false_r. f_equal.
        rewrite !(proj2 (Z.ltb_lt i _)) by lia. done.
      - rewrite Z.shiftr_spec by lia. replace (i - 9 + 9) with i by lia. rewrite (proj2 (Z.ltb_ge i 9)) by lia. rewrite andb_false_r, andb_false_r. cbn [orb].
        f_equal. rewrite !(proj2 (Z.leb_le 0 _)) by lia. cbn [andb]. destruct (Z.ltb_spec (i - 9) 7), (Z.ltb_spec i 16); lia. }
  rewrite bitreverse16_lor, Z.shiftr_lor.
  assert (H0 : Z.shiftr (bitreverse16 (Z.shiftl h 9)) 7 = 0).
  { apply Z.eqb_eq. apply (below_spec 128 (fun h => Z.shiftr (bitreverse16 (Z.shiftl h 9)) 7 =? 0)); [by vm_compute|lia]. }
  by rewrite H0, Z.lor_0_r.
Qed.

(** For codes of up to nine bits: the prefix of the reversal of [j] is the
    reversal of a suffix of [j], and a reversed code is as wide as the code. *)
Definition suffix_ok (s j : Z) : bool := bit_reverse (Z.shiftr (bit_reverse j 9) (9 - s)) s =? j mod 2 ^ s.
Definition fits (s c : Z) : bool := (0 <=? bit_reverse c s) && (bit_reverse c s <? 2 ^ s).

Lemma short_codes_checked :
  below 10 (fun s => (s =? 0) || (below 512 (suffix_ok s) && below (Z.to_nat (2 ^ s)) (fits s))) = true.
Proof. vm_compute. reflexivity. Qed.

Lemma short_code s : 1 <= s <= 9 ->
  (forall j, 0 <= j < 512 -> bit_reverse (Z.shiftr (bit_reverse j 9) (9 - s)) s = j mod 2 ^ s)
  /\ (forall c, 0 <= c < 2 ^ s -> 0 <= bit_reverse c s < 2 ^ s).
Proof.
  intros Hs. pose proof (below_spec 10 _ s short_codes_checked ltac:(lia)) as H. cbv beta in H.
  rewrite (proj2 (Z.eqb_neq s 0)) in H by lia. cbn [orb] in H. apply andb_true_iff in H as [H1 H2]. split.
  - intros j Hj. apply Z.eqb_eq. exact (below_spec 512 _ j H1 Hj).
  - intros c Hc. pose proof (below_spec _ _ c H2 ltac:(lia)) as H. unfold fits in H. boolify. lia.
Qed.

(** ** The canonical code *)

Section Code.
Context (l : list Z) (Hl : Forall (fun s => 0 <= s <= 15) l).

(** How many symbols have a code of length [s], of length below [s]; the first
    code of length [s]. *)
Definition occ (s : Z) (l : list Z) : Z := Z.of_nat (length (filter (fun t => t = s) l)).
Definition shorter (s : Z) : Z := Z.of_nat (length (filter (fun t => 0 < t < s) l)).
Fixpoint first_code_nat (s : nat) : Z :=
  match s with O => 0 | S s => 2 * (first_code_nat s + if (s =? 0)%nat then 0 else occ (Z.of_nat s) l) end.
Definition first_code (s : Z) : Z := first_code_nat (Z.to_nat s).
Definition end_code (s : Z) : Z := first_code s + occ s l.

Lemma occ_app s a b : occ s (a ++ b) = occ s a + occ s b.
Proof. unfold occ. rewrite filter_app, length_app. lia. Qed.

Lemma occ_cons s t a : occ s (t :: a) = (if decide (t = s) then 1 else 0) + occ s a.
Proof. unfold occ. rewrite filter_cons. destruct (decide (t = s)); cbn [length]; lia. Qed.

Lemma occ_nonneg s a : 0 <= occ s a.
Proof. unfold occ. lia. Qed.

Lemma shorter_next s : 1 <= s -> shorter (s + 1) = shorter s + occ s l.
Proof.
  clear Hl. intros Hs. unfold shorter, occ. induction l as [|t l' IH]; [done|]. rewrite !filter_cons.
  destruct (decide (0 < t < s + 1)), (decide (0 < t < s)), (decide (t = s)); cbn [length]; try lia.
Qed.

Lemma shorter_1 : shorter 1 = 0.
Proof. clear Hl. unfold shorter. induction l as [|t l' IH]; [done|]. rewrite filter_cons. destruct (decide _); [lia|done]. Qed.

Lemma shorter_occ s : 1 <= s -> shorter s + occ s l <= Z.of_nat (length l).
Proof. intros Hs. rewrite <- shorter_next by done. unfold shorter. pose proof (length_filter (fun t => 0 < t < s + 1) l). lia. Qed.

Lemma first_code_1 : first_code 1 = 0.
Proof. done. Qed.

Lemma first_code_next s : 1 <= s -> first_code (s + 1) = 2 * end_code s.
Proof.
  intros Hs. unfold first_code, end_code. replace (Z.to_nat (s + 1)) with (S (Z.to_nat s)) by lia. cbn [first_code_nat].
  rewrite (proj2 (Nat.eqb_neq _ 0)) by lia. rewrite Z2Nat.id by lia. done.
Qed.

Lemma first_code_nonneg s : 0 <= first_code s.
Proof.
  unfold first_code. induction (Z.to_nat s) as [|n IH]; [done|]. cbn [first_code_nat].
  destruct (n =? 0)%nat; [lia|]. pose proof (occ_nonneg (Z.of_nat n) l). lia.
Qed.

(** A prefix below the end of its length has a code for a prefix of it. *)
Lemma prefix_coded s p : 1 <= s -> 0 <= p < end_code s ->
  exists t, 1 <= t <= s /\ first_code t <= Z.shiftr p (s - t) < end_code t.
Proof.
  intros Hs. revert p. pattern s. apply (Zlt_lower_bound_ind _ 1); [|done]. clear s Hs. intros s IH Hs p Hp.
  destruct (Z_le_gt_dec (first_code s) p) as [Hf|Hf].
  - exists s. rewrite Z.sub_diag, Z.shiftr_0_r. lia.
  - destruct (Z.eq_dec s 1) as [->|H1]; [rewrite first_code_1 in Hf; lia|].
    replace s with (s - 1 + 1) in Hf at 1 by lia. rewrite first_code_next in Hf by lia.
    destruct (IH (s - 1) ltac:(lia) (Z.shiftr p 1)) as (t & Ht & Hc).
    { rewrite Z.shiftr_div_pow2 by lia. change (2 ^ 1) with 2. dlia. }
    exists t. split; [lia|]. rewrite Z.shiftr_shiftr in Hc by lia. by replace (1 + (s - 1 - t)) with (s - t) in Hc by lia.
Qed.

(** [sizes] counts the lengths. *)
Lemma count_sizes_spec : forall a sizes, Forall (fun s => 0 <= s <= 15) a ->
  exists sizes', count_sizes a sizes = ZOk sizes' /\ forall s, default 0 (sizes' !! s) = default 0 (sizes !! s) + occ s a.
Proof.
  clear. induction a as [|t a IH]; intros sizes Ha; cbn [count_sizes]; [exists sizes; split; [done|]; intros; unfold occ; cbn; lia|].
  apply Forall_cons in Ha as [Ht Ha]. rewrite arr_set_safe by lia. cbn [mbind zres_bind].
  destruct (IH (<[t := default 0 (sizes !! t) + 1]> sizes) Ha) as (sizes' & -> & Hs). exists sizes'. split; [done|].
  intros s. rewrite Hs, occ_cons. destruct (decide (t = s)) as [->|Hn]; [rewrite lookup_insert_eq; cbn; lia|by rewrite lookup_insert_ne by done].
Qed.

(** What the loop over the lengths from [i] on has stored. *)
Definition assigned (i : Z) (nc : gmap Z Z) (z : zhuffman) : Prop :=
  forall s, i <= s <= 15 ->
    nc !! s = Some (first_code s) /\ firstcode z !! s = Some (first_code s) /\ firstsymbol z !! s = Some (shorter s)
    /\ maxcode z !! s = Some (Z.shiftl (end_code s) (16 - s)) /\ (occ s l <> 0 -> end_code s <= 2 ^ s).

Definition same_symbols (z z' : zhuffman) : Prop := fast z' = fast z /\ zsize z' = zsize z /\ value z' = value z.

Lemma assign_codes_spec (Hlen : Z.of_nat (length l) <= 288) : forall n i sizes nc z,
  1 <= i -> i + Z.of_nat n = 16 -> (forall s, 1 <= s <= 15 -> default 0 (sizes !! s) = occ s l) -> first_code i <= 2 ^ i ->
  zsafe (fun r => assigned i r.1 r.2 /\ same_symbols z r.2
      /\ forall s, s < i -> r.1 !! s = nc !! s /\ firstcode r.2 !! s = firstcode z !! s /\ firstsymbol r.2 !! s = firstsymbol z !! s /\ maxcode r.2 !! s = maxcode z !! s)
    (assign_codes (seqZ i (Z.of_nat n)) sizes (first_code i) (shorter i) nc z).
Proof.
  induction n as [|n IH]; intros i sizes nc z Hi Hn Hs Hc.
  - cbn. split; [intros s Hs'; lia|]. split; [done|]. by intros.
  - rewrite seqZ_cons by lia. cbn [assign_codes]. rewrite !(arr_set_safe 16) by lia. cbn [mbind zres_bind]. rewrite Hs by lia.
    change (first_code i + occ i l) with (end_code i). pose proof (first_code_nonneg i) as Hnn. pose proof (occ_nonneg i l) as Hocc.
    assert (Hp : 2 ^ i <= 2 ^ 15) by (apply Z.pow_le_mono_r; lia). change (2 ^ 15) with 32768 in Hp. change (2 ^ 16) with 65536.
    pose proof (shorter_occ i Hi) as Hso. assert (Hsh : 0 <= shorter i) by (unfold shorter; lia).
    rewrite !Z.mod_small by lia. destruct (negb _ && _) eqn:E; [done|]. rewrite arr_set_safe by lia. cbn [mbind zres_bind].
    assert (Hend : end_code i <= 2 ^ i).
    { apply andb_false_iff in E as [E|E]; [apply negb_false_iff in E; boolify; unfold end_code; lia|]. boolify. rewrite Z.shiftl_1_l in E. lia. }
    rewrite <- shorter_next by done. replace (Z.shiftl (end_code i) 1) with (first_code (i + 1))
      by (rewrite first_code_next, Z.shiftl_mul_pow2 by lia; change (2 ^ 1) with 2; lia).
    replace (Z.pred (Z.of_nat (S n))) with (Z.of_nat n) by lia. rewrite <- Z.add_1_r.
    eapply zsafe_weaken; [apply IH; [lia|lia|done|]|].
    { rewrite first_code_next, Z.pow_add_r by lia. lia. }
    intros [nc' z'] (Ha & Hsame & Hbelow). cbn [fst snd] in *. split; [|split; [exact Hsame|]].
    + intros s Hs'. destruct (Z.eq_dec s i) as [->|Hne]; [|apply Ha; lia].
      destruct (Hbelow i ltac:(lia)) as (-> & -> & -> & ->). cbn [firstcode firstsymbol maxcode]. rewrite !lookup_insert_eq. done.
    + intros s Hs'. destruct (Hbelow s ltac:(lia)) as (-> & -> & -> & ->). cbn [firstcode firstsymbol maxcode]. by rewrite !lookup_insert_ne by lia.
Qed.

(** An entry of [fast]: a length and a symbol. *)
Definition fast_entry (v : Z) : Prop := 1 <= Z.shiftr v 9 <= 9 /\ 0 <= Z.land v 511 < 288.
Definition fast_ok (f : gmap Z Z) : Prop := forall j v, f !! j = Some v -> fast_entry v.
Definition symbols_ok (z : zhuffman) : Prop := forall c v, value z !! c = Some v -> 0 <= v < 288.

Lemma fast_entry_nonzero v : fast_entry v -> v <> 0.
Proof. intros [H _] ->. change (Z.shiftr 0 9) with 0 in H. lia. Qed.

Lemma fill_fast_spec step v : 1 <= step -> fast_entry v -> forall fuel j f,
  0 <= j -> 512 - j <= Z.of_nat fuel -> fast_ok f ->
  exists f', fill_fast fuel j step v f = ZOk f' /\ fast_ok f'
    /\ (forall t, is_Some (f !! t) -> is_Some (f' !! t))
    /\ (forall m, 0 <= m -> j + m * step < 512 -> is_Some (f' !! (j + m * step))).
Proof.
  clear. intros Hstep Hv. induction fuel as [|fuel IH]; intros j f Hj Hf Hok; cbn [fill_fast]; destruct (512 <=? j) eqn:E; boolify.
  - exists f. split_and!; [done..|intros; nia].
  - lia.
  - exists f. split_and!; [done..|intros; nia].
  - rewrite arr_set_safe by lia. cbn [mbind zres_bind].
    destruct (IH (j + step) (<[j := v]> f)) as (f' & -> & Hok' & Hk & Hm); [lia|lia| |].
    { intros t u. destruct (decide (t = j)) as [->|Hn]; [rewrite lookup_insert_eq; by intros [= <-]|rewrite lookup_insert_ne by done; apply Hok]. }
    exists f'. split; [done|]. split; [done|]. split.
    + intros t Ht. apply Hk. destruct (decide (t = j)) as [->|Hn]; [by rewrite lookup_insert_eq|by rewrite lookup_insert_ne].
    + intros m Hm0 Hlt. destruct (Z.eq_dec m 0) as [->|Hn].
      * rewrite Z.mul_0_l, Z.add_0_r. apply Hk. by rewrite lookup_insert_eq.
      * replace (j + m * step) with (j + step + (m - 1) * step) by lia. apply Hm; lia.
Qed.

(** The arrays when the symbols [a] have been placed. *)
Definition placed (a : list Z) (nc : gmap Z Z) (z : zhuffman) : Prop :=
  fast_ok (fast z) /\ symbols_ok z
  /\ (forall s, 1 <= s <= 15 -> nc !! s = Some (first_code s + occ s a))
  /\ (forall s q, 1 <= s <= 15 -> 0 <= q < occ s a -> is_Some (zsize z !! (shorter s + q)) /\ is_Some (value z !! (shorter s + q)))
  /\ (forall s q j, 1 <= s <= 9 -> 0 <= q < occ s a -> 0 <= j < 512 -> j mod 2 ^ s = bit_reverse (first_code s + q) s -> is_Some (fast z !! j)).

Definition same_codes (z z' : zhuffman) : Prop := firstcode z' = firstcode z /\ maxcode z' = maxcode z /\ firstsymbol z' = firstsymbol z.

Lemma fast_value s i : 1 <= s <= 9 -> 0 <= i < 288 -> fast_entry (Z.lor (Z.shiftl s 9) i mod 2 ^ 16).
Proof.
  intros Hs Hi. rewrite Z.lor_comm, Z.shiftl_mul_pow2 by lia. rewrite lor_disjoint by (change (2 ^ 9) with 512; lia).
  change (2 ^ 16) with 65536. change (2 ^ 9) with 512. rewrite Z.mod_small by lia. unfold fast_entry.
  change 511 with (Z.ones 9). rewrite Z.land_ones, Z.shiftr_div_pow2 by lia. change (2 ^ 9) with 512. dlia.
Qed.

Lemma place_symbols_spec (Hlen : Z.of_nat (length l) <= 288) (Hend : forall s, 1 <= s <= 15 -> occ s l <> 0 -> end_code s <= 2 ^ s) :
  forall rest a nc z, l = a ++ rest ->
  (forall s, 1 <= s <= 15 -> firstcode z !! s = Some (first_code s) /\ firstsymbol z !! s = Some (shorter s)) ->
  placed a nc z ->
  exists z' nc', place_symbols rest (Z.of_nat (length a)) nc z = ZOk z' /\ same_codes z z' /\ placed l nc' z'.
Proof.
  induction rest as [|s rest IH]; intros a nc z Ha Hz Hp; cbn [place_symbols].
  - rewrite app_nil_r in Ha. subst a. by exists z, nc.
  - assert (Ha' : l = (a ++ [s]) ++ rest) by by rewrite <- app_assoc.
    assert (Hla : length (a ++ [s]) = S (length a)) by (rewrite length_app; cbn; lia).
    replace (Z.of_nat (length a) + 1) with (Z.of_nat (length (a ++ [s]))) by lia.
    assert (Hs : 0 <= s <= 15) by (revert Hl; rewrite Ha, Forall_app, Forall_cons; tauto).
    assert (Hocc : forall t, occ t (a ++ [s]) = occ t a + if decide (s = t) then 1 else 0).
    { intros t. rewrite occ_app, occ_cons. unfold occ at 2. cbn. lia. }
    destruct Hp as (Hf & Hsym & Hnc & Hset & Hfast). destruct (s =? 0) eqn:Es; boolify.
    + apply (IH (a ++ [s]) nc z Ha' Hz). unfold placed. split; [done|]. split; [done|].
      assert (H0 : forall t, 1 <= t -> occ t (a ++ [s]) = occ t a) by (intros t Ht; rewrite Hocc; destruct (decide (s = t)); lia).
      split_and!; intros; rewrite ?H0 in * by lia; by eauto.
    + assert (Hs1 : 1 <= s <= 15) by lia. destruct (Hz s Hs1) as [Hfc Hfs]. unfold arr_get. rewrite (Hnc s Hs1), Hfc, Hfs. cbn [mbind zres_bind].
      assert (Hlt : occ s a < occ s l) by (rewrite Ha, occ_app, occ_cons, decide_True by done; pose proof (occ_nonneg s rest); lia).
      pose proof (shorter_occ s ltac:(lia)) as Hso. assert (Hsh : 0 <= shorter s) by (unfold shorter; lia). pose proof (occ_nonneg s a) as Hoa.
      assert (Hla2 : Z.of_nat (length a) < 288) by (rewrite Ha, length_app in Hlen; cbn [length] in Hlen; lia).
      replace (first_code s + occ s a - first_code s + shorter s) with (shorter s + occ s a) by lia. unfold ZNSYMS.
      rewrite !(arr_set_safe 288) by lia. cbn [mbind zres_bind].
      pose proof (first_code_nonneg s) as Hfn. pose proof (Hend s Hs1 ltac:(lia)) as He. unfold end_code in He.
      assert (Hfill : exists f', (if s <=? ZFAST_BITS then fill_fast 512 (bit_reverse (first_code s + occ s a) s) (Z.shiftl 1 s)
            (Z.lor (Z.shiftl s 9) (Z.of_nat (length a)) mod 2 ^ 16) (fast z) else ZOk (fast z)) = ZOk f' /\ fast_ok f'
          /\ (forall t, is_Some (fast z !! t) -> is_Some (f' !! t))
          /\ (s <= 9 -> forall j, 0 <= j < 512 -> j mod 2 ^ s = bit_reverse (first_code s + occ s a) s -> is_Some (f' !! j))).
      { unfold ZFAST_BITS. destruct (s <=? 9) eqn:E9; boolify; [|exists (fast z); split_and!; [done..|lia]].
        pose proof (proj2 (short_code s ltac:(lia)) (first_code s + occ s a) ltac:(lia)) as Hr. rewrite Z.shiftl_1_l.
        destruct (fill_fast_spec (2 ^ s) (Z.lor (Z.shiftl s 9) (Z.of_nat (length a)) mod 2 ^ 16)) with (fuel := 512%nat) (j := bit_reverse (first_code s + occ s a) s) (f := fast z)
          as (f' & Hff & Hok' & Hk & Hm); [lia|by apply fast_value; lia|lia|lia|done|].
        exists f'. split_and!; [done..|]. intros _ j Hj Hmod. rewrite (Z.div_mod j (2 ^ s)) by lia. rewrite Hmod, Z.add_comm, Z.mul_comm.
        apply Hm; [apply Z.div_pos; lia|]. rewrite <- Hmod, Z.mul_comm, Z.add_comm, <- Z.div_mod by lia. lia. }
      destruct Hfill as (f' & -> & Hok' & Hk & Hcov). cbn [mbind zres_bind]. rewrite Z.mod_small by (change (2 ^ 16) with 65536; lia).
      destruct (IH (a ++ [s]) (<[s := first_code s + occ s a + 1]> nc)
        (Zhuffman f' (firstcode z) (maxcode z) (firstsymbol z) (<[shorter s + occ s a := s]> (zsize z)) (<[shorter s + occ s a := Z.of_nat (length a)]> (value z)))
        Ha' Hz) as (z' & nc' & -> & Hsame & Hpl); [|by exists z', nc'].
      unfold placed. cbn [fast zsize value]. split; [done|]. split.
      { intros c v. cbn [value]. destruct (decide (c = shorter s + occ s a)) as [->|Hn]; [rewrite lookup_insert_eq; intros [= <-]; lia|rewrite lookup_insert_ne by done; apply Hsym]. }
      split_and!.
      * intros t Ht. rewrite Hocc. destruct (decide (s = t)) as [<-|Hn]; [rewrite lookup_insert_eq; f_equal; lia|rewrite lookup_insert_ne, Hnc by done; f_equal; lia].
      * intros t q Ht Hq. rewrite Hocc in Hq. destruct (decide (shorter t + q = shorter s + occ s a)) as [->|Hn]; [by rewrite !lookup_insert_eq|].
        rewrite !lookup_insert_ne by done. apply Hset; [done|]. destruct (decide (s = t)) as [<-|]; [|lia]. destruct (Z.eq_dec q (occ s a)) as [->|]; lia.
      * intros t q j Ht Hq Hj Hmod. rewrite Hocc in Hq. destruct (decide (s = t)) as [<-|]; [|apply Hk, (Hfast t q); [lia|lia|done|done]].
        destruct (Z.eq_dec q (occ s a)) as [->|]; [apply Hcov; [lia|done|done]|]. apply Hk, (Hfast s q); [lia|lia|done|done].
Qed.

(** The lookup that [fast] does not answer. *)
Definition slow_ok (z : zhuffman) : Prop := forall n, fast z !! Z.land n 511 = None ->
  exists s, slow_length [10;11;12;13;14;15;16] (bit_reverse n 16) (maxcode z) = ZOk s /\ 10 <= s
    /\ (s < 16 -> exists fc fs, firstcode z !! s = Some fc /\ firstsymbol z !! s = Some fs
        /\ let b := Z.shiftr (bit_reverse n 16) (16 - s) - fc + fs in
           0 <= b /\ is_Some (zsize z !! b) /\ is_Some (value z !! b)).

Definition table_ok (z : zhuffman) : Prop := fast_ok (fast z) /\ symbols_ok z /\ slow_ok z.

Lemma slow_length_spec mc k : (forall s, 1 <= s <= 15 -> mc !! s = Some (Z.shiftl (end_code s) (16 - s))) -> mc !! 16 = Some 65536 ->
  k < 65536 -> forall n s, 2 <= s <= 16 -> s + Z.of_nat n = 17 -> Z.shiftl (end_code (s - 1)) (17 - s) <= k ->
  exists s', slow_length (seqZ s (Z.of_nat n)) k mc = ZOk s' /\ s <= s'
    /\ (s' < 16 -> Z.shiftl (end_code (s' - 1)) (17 - s') <= k < Z.shiftl (end_code s') (16 - s')).
Proof.
  intros Hmc H16 Hk. induction n as [|n IH]; intros s Hs Hn Hlow; [lia|]. rewrite seqZ_cons by lia. cbn [slow_length]. unfold arr_get.
  replace (Z.pred (Z.of_nat (S n))) with (Z.of_nat n) by lia. rewrite <- Z.add_1_r.
  destruct (Z.eq_dec s 16) as [->|Hn16].
  - rewrite H16. cbn [mbind zres_bind]. rewrite (proj2 (Z.ltb_lt k _)) by done. exists 16. split_and!; [done|lia|lia].
  - rewrite Hmc by lia. cbn [mbind zres_bind]. destruct (k <? _) eqn:E; boolify; [by exists s|].
    destruct (IH (s + 1)) as (s' & He & Hle & Hr); [lia|lia| |].
    { replace (s + 1 - 1) with s by lia. by replace (17 - (s + 1)) with (16 - s) by lia. }
    exists s'. split; [done|]. split; [lia|done].
Qed.

Lemma reversed_range n : 0 <= bit_reverse n 16 < 65536.
Proof.
  assert (H : 0 <= Z.shiftr (bit_reverse n 16) 7 < 512).
  { rewrite reversed_prefix. apply (short_code 9); [lia|]. change 511 with (Z.ones 9). rewrite Z.land_ones by lia. apply Z.mod_pos_bound. lia. }
  rewrite Z.shiftr_div_pow2 in H by lia. change (2 ^ 7) with 128 in H. dlia.
Qed.

Lemma slow_ok_built z nc : assigned 1 nc z -> maxcode z !! 16 = Some 65536 ->
  (exists nc', placed l nc' z) -> slow_ok z.
Proof.
  intros Has H16 (nc' & _ & _ & _ & Hset & Hfast) n Hn. pose proof (reversed_range n) as Hk. set (k := bit_reverse n 16) in *.
  assert (Hj : 0 <= Z.land n 511 < 512) by (change 511 with (Z.ones 9); rewrite Z.land_ones by lia; apply Z.mod_pos_bound; lia).
  assert (Hlow : Z.shiftl (end_code 9) 7 <= k).
  { apply Z.nlt_ge. intros Hlt. assert (Hp : 0 <= Z.shiftr k 7 < end_code 9).
    { rewrite Z.shiftr_div_pow2 by lia. rewrite Z.shiftl_mul_pow2 in Hlt by lia. change (2 ^ 7) with 128 in *. dlia. }
    destruct (prefix_coded 9 (Z.shiftr k 7) ltac:(lia) Hp) as (t & Ht & Hc). unfold k in Hc. rewrite reversed_prefix in Hc.
    set (c := Z.shiftr (bit_reverse (Z.land n 511) 9) (9 - t)) in Hc.
    destruct (Hfast t (c - first_code t) (Z.land n 511)) as [v Hv]; [lia|unfold end_code in Hc; lia|done| |by rewrite Hn in Hv].
    replace (first_code t + (c - first_code t)) with c by lia. unfold c. by rewrite (proj1 (short_code t Ht)). }
  destruct (slow_length_spec (maxcode z) k) with (n := 7%nat) (s := 10) as (s & Hs & Hle & Hr); [|done|lia|lia|done|done|].
  { intros s Hs. by destruct (Has s Hs) as (_ & _ & _ & ? & _). }
  exists s. split; [exact Hs|]. split; [done|]. intros H15. specialize (Hr H15).
  destruct (Has s ltac:(lia)) as (_ & Hfc & Hfs & _ & _). exists (first_code s), (shorter s). split; [done|]. split; [done|]. cbv zeta.
  assert (Hb : first_code s <= Z.shiftr k (16 - s) < end_code s).
  { replace s with (s - 1 + 1) at 1 by lia. rewrite first_code_next by lia. replace (17 - s) with (1 + (16 - s)) in Hr by lia.
    rewrite <- Z.shiftl_shiftl in Hr by lia. rewrite !Z.shiftl_mul_pow2 in Hr by lia. rewrite Z.shiftr_div_pow2 by lia. change (2 ^ 1) with 2 in Hr.
    assert (0 < 2 ^ (16 - s)) by (apply Z.pow_pos_nonneg; lia). split; [apply Z.div_le_lower_bound; lia|apply Z.div_lt_upper_bound; lia]. }
  assert (0 <= shorter s) by (unfold shorter; lia). unfold end_code in Hb. split; [lia|].
  replace (Z.shiftr k (16 - s) - first_code s + shorter s) with (shorter s + (Z.shiftr k (16 - s) - first_code s)) by lia.
  apply Hset; lia.
Qed.

(** Every list of lengths is refused or makes complete tables. *)
Lemma zbuild_huffman_safe z : Z.of_nat (length l) <= 288 -> symbols_ok z -> zsafe table_ok (zbuild_huffman l z).
Proof.
  intros Hlen Hsym. unfold zbuild_huffman. cbv zeta. destruct (count_sizes_spec l ∅ Hl) as (sizes & -> & Hs). cbn [mbind zres_bind].
  destruct (existsb _ _); [done|]. cbn [firstcode maxcode firstsymbol zsize value].
  pose proof (assign_codes_spec Hlen 15 1 (<[0 := 0]> sizes) ∅ (Zhuffman ∅ (firstcode z) (maxcode z) (firstsymbol z) (zsize z) (value z))) as Ha.
  change (seqZ 1 (Z.of_nat 15)) with lengths15 in Ha. rewrite first_code_1, shorter_1 in Ha.
  eapply zsafe_bind; [apply Ha; [lia|done| |done]|].
  { intros s Hs15. rewrite lookup_insert_ne by lia. rewrite Hs, lookup_empty. cbn. lia. }
  intros [nc z1] (Has & (Hf1 & Hz1 & Hv1) & _). cbn [fst snd fast zsize value] in *. rewrite arr_set_safe by lia. cbn [mbind zres_bind].
  set (z2 := Zhuffman _ _ _ _ _ _).
  destruct (place_symbols_spec Hlen) with (rest := l) (a := @nil Z) (nc := nc) (z := z2) as (z' & nc' & Hp & (Hfc & Hmc & Hfs) & Hpl).
  - intros s Hs15. by destruct (Has s Hs15) as (_ & _ & _ & _ & ?).
  - done.
  - intros s Hs15. by destruct (Has s Hs15) as (_ & ? & ? & _).
  - unfold placed. cbn [fast value zsize z2]. rewrite Hf1. split; [by intros j v|]. split; [intros c v; unfold z2; cbn [value]; rewrite Hv1; apply Hsym|].
    split_and!; [intros s Hs15; destruct (Has s Hs15) as (-> & _); f_equal; unfold occ; cbn; lia|unfold occ; cbn; intros; lia..].
  - change (Z.of_nat (length (@nil Z))) with 0 in Hp. rewrite Hp. cbn. split; [apply Hpl|]. split; [apply Hpl|].
    apply (slow_ok_built z' nc); [| |by exists nc'].
    + intros s Hs15. destruct (Has s Hs15) as (H1 & H2 & H3 & H4 & H5). rewrite Hfc, Hmc, Hfs. unfold z2. cbn [firstcode maxcode firstsymbol].
      rewrite lookup_insert_ne by lia. done.
    + rewrite Hmc. unfold z2. cbn [maxcode]. by rewrite lookup_insert_eq.
Qed.
End Code.
