(* ===== verification/InflateSafe.v ===== *)
(** * The zlib decoder of stb_image.h is safe

    On every input the decoder stays inside its arrays and blocks and ends:
    a symbol adds to the output, which has at most 4 GiB, and a block uses up
    bits of the input. *)

From stdpp Require Import gmap.
From S2P Require Import Prelude Bits Inflate Huffman.
Local Open Scope Z_scope.

(** ** The bit buffer *)

Definition bits_ok (z : zbuf) : Prop := 0 <= num_bits z <= 32 /\ 0 <= code_buffer z < 2 ^ num_bits z.

(** The bits up to the last one set. *)
Definition bit_len (c : Z) : Z := if c =? 0 then 0 else Z.log2 c + 1.

(** What is left of the input, in bits; of the zeros that are added behind its
    end, none. *)
Definition bits_left (z : zbuf) : Z :=
  match zbuffer z with [] => bit_len (code_buffer z) | s => 8 * Z.of_nat (length s) + num_bits z end.

Lemma bit_len_nonneg c : 0 <= bit_len c.
Proof. unfold bit_len. destruct (c =? 0); [lia|]. pose proof (Z.log2_nonneg c). lia. Qed.

Lemma bit_len_le c n : 0 <= n -> 0 <= c < 2 ^ n -> bit_len c <= n.
Proof.
  intros Hn Hc. unfold bit_len. destruct (c =? 0) eqn:E; boolify; [lia|].
  assert (Z.log2 c < n) by (apply Z.log2_lt_pow2; lia). lia.
Qed.

Lemma bit_len_shiftr c n : 0 <= n -> 0 <= c -> bit_len (Z.shiftr c n) <= Z.max 0 (bit_len c - n).
Proof.
  intros Hn Hc. apply bit_len_le; [lia|]. split; [by apply Z.shiftr_nonneg|]. rewrite Z.shiftr_div_pow2 by done.
  unfold bit_len. destruct (c =? 0) eqn:E; boolify; [subst c; rewrite Z.div_0_l by lia; apply Z.pow_pos_nonneg; lia|].
  pose proof (Z.log2_spec c ltac:(lia)) as Hl. pose proof (Z.log2_nonneg c) as Hl0. rewrite Z.add_1_r.
  destruct (Z_le_gt_dec (Z.succ (Z.log2 c)) n) as [Hs|Hs].
  - rewrite Z.div_small; [apply Z.pow_pos_nonneg; lia|]. split; [done|]. eapply Z.lt_le_trans; [apply Hl|]. apply Z.pow_le_mono_r; lia.
  - rewrite Z.max_r by lia. apply Z.div_lt_upper_bound; [lia|]. rewrite <- Z.pow_add_r by lia. replace (n + (Z.succ (Z.log2 c) - n)) with (Z.succ (Z.log2 c)) by lia. lia.
Qed.

(** Reading changes neither the output nor the tables. *)
Definition same_rest (a a' : zbuf) : Prop :=
  zout a' = zout a /\ zout_size a' = zout_size a /\ z_length a' = z_length a /\ z_distance a' = z_distance a.

Definition reads (a a' : zbuf) : Prop := bits_ok a' /\ same_rest a a' /\ bits_left a' <= bits_left a.

Lemma reads_refl a : bits_ok a -> reads a a.
Proof. intros Hb. by repeat split; try apply Hb. Qed.

Lemma reads_trans a b c : reads a b -> reads b c -> reads a c.
Proof.
  intros (_ & (Ho & Hs & Hl & Hd) & H1) (Hb & (Ho' & Hs' & Hl' & Hd') & H2). split; [done|]. split; [by repeat split; congruence|lia].
Qed.

Lemma bits_left_le z : bits_ok z -> bits_left z <= 8 * Z.of_nat (length (zbuffer z)) + num_bits z.
Proof. intros [Hn Hc]. unfold bits_left. destruct (zbuffer z); [|lia]. pose proof (bit_len_le _ _ (proj1 Hn) Hc). cbn. lia. Qed.

(** [n] bits are taken off. *)
Lemma drop_bits z n : bits_ok z -> 0 <= n <= num_bits z ->
  reads z (set_bits (zbuffer z) (num_bits z - n) (Z.shiftr (code_buffer z) n) z)
  /\ (0 < n -> zbuffer z <> [] \/ Z.land (code_buffer z) (Z.shiftl 1 n - 1) <> 0 ->
      bits_left (set_bits (zbuffer z) (num_bits z - n) (Z.shiftr (code_buffer z) n) z) < bits_left z).
Proof.
  intros [Hn Hc] Hk. assert (Hb' : 0 <= Z.shiftr (code_buffer z) n < 2 ^ (num_bits z - n)).
  { split; [apply Z.shiftr_nonneg; lia|]. rewrite Z.shiftr_div_pow2 by lia. apply Z.div_lt_upper_bound; [lia|]. rewrite <- Z.pow_add_r by lia. replace (n + (num_bits z - n)) with (num_bits z) by lia. lia. }
  pose proof (bit_len_shiftr (code_buffer z) n ltac:(lia) ltac:(lia)) as Hsh. pose proof (bit_len_nonneg (code_buffer z)) as H0.
  split; [split; [|split]|].
  - split; cbn [num_bits code_buffer set_bits]; [lia|done].
  - done.
  - unfold bits_left. cbn [zbuffer code_buffer num_bits set_bits]. destruct (zbuffer z); lia.
  - intros Hn0 Hne. unfold bits_left. cbn [zbuffer code_buffer num_bits set_bits]. destruct (zbuffer z); [|lia].
    destruct Hne as [?|Hne]; [done|]. assert (bit_len (code_buffer z) <> 0); [|lia]. unfold bit_len. destruct (code_buffer z =? 0) eqn:E; boolify.
    + by rewrite E, Z.land_0_l in Hne.
    + pose proof (Z.log2_nonneg (code_buffer z)). lia.
Qed.

Lemma fill_bits_reads : forall n z, bits_ok z -> num_bits z <= 24 -> 24 - num_bits z < 8 * Z.of_nat n ->
  reads z (fill_bits n z) /\ 25 <= num_bits (fill_bits n z) /\ (zbuffer z = [] -> zbuffer (fill_bits n z) = [] /\ code_buffer (fill_bits n z) = code_buffer z)
  /\ hit_zeof_once (fill_bits n z) = hit_zeof_once z.
Proof.
  induction n as [|n IH]; intros z [Hn Hc] H24 Hf; [lia|]. cbn [fill_bits]. rewrite (proj2 (Z.leb_gt _ _)) by (rewrite Z.shiftl_1_l; lia).
  set (z1 := set_bits (zbuffer (zget8 z).2) (num_bits (zget8 z).2 + 8) (Z.lor (code_buffer (zget8 z).2) (u32 (Z.shiftl (zget8 z).1 (num_bits (zget8 z).2)))) (zget8 z).2).
  assert (H1 : reads z z1 /\ num_bits z1 = num_bits z + 8 /\ (zbuffer z = [] -> zbuffer z1 = [] /\ code_buffer z1 = code_buffer z) /\ hit_zeof_once z1 = hit_zeof_once z).
  { unfold z1, zget8. destruct (zbuffer z) as [|b r] eqn:Eb; cbn [fst snd zbuffer num_bits code_buffer hit_zeof_once set_bits].
    - rewrite Eb, Z.shiftl_0_l. change (u32 0) with 0. rewrite Z.lor_0_r. split_and!; [|done..]. split; [|split; [done|]].
      + split; cbn [num_bits code_buffer set_bits]; [lia|]. rewrite Z.pow_add_r by lia. lia.
      + unfold bits_left. cbn [zbuffer code_buffer set_bits]. by rewrite Eb.
    - pose proof (bz_range b) as Hb. assert (Hp : 2 ^ num_bits z <= 2 ^ 24) by (apply Z.pow_le_mono_r; lia). change (2 ^ 24) with 16777216 in Hp.
      assert (Hp0 : 0 < 2 ^ num_bits z) by (apply Z.pow_pos_nonneg; lia).
      unfold u32. rewrite Z.shiftl_mul_pow2, Z.mod_small by (change (2 ^ 32) with 4294967296; nia). rewrite lor_disjoint by lia.
      assert (Hbits : bits_ok (set_bits r (num_bits z + 8) (code_buffer z + bz b * 2 ^ num_bits z) z)).
      { split; cbn [num_bits code_buffer set_bits]; [lia|]. rewrite Z.pow_add_r by lia. change (2 ^ 8) with 256. nia. }
      split_and!; [|done..]. split; [exact Hbits|split; [done|]]. etransitivity; [apply (bits_left_le _ Hbits)|].
      unfold bits_left. rewrite Eb. cbn [zbuffer num_bits set_bits length]. lia. }
  destruct (zget8 z) as [b zb'] eqn:Eg. cbn [fst snd] in z1. fold z1. destruct H1 as (Hr & Hnb & Hz & Hh). rewrite Hnb.
  destruct (num_bits z + 8 <=? 24) eqn:E; boolify; [|split_and!; [done|lia|done|done]].
  destruct (IH z1) as (Hr2 & H25 & Hz2 & Hh2); [apply Hr|lia|lia|]. split_and!; [by eapply reads_trans|done| |congruence].
  intros He. destruct (Hz He) as [He1 Hc1]. destruct (Hz2 He1) as [He2 Hc2]. split; [done|congruence].
Qed.

(** [n] bits: their value, and what is left; a value other than 0 uses up input. *)
Lemma zreceive_reads n z : bits_ok z -> 0 <= n <= 16 ->
  0 <= (zreceive n z).1 < 2 ^ n /\ reads z (zreceive n z).2 /\ hit_zeof_once (zreceive n z).2 = hit_zeof_once z
  /\ (0 < n -> (zreceive n z).1 <> 0 -> bits_left (zreceive n z).2 < bits_left z)
  /\ (n <= num_bits z -> num_bits (zreceive n z).2 = num_bits z - n).
Proof.
  intros Hb Hn. unfold zreceive. cbv zeta. set (z1 := if num_bits z <? n then fill_bits 4 z else z). cbn [fst snd].
  assert (H1 : reads z z1 /\ n <= num_bits z1 /\ hit_zeof_once z1 = hit_zeof_once z /\ (n <= num_bits z -> z1 = z)).
  { unfold z1. destruct (_ <? n) eqn:E; boolify; [|split_and!; [by apply reads_refl|lia|done|done]]. pose proof (proj1 Hb).
    destruct (fill_bits_reads 4 z Hb) as (Hr & H25 & _ & Hh); [lia|lia|]. split_and!; [done|lia|done|lia]. }
  destruct H1 as (Hr & Hle & Hh & Hsame). destruct (drop_bits z1 n (proj1 Hr)) as [Hd Hs]; [lia|].
  split_and!; [rewrite land_low by lia; apply Z.mod_pos_bound; lia|rewrite land_low by lia; apply Z.mod_pos_bound; lia|by eapply reads_trans|done| |].
  - intros H0 Hv. eapply Z.lt_le_trans; [apply Hs; [done|by right]|apply Hr].
  - intros Hnb. by rewrite (Hsame Hnb).
Qed.

(** ** A symbol *)

Lemma slowpath_safe h z : bits_ok z -> 16 <= num_bits z -> table_ok h -> fast h !! Z.land (code_buffer z) ZFAST_MASK = None ->
  zsafe (fun r => 0 <= r.1 < 288 /\ reads z r.2) (zhuffman_decode_slowpath h z).
Proof.
  intros Hb H16 (_ & Hsym & Hslow) Hnone. unfold zhuffman_decode_slowpath. destruct (Hslow _ Hnone) as (s & -> & Hs & Hsl). cbn [mbind zres_bind].
  destruct (16 <=? s) eqn:E; boolify; [done|]. destruct (Hsl ltac:(lia)) as (fc & fs & Hfc & Hfs & Hb0 & [sz Hsz] & [v Hv]).
  unfold arr_get. rewrite Hfc, Hfs. cbn [mbind zres_bind]. destruct (ZNSYMS <=? _) eqn:E1; boolify; [done|]. rewrite Hsz. cbn [mbind zres_bind].
  destruct (negb (sz =? s)); [done|]. rewrite Hv. cbn. split; [by apply (Hsym _ _ Hv)|]. apply drop_bits; [done|lia].
Qed.

Lemma decode_safe h z : bits_ok z -> table_ok h ->
  zsafe (fun r => 0 <= r.1 < 288 /\ reads z r.2) (zhuffman_decode h z).
Proof.
  intros Hb Ht. unfold zhuffman_decode.
  assert (H1 : zsafe (fun z1 => reads z z1 /\ 16 <= num_bits z1) (if num_bits z <? 16 then
         if zeof z then
           if negb (hit_zeof_once z) then ZOk (set_hit true (set_bits (zbuffer z) (num_bits z + 16) (code_buffer z) z))
           else ZFail
         else ZOk (fill_bits 4 z)
       else ZOk z)).
  { pose proof (proj1 Hb) as Hn. destruct (_ <? 16) eqn:E; boolify; [|split; [by apply reads_refl|lia]]. unfold zeof. destruct (zbuffer z) eqn:Ez.
    - destruct (negb _); [|done]. split; [|cbn; lia]. split; [|split; [done|]].
      + split; cbn [num_bits code_buffer set_bits set_hit]; [lia|]. destruct Hb as [_ Hc]. rewrite Z.pow_add_r by lia. change (2 ^ 16) with 65536. lia.
      + unfold bits_left. cbn [zbuffer code_buffer set_bits set_hit]. by rewrite Ez.
    - destruct (fill_bits_reads 4 z Hb) as (Hr & H25 & _); [lia|lia|]. split; [done|lia]. }
  eapply zsafe_bind; [exact H1|]. intros z1 [Hr H16]. cbv zeta.
  destruct (fast h !! Z.land (code_buffer z1) ZFAST_MASK) as [b|] eqn:Ef.
  - change (default 0 (Some b)) with b. destruct (proj1 Ht _ _ Ef) as [Hs Hv]. rewrite (proj2 (Z.eqb_neq b 0)) by (by apply fast_entry_nonzero). cbn.
    split; [done|]. eapply reads_trans; [exact Hr|]. apply drop_bits; [apply Hr|lia].
  - change (negb (default 0 None =? 0)) with false. cbv iota. eapply zsafe_weaken; [apply slowpath_safe; [apply Hr|done|done|done]|].
    intros [v z2] [Hv Hr2]. split; [done|]. by eapply reads_trans.
Qed.

(** ** Output *)

Section Output.
Context (malloc_ok : Z -> bool).

Definition out_ok (z : zbuf) : Prop := zlen z <= zout_size z <= UINT_MAX /\ 1 <= zout_size z.

(** Only the output has changed, and it has not shrunk. *)
Definition writes_out (a a' : zbuf) : Prop :=
  out_ok a' /\ zbuffer a' = zbuffer a /\ num_bits a' = num_bits a /\ code_buffer a' = code_buffer a
  /\ z_length a' = z_length a /\ z_distance a' = z_distance a /\ zlen a <= zlen a'.

Lemma writes_out_refl a : out_ok a -> writes_out a a.
Proof. by repeat split; try apply H. Qed.

Lemma writes_out_trans a b c : writes_out a b -> writes_out b c -> writes_out a c.
Proof.
  intros (_ & H1 & H2 & H3 & H4 & H5 & H6) (Ho & G1 & G2 & G3 & G4 & G5 & G6). split; [done|]. repeat split; try congruence. lia.
Qed.

Lemma grow_limit_safe fuel : forall limit need, 1 <= limit <= UINT_MAX -> need <= UINT_MAX -> UINT_MAX < limit * 2 ^ Z.of_nat fuel ->
  zsafe (fun l => need <= l <= UINT_MAX /\ limit <= l) (grow_limit fuel limit need).
Proof.
  induction fuel as [|fuel IH]; intros limit need Hl Hn Hf; cbn [grow_limit]; destruct (limit <? need) eqn:E; boolify; try (cbn; lia).
  destruct (_ <? limit) eqn:E2; boolify; [done|]. change (UINT_MAX / 2) with 2147483647 in E2.
  unfold u32. rewrite Z.mod_small by (change (2 ^ 32) with 4294967296; lia). eapply zsafe_weaken; [apply IH|].
  - unfold UINT_MAX in *. lia.
  - done.
  - replace (Z.of_nat (S fuel)) with (Z.of_nat fuel + 1) in Hf by lia. rewrite Z.pow_add_r in Hf by lia. change (2 ^ 1) with 2 in Hf. lia.
  - cbn. lia.
Qed.

Lemma zexpand_safe n z : out_ok z -> 0 <= n -> zsafe (fun z' => writes_out z z' /\ zlen z' = zlen z /\ zlen z + n <= zout_size z') (zexpand malloc_ok n z).
Proof.
  intros [Ho H1] Hn. unfold zexpand. destruct (negb _); [done|]. cbv zeta. assert (H0 : 0 <= zlen z) by (unfold zlen; lia).
  unfold UINT_MAX in *. unfold u32. rewrite !Z.mod_small by (change (2 ^ 32) with 4294967296; lia). destruct (_ <? n) eqn:E; boolify; [done|].
  eapply zsafe_bind; [apply grow_limit_safe|].
  - unfold UINT_MAX. lia.
  - unfold UINT_MAX. lia.
  - unfold UINT_MAX. change (2 ^ Z.of_nat 33) with 8589934592. lia.
  - intros l [Hl Hlz]. destruct (malloc_ok l); [|done]. cbn. split_and!; [|done|lia]. split; [|done]. unfold out_ok, zlen in *. cbn [zout zout_size set_zout]. unfold UINT_MAX in *. lia.
Qed.

Lemma zput_safe s z : out_ok z -> zlen z + Z.of_nat (length s) <= zout_size z ->
  exists z', zput s z = ZOk z' /\ writes_out z z' /\ zlen z' = zlen z + Z.of_nat (length s) /\ zout_size z' = zout_size z.
Proof.
  intros [Ho H1] Hs. unfold zput. rewrite (proj2 (Z.leb_le _ _) Hs). eexists. split; [done|].
  assert (Hl : zlen (set_zout (zout z ++ s) (zout_size z) z) = zlen z + Z.of_nat (length s)) by (unfold zlen; cbn [zout set_zout]; rewrite length_app; lia).
  split_and!; [|done|done]. split; [|repeat split; lia]. unfold out_ok. rewrite Hl. cbn [zout_size set_zout]. lia.
Qed.

Lemma zcopy_safe dist : (1 <= dist)%nat -> forall len z, out_ok z -> Z.of_nat dist <= zlen z -> zlen z + Z.of_nat len <= zout_size z ->
  exists z', zcopy len dist z = ZOk z' /\ writes_out z z' /\ zlen z' = zlen z + Z.of_nat len.
Proof.
  intros Hd. induction len as [|len IH]; intros z Ho Hdist Hs; cbn [zcopy].
  - exists z. split; [done|]. split; [by apply writes_out_refl|lia].
  - destruct (lookup_lt_is_Some_2 (zout z) (length (zout z) - dist)) as [v ->]; [unfold zlen in *; lia|].
    destruct (zput_safe [v] z Ho) as (z1 & -> & Hw & Hl & Hz); [cbn; lia|]. cbn [mbind zres_bind length] in *.
    destruct (IH z1) as (z2 & -> & Hw2 & Hl2); [apply Hw|lia|lia|]. exists z2. split; [done|]. split; [by eapply writes_out_trans|lia].
Qed.

(** ** Blocks *)

Definition zok (a : zbuf) : Prop := bits_ok a /\ out_ok a.

Definition advances (a a' : zbuf) : Prop :=
  zok a' /\ z_length a' = z_length a /\ z_distance a' = z_distance a /\ bits_left a' <= bits_left a /\ zlen a <= zlen a'.

Lemma advances_refl a : zok a -> advances a a.
Proof. by repeat split; try apply H. Qed.

Lemma advances_trans a b c : advances a b -> advances b c -> advances a c.
Proof. intros (_ & H1 & H2 & H3 & H4) (Hz & G1 & G2 & G3 & G4). split; [done|]. repeat split; try congruence; lia. Qed.

Lemma reads_advances a a' : out_ok a -> reads a a' -> advances a a' /\ zlen a' = zlen a.
Proof.
  intros Ho (Hb & (H1 & H2 & H3 & H4) & Hl). assert (Hz : zlen a' = zlen a) by (unfold zlen; by rewrite H1). split; [|done].
  split; [split; [done|unfold out_ok; by rewrite Hz, H2]|]. repeat split; [done|done|done|lia].
Qed.

Lemma writes_advances a a' : bits_ok a -> writes_out a a' -> advances a a'.
Proof.
  intros Hb (Ho & H1 & H2 & H3 & H4 & H5 & H6). assert (Hl : bits_left a' = bits_left a) by (unfold bits_left; by rewrite H1, H2, H3).
  split; [split; [unfold bits_ok; by rewrite H2, H3|done]|]. repeat split; [done|done|lia|done].
Qed.

(** A value that may need [e] more bits. *)
Definition with_extra (base e : Z) (a : zbuf) : Z * zbuf := if e =? 0 then (base, a) else let '(k, a) := zreceive e a in (base + k, a).

Lemma with_extra_spec base e a : bits_ok a -> 0 <= e <= 16 -> base <= (with_extra base e a).1 < base + 2 ^ e /\ reads a (with_extra base e a).2.
Proof.
  intros Hb He. unfold with_extra. destruct (e =? 0) eqn:E; boolify; [subst e; cbn; split; [lia|by apply reads_refl]|].
  pose proof (zreceive_reads e a Hb He) as (Hv & Hr & _). destruct (zreceive e a) as [k a']. cbn [fst snd] in *. split; [lia|done].
Qed.

(** The tables of lengths and distances. *)
Lemma length_entry z : 0 <= z <= 28 -> exists b e, tbl_get stbi_zlength_base z = ZOk b /\ tbl_get stbi_zlength_extra z = ZOk e /\ 3 <= b <= 258 /\ 0 <= e <= 5.
Proof.
  intros Hz. assert (Hc : below 29 (fun z => match tbl_get stbi_zlength_base z, tbl_get stbi_zlength_extra z with
    | ZOk b, ZOk e => (3 <=? b) && (b <=? 258) && (0 <=? e) && (e <=? 5) | _, _ => false end) = true) by (vm_compute; reflexivity).
  apply (below_spec _ _ z) in Hc; [|lia]. revert Hc. cbv beta. destruct (tbl_get _ z) as [b| | |]; [|done..]. destruct (tbl_get _ z) as [e| | |]; [|done..].
  intros Hc. exists b, e. boolify. split_and!; [done|done|lia..].
Qed.

Lemma distance_entry z : 0 <= z <= 29 -> exists b e, tbl_get stbi_zdist_base z = ZOk b /\ tbl_get stbi_zdist_extra z = ZOk e /\ 1 <= b /\ 0 <= e <= 13.
Proof.
  intros Hz. assert (Hc : below 30 (fun z => match tbl_get stbi_zdist_base z, tbl_get stbi_zdist_extra z with
    | ZOk b, ZOk e => (1 <=? b) && (0 <=? e) && (e <=? 13) | _, _ => false end) = true) by (vm_compute; reflexivity).
  apply (below_spec _ _ z) in Hc; [|lia]. revert Hc. cbv beta. destruct (tbl_get _ z) as [b| | |]; [|done..]. destruct (tbl_get _ z) as [e| | |]; [|done..].
  intros Hc. exists b, e. boolify. split_and!; [done|done|lia..].
Qed.

(** The copy of a match. *)
Lemma copy_safe len dist a : zok a -> 3 <= len -> 1 <= dist <= zlen a ->
  zsafe (fun r : bool * zbuf => advances a r.2 /\ (r.1 = false -> zlen a < zlen r.2))
    (a ← (if zout_size a - zlen a <? len then zexpand malloc_ok len a else ZOk a);
     a ← (if dist =? 1 then
            match zout a !! (length (zout a) - 1)%nat with
            | Some v => zput (replicate (Z.to_nat len) v) a
            | None => ZOob
            end
          else zcopy (Z.to_nat len) (Z.to_nat dist) a);
     ZOk (false, a)).
Proof.
  intros [Hb Ho] Hlen Hd.
  assert (H1 : zsafe (fun z' => writes_out a z' /\ zlen z' = zlen a /\ zlen a + len <= zout_size z') (if zout_size a - zlen a <? len then zexpand malloc_ok len a else ZOk a)).
  { destruct (_ <? len) eqn:E; boolify; [apply zexpand_safe; [done|lia]|]. split; [by apply writes_out_refl|]. split; [done|lia]. }
  eapply zsafe_bind; [exact H1|]. intros a1 (Hw & Hl & Hs).
  assert (H2 : exists a2, (if dist =? 1 then match zout a1 !! (length (zout a1) - 1)%nat with
            | Some v => zput (replicate (Z.to_nat len) v) a1 | None => ZOob end
          else zcopy (Z.to_nat len) (Z.to_nat dist) a1) = ZOk a2 /\ writes_out a1 a2 /\ zlen a2 = zlen a1 + len).
  { destruct (dist =? 1) eqn:E; boolify.
    - destruct (lookup_lt_is_Some_2 (zout a1) (length (zout a1) - 1)) as [v ->]; [unfold zlen in *; lia|].
      destruct (zput_safe (replicate (Z.to_nat len) v) a1) as (a2 & -> & Hw2 & Hl2 & _); [apply Hw|rewrite length_replicate; lia|].
      exists a2. split; [done|]. split; [done|]. rewrite Hl2, length_replicate. lia.
    - destruct (zcopy_safe (Z.to_nat dist)) with (len := Z.to_nat len) (z := a1) as (a2 & -> & Hw2 & Hl2); [lia|apply Hw|lia|lia|].
      exists a2. split; [done|]. split; [done|lia]. }
  destruct H2 as (a2 & -> & Hw2 & Hl2). cbn. split; [|lia]. apply writes_advances; [done|]. by eapply writes_out_trans.
Qed.

Lemma huffman_symbol_safe a : zok a -> table_ok (z_length a) -> table_ok (z_distance a) ->
  zsafe (fun r : bool * zbuf => advances a r.2 /\ (r.1 = false -> zlen a < zlen r.2)) (huffman_symbol malloc_ok a).
Proof.
  intros [Hb Ho] Htl Htd. unfold huffman_symbol. eapply zsafe_bind; [by apply decode_safe|]. intros [z a1] [Hz Hr]. cbn [fst snd] in *.
  destruct (reads_advances a a1 Ho Hr) as [Had Hzl]. destruct Had as ([Hb1 Ho1] & Hl1 & Hd1 & Hbl1 & _).
  destruct (z <? 256) eqn:E; boolify.
  - assert (H1 : zsafe (fun z' => writes_out a1 z' /\ zlen z' = zlen a1 /\ zlen a1 + 1 <= zout_size z') (if zout_size a1 <=? zlen a1 then zexpand malloc_ok 1 a1 else ZOk a1)).
    { destruct (_ <=? _) eqn:E1; boolify; [apply zexpand_safe; [done|lia]|]. split; [by apply writes_out_refl|]. split; [done|lia]. }
    eapply zsafe_bind; [exact H1|]. intros a2 (Hw & Hl & Hs). destruct (zput_safe [zb z] a2) as (a3 & -> & Hw3 & Hl3 & _); [apply Hw|cbn; lia|].
    cbn [length] in Hl3. cbn. split; [|lia]. eapply advances_trans; [by apply reads_advances|]. apply writes_advances; [done|]. by eapply writes_out_trans.
  - destruct (z =? 256) eqn:E2; boolify.
    + destruct (_ && _); [done|]. cbn. split; [by apply reads_advances|done].
    + destruct (286 <=? z) eqn:E3; boolify; [done|]. cbv zeta.
      destruct (length_entry (z - 257)) as (base & e & -> & -> & Hbase & He); [lia|]. cbn [mbind zres_bind].
      change (if e =? 0 then (base, a1) else let '(k, a) := zreceive e a1 in (base + k, a)) with (with_extra base e a1).
      destruct (with_extra_spec base e a1 Hb1 ltac:(lia)) as [Hlen Hr2]. destruct (with_extra base e a1) as [len a2]. cbn [fst snd] in *.
      destruct (reads_advances a1 a2 Ho1 Hr2) as [Had2 Hzl2].
      eapply zsafe_bind; [apply decode_safe; [apply Hr2|]|].
      { destruct Had2 as (_ & _ & -> & _). by rewrite Hd1. }
      intros [z' a3] [Hz' Hr3]. cbn [fst snd] in *. destruct (30 <=? z') eqn:E4; boolify; [done|].
      destruct (distance_entry z') as (dbase & de & -> & -> & Hdb & Hde); [lia|]. cbn [mbind zres_bind].
      change (if de =? 0 then (dbase, a3) else let '(k, a) := zreceive de a3 in (dbase + k, a)) with (with_extra dbase de a3).
      destruct (with_extra_spec dbase de a3 (proj1 Hr3) ltac:(lia)) as [Hdist Hr4]. destruct (with_extra dbase de a3) as [dist a4]. cbn [fst snd] in *.
      destruct (zlen a4 <? dist) eqn:E5; boolify; [done|].
      assert (Hr14 : reads a1 a4) by (eapply reads_trans; [exact Hr2|]; by eapply reads_trans).
      destruct (reads_advances a1 a4 Ho1 Hr14) as [Had4 Hzl4].
      eapply zsafe_weaken; [apply copy_safe; [apply Had4|lia|lia]|]. intros [end_ a5] [Had5 Hlt]. cbn [fst snd] in *.
      split; [|intros H; specialize (Hlt H); lia]. eapply advances_trans; [by apply reads_advances|]. by eapply advances_trans.
Qed.

(** The output bounds the number of symbols. *)
Lemma huffman_block_safe fuel : forall a, zok a -> table_ok (z_length a) -> table_ok (z_distance a) -> UINT_MAX - zlen a < Z.of_nat fuel ->
  zsafe (advances a) (parse_huffman_block malloc_ok fuel a).
Proof.
  induction fuel as [|fuel IH]; intros a Hz Hl Hd Hf; [destruct (proj2 Hz); lia|]. cbn [parse_huffman_block].
  eapply zsafe_bind; [by apply huffman_symbol_safe|]. intros [[] a1] [Had Hlt]; cbn [fst snd] in *; [done|]. specialize (Hlt eq_refl).
  destruct Had as (Hz1 & Hl1 & Hd1 & Hrest). eapply zsafe_weaken; [apply IH; [done|by rewrite Hl1|by rewrite Hd1|lia]|].
  intros a2 Had2. by eapply advances_trans.
Qed.

(** ** Tables *)

Definition length_ok (s : Z) : Prop := 0 <= s <= 15.

Lemma read_codelengths_spec : forall ls sizes a, bits_ok a -> Forall length_ok sizes ->
  Forall length_ok (read_codelengths ls sizes a).1 /\ length (read_codelengths ls sizes a).1 = length sizes /\ reads a (read_codelengths ls sizes a).2.
Proof.
  induction ls as [|i ls IH]; intros sizes a Hb Hs; cbn [read_codelengths]; [split_and!; [done|done|by apply reads_refl]|].
  pose proof (zreceive_reads 3 a Hb ltac:(lia)) as (Hv & Hr & _). destruct (zreceive 3 a) as [s a1]. cbn [fst snd] in *.
  destruct (IH (<[Z.to_nat i := s]> sizes) a1 (proj1 Hr)) as (H1 & H2 & H3).
  { apply Forall_insert; [done|]. change (2 ^ 3) with 8 in Hv. unfold length_ok. lia. }
  split_and!; [done|by rewrite H2, length_insert|by eapply reads_trans].
Qed.

Lemma read_lencodes_safe h ntot : table_ok h -> ntot <= 455 -> forall fuel lencodes a,
  bits_ok a -> Forall length_ok lencodes -> ntot - Z.of_nat (length lencodes) <= Z.of_nat fuel ->
  zsafe (fun r => Forall length_ok r.1 /\ reads a r.2) (read_lencodes fuel h ntot lencodes a).
Proof.
  intros Hh Hn. induction fuel as [|fuel IH]; intros lencodes a Hb Hl Hf; cbn [read_lencodes]; cbv zeta; destruct (_ <? ntot) eqn:E; boolify;
    try (cbn; split; [done|by apply reads_refl]); [lia|].
  eapply zsafe_bind; [by apply decode_safe|]. intros [c a1] [Hc Hr]. cbn [fst snd] in *. destruct (19 <=? c) eqn:E1; boolify; [done|].
  destruct (c <? 16) eqn:E2; boolify.
  - rewrite (proj2 (Z.ltb_lt _ 455)) by lia. eapply zsafe_weaken; [apply IH; [apply Hr| |rewrite length_app; cbn [length]; lia]|].
    { apply Forall_app; split; [done|]. constructor; [|done]. unfold length_ok. lia. }
    intros r [Hl2 Hr2]. split; [done|by eapply reads_trans].
  - set (m := if c =? 16 then _ else _).
    assert (H1 : zsafe (fun r : Z * Z * zbuf => 3 <= r.1.1 /\ length_ok r.1.2 /\ reads a r.2) m).
    { unfold m. assert (Hrep : forall n k, 0 <= n <= 16 -> 3 <= k -> 3 <= (zreceive n a1).1 + k /\ reads a (zreceive n a1).2).
      { intros n k Hn0 Hk. pose proof (zreceive_reads n a1 (proj1 Hr) Hn0) as (Hv & Hr2 & _). split; [lia|by eapply reads_trans]. }
      pose proof (Hrep 2 3 ltac:(lia) ltac:(lia)) as H2. pose proof (Hrep 3 3 ltac:(lia) ltac:(lia)) as H3. pose proof (Hrep 7 11 ltac:(lia) ltac:(lia)) as H7.
      destruct (c =? 16); [|destruct (c =? 17)].
      - destruct (zreceive 2 a1) as [k a2]. cbn [fst snd] in *. destruct (last lencodes) as [f|] eqn:El; [|done]. cbn. split; [lia|]. split; [|tauto].
        apply last_Some in El as [l' ->]. apply Forall_app in Hl as [_ Hl]. by apply Forall_inv in Hl.
      - destruct (zreceive 3 a1) as [k a2]. cbn in *. unfold length_ok. split; [lia|]. split; [lia|tauto].
      - destruct (zreceive 7 a1) as [k a2]. cbn in *. unfold length_ok. split; [lia|]. split; [lia|tauto]. }
    eapply zsafe_bind; [exact H1|]. intros [[n fill] a2] (Hn3 & Hfill & Hr2). cbn [fst snd] in *. destruct (_ <? n) eqn:E3; boolify; [done|].
    rewrite (proj2 (Z.leb_le _ 455)) by lia. eapply zsafe_weaken; [apply IH; [apply Hr2| |rewrite length_app, length_replicate; lia]|].
    { apply Forall_app; split; [done|]. by apply Forall_replicate. }
    intros r [Hl2 Hr3]. split; [done|by eapply reads_trans].
Qed.

Definition tables_ok (a : zbuf) : Prop := symbols_ok (z_length a) /\ symbols_ok (z_distance a).

Definition tables_built (a a' : zbuf) : Prop :=
  zok a' /\ table_ok (z_length a') /\ table_ok (z_distance a') /\ bits_left a' <= bits_left a /\ zlen a' = zlen a.

Lemma set_tables_built a a1 l d : out_ok a -> reads a a1 -> table_ok l -> table_ok d -> tables_built a (set_tables l d a1).
Proof.
  intros Ho Hr Hl Hd. destruct (reads_advances a a1 Ho Hr) as [([Hb Ho1] & _ & _ & H1 & H2) Hz]. split; [by split|]. by split_and!.
Qed.

Lemma block_tables_safe type a : zok a -> tables_ok a -> zsafe (tables_built a) (block_tables type a).
Proof.
  intros [Hb Ho] [Hl Hd]. unfold block_tables. destruct (type =? 1).
  - eapply zsafe_bind; [apply zbuild_huffman_safe; [|apply Z.leb_le; vm_compute; reflexivity|done]|].
    { unfold stbi_zdefault_length. rewrite !Forall_app. split_and!; apply Forall_replicate; lia. }
    intros l Htl. eapply zsafe_bind; [apply zbuild_huffman_safe; [|apply Z.leb_le; vm_compute; reflexivity|done]|].
    { apply Forall_replicate. lia. }
    intros d Htd. apply set_tables_built; [done|by apply reads_refl|done|done].
  - unfold compute_huffman_codes. pose proof (zreceive_reads 5 a Hb ltac:(lia)) as (Hv1 & Hr1 & _). destruct (zreceive 5 a) as [hlit a1]. cbn [fst snd] in *.
    pose proof (zreceive_reads 5 a1 (proj1 Hr1) ltac:(lia)) as (Hv2 & Hr2 & _). destruct (zreceive 5 a1) as [hdist a2]. cbn [fst snd] in *.
    pose proof (zreceive_reads 4 a2 (proj1 Hr2) ltac:(lia)) as (Hv3 & Hr3 & _). destruct (zreceive 4 a2) as [hclen a3]. cbn [fst snd] in *. cbv zeta.
    change (2 ^ 5) with 32 in *.
    destruct (read_codelengths_spec (take (Z.to_nat (hclen + 4)) length_dezigzag) (replicate 19 0) a3 (proj1 Hr3)) as (Hs & Hslen & Hr4).
    { apply Forall_replicate. unfold length_ok. lia. }
    destruct (read_codelengths _ _ a3) as [sizes a4]. cbn [fst snd] in *. rewrite length_replicate in Hslen.
    eapply zsafe_bind; [apply zbuild_huffman_safe; [exact Hs|lia|]|].
    { intros c v. cbn. by rewrite lookup_empty. }
    intros h Hh. eapply zsafe_bind; [apply (read_lencodes_safe h (hlit + 257 + (hdist + 1)) Hh); [lia|apply Hr4|constructor|cbn [length]; lia]|].
    intros [lencodes a5] [Hlc Hr5]. cbn [fst snd] in *. destruct (negb _); [done|].
    assert (Hra : reads a a5) by (repeat (eapply reads_trans; [eassumption|]); apply reads_refl, Hr5).
    assert (Htab : z_length a5 = z_length a /\ z_distance a5 = z_distance a) by (split; apply Hra). destruct Htab as [-> Htd].
    eapply zsafe_bind; [apply zbuild_huffman_safe; [by apply Forall_take|rewrite length_take; lia|done]|].
    intros l Htl. cbn [z_distance set_tables]. rewrite Htd.
    eapply zsafe_bind; [apply zbuild_huffman_safe; [by apply Forall_take, Forall_drop|rewrite length_take; lia|done]|].
    intros d Htdd. cbn [z_length set_tables]. change (set_tables l d (set_tables l (z_distance a) a5)) with (set_tables l d a5).
    by apply set_tables_built.
Qed.

(** ** Stored blocks *)

Lemma drain_header_spec : forall k fuel header a, bits_ok a -> num_bits a = 8 * Z.of_nat k -> (k <= fuel)%nat ->
  exists l, drain_header fuel header a = ZOk (header ++ l, set_bits (zbuffer a) 0 0 a) /\ length l = k
    /\ (code_buffer a = 0 -> l = replicate k 0) /\ Forall (fun h => 0 <= h < 256) l.
Proof.
  induction k as [|k IH]; intros fuel header a Hb Hn Hk; destruct fuel as [|fuel]; [| |lia|]; cbn [drain_header].
  1,2: rewrite (proj2 (Z.ltb_ge 0 _)) by lia; exists []; rewrite app_nil_r; split; [|by repeat split];
    destruct Hb as [_ Hc]; rewrite Hn in Hc; change (2 ^ (8 * Z.of_nat 0)) with 1 in Hc;
    destruct a; cbn in *; subst; replace code_buffer with 0 by lia; done.
  rewrite (proj2 (Z.ltb_lt 0 _)) by lia. destruct (drop_bits a 8 Hb) as [Hd _]; [lia|].
  edestruct (IH fuel (header ++ [Z.land (code_buffer a) 255]) (set_bits (zbuffer a) (num_bits a - 8) (Z.shiftr (code_buffer a) 8) a))
    as (l & Hl & Hlen & Hz & Hr); [apply Hd|cbn [num_bits set_bits]; lia|lia|].
  exists (Z.land (code_buffer a) 255 :: l). rewrite Hl. rewrite <- app_assoc. split; [done|]. split; [cbn; lia|]. split.
  - intros H0. cbn [code_buffer set_bits] in Hz. rewrite H0 in *. cbn. f_equal. by apply Hz.
  - constructor; [|done]. change 255 with (Z.ones 8). rewrite Z.land_ones by lia. apply Z.mod_pos_bound. lia.
Qed.

Lemma fill_header_spec : forall fuel header a, (length header <= 4)%nat -> (4 - length header <= fuel)%nat -> num_bits a = 0 -> code_buffer a = 0 ->
  exists l, fill_header fuel header a = (header ++ l, set_bits (drop (length l) (zbuffer a)) 0 0 a) /\ (length header + length l = 4)%nat
    /\ (zbuffer a = [] -> l = replicate (4 - length header) 0) /\ Forall (fun h => 0 <= h < 256) l.
Proof.
  assert (Hz : forall (a : zbuf), num_bits a = 0 -> code_buffer a = 0 -> set_bits (zbuffer a) 0 0 a = a) by (by intros [] ? ?; cbn in *; subst).
  induction fuel as [|fuel IH]; intros header a Hh Hf Hn Hc; cbn [fill_header].
  - exists []. rewrite app_nil_r. cbn [length]. rewrite drop_0, Hz by done. split; [done|]. split; [lia|]. split; [|done]. by replace (4 - length header)%nat with 0%nat by lia.
  - destruct (_ <? 4)%nat eqn:E; boolify.
    2:{ exists []. rewrite app_nil_r. cbn [length]. rewrite drop_0, Hz by done. split; [done|]. split; [lia|]. split; [|done]. by replace (4 - length header)%nat with 0%nat by lia. }
    unfold zget8. destruct (zbuffer a) as [|b r] eqn:Eb.
    + destruct (IH (header ++ [0]) a) as (l & -> & Hl & Hz0 & Hr); [rewrite length_app; cbn; lia|rewrite length_app; cbn; lia|done|done|].
      exists (0 :: l). rewrite <- app_assoc, Eb, !drop_nil. split; [done|]. rewrite length_app in *. cbn [length] in *. split; [lia|]. split; [|by constructor]. intros _.
      rewrite (Hz0 Eb) at 1. replace (4 - length header)%nat with (S (4 - (length header + 1))) by lia. done.
    + destruct (IH (header ++ [bz b]) (set_bits r (num_bits a) (code_buffer a) a)) as (l & -> & Hl & _ & Hr); [rewrite length_app; cbn; lia|rewrite length_app; cbn; lia|done|done|].
      exists (bz b :: l). rewrite <- app_assoc. cbn [zbuffer set_bits length drop]. split; [done|]. rewrite length_app in Hl. cbn in Hl. split; [lia|]. split; [done|]. constructor; [apply bz_range|done].
Qed.

(** The header of a stored block: four bytes, and then the bit buffer is empty.
    A header that is all zeros is refused, any other uses up input. *)
Lemma stored_header_safe a : bits_ok a ->
  exists h0 h1 h2 h3 a3, (let a := if negb (Z.land (num_bits a) 7 =? 0) then (zreceive (Z.land (num_bits a) 7) a).2 else a in
      '(header, a) ← drain_header 4 [] a;
      ZOk (num_bits a <? 0, fill_header 4 header a)) = ZOk (false, ([h0; h1; h2; h3], a3))
    /\ reads a a3 /\ num_bits a3 = 0 /\ Forall (fun h => 0 <= h < 256) [h0; h1; h2; h3]
    /\ ([h0; h1; h2; h3] = [0; 0; 0; 0] \/ bits_left a3 < bits_left a).
Proof.
  intros Hb. cbv zeta. set (a1 := if negb _ then _ else _).
  assert (H7 : 0 <= Z.land (num_bits a) 7 < 8 /\ num_bits a - Z.land (num_bits a) 7 = 8 * (num_bits a / 8)).
  { change 7 with (Z.ones 3). rewrite Z.land_ones by lia. change (2 ^ 3) with 8. pose proof (proj1 Hb). dlia. }
  assert (H1 : reads a a1 /\ num_bits a1 = 8 * Z.of_nat (Z.to_nat (num_bits a / 8))).
  { pose proof (proj1 Hb). rewrite Z2Nat.id by dlia. unfold a1. destruct (negb _) eqn:E.
    - destruct (zreceive_reads (Z.land (num_bits a) 7) a Hb) as (_ & Hr & _ & _ & Hn); [lia|]. split; [done|]. rewrite Hn by dlia. lia.
    - apply negb_false_iff in E. boolify. split; [by apply reads_refl|lia]. }
  destruct H1 as [Hr Hk]. set (k := Z.to_nat (num_bits a / 8)) in *.
  assert (Hk4 : (k <= 4)%nat) by (unfold k; pose proof (proj1 Hb); dlia).
  destruct (drain_header_spec k 4 [] a1 (proj1 Hr) Hk Hk4) as (l1 & -> & Hl1 & Hz1 & Hf1). cbn [app mbind zres_bind num_bits set_bits]. change (0 <? 0) with false.
  destruct (fill_header_spec 4 l1 (set_bits (zbuffer a1) 0 0 a1)) as (l2 & -> & Hl2 & Hz2 & Hf2); [lia|lia|done|done|].
  cbn [zbuffer set_bits] in *. set (a3 := set_bits _ 0 0 _).
  assert (Hlt : l1 ++ l2 = [0;0;0;0] \/ bits_left a3 < bits_left a1).
  { unfold bits_left, a3. cbn [zbuffer code_buffer num_bits set_bits]. destruct (zbuffer a1) as [|b r] eqn:Eb.
    - rewrite drop_nil, (Hz2 eq_refl). destruct (Z.eq_dec (code_buffer a1) 0) as [Hc|Hc].
      + left. rewrite Hl1, (Hz1 Hc). clear -Hk4. do 5 (destruct k as [|k]; [done|]). lia.
      + right. change (bit_len 0) with 0. unfold bit_len. rewrite (proj2 (Z.eqb_neq _ 0) Hc). pose proof (Z.log2_nonneg (code_buffer a1)). lia.
    - right. assert (Hd : length (drop (length l2) (b :: r)) = (length (b :: r) - length l2)%nat) by apply length_drop.
      destruct (drop (length l2) (b :: r)) as [|b' r']; [change (bit_len 0) with 0; cbn [length]; lia|]. cbn [length] in *. lia. }
  assert (Hr3 : reads a a3).
  { destruct Hr as (Hb1 & Hs1 & Hle). split; [by repeat split|]. split; [exact Hs1|]. destruct Hlt as [Hzero|]; [|lia]. etransitivity; [|exact Hle].
    unfold bits_left, a3. cbn [zbuffer code_buffer num_bits set_bits].
    assert (Hd : length (drop (length l2) (zbuffer a1)) = (length (zbuffer a1) - length l2)%nat) by apply length_drop.
    pose proof (bit_len_nonneg (code_buffer a1)). destruct (drop (length l2) (zbuffer a1)) as [|b' r'] eqn:E; cbn [length] in Hd.
    - change (bit_len 0) with 0. destruct (zbuffer a1); lia.
    - destruct (zbuffer a1); [cbn in Hd; lia|]. cbn [length] in *. lia. }
  assert (Hlen : length (l1 ++ l2) = 4%nat) by (rewrite length_app; lia).
  assert (Hall : Forall (fun h => 0 <= h < 256) (l1 ++ l2)) by by apply Forall_app.
  destruct (l1 ++ l2) as [|h0 [|h1 [|h2 [|h3 [|]]]]]; try done. exists h0, h1, h2, h3, a3.
  split; [done|]. split; [done|]. split; [done|]. split; [done|]. destruct Hlt as [?|Hlt]; [by left|right]. pose proof (proj2 (proj2 Hr)). lia.
Qed.

Lemma uncompressed_block_safe a : zok a ->
  zsafe (fun a' => advances a a' /\ bits_left a' < bits_left a) (parse_uncompressed_block malloc_ok a).
Proof.
  intros [Hb Ho]. destruct (stored_header_safe a Hb) as (h0 & h1 & h2 & h3 & a3 & He & Hr & Hn & Hall & Hlt).
  unfold parse_uncompressed_block. cbv zeta in *. destruct (drain_header 4 [] _) as [[header a2]| | |]; try done. cbn [mbind zres_bind] in *.
  assert (Hneg : (num_bits a2 <? 0) = false) by congruence. assert (Hfill : fill_header 4 header a2 = ([h0; h1; h2; h3], a3)) by congruence.
  rewrite Hneg, Hfill. destruct (negb _) eqn:E; [done|]. apply negb_false_iff in E. boolify.
  rewrite !Forall_cons in Hall. destruct Hall as (R0 & R1 & R2 & R3 & _).
  assert (Hlt' : bits_left a3 < bits_left a). { destruct Hlt as [Hz|]; [|done]. injection Hz as ? ? ? ?. subst. vm_compute in E. done. }
  destruct (_ <? h1 * 256 + h0) eqn:E1; boolify; [done|]. set (len := h1 * 256 + h0) in *.
  destruct (reads_advances a a3 Ho Hr) as [Had Hzl]. pose proof Had as [[Hb3 Ho3] _].
  assert (H1 : zsafe (fun z' => writes_out a3 z' /\ zlen z' = zlen a3 /\ zlen a3 + len <= zout_size z') (if zout_size a3 <? zlen a3 + len then zexpand malloc_ok len a3 else ZOk a3)).
  { destruct (_ <? zlen a3 + len) eqn:E2; boolify; [apply zexpand_safe; [done|lia]|]. split; [by apply writes_out_refl|]. split; [done|lia]. }
  eapply zsafe_bind; [exact H1|]. intros a4 (Hw & Hl4 & Hs4).
  assert (Hbuf : zbuffer a4 = zbuffer a3) by apply Hw.
  destruct (zput_safe (take (Z.to_nat len) (zbuffer a4)) a4) as (a5 & -> & Hw5 & Hl5 & _); [apply Hw|rewrite length_take, Hbuf; lia|]. cbn.
  assert (Had5 : advances a a5) by (eapply advances_trans; [exact Had|]; apply writes_advances; [done|]; by eapply writes_out_trans).
  destruct Had5 as (([Hb5n Hb5c] & Ho5) & Ht1 & Ht2 & Hle5 & Hz5).
  assert (Hn5 : num_bits a5 = 0) by (destruct Hw5 as (_ & _ & -> & _); by destruct Hw as (_ & _ & -> & _)).
  assert (Hc5 : code_buffer a5 = 0) by (rewrite Hn5 in Hb5c; change (2 ^ 0) with 1 in Hb5c; lia).
  set (a6 := set_bits _ _ _ a5). assert (Hle6 : bits_left a6 <= bits_left a5).
  { unfold bits_left, a6. cbn [zbuffer code_buffer num_bits set_bits]. rewrite Hc5, Hn5. change (bit_len 0) with 0.
    pose proof (length_drop (zbuffer a5) (Z.to_nat len)) as Hd. destruct (drop (Z.to_nat len) (zbuffer a5)), (zbuffer a5); cbn [length] in *; lia. }
  assert (Hle5' : bits_left a5 = bits_left a3).
  { unfold bits_left. destruct Hw5 as (_ & -> & -> & -> & _). by destruct Hw as (_ & -> & -> & -> & _). }
  split; [|lia]. split; [split; [split; cbn [num_bits code_buffer set_bits a6]; [lia|rewrite Hn5, Hc5; done]|done]|]. repeat split; [done|done|lia|done].
Qed.

(** ** The stream *)

Lemma table_symbols z : table_ok z -> symbols_ok z.
Proof. by intros (_ & ? & _). Qed.

(** A block uses up input. *)
Lemma block_safe fuel a : zok a -> tables_ok a -> UINT_MAX < Z.of_nat fuel ->
  zsafe (fun r => zok r.2 /\ tables_ok r.2 /\ bits_left r.2 < bits_left a) (parse_block malloc_ok fuel a).
Proof.
  intros [Hb Ho] Ht Hf. unfold parse_block. pose proof (zreceive_reads 1 a Hb ltac:(lia)) as (_ & Hr1 & _). destruct (zreceive 1 a) as [final a1]. cbn [fst snd] in *.
  pose proof (zreceive_reads 2 a1 (proj1 Hr1) ltac:(lia)) as (_ & Hr2 & _ & Hlt & _). destruct (zreceive 2 a1) as [type a2]. cbn [fst snd] in *.
  destruct (reads_advances a1 a2) as [Had2 _]; [apply (reads_advances a); done|done|].
  assert (Hle1 : bits_left a1 <= bits_left a) by apply Hr1.
  assert (Ht2 : tables_ok a2) by (destruct Hr1 as (_ & (_ & _ & H1 & H2) & _), Hr2 as (_ & (_ & _ & H3 & H4) & _); unfold tables_ok; by rewrite H3, H4, H1, H2).
  apply (zsafe_bind (fun a3 => zok a3 /\ tables_ok a3 /\ bits_left a3 < bits_left a)); [|done].
  destruct (type =? 0) eqn:E0; boolify.
  - eapply zsafe_weaken; [apply uncompressed_block_safe, Had2|]. intros a3 [(Hz & Hl & Hd & _) Hlt3]. split; [done|].
    split; [unfold tables_ok; by rewrite Hl, Hd|]. destruct Had2 as (_ & _ & _ & ? & _). lia.
  - destruct (type =? 3); [done|]. specialize (Hlt ltac:(lia) E0).
    eapply zsafe_bind; [apply block_tables_safe; [apply Had2|done]|]. intros a3 (Hz3 & Htl & Htd & Hle & Hzl).
    eapply zsafe_weaken; [apply huffman_block_safe; [done|done|done|unfold zlen in *; lia]|].
    intros a4 (Hz4 & Hl & Hd & Hle4 & _). split; [done|]. split; [|lia]. unfold tables_ok. rewrite Hl, Hd. split; by apply table_symbols.
Qed.

Lemma blocks_safe fuel : UINT_MAX < Z.of_nat fuel -> forall n a, zok a -> tables_ok a -> bits_left a < Z.of_nat n ->
  zsafe zok (parse_blocks malloc_ok n fuel a).
Proof.
  intros Hf. induction n as [|n IH]; intros a Hz Ht Hn; cbn [parse_blocks].
  - exfalso. unfold bits_left in Hn. destruct (zbuffer a); [pose proof (bit_len_nonneg (code_buffer a)); lia|]. destruct Hz as [[? _] _]. lia.
  - eapply zsafe_bind; [by apply block_safe|]. intros [[] a1] (Hz1 & Ht1 & Hlt); cbn [fst snd] in *; [done|]. apply IH; [done|done|lia].
Qed.

(** The output bounds the symbols of a block, the input the number of blocks. *)
Definition zlib_fuel (buffer : bytes) (fuel : nat) : Prop :=
  UINT_MAX < Z.of_nat fuel /\ 8 * Z.of_nat (length buffer) < Z.of_nat fuel.

Lemma zlib_decode_safe fuel buffer size hdr :
  zlib_fuel buffer fuel -> INT_MIN <= size <= INT_MAX -> size <> 0 -> (forall n, 2 ^ 63 <= n -> malloc_ok n = false) ->
  zsafe (fun out => Z.of_nat (length out) <= UINT_MAX) (stbi_zlib_decode_malloc_guesssize_headerflag malloc_ok fuel buffer size hdr).
Proof.
  intros [Hf1 Hf2] Hs H0 Hm. unfold stbi_zlib_decode_malloc_guesssize_headerflag, INT_MIN, INT_MAX in *.
  destruct (malloc_ok (u64 size)) eqn:Em; [|done].
  assert (Hsize : 1 <= size).
  { destruct (Z_le_gt_dec 1 size) as [|Hn]; [done|]. rewrite Hm in Em; [done|]. unfold u64.
    rewrite <- (Z_mod_plus_full size 1), Z.mod_small; change (2 ^ 64) with 18446744073709551616; change (2 ^ 63) with 9223372036854775808 in *; lia. }
  apply (zsafe_bind zok); [|intros a [_ [Ho _]]; cbn; unfold zlen in Ho; lia]. unfold do_zlib, parse_zlib.
  set (a0 := Zbuf buffer 0 false 0 [] size true zhuffman_uninit zhuffman_uninit).
  assert (Hu : tables_ok a0) by (split; intros c v; cbn; by rewrite lookup_empty).
  assert (Hgoal : forall a, zlen a = 0 -> zout_size a = size -> tables_ok a -> (length (zbuffer a) <= length buffer)%nat ->
    zsafe zok (parse_blocks malloc_ok fuel fuel (set_hit false (set_bits (zbuffer a) 0 0 a)))).
  { intros a Hz Hzs Ht Hl. apply blocks_safe; [done| |done|].
    - split; [done|]. unfold out_ok, zlen in *. cbn [zout zout_size set_hit set_bits]. unfold UINT_MAX. lia.
    - unfold bits_left. cbn [zbuffer code_buffer num_bits set_hit set_bits]. destruct (zbuffer a); [change (bit_len 0) with 0; lia|lia]. }
  destruct hdr; [|by apply Hgoal].
  apply (zsafe_bind (fun a => zlen a = 0 /\ zout_size a = size /\ tables_ok a /\ (length (zbuffer a) <= length buffer)%nat)); [|naive_solver].
  unfold parse_zlib_header, zget8. cbn [zbuffer a0].
  destruct buffer as [|b0 [|b1 r]]; cbn -[Z.mul Z.add Z.modulo Z.land]; [done|done|]. destruct r; cbn -[Z.mul Z.add Z.modulo Z.land]; [done|].
  repeat (destruct (negb _); [done|]). cbn. split_and!; [done|done|exact Hu|lia].
Qed.
End Output.
