(* ===== verification/ZlibTrip.v ===== *)
(** * The zlib encoder and decoder of stb are inverse

    [Deflate] writes codes, [Inflate] reads them: what is left of the stream
    is a number ([sval]) from which both take bits at the low end. *)

From stdpp Require Import gmap.
From S2P Require Import Prelude Bits Deflate Inflate.
Local Open Scope Z_scope.

(** ** What is left to read *)

Definition sval (z : zbuf) : Z := code_buffer z + 2 ^ num_bits z * le_val (zbuffer z).
Definition sleft (z : zbuf) : Z := num_bits z + 8 * Z.of_nat (length (zbuffer z)).
Definition zok (z : zbuf) : Prop := 0 <= num_bits z <= 32 /\ 0 <= code_buffer z < 2 ^ num_bits z.

(** [z'] has read on, and nothing else. *)
Definition read_on (z z' : zbuf) : Prop := exists b n c, z' = set_bits b n c z.

Lemma read_on_refl z : read_on z z.
Proof. exists (zbuffer z), (num_bits z), (code_buffer z). by destruct z. Qed.
Lemma read_on_trans z1 z2 z3 : read_on z1 z2 -> read_on z2 z3 -> read_on z1 z3.
Proof. intros (b & n & c & ->) (b' & n' & c' & ->). by exists b', n', c'. Qed.

Lemma pow2_add_pos a b : 0 <= a -> 0 <= b -> 2 ^ (a + b) = 2 ^ a * 2 ^ b.
Proof. intros. by apply Z.pow_add_r. Qed.

Lemma pow2_le n m : 0 <= n -> n <= m -> 2 ^ n <= 2 ^ m.
Proof. intros. apply Z.pow_le_mono_r; lia. Qed.

Lemma fill_bits_spec fuel : forall z,
  zok z -> num_bits z <= 24 -> 25 - num_bits z <= 8 * Z.of_nat fuel ->
  let z' := fill_bits fuel z in
  read_on z z' /\ zok z' /\ sval z' = sval z /\ 24 < num_bits z' /\ (32 <= sleft z -> sleft z' = sleft z).
Proof.
  induction fuel as [|fuel IH]; intros z [Hn Hc] H24 Hf; [lia|]. cbn [fill_bits]. cbv zeta.
  rewrite Z.shiftl_1_l. destruct (2 ^ num_bits z <=? code_buffer z) eqn:E; boolify; [lia|].
  set (z1 := let '(b, z) := zget8 z in set_bits (zbuffer z) (num_bits z + 8) (Z.lor (code_buffer z) (u32 (Z.shiftl b (num_bits z)))) z).
  assert (H1 : read_on z z1 /\ zok z1 /\ sval z1 = sval z /\ num_bits z1 = num_bits z + 8 /\ (32 <= sleft z -> sleft z1 = sleft z)).
  { unfold z1, zget8. destruct (zbuffer z) as [|b r] eqn:Eb; cbn [set_bits zbuffer num_bits code_buffer].
    - rewrite Z.shiftl_0_l. change (u32 0) with 0. rewrite Z.lor_0_r. split; [by eexists _, _, _|].
      unfold zok, sval, sleft. rewrite Eb. cbn [set_bits zbuffer num_bits code_buffer le_val length]. rewrite Z.pow_add_r by lia.
      pose proof (pow2_le 0 (num_bits z)). split_and!; lia || nia || done.
    - pose proof (bz_range b) as Hb.
      assert (Hp : 2 ^ num_bits z <= 2 ^ 24) by (apply pow2_le; lia).
      assert (Hu : u32 (Z.shiftl (bz b) (num_bits z)) = bz b * 2 ^ num_bits z).
      { rewrite Z.shiftl_mul_pow2 by lia. apply Z.mod_small. change (2 ^ 32) with (256 * 2 ^ 24). nia. }
      rewrite Hu, lor_disjoint by lia. split; [by eexists _, _, _|].
      unfold zok, sval, sleft. rewrite Eb. cbn [set_bits zbuffer num_bits code_buffer le_val length]. rewrite Z.pow_add_r by lia.
      change (2 ^ 8) with 256. split_and!; lia || nia || done. }
  destruct H1 as (R1 & O1 & V1 & N1 & L1).
  assert (Hgoal : let z' := if num_bits z1 <=? 24 then fill_bits fuel z1 else z1 in
    read_on z z' /\ zok z' /\ sval z' = sval z /\ 24 < num_bits z' /\ (32 <= sleft z -> sleft z' = sleft z)).
  { destruct (num_bits z1 <=? 24) eqn:E1; boolify; [|split_and!; done || lia].
    destruct (IH z1) as (R2 & O2 & V2 & N2 & L2); [done|lia|lia|]. cbv zeta.
    split_and!; [by eapply read_on_trans|done|by rewrite V2|done|]. intros H. rewrite L2; rewrite L1 by done; done. }
  revert Hgoal. unfold z1. by destruct (zget8 z).
Qed.

(** Taking bits that are in the buffer. *)
Lemma take_bits_spec n z :
  zok z -> 0 <= n <= num_bits z ->
  let z' := set_bits (zbuffer z) (num_bits z - n) (Z.shiftr (code_buffer z) n) z in
  zok z' /\ sval z' = sval z / 2 ^ n /\ sleft z' = sleft z - n /\ code_buffer z mod 2 ^ n = sval z mod 2 ^ n.
Proof.
  intros [Hb Hc] Hn. unfold zok, sval, sleft. cbn [set_bits zbuffer num_bits code_buffer]. rewrite Z.shiftr_div_pow2 by lia.
  assert (Hp : 2 ^ num_bits z = 2 ^ n * 2 ^ (num_bits z - n)) by (rewrite <- Z.pow_add_r by lia; f_equal; lia).
  assert (H0 : 0 < 2 ^ n) by lia. rewrite Hp in Hc |- *. rewrite <- Z.mul_assoc. set (m := 2 ^ (num_bits z - n) * le_val (zbuffer z)).
  split_and!; [lia|lia|by apply Z.div_pos; lia|apply Z.div_lt_upper_bound; lia| |lia|].
  - rewrite (Z.mul_comm (2 ^ n) m), Z.div_add by lia. done.
  - rewrite (Z.mul_comm (2 ^ n) m), Z.mod_add by lia. done.
Qed.

Lemma zreceive_spec n z :
  zok z -> 0 <= n <= 16 ->
  let '(k, z') := zreceive n z in
  k = sval z mod 2 ^ n /\ read_on z z' /\ zok z' /\ sval z' = sval z / 2 ^ n /\ (32 <= sleft z -> sleft z' = sleft z - n).
Proof.
  intros Hz Hn. unfold zreceive. set (z0 := if (_ : bool) then _ else _).
  assert (H0 : read_on z z0 /\ zok z0 /\ sval z0 = sval z /\ n <= num_bits z0 /\ (32 <= sleft z -> sleft z0 = sleft z)).
  { unfold z0. destruct (num_bits z <? n) eqn:E; boolify; [|split_and!; [apply read_on_refl|done|done|lia|done]].
    destruct (fill_bits_spec 4 z Hz) as (R & O & V & N & L); [lia|destruct Hz; lia|]. split_and!; [done|done|done|lia|done]. }
  destruct H0 as (R & O & V & N & L). destruct (take_bits_spec n z0 O ltac:(lia)) as (O' & V' & L' & M).
  rewrite land_low by lia. rewrite M, V. split_and!; [done| |done|by rewrite V', V|intros H; rewrite L', L by done; done].
  eapply read_on_trans; [exact R|]. by eexists _, _, _.
Qed.

(** ** Decoding through the fast table *)

(** At least 16 bits, without running dry. *)
Lemma decode_fill z :
  zok z -> 32 <= sleft z ->
  exists z0, (if num_bits z <? 16 then
                if zeof z then
                  if negb (hit_zeof_once z) then ZOk (set_hit true (set_bits (zbuffer z) (num_bits z + 16) (code_buffer z) z)) else ZFail
                else ZOk (fill_bits 4 z)
              else ZOk z) = ZOk z0
    /\ read_on z z0 /\ zok z0 /\ sval z0 = sval z /\ 16 <= num_bits z0 /\ sleft z0 = sleft z.
Proof.
  intros Hz Hl. destruct (num_bits z <? 16) eqn:E; boolify; [|exists z; split_and!; [done|apply read_on_refl|done|done|lia|done]].
  destruct (zeof z) eqn:Ee.
  - unfold zeof in Ee. unfold sleft in Hl. destruct (zbuffer z); [cbn in Hl; lia|done].
  - destruct (fill_bits_spec 4 z Hz) as (R & O & V & N & L); [lia|destruct Hz; lia|]. exists (fill_bits 4 z). split_and!; [done|done|done|done|lia|auto].
Qed.

Lemma mod_low v s n : 0 <= s <= n -> v mod 2 ^ n = v mod 2 ^ s + 2 ^ s * ((v / 2 ^ s) mod 2 ^ (n - s)).
Proof.
  intros Hs. assert (Hp : 2 ^ n = 2 ^ s * 2 ^ (n - s)) by (rewrite <- Z.pow_add_r by lia; f_equal; lia).
  rewrite Hp, Z.rem_mul_r by lia. done.
Qed.

(** The table knows the code [c] of [n]: whatever bits follow. *)
Definition knows (h : zhuffman) (n : Z) (c : Z * nat) : Prop :=
  (1 <= c.2 <= 9)%nat /\ 0 <= n < 512 /\ 0 <= c.1 < 2 ^ Z.of_nat c.2
  /\ forall x, 0 <= x < 2 ^ (9 - Z.of_nat c.2) -> fast h !! (c.1 + 2 ^ Z.of_nat c.2 * x) = Some (Z.of_nat c.2 * 512 + n).

Lemma decode_known h n c z R :
  knows h n c -> zok z -> 32 <= sleft z -> sval z = c.1 + 2 ^ Z.of_nat c.2 * R ->
  exists z', zhuffman_decode h z = ZOk (n, z') /\ read_on z z' /\ zok z' /\ sval z' = R /\ sleft z' = sleft z - Z.of_nat c.2.
Proof.
  intros (Hs & Hn & Hc & Hk) Hz Hl HR. unfold zhuffman_decode.
  destruct (decode_fill z Hz Hl) as (z0 & -> & R0 & O0 & V0 & N0 & L0). cbn [mbind zres_bind].
  set (s := Z.of_nat c.2) in *. assert (Hs' : 1 <= s <= 9) by (unfold s; lia).
  change ZFAST_MASK with (Z.shiftl 1 9 - 1). rewrite land_low by lia.
  destruct (take_bits_spec 9 z0 O0 ltac:(lia)) as (_ & _ & _ & M9). rewrite M9, V0, HR.
  assert (Hm : (c.1 + 2 ^ s * R) mod 2 ^ s = c.1) by (rewrite (Z.mul_comm (2 ^ s)), Z.mod_add, Z.mod_small by lia; done).
  assert (Hd : (c.1 + 2 ^ s * R) / 2 ^ s = R) by (rewrite (Z.mul_comm (2 ^ s)), Z.div_add, Z.div_small by lia; lia).
  rewrite (mod_low _ s 9), Hm, Hd by lia. rewrite Hk by (apply Z.mod_pos_bound; lia). cbn [default option_map from_option id].
  destruct (_ =? 0) eqn:E; boolify; [lia|]. cbn [negb].
  assert (Hsh : Z.shiftr (s * 512 + n) 9 = s) by (rewrite Z.shiftr_div_pow2 by lia; change (2 ^ 9) with 512; dlia).
  assert (Hla : Z.land (s * 512 + n) 511 = n).
  { change 511 with (Z.ones 9). rewrite Z.land_ones by lia. change (2 ^ 9) with 512. dlia. }
  rewrite Hsh, Hla. destruct (take_bits_spec s z0 O0 ltac:(lia)) as (O' & V' & L' & _).
  eexists. split; [done|]. split_and!; [|done|by rewrite V', V0, HR|by rewrite L', L0].
  eapply read_on_trans; [exact R0|]. by eexists _, _, _.
Qed.

(** ** The fixed tables *)

Definition zres_get {A} (d : A) (r : zres A) : A := match r with ZOk a => a | _ => d end.
Definition fixed_length : zhuffman := zres_get zhuffman_uninit (zbuild_huffman stbi_zdefault_length zhuffman_uninit).
Definition fixed_distance : zhuffman := zres_get zhuffman_uninit (zbuild_huffman stbi_zdefault_distance zhuffman_uninit).

Lemma fixed_tables_built :
  zbuild_huffman stbi_zdefault_length zhuffman_uninit = ZOk fixed_length
  /\ zbuild_huffman stbi_zdefault_distance zhuffman_uninit = ZOk fixed_distance.
Proof.
  assert (H : forall A (d : A) r, (match r with ZOk _ => true | _ => false end) = true -> r = ZOk (zres_get d r)) by by intros ? ? [].
  split; apply H; vm_compute; reflexivity.
Qed.

Definition knows_b (h : zhuffman) (n : Z) (c : Z * nat) : bool :=
  forallb (fun x => bool_decide (fast h !! (c.1 + 2 ^ Z.of_nat c.2 * Z.of_nat x) = Some (Z.of_nat c.2 * 512 + n)))
    (seq 0 (Z.to_nat (2 ^ (9 - Z.of_nat c.2)))).

Lemma knows_check h n c :
  (1 <= c.2 <= 9)%nat -> 0 <= n < 512 -> 0 <= c.1 < 2 ^ Z.of_nat c.2 -> knows_b h n c = true -> knows h n c.
Proof.
  intros Hs Hn Hc Hb. split_and!; [lia..|]. intros x Hx. unfold knows_b in Hb. rewrite forallb_forall in Hb.
  specialize (Hb (Z.to_nat x)). rewrite Z2Nat.id in Hb by lia. apply (bool_decide_eq_true_1 _), Hb.
  apply in_seq. lia.
Qed.

Lemma fixed_length_all :
  forallb (fun n => knows_b fixed_length (Z.of_nat n) (sym_code (Z.of_nat n))) (seq 0 286) = true
  /\ forallb (fun j => knows_b fixed_distance (Z.of_nat j) (dist_code j)) (seq 0 30) = true.
Proof. split; vm_compute; reflexivity. Qed.

Lemma fixed_length_knows n : 0 <= n < 286 -> knows fixed_length n (sym_code n).
Proof.
  intros Hn. destruct (sym_code_ok n) as [Hc Hs]. apply knows_check; [lia|lia|done|].
  pose proof (proj1 fixed_length_all) as H. rewrite forallb_forall in H. specialize (H (Z.to_nat n)).
  rewrite Z2Nat.id in H by lia. apply H, in_seq. lia.
Qed.

Lemma fixed_distance_knows j : (j < 30)%nat -> knows fixed_distance (Z.of_nat j) (dist_code j).
Proof.
  intros Hj. apply knows_check; [cbn; lia|lia|apply zlib_bitrev_range|].
  pose proof (proj2 fixed_length_all) as H. rewrite forallb_forall in H. apply H, in_seq. lia.
Qed.

#[global] Opaque fixed_length fixed_distance.

(** ** The output *)

Fixpoint lz_copy (len dist : nat) (out : bytes) : bytes :=
  match len with
  | O => out
  | S len => match out !! (length out - dist)%nat with Some v => lz_copy len dist (out ++ [v]) | None => out end
  end.

Lemma take_snoc {A} (l : list A) i x : l !! i = Some x -> take i l ++ [x] = take (S i) l.
Proof. intros H. by rewrite (take_S_r _ _ _ H). Qed.

Lemma lz_copy_take data d len : forall i,
  (1 <= d <= i)%nat -> (i + len <= length data)%nat ->
  (forall k, (k < len)%nat -> data !! (i - d + k)%nat = data !! (i + k)%nat) ->
  lz_copy len d (take i data) = take (i + len) data.
Proof.
  induction len as [|len IH]; intros i Hd Hl Hk; cbn [lz_copy]; [by rewrite Nat.add_0_r|].
  rewrite length_take_le by lia. rewrite lookup_take_lt by lia.
  pose proof (Hk 0%nat ltac:(lia)) as H0. rewrite !Nat.add_0_r in H0. rewrite H0.
  destruct (lookup_lt_is_Some_2 data i) as [v Hv]; [lia|]. rewrite Hv, (take_snoc _ _ _ Hv), IH; [f_equal; lia|lia|lia|].
  intros k Hlt. replace (S i - d + k)%nat with (i - d + S k)%nat by lia. rewrite Hk by lia. f_equal. lia.
Qed.

Lemma lz_copy_run len : forall out v, out !! (length out - 1)%nat = Some v -> lz_copy len 1 out = out ++ replicate len v.
Proof.
  induction len as [|len IH]; intros out v Hv; cbn [lz_copy replicate]; [by rewrite app_nil_r|].
  rewrite Hv, (IH _ v); [by rewrite <- app_assoc|]. rewrite length_app. cbn [length].
  rewrite lookup_app_r by lia. by replace (length out + 1 - 1 - length out)%nat with 0%nat by lia.
Qed.

Lemma set_zout_twice o n o' n' z : set_zout o n (set_zout o' n' z) = set_zout o n z.
Proof. done. Qed.

Lemma zcopy_spec len dist : forall z,
  (1 <= dist <= length (zout z))%nat -> zlen z + Z.of_nat len <= zout_size z ->
  zcopy len dist z = ZOk (set_zout (lz_copy len dist (zout z)) (zout_size z) z).
Proof.
  induction len as [|len IH]; intros z Hd Hl; cbn [zcopy lz_copy]; [by destruct z|].
  destruct (lookup_lt_is_Some_2 (zout z) (length (zout z) - dist)) as [v Hv]; [lia|]. rewrite Hv.
  unfold zput. cbn [length]. destruct (_ <=? _) eqn:E; boolify; [|lia]. cbn [mbind zres_bind].
  rewrite IH; [done|cbn [set_zout zout]; rewrite length_app; cbn; lia|].
  unfold zlen in *. cbn [set_zout zout zout_size]. rewrite length_app. cbn [length]. lia.
Qed.

Section Trip.
Context (malloc_ok : Z -> bool) (Hm : forall n, n <= UINT_MAX -> malloc_ok n = true).

Lemma grow_limit_ok fuel : forall limit need,
  1 <= limit <= UINT_MAX -> need <= 2 ^ 31 -> need <= limit * 2 ^ Z.of_nat fuel ->
  exists l, grow_limit fuel limit need = ZOk l /\ need <= l /\ limit <= l <= UINT_MAX.
Proof.
  induction fuel as [|fuel IH]; intros limit need Hl Hn Hf; cbn [grow_limit].
  - destruct (limit <? need) eqn:E; boolify; [lia|]. exists limit. split_and!; [done|lia..].
  - destruct (limit <? need) eqn:E; boolify; [|exists limit; split_and!; [done|lia..]].
    change (UINT_MAX / 2) with 2147483647. destruct (2147483647 <? limit) eqn:E1; boolify; [lia|].
    unfold u32. rewrite Z.mod_small by (unfold UINT_MAX in *; lia).
    destruct (IH (limit * 2) need) as (l & Hr & H1 & H2); [unfold UINT_MAX in *; lia|lia| |].
    { rewrite Nat2Z.inj_succ, Z.pow_succ_r in Hf by lia. lia. }
    exists l. split_and!; [done|lia..].
Qed.

(** The output block can hold what there is and grow. *)
Definition roomy (z : zbuf) : Prop := z_expandable z = true /\ 1 <= zout_size z <= UINT_MAX /\ zlen z <= zout_size z.

Lemma zexpand_ok n z :
  roomy z -> 0 <= n -> zlen z + n <= 2 ^ 31 ->
  exists l, zexpand malloc_ok n z = ZOk (set_zout (zout z) l z) /\ zlen z + n <= l <= UINT_MAX /\ 1 <= l.
Proof.
  intros (He & Hs & _) Hn Hl. unfold zexpand. rewrite He. cbn [negb].
  assert (H0 : 0 <= zlen z) by (unfold zlen; lia).
  unfold u32. rewrite !Z.mod_small by (unfold UINT_MAX in *; lia).
  destruct (UINT_MAX - zlen z <? n) eqn:E; boolify; [unfold UINT_MAX in *; lia|].
  destruct (grow_limit_ok 33 (zout_size z) (zlen z + n)) as (l & -> & H1 & H2); [done|done| |].
  { change (2 ^ Z.of_nat 33) with 8589934592. change (2 ^ 31) with 2147483648 in Hl. lia. }
  cbn [mbind zres_bind]. rewrite Hm by lia. exists l. split_and!; [done|lia..].
Qed.

(** The decoder has written [out]; of the stream [n] bits are left, [R]. *)
Definition reads (z : zbuf) (out : bytes) (R n : Z) : Prop :=
  zok z /\ sval z = R /\ sleft z = n /\ zout z = out /\ z_length z = fixed_length /\ z_distance z = fixed_distance
  /\ hit_zeof_once z = false /\ roomy z.

Lemma reads_on z z' out R n R' n' :
  reads z out R n -> read_on z z' -> zok z' -> sval z' = R' -> sleft z' = n' -> reads z' out R' n'.
Proof. intros (_ & _ & _ & H) (b & m & c & ->) Ho Hv Hl. by repeat split; try apply H; try apply Ho. Qed.

(** Making room and writing there. *)
Lemma put_ok z s (test : bool) k :
  roomy z -> Z.of_nat (length s) <= k -> zlen z + k <= 2 ^ 31 -> (test = false -> zlen z + Z.of_nat (length s) <= zout_size z) ->
  exists l, (if test then zexpand malloc_ok k z else ZOk z) = ZOk (set_zout (zout z) l z)
    /\ zput s (set_zout (zout z) l z) = ZOk (set_zout (zout z ++ s) l z)
    /\ zlen z + Z.of_nat (length s) <= l /\ roomy (set_zout (zout z ++ s) l z).
Proof.
  intros Hr Hk Hmax Ht.
  assert (H0 : exists l, (if test then zexpand malloc_ok k z else ZOk z) = ZOk (set_zout (zout z) l z)
     /\ zlen z + Z.of_nat (length s) <= l <= UINT_MAX /\ 1 <= l).
  { destruct test.
    - destruct (zexpand_ok k z Hr) as (l & -> & H1 & H2); [lia|lia|]. exists l. split_and!; [done|lia..].
    - exists (zout_size z). destruct Hr as (_ & H1 & _). split_and!; [by destruct z|auto|lia..]. }
  destruct H0 as (l & -> & H1 & H2). exists l. split; [done|]. unfold zput, zlen in *. cbn [set_zout zout zout_size].
  rewrite (proj2 (Z.leb_le (Z.of_nat (length (zout z)) + Z.of_nat (length s)) l)) by lia. split; [done|]. split; [lia|].
  destruct Hr as (He & _). unfold roomy, zlen. cbn [set_zout z_expandable zout_size zout]. rewrite length_app. split_and!; [done|lia..].
Qed.

Lemma reads_put z out R n s (test : bool) k :
  reads z out R n -> Z.of_nat (length s) <= k -> Z.of_nat (length out) + k <= 2 ^ 31 ->
  (test = false -> zlen z + Z.of_nat (length s) <= zout_size z) ->
  exists z0 z1, (if test then zexpand malloc_ok k z else ZOk z) = ZOk z0 /\ zput s z0 = ZOk z1
    /\ zout z0 = out /\ zlen z0 + Z.of_nat (length s) <= zout_size z0
    /\ z1 = set_zout (out ++ s) (zout_size z0) z0 /\ reads z1 (out ++ s) R n.
Proof.
  intros (Ho & Hv & Hl & Hz & Hfl & Hfd & Hh & Hr) Hk Hmax Ht.
  destruct (put_ok z s test k Hr Hk) as (l & E1 & E2 & Hle & Hr'); [unfold zlen; rewrite Hz; lia|done|]. rewrite Hz in *.
  exists (set_zout out l z), (set_zout (out ++ s) l z). split; [exact E1|]. split; [exact E2|]. split; [reflexivity|].
  split; [unfold zlen in *; rewrite Hz in Hle; exact Hle|]. split; [reflexivity|].
  split; [exact Ho|]. split; [exact Hv|]. split; [exact Hl|]. split; [reflexivity|]. split; [exact Hfl|].
  split; [exact Hfd|]. split; [exact Hh|exact Hr'].
Qed.

Lemma symbol_literal b z out R n :
  reads z out ((sym_code (bz b)).1 + 2 ^ Z.of_nat (sym_code (bz b)).2 * R) (Z.of_nat (sym_code (bz b)).2 + n) ->
  32 <= n -> Z.of_nat (length out) + 1 <= 2 ^ 31 ->
  exists z', huffman_symbol malloc_ok z = ZOk (false, z') /\ reads z' (out ++ [b]) R n.
Proof.
  intros Hr Hn Hl. pose proof Hr as (Ho & Hv & Hs & Hz & Hfl & _). unfold huffman_symbol. rewrite Hfl.
  pose proof (bz_range b) as Hb.
  destruct (decode_known fixed_length (bz b) (sym_code (bz b)) z R) as (z1 & -> & R1 & O1 & V1 & L1);
    [apply fixed_length_knows; lia|done|lia|done|]. cbn [mbind zres_bind].
  destruct (bz b <? 256) eqn:E; boolify; [|lia].
  assert (Hr1 : reads z1 out R n) by (eapply reads_on; [exact Hr|done|done|done|lia]).
  destruct (reads_put z1 out R n [zb (bz b)] (zout_size z1 <=? zlen z1) 1 Hr1) as (z2 & z3 & -> & H3 & _ & _ & _ & Hr3); [cbn; lia|lia| |].
  { intros E1. boolify. cbn. lia. }
  cbn [mbind zres_bind]. rewrite H3. cbn [mbind zres_bind]. rewrite zb_bz in Hr3. exists z3. split; [reflexivity|exact Hr3].
Qed.

Lemma symbol_end z out R n :
  reads z out ((sym_code 256).1 + 2 ^ Z.of_nat (sym_code 256).2 * R) (Z.of_nat (sym_code 256).2 + n) -> 32 <= n ->
  exists z', huffman_symbol malloc_ok z = ZOk (true, z') /\ reads z' out R n.
Proof.
  intros Hr Hn. pose proof Hr as (Ho & Hv & Hs & Hz & Hfl & _ & Hh & _). unfold huffman_symbol. rewrite Hfl.
  destruct (decode_known fixed_length 256 (sym_code 256) z R) as (z1 & -> & R1 & O1 & V1 & L1);
    [apply fixed_length_knows; lia|done|lia|done|]. cbn [mbind zres_bind].
  change (256 <? 256) with false. change (256 =? 256) with true. cbv iota.
  assert (Hr1 : reads z1 out R n) by (eapply reads_on; [exact Hr|done|done|done|lia]).
  pose proof Hr1 as (_ & _ & _ & _ & _ & _ & -> & _). cbn [andb]. exists z1. split; [reflexivity|exact Hr1].
Qed.

(** ** Codes in front of a stream *)

Definition packR (cs : codes) (R : Z) : Z := foldr (fun c r => c.1 + 2 ^ Z.of_nat c.2 * r) R cs.

Lemma packR_pack cs R : packR cs R = pack cs + 2 ^ Z.of_nat (width cs) * R.
Proof. induction cs as [|[c n] cs IH]; [cbn; lia|]. cbn [packR foldr pack width fst snd]. fold (packR cs R). rewrite IH, pow2_split. lia. Qed.

Lemma extra_bits z out R n k e (v : Z) :
  reads z out (packR (extra_code k e) R) (Z.of_nat (width (extra_code k e)) + n) -> 32 <= n -> 0 <= k < 2 ^ e -> 0 <= e <= 16 ->
  exists z', (if e =? 0 then (v, z) else let '(k, a) := zreceive e z in (v + k, a)) = (v + k, z') /\ reads z' out R n.
Proof.
  intros Hr Hn Hk He. unfold extra_code in Hr. destruct (Z.eqb_spec e 0) as [->|He0]; cbn [packR foldr width fst snd] in Hr.
  - exists z. split; [f_equal; cbn in Hk; lia|]. exact Hr.
  - pose proof Hr as (Ho & Hv & Hs & _). pose proof (zreceive_spec e z Ho He) as Hz. destruct (zreceive e z) as [k' z'].
    rewrite Z2Nat.id in Hv by lia. destruct Hz as (-> & R1 & O1 & V1 & L1).
    assert (Hmod : sval z mod 2 ^ e = k) by (rewrite Hv, (Z.mul_comm (2 ^ e)), Z.mod_add, Z.mod_small by lia; done).
    assert (Hdiv : sval z / 2 ^ e = R) by (rewrite Hv, (Z.mul_comm (2 ^ e)), Z.div_add, Z.div_small by lia; lia).
    exists z'. split; [by rewrite Hmod|]. eapply reads_on; [exact Hr|exact R1|exact O1|by rewrite V1|]. rewrite L1 by lia. lia.
Qed.

Lemma tables_agree j :
  ((j < 29)%nat -> stbi_zlength_base !! j = lengthc !! j /\ stbi_zlength_extra !! j = lengtheb !! j)
  /\ ((j < 30)%nat -> stbi_zdist_base !! j = distc !! j /\ stbi_zdist_extra !! j = disteb !! j).
Proof. split; intros Hj; do 30 (destruct j as [|j]; [try done; lia|]); lia. Qed.

Lemma tbl_get_nat t j v : t !! j = Some v -> tbl_get t (Z.of_nat j) = ZOk v.
Proof. intros H. unfold tbl_get. destruct (_ <? 0) eqn:E; boolify; [lia|]. by rewrite Nat2Z.id, H. Qed.

Lemma extra_range : Forall (fun e => 0 <= e <= 16) lengtheb /\ Forall (fun e => 0 <= e <= 16) disteb /\ Forall (fun d => 1 <= d) distc.
Proof. split_and!; by apply (bool_decide_eq_true_1 (Forall _ _)). Qed.

Lemma symbol_copy len d cs z out R n :
  copy_codes (Z.of_nat len) (Z.of_nat d) cs -> reads z out (packR cs R) (Z.of_nat (width cs) + n) -> 32 <= n ->
  (1 <= d <= length out)%nat -> Z.of_nat (length out + len) <= 2 ^ 31 ->
  exists z', huffman_symbol malloc_ok z = ZOk (false, z') /\ reads z' (lz_copy len d out) R n.
Proof.
  intros Hc Hr Hn Hd Hlen. remember (Z.of_nat len) as lz eqn:Elen. remember (Z.of_nat d) as dz eqn:Ed.
  destruct Hc as [j lc le k j' dc de k' Hlc Hle Hk Hdc Hde Hk'].
  destruct extra_range as (X1 & X2 & _). rewrite Forall_lookup in X1, X2. specialize (X1 _ _ Hle). specialize (X2 _ _ Hde).
  assert (Hj : (j < 29)%nat) by by apply lookup_lt_Some in Hle. assert (Hj' : (j' < 30)%nat) by by apply lookup_lt_Some in Hde.
  destruct (proj1 (tables_agree j) Hj) as [T1 T2]. destruct (proj2 (tables_agree j') Hj') as [T3 T4].
  rewrite <- T1 in Hlc. rewrite <- T2 in Hle. rewrite <- T3 in Hdc. rewrite <- T4 in Hde.
  set (tail1 := extra_code k le ++ dist_code j' :: extra_code k' de) in *.
  cbn [packR foldr width] in Hr. fold (packR tail1 R) in Hr.
  assert (Hw1 : width tail1 = (width (extra_code k le) + (5 + width (extra_code k' de)))%nat) by (unfold tail1; rewrite width_app; done).
  destruct (sym_code (Z.of_nat j + 257)) as [c s] eqn:Es. cbn [fst snd] in Hr.
  pose proof Hr as (Ho & Hv & Hs & _ & Hfl & Hfd & _). unfold huffman_symbol. rewrite Hfl.
  destruct (decode_known fixed_length (Z.of_nat j + 257) (c, s) z (packR tail1 R)) as (z1 & -> & R1 & O1 & V1 & L1);
    [rewrite <- Es; apply fixed_length_knows; lia|done|lia|done|]. cbn [mbind zres_bind fst snd] in *.
  destruct (_ <? 256) eqn:E1; boolify; [lia|]. destruct (_ =? 256) eqn:E2; boolify; [lia|]. destruct (286 <=? _) eqn:E3; boolify; [lia|].
  replace (Z.of_nat j + 257 - 257) with (Z.of_nat j) by lia. rewrite (tbl_get_nat _ _ _ Hlc), (tbl_get_nat _ _ _ Hle). cbn [mbind zres_bind].
  unfold tail1 in V1. unfold packR in V1. rewrite foldr_app in V1. cbn [foldr] in V1. fold (packR (extra_code k' de) R) in V1.
  set (R2 := (dist_code j').1 + 2 ^ Z.of_nat (dist_code j').2 * packR (extra_code k' de) R) in *. fold (packR (extra_code k le) R2) in V1.
  assert (Hr1 : reads z1 out (packR (extra_code k le) R2) (Z.of_nat (width (extra_code k le)) + (5 + Z.of_nat (width (extra_code k' de)) + n))).
  { eapply reads_on; [exact Hr|exact R1|exact O1|exact V1|]. rewrite L1, Hs, Hw1. lia. }
  destruct (extra_bits z1 out R2 _ k le lc Hr1) as (z2 & -> & Hr2); [lia|done|done|].
  pose proof Hr2 as (Ho2 & Hv2 & Hs2 & _ & _ & Hfd2 & _). rewrite Hfd2.
  destruct (decode_known fixed_distance (Z.of_nat j') (dist_code j') z2 (packR (extra_code k' de) R)) as (z3 & -> & R3 & O3 & V3 & L3);
    [by apply fixed_distance_knows|done|lia|done|]. cbn [mbind zres_bind].
  destruct (30 <=? _) eqn:E4; boolify; [lia|]. rewrite (tbl_get_nat _ _ _ Hdc), (tbl_get_nat _ _ _ Hde). cbn [mbind zres_bind].
  assert (Hr3 : reads z3 out (packR (extra_code k' de) R) (Z.of_nat (width (extra_code k' de)) + n)).
  { eapply reads_on; [exact Hr2|exact R3|exact O3|exact V3|]. rewrite L3, Hs2. cbn [dist_code snd]. lia. }
  destruct (extra_bits z3 out R n k' de dc Hr3) as (z4 & -> & Hr4); [done|done|done|]. rewrite Elen, Ed.
  pose proof Hr4 as (_ & _ & _ & Hz4 & _).
  destruct (zlen z4 <? Z.of_nat d) eqn:E5; boolify; [unfold zlen in E5; rewrite Hz4 in E5; lia|].
  destruct (lookup_lt_is_Some_2 out (length out - 1)) as [v Hv1]; [lia|].
  assert (Hcopy : exists z', (a ← (if zout_size z4 - zlen z4 <? Z.of_nat len then zexpand malloc_ok (Z.of_nat len) z4 else ZOk z4);
     a ← (if Z.of_nat d =? 1 then match zout a !! (length (zout a) - 1)%nat with Some v => zput (replicate (Z.to_nat (Z.of_nat len)) v) a | None => ZOob end
          else zcopy (Z.to_nat (Z.of_nat len)) (Z.to_nat (Z.of_nat d)) a); ZOk (false, a)) = ZOk (false, z') /\ reads z' (lz_copy len d out) R n).
  { rewrite !Nat2Z.id.
    assert (Hls : exists s, lz_copy len d out = out ++ s /\ length s = len).
    { clear -Hd. revert out Hd. induction len as [|len IH]; intros out Hd; cbn [lz_copy]; [exists []; by rewrite app_nil_r|].
      destruct (lookup_lt_is_Some_2 out (length out - d)) as [v Hv]; [lia|]. rewrite Hv.
      destruct (IH (out ++ [v])) as (s & -> & Hs); [rewrite length_app; cbn; lia|]. exists (v :: s). rewrite <- app_assoc. cbn. split; [done|lia]. }
    destruct Hls as (s0 & Hls & Hlen0).
    destruct (reads_put z4 out R n s0 (zout_size z4 - zlen z4 <? Z.of_nat len) (Z.of_nat len) Hr4) as (z5 & z6 & -> & H6 & H5 & Hroom & -> & Hr6);
      [lia|lia|intros E6; boolify; lia|]. cbn [mbind zres_bind].
    exists (set_zout (out ++ s0) (zout_size z5) z5). rewrite Hls. split; [|exact Hr6]. destruct (Z.of_nat d =? 1) eqn:E7; boolify.
    - assert (d = 1%nat) as -> by lia. rewrite H5, Hv1. rewrite (lz_copy_run len out v Hv1) in Hls. apply app_inv_head in Hls. subst s0.
      rewrite H6. done.
    - rewrite (zcopy_spec len d z5); [|rewrite H5; lia|lia]. cbn [mbind zres_bind]. by rewrite H5, Hls. }
  exact Hcopy.
Qed.

(** ** Blocks *)

Lemma block_reads data i cs j n R :
  emits data i cs j -> j = length data -> Z.of_nat (length data) <= 2 ^ 31 -> 32 <= n ->
  forall fuel z, (length data - i < fuel)%nat -> (i <= length data)%nat ->
  reads z (take i data) (packR (cs ++ [sym_code 256]) R) (Z.of_nat (width (cs ++ [sym_code 256])) + n) ->
  exists z', parse_huffman_block malloc_ok fuel z = ZOk z' /\ reads z' data R n.
Proof.
  intros He Hj Hmax Hn. induction He as [i|i b cs j Hb He IH|i len d cs cs' j Hd H3 Hlen Hk Hc He IH]; intros fuel z Hf Hi Hr;
    (destruct fuel as [|fuel]; [lia|]); cbn [parse_huffman_block].
  - subst i. rewrite firstn_all in Hr. cbn [app packR foldr width] in Hr.
    destruct (symbol_end z data R n) as (z' & -> & Hr'); [|lia|].
    { exact Hr. }
    cbn [mbind zres_bind]. exists z'. split; [reflexivity|exact Hr'].
  - assert (Hlt : (i < length data)%nat) by by eapply lookup_lt_Some.
    cbn [app packR foldr] in Hr. fold (packR (cs ++ [sym_code 256]) R) in Hr.
    destruct (symbol_literal b z (take i data) (packR (cs ++ [sym_code 256]) R) (Z.of_nat (width (cs ++ [sym_code 256])) + n)) as (z' & -> & Hr').
    { destruct (sym_code (bz b)) as [c s] eqn:Es. cbn [width fst snd] in *. replace (Z.of_nat s + _) with (Z.of_nat (s + width (cs ++ [sym_code 256])) + n) by lia. exact Hr. }
    { lia. }
    { rewrite length_take. lia. }
    cbn [mbind zres_bind]. rewrite (take_snoc _ _ _ Hb), <- Nat.add_1_r in Hr'. apply (IH Hj); [lia|lia|exact Hr'].
  - rewrite <- app_assoc in Hr. unfold packR in Hr. rewrite foldr_app in Hr.
    fold (packR (cs' ++ [sym_code 256]) R) in Hr. fold (packR cs (packR (cs' ++ [sym_code 256]) R)) in Hr. rewrite width_app in Hr.
    destruct (symbol_copy len d cs z (take i data) (packR (cs' ++ [sym_code 256]) R) (Z.of_nat (width (cs' ++ [sym_code 256])) + n) Hc) as (z' & -> & Hr').
    { replace (Z.of_nat (width cs) + _) with (Z.of_nat (width cs + width (cs' ++ [sym_code 256])) + n) by lia. exact Hr. }
    { lia. }
    { rewrite length_take. lia. }
    { rewrite length_take. lia. }
    cbn [mbind zres_bind]. rewrite lz_copy_take in Hr' by (done || lia). apply (IH Hj); [lia|lia|exact Hr'].
Qed.

(** At the start of a block, on a byte boundary: nothing is buffered. *)
Definition aligned (z : zbuf) (out rest : bytes) : Prop :=
  z = Zbuf rest 0 false 0 out (zout_size z) true (z_length z) (z_distance z) /\ roomy z.

Lemma aligned_bits z out rest n : aligned z out rest -> 0 <= n <= 16 ->
  let '(k, z') := zreceive n z in
  k = le_val rest mod 2 ^ n /\ read_on z z' /\ zok z' /\ sval z' = le_val rest / 2 ^ n /\ ((4 <= length rest)%nat -> sleft z' = 8 * Z.of_nat (length rest) - n).
Proof.
  intros [Hz _] Hn. assert (Ho : zok z) by (rewrite Hz; unfold zok; cbn; lia).
  pose proof (zreceive_spec n z Ho Hn) as H. destruct (zreceive n z) as [k z'].
  assert (Hv : sval z = le_val rest) by (rewrite Hz; unfold sval; cbn [num_bits code_buffer zbuffer]; lia).
  assert (Hs : sleft z = 8 * Z.of_nat (length rest)) by (rewrite Hz; unfold sleft; cbn [num_bits zbuffer]; lia).
  rewrite Hv, Hs in H. destruct H as (H1 & H2 & H3 & H4 & H5). split_and!; [done..|]. intros H. apply H5. lia.
Qed.

(** The three bits in front of a block. *)
Lemma block_start z out rest C :
  aligned z out rest -> (5 <= length rest)%nat -> le_val rest = 1 + 2 * (1 + 4 * C) ->
  exists z1 z2, zreceive 1 z = (1, z1) /\ zreceive 2 z1 = (1, z2) /\ read_on z z2 /\ zok z2 /\ sval z2 = C
    /\ sleft z2 = 8 * Z.of_nat (length rest) - 3.
Proof.
  intros Ha Hlen HN. pose proof (aligned_bits z out rest 1 Ha ltac:(lia)) as H1. destruct (zreceive 1 z) as [final z1].
  destruct H1 as (-> & R1 & O1 & V1 & L1). specialize (L1 ltac:(lia)).
  pose proof (zreceive_spec 2 z1 O1 ltac:(lia)) as H2. destruct (zreceive 2 z1) as [type z2] eqn:E2.
  destruct H2 as (-> & R2 & O2 & V2 & L2). rewrite V1, HN in *. change (2 ^ 1) with 2 in *. change (2 ^ 2) with 4 in *.
  exists z1, z2. rewrite E2. split_and!.
  - f_equal. dlia.
  - f_equal. dlia.
  - by eapply read_on_trans.
  - done.
  - rewrite V2. dlia.
  - rewrite L2 by lia. lia.
Qed.

Lemma block_tables_fixed z :
  z_length z = zhuffman_uninit -> z_distance z = zhuffman_uninit -> block_tables 1 z = ZOk (set_tables fixed_length fixed_distance z).
Proof.
  intros Hl Hd. unfold block_tables. rewrite Hl, Hd. destruct fixed_tables_built as [Hbl Hbd]. revert Hbl Hbd.
  generalize (zbuild_huffman stbi_zdefault_length zhuffman_uninit) (zbuild_huffman stbi_zdefault_distance zhuffman_uninit).
  by intros ? ? -> ->.
Qed.

(** The compressed form. *)
Lemma fixed_block_read data body rest z fuel :
  fixed_block data body -> (4 <= length rest)%nat -> Z.of_nat (length data) <= 2 ^ 31 -> (length data < fuel)%nat ->
  aligned z [] (body ++ rest) -> z_length z = zhuffman_uninit -> z_distance z = zhuffman_uninit ->
  exists z', parse_block malloc_ok fuel z = ZOk (true, z') /\ zout z' = data.
Proof.
  intros (cs & He & Hval & Hw) Hrest Hmax Hf Ha Hul Hud. unfold parse_block.
  assert (HW : width (block_codes cs) = (3 + width (cs ++ [sym_code 256]))%nat) by done.
  set (n := 8 * Z.of_nat (length body) - Z.of_nat (width (block_codes cs)) + 8 * Z.of_nat (length rest)).
  assert (HC : exists Q, le_val (body ++ rest) = 1 + 2 * (1 + 4 * packR (cs ++ [sym_code 256]) Q)).
  { exists (2 ^ (8 * Z.of_nat (length body) - Z.of_nat (width (block_codes cs))) * le_val rest).
    transitivity (packR (block_codes cs) (2 ^ (8 * Z.of_nat (length body) - Z.of_nat (width (block_codes cs))) * le_val rest)); [|done].
    rewrite le_val_app, Hval, packR_pack, Z.mul_assoc, <- Z.pow_add_r by lia. do 3 f_equal. lia. }
  destruct HC as [Q HC].
  destruct (block_start z [] (body ++ rest) _ Ha ltac:(rewrite length_app; lia) HC) as (z1 & z2 & -> & -> & R2 & O2 & V2 & L2).
  change (1 =? 0) with false. change (1 =? 3) with false. cbv iota. destruct R2 as (b & m & c & Hz2). destruct Ha as [Hz Hroom].
  assert (Hl2 : z_length z2 = zhuffman_uninit) by (rewrite Hz2; exact Hul).
  assert (Hd2 : z_distance z2 = zhuffman_uninit) by (rewrite Hz2; exact Hud).
  rewrite (block_tables_fixed z2 Hl2 Hd2). cbn [mbind zres_bind].
  assert (Hr : reads (set_tables fixed_length fixed_distance z2) (take 0 data) (packR (cs ++ [sym_code 256]) Q) (Z.of_nat (width (cs ++ [sym_code 256])) + n)).
  { split; [exact O2|]. split; [exact V2|].
    split; [change (sleft (set_tables fixed_length fixed_distance z2)) with (sleft z2); rewrite L2, length_app; unfold n; lia|].
    rewrite Hz2, Hz. split; [reflexivity|]. split; [reflexivity|]. split; [reflexivity|]. split; [reflexivity|].
    rewrite Hz in Hroom. exact Hroom. }
  destruct (block_reads data 0 cs (length data) n Q He eq_refl Hmax ltac:(unfold n; lia) fuel _ ltac:(lia) ltac:(lia) Hr) as (z' & -> & Hr').
  cbn [mbind zres_bind]. exists z'. split; [reflexivity|]. destruct Hr' as (_ & _ & _ & Hz' & _). exact Hz'.
Qed.

(** ** Stored blocks *)

Lemma fill_step fuel z b r :
  zbuffer z = b :: r -> 0 <= num_bits z <= 24 -> 0 <= code_buffer z < 2 ^ num_bits z ->
  fill_bits (S fuel) z = let z1 := set_bits r (num_bits z + 8) (code_buffer z + bz b * 2 ^ num_bits z) z in
    if num_bits z + 8 <=? 24 then fill_bits fuel z1 else z1.
Proof.
  intros Hb Hn Hc. cbn [fill_bits]. rewrite Z.shiftl_1_l. destruct (_ <=? code_buffer z) eqn:E; boolify; [lia|].
  unfold zget8. rewrite Hb. cbn [set_bits zbuffer num_bits code_buffer].
  assert (Hp : 2 ^ num_bits z <= 2 ^ 24) by (apply pow2_le; lia). pose proof (bz_range b) as Hbr.
  assert (Hu : u32 (Z.shiftl (bz b) (num_bits z)) = bz b * 2 ^ num_bits z).
  { rewrite Z.shiftl_mul_pow2 by lia. apply Z.mod_small. change (2 ^ 32) with (256 * 2 ^ 24). nia. }
  by rewrite Hu, lor_disjoint by lia.
Qed.

Lemma lxor_ffff b : 0 <= b < 2 ^ 16 -> Z.lxor b 0xffff = 65535 - b.
Proof.
  intros Hb. assert (H0 : Z.land b (Z.lxor b 0xffff) = 0).
  { apply Z.bits_inj_iff'. intros i Hi. rewrite Z.land_spec, Z.lxor_spec, Z.bits_0. change 0xffff with (Z.ones 16).
    destruct (Z_lt_le_dec i 16) as [Hlt|Hge]; [rewrite Z.ones_spec_low by lia; by destruct (Z.testbit b i)|].
    assert (Hz : Z.testbit b i = false); [|by rewrite Hz].
    destruct (Z.eq_dec b 0) as [->|]; [apply Z.bits_0|]. apply Z.bits_above_log2; [lia|].
    apply Z.log2_lt_pow2; [lia|]. apply Z.lt_le_trans with (2 ^ 16); [lia|by apply pow2_le]. }
  pose proof (Z.add_nocarry_lxor _ _ H0) as Hadd. rewrite <- Z.lxor_assoc, Z.lxor_nilpotent, Z.lxor_0_l in Hadd. lia.
Qed.

Lemma zreceive_buffered n z :
  0 <= n <= num_bits z -> zreceive n z = (code_buffer z mod 2 ^ n, set_bits (zbuffer z) (num_bits z - n) (code_buffer z / 2 ^ n) z).
Proof.
  intros Hn. unfold zreceive. destruct (_ <? n) eqn:E; boolify; [lia|]. by rewrite land_low, Z.shiftr_div_pow2 by lia.
Qed.

Lemma fill_four z b0 b1 b2 b3 r :
  zbuffer z = b0 :: b1 :: b2 :: b3 :: r -> num_bits z = 0 -> code_buffer z = 0 ->
  fill_bits 4 z = set_bits r 32 (le_val [b0; b1; b2; b3]) z.
Proof.
  intros Hb Hn Hc. pose proof (bz_range b0). pose proof (bz_range b1). pose proof (bz_range b2). pose proof (bz_range b3).
  rewrite (fill_step 3 z b0 (b1 :: b2 :: b3 :: r)) by (rewrite ?Hn, ?Hc; done || lia). rewrite Hn, Hc. cbn [Z.add Z.leb Z.compare].
  cbv zeta. change (0 + 8 <=? 24) with true. cbv iota.
  rewrite (fill_step 2 _ b1 (b2 :: b3 :: r)) by (cbn [set_bits zbuffer num_bits code_buffer]; done || lia). cbn [set_bits zbuffer num_bits code_buffer].
  change (8 + 8 <=? 24) with true. cbv zeta iota.
  rewrite (fill_step 1 _ b2 (b3 :: r)) by (cbn [set_bits zbuffer num_bits code_buffer]; done || lia). cbn [set_bits zbuffer num_bits code_buffer].
  change (8 + 8 + 8 <=? 24) with true. cbv zeta iota.
  rewrite (fill_step 0 _ b3 r) by (cbn [set_bits zbuffer num_bits code_buffer]; done || lia). cbn [set_bits zbuffer num_bits code_buffer].
  cbv zeta. cbn [le_val]. unfold set_bits. cbn. f_equal. lia.
Qed.

Lemma drain_three a :
  num_bits a = 24 ->
  drain_header 4 [] a = ZOk ([code_buffer a mod 256; code_buffer a / 256 mod 256; code_buffer a / 256 / 256 mod 256],
    set_bits (zbuffer a) 0 (code_buffer a / 256 / 256 / 256) a).
Proof.
  intros Hn. assert (Hland : forall x, Z.land x 255 = x mod 256) by (intros x; by apply (Z.land_ones x 8)).
  assert (Hsh : forall x, Z.shiftr x 8 = x / 256) by (intros x; by rewrite Z.shiftr_div_pow2 by lia).
  cbn [drain_header]. rewrite Hn. cbn [Z.ltb Z.compare set_bits num_bits code_buffer]. change (24 - 8) with 16. cbn [Z.ltb Z.compare].
  change (16 - 8) with 8. cbn [Z.ltb Z.compare]. change (8 - 8) with 0. cbn [Z.ltb Z.compare app]. by rewrite !Hland, !Hsh.
Qed.

(** The four bytes behind the first one of a stored block are its header. *)
Lemma stored_header_read fuel z out b0 b1 b2 b3 b4 r len :
  aligned z out (b0 :: b1 :: b2 :: b3 :: b4 :: r) -> bz b0 = 0 \/ bz b0 = 1 ->
  bz b2 * 256 + bz b1 = len -> bz b4 * 256 + bz b3 = Z.lxor len 0xffff ->
  len <= Z.of_nat (length r) -> Z.of_nat (length out) + len <= 2 ^ 31 ->
  exists z', parse_block malloc_ok fuel z = ZOk (negb (bz b0 =? 0), z') /\ aligned z' (out ++ take (Z.to_nat len) r) (drop (Z.to_nat len) r)
    /\ z_length z' = z_length z /\ z_distance z' = z_distance z.
Proof.
  intros [Hz Hroom] H0 Hlen Hnlen Hr Hmax. pose proof (bz_range b0). pose proof (bz_range b1). pose proof (bz_range b2). pose proof (bz_range b3).
  set (V := le_val [b0; b1; b2; b3]). assert (HV : V = bz b0 + 256 * (bz b1 + 256 * (bz b2 + 256 * bz b3))) by (unfold V; cbn [le_val]; lia).
  set (W := bz b1 + 256 * (bz b2 + 256 * bz b3)) in *.
  assert (Hrec1 : zreceive 1 z = (bz b0, set_bits (b4 :: r) 31 (V / 2) z)).
  { assert (Hf : zreceive 1 z = zreceive 1 (set_bits (b4 :: r) 32 V z)).
    { unfold zreceive. rewrite (fill_four z b0 b1 b2 b3 (b4 :: r)) by (by rewrite Hz). by rewrite Hz. }
    rewrite Hf, zreceive_buffered by (cbn; lia). cbn [set_bits zbuffer num_bits code_buffer]. f_equal. change (2 ^ 1) with 2. dlia. }
  unfold parse_block. rewrite Hrec1, zreceive_buffered by (cbn; lia). cbn [set_bits zbuffer num_bits code_buffer].
  change (2 ^ 2) with 4. assert (Ht : (V / 2) mod 4 = 0) by dlia. rewrite Ht. change (0 =? 0) with true. cbv iota.
  unfold parse_uncompressed_block. cbn [set_bits num_bits].
  change (Z.land (31 - 2) 7) with 5. change (negb (5 =? 0)) with true. cbv iota.
  rewrite (zreceive_buffered 5) by (cbn [set_bits num_bits]; lia). cbn [snd set_bits zbuffer num_bits code_buffer]. change (2 ^ 5) with 32.
  assert (Hv : V / 2 / 4 / 32 = W) by (rewrite !Z.div_div by lia; change (2 * 4 * 32) with 256; dlia). rewrite Hv.
  change (31 - 2 - 5) with 24.
  assert (W1 : W / 256 = bz b2 + 256 * bz b3) by (unfold W; dlia). assert (W2 : (bz b2 + 256 * bz b3) / 256 = bz b3) by dlia.
  assert (M1 : W mod 256 = bz b1) by (unfold W; dlia). assert (M2 : (bz b2 + 256 * bz b3) mod 256 = bz b2) by dlia.
  assert (M3 : bz b3 mod 256 = bz b3) by (apply Z.mod_small; lia). assert (W3 : bz b3 / 256 = 0) by (apply Z.div_small; lia).
  rewrite drain_three by done. cbn [set_bits zbuffer num_bits code_buffer]. rewrite W1, W2, W3, M1, M2, M3.
  cbn [mbind zres_bind num_bits]. change (0 <? 0) with false. cbv iota.
  change (fill_header 4 [bz b1; bz b2; bz b3] _) with ([bz b1; bz b2; bz b3; bz b4],
    Zbuf r 0 (hit_zeof_once z) 0 (zout z) (zout_size z) (z_expandable z) (z_length z) (z_distance z)). cbv iota beta.
  rewrite Hlen, Hnlen, Z.eqb_refl. cbn [negb].
  cbn [zbuffer]. destruct (_ <? len) eqn:E; boolify; [lia|].
  set (z2 := Zbuf r 0 (hit_zeof_once z) 0 (zout z) (zout_size z) (z_expandable z) (z_length z) (z_distance z)).
  assert (Hr2 : roomy z2) by exact Hroom. assert (Hl0 : 0 <= len) by lia.
  assert (Hz2 : zout z2 = out) by (unfold z2; rewrite Hz; done).
  assert (Htk : length (take (Z.to_nat len) r) = Z.to_nat len) by (rewrite length_take; lia).
  destruct (put_ok z2 (take (Z.to_nat len) r) (zout_size z2 <? zlen z2 + len) len Hr2) as (l & -> & E2 & Hle & Hr3);
    [lia|unfold zlen; rewrite Hz2; lia|intros E1; boolify; lia|].
  cbn [mbind zres_bind]. change (zbuffer (set_zout (zout z2) l z2)) with r. rewrite E2. cbn [mbind zres_bind].
  eexists. split; [reflexivity|]. rewrite Hz2 in *. split; [|split; reflexivity]. split; [|exact Hr3].
  unfold z2. rewrite Hz. reflexivity.
Qed.

Lemma header_bytes (rest : bytes) :
  let n := Z.min (Z.of_nat (length rest)) 32767 in
  bz (zb (Z.shiftr n 8)) * 256 + bz (zb n) = n
  /\ bz (zb (Z.shiftr (Z.lnot n) 8)) * 256 + bz (zb (Z.lnot n)) = Z.lxor n 0xffff.
Proof.
  cbv zeta. set (n := Z.min _ _). assert (Hn : 0 <= n <= 32767) by (unfold n; lia).
  rewrite lxor_ffff by lia. rewrite !bz_zb, !Z.shiftr_div_pow2 by lia. change (2 ^ 8) with 256. unfold Z.lnot. split; dlia.
Qed.

Lemma stored_blocks_read fuel data body rest :
  stored_stream data body -> data <> [] ->
  forall n z out, (length data < n)%nat -> Z.of_nat (length out + length data) <= 2 ^ 31 -> aligned z out (body ++ rest) ->
  exists z', parse_blocks malloc_ok n fuel z = ZOk z' /\ zout z' = out ++ data.
Proof.
  induction 1 as [|data s Hne Hs IH]; intros Hd n z out Hn Hmax Ha; [done|]. destruct n as [|n]; [lia|]. cbn [parse_blocks].
  set (len := Z.min (Z.of_nat (length data)) 32767). destruct (header_bytes data) as [Hh1 Hh2]. fold len in Hh1, Hh2.
  assert (Hpos : 1 <= len) by (unfold len; destruct data; [done|cbn; lia]).
  assert (Hsl : stored_len data = Z.to_nat len) by done.
  unfold stored_header in Ha. fold len in Ha. cbn [app] in Ha. rewrite <- app_assoc in Ha.
  set (fb := if Z.of_nat (length data) =? len then 1 else 0) in Ha.
  assert (Hfb : bz (zb fb) = fb /\ (fb = 0 \/ fb = 1)) by (unfold fb; destruct (_ =? len); auto). destruct Hfb as [Hfb Hfb'].
  destruct (stored_header_read fuel z out _ _ _ _ _ _ len Ha) as (z' & -> & Ha' & _ & _); [by rewrite Hfb|done|done| |lia|].
  { rewrite length_app, length_take. unfold stored_len. fold len. lia. }
  cbn [mbind zres_bind]. rewrite Hfb.
  assert (Htl : length (take (stored_len data) data) = Z.to_nat len) by (rewrite length_take, Hsl; lia).
  rewrite take_app_exact, drop_app_exact in Ha' by done.
  destruct (Z.of_nat (length data) =? len) eqn:E; boolify; unfold fb.
  - assert (Hall : (length data <= stored_len data)%nat) by lia. rewrite (drop_ge data) in Hs by done. inversion Hs; subst; [|done].
    change (negb (1 =? 0)) with true. cbv iota. exists z'. split; [reflexivity|]. destruct Ha' as [-> _]. cbn [zout]. by rewrite take_ge by done.
  - change (negb (0 =? 0)) with false. cbv iota.
    destruct (IH ltac:(intros E1; apply (f_equal length) in E1; rewrite length_drop in E1; cbn in E1; lia) n z' (out ++ take (stored_len data) data)) as (z2 & -> & Hz2).
    + rewrite length_drop. lia.
    + rewrite length_app, length_drop, Htl. lia.
    + exact Ha'.
    + exists z2. split; [reflexivity|]. by rewrite Hz2, <- app_assoc, take_drop.
Qed.

Lemma zlib_header_read fuel data body sum size :
  length sum = 4%nat -> data <> [] -> Z.of_nat (length data) <= 2 ^ 31 -> (length data < fuel)%nat -> 1 <= size <= UINT_MAX ->
  fixed_block data body \/ stored_stream data body ->
  stbi_zlib_decode_malloc_guesssize_headerflag malloc_ok fuel ([x78; x5e] ++ body ++ sum) size true = ZOk data.
Proof.
  intros Hsum Hne Hmax Hf Hsize Hb. unfold stbi_zlib_decode_malloc_guesssize_headerflag. rewrite Hm by (rewrite u64_id by (change (2 ^ 64) with 18446744073709551616; unfold UINT_MAX in *; lia); lia). unfold do_zlib, parse_zlib.
  set (z0 := Zbuf (body ++ sum) 0 false 0 [] size true zhuffman_uninit zhuffman_uninit).
  assert (Hh : parse_zlib_header (Zbuf ([x78; x5e] ++ body ++ sum) 0 false 0 [] size true zhuffman_uninit zhuffman_uninit) = ZOk z0).
  { unfold parse_zlib_header. cbn [app zget8 zbuffer set_bits]. unfold zeof. cbn [zbuffer].
    destruct (body ++ sum) eqn:E; [apply app_nil in E as [_ ->]; done|]. by unfold z0. }
  rewrite Hh. cbn [mbind zres_bind]. change (set_hit false (set_bits (zbuffer z0) 0 0 z0)) with z0.
  assert (Ha : aligned z0 [] (body ++ sum)) by (split; [done|unfold roomy, zlen; cbn; lia]).
  assert (H : exists z', parse_blocks malloc_ok fuel fuel z0 = ZOk z' /\ zout z' = data).
  { destruct Hb as [Hb|Hb].
    - destruct (fixed_block_read data body sum z0 fuel Hb) as (z' & Hr & Hz'); [lia|done|done|done|done|done|].
      destruct fuel as [|fuel]; [lia|]. cbn [parse_blocks]. rewrite Hr. cbn [mbind zres_bind]. exists z'. split; [reflexivity|exact Hz'].
    - destruct (stored_blocks_read fuel data body sum Hb Hne fuel z0 []) as (z' & Hr & Hz'); [done|cbn; lia|done|]. by exists z'. }
  destruct H as (z' & -> & <-). done.
Qed.
End Trip.
