(* ===== verification/PngWrite.v ===== *)
(** * stb_image_write.h: the PNG writer

    [stbi_write_png_to_mem]: rows are filtered, compressed ([Deflate]) and put
    into chunks with their CRC. The options nobody sets have their defaults:
    no flipping, compression level 8, the filter of each row estimated. *)

From S2P Require Import Prelude Deflate.
Local Open Scope Z_scope.

(** ** CRC-32 *)

Definition crc_table : list Z := [
   0x00000000; 0x77073096; 0xEE0E612C; 0x990951BA; 0x076DC419; 0x706AF48F; 0xE963A535; 0x9E6495A3;
   0x0eDB8832; 0x79DCB8A4; 0xE0D5E91E; 0x97D2D988; 0x09B64C2B; 0x7EB17CBD; 0xE7B82D07; 0x90BF1D91;
   0x1DB71064; 0x6AB020F2; 0xF3B97148; 0x84BE41DE; 0x1ADAD47D; 0x6DDDE4EB; 0xF4D4B551; 0x83D385C7;
   0x136C9856; 0x646BA8C0; 0xFD62F97A; 0x8A65C9EC; 0x14015C4F; 0x63066CD9; 0xFA0F3D63; 0x8D080DF5;
   0x3B6E20C8; 0x4C69105E; 0xD56041E4; 0xA2677172; 0x3C03E4D1; 0x4B04D447; 0xD20D85FD; 0xA50AB56B;
   0x35B5A8FA; 0x42B2986C; 0xDBBBC9D6; 0xACBCF940; 0x32D86CE3; 0x45DF5C75; 0xDCD60DCF; 0xABD13D59;
   0x26D930AC; 0x51DE003A; 0xC8D75180; 0xBFD06116; 0x21B4F4B5; 0x56B3C423; 0xCFBA9599; 0xB8BDA50F;
   0x2802B89E; 0x5F058808; 0xC60CD9B2; 0xB10BE924; 0x2F6F7C87; 0x58684C11; 0xC1611DAB; 0xB6662D3D;
   0x76DC4190; 0x01DB7106; 0x98D220BC; 0xEFD5102A; 0x71B18589; 0x06B6B51F; 0x9FBFE4A5; 0xE8B8D433;
   0x7807C9A2; 0x0F00F934; 0x9609A88E; 0xE10E9818; 0x7F6A0DBB; 0x086D3D2D; 0x91646C97; 0xE6635C01;
   0x6B6B51F4; 0x1C6C6162; 0x856530D8; 0xF262004E; 0x6C0695ED; 0x1B01A57B; 0x8208F4C1; 0xF50FC457;
   0x65B0D9C6; 0x12B7E950; 0x8BBEB8EA; 0xFCB9887C; 0x62DD1DDF; 0x15DA2D49; 0x8CD37CF3; 0xFBD44C65;
   0x4DB26158; 0x3AB551CE; 0xA3BC0074; 0xD4BB30E2; 0x4ADFA541; 0x3DD895D7; 0xA4D1C46D; 0xD3D6F4FB;
   0x4369E96A; 0x346ED9FC; 0xAD678846; 0xDA60B8D0; 0x44042D73; 0x33031DE5; 0xAA0A4C5F; 0xDD0D7CC9;
   0x5005713C; 0x270241AA; 0xBE0B1010; 0xC90C2086; 0x5768B525; 0x206F85B3; 0xB966D409; 0xCE61E49F;
   0x5EDEF90E; 0x29D9C998; 0xB0D09822; 0xC7D7A8B4; 0x59B33D17; 0x2EB40D81; 0xB7BD5C3B; 0xC0BA6CAD;
   0xEDB88320; 0x9ABFB3B6; 0x03B6E20C; 0x74B1D29A; 0xEAD54739; 0x9DD277AF; 0x04DB2615; 0x73DC1683;
   0xE3630B12; 0x94643B84; 0x0D6D6A3E; 0x7A6A5AA8; 0xE40ECF0B; 0x9309FF9D; 0x0A00AE27; 0x7D079EB1;
   0xF00F9344; 0x8708A3D2; 0x1E01F268; 0x6906C2FE; 0xF762575D; 0x806567CB; 0x196C3671; 0x6E6B06E7;
   0xFED41B76; 0x89D32BE0; 0x10DA7A5A; 0x67DD4ACC; 0xF9B9DF6F; 0x8EBEEFF9; 0x17B7BE43; 0x60B08ED5;
   0xD6D6A3E8; 0xA1D1937E; 0x38D8C2C4; 0x4FDFF252; 0xD1BB67F1; 0xA6BC5767; 0x3FB506DD; 0x48B2364B;
   0xD80D2BDA; 0xAF0A1B4C; 0x36034AF6; 0x41047A60; 0xDF60EFC3; 0xA867DF55; 0x316E8EEF; 0x4669BE79;
   0xCB61B38C; 0xBC66831A; 0x256FD2A0; 0x5268E236; 0xCC0C7795; 0xBB0B4703; 0x220216B9; 0x5505262F;
   0xC5BA3BBE; 0xB2BD0B28; 0x2BB45A92; 0x5CB36A04; 0xC2D7FFA7; 0xB5D0CF31; 0x2CD99E8B; 0x5BDEAE1D;
   0x9B64C2B0; 0xEC63F226; 0x756AA39C; 0x026D930A; 0x9C0906A9; 0xEB0E363F; 0x72076785; 0x05005713;
   0x95BF4A82; 0xE2B87A14; 0x7BB12BAE; 0x0CB61B38; 0x92D28E9B; 0xE5D5BE0D; 0x7CDCEFB7; 0x0BDBDF21;
   0x86D3D2D4; 0xF1D4E242; 0x68DDB3F8; 0x1FDA836E; 0x81BE16CD; 0xF6B9265B; 0x6FB077E1; 0x18B74777;
   0x88085AE6; 0xFF0F6A70; 0x66063BCA; 0x11010B5C; 0x8F659EFF; 0xF862AE69; 0x616BFFD3; 0x166CCF45;
   0xA00AE278; 0xD70DD2EE; 0x4E048354; 0x3903B3C2; 0xA7672661; 0xD06016F7; 0x4969474D; 0x3E6E77DB;
   0xAED16A4A; 0xD9D65ADC; 0x40DF0B66; 0x37D83BF0; 0xA9BCAE53; 0xDEBB9EC5; 0x47B2CF7F; 0x30B5FFE9;
   0xBDBDF21C; 0xCABAC28A; 0x53B39330; 0x24B4A3A6; 0xBAD03605; 0xCDD70693; 0x54DE5729; 0x23D967BF;
   0xB3667A2E; 0xC4614AB8; 0x5D681B02; 0x2A6F2B94; 0xB40BBE37; 0xC30C8EA1; 0x5A05DF1B; 0x2D02EF8D].

Definition crc32_byte (crc : Z) (b : byte) : option Z :=
  e ← crc_table !! Z.to_nat (Z.lxor (bz b) (Z.land crc 0xff)); Some (Z.lxor (Z.shiftr crc 8) e).

Fixpoint crc32_loop (buffer : bytes) (crc : Z) : option Z :=
  match buffer with
  | [] => Some crc
  | b :: buffer => crc ← crc32_byte crc b; crc32_loop buffer crc
  end.
Definition stbiw_crc32 (buffer : bytes) : option Z :=
  crc ← crc32_loop buffer (u32 (Z.lnot 0)); Some (u32 (Z.lnot crc)).

(** ** Chunks *)

Definition wp32 (v : Z) : bytes := [zb (Z.shiftr v 24); zb (Z.shiftr v 16); zb (Z.shiftr v 8); zb v].

(** The length, the tag, the data, and the CRC of the last two. *)
Definition png_chunk (tag data : bytes) : option bytes :=
  crc ← stbiw_crc32 (tag ++ data); Some (wp32 (Z.of_nat (length data)) ++ tag ++ data ++ wp32 crc).

(** ** Filters *)

Definition stbiw_paeth (a b c : Z) : Z :=
  let p := a + b - c in let pa := Z.abs (p - a) in let pb := Z.abs (p - b) in let pc := Z.abs (p - c) in
  if (pa <=? pb) && (pa <=? pc) then a else if pb <=? pc then b else c.

Definition mapping (filter_type : nat) : nat := filter_type.
Definition firstmap (filter_type : nat) : nat := nth filter_type [0;1;0;5;6]%nat 0%nat.

Section Filter.
Variables (pixels : bytes) (stride y n : nat).

(** [z[i - back]], [z] being the start of row [y]. *)
Definition z_at (i back : nat) : option Z :=
  if (back <=? stride * y + i)%nat then bz <$> pixels !! (stride * y + i - back)%nat else None.

(** [line_buffer[i]], as the byte it is. *)
Definition line_byte (type i : nat) : option byte :=
  v ← z_at i 0;
  if (i <? n)%nat then
    match type with
    | 2%nat => u ← z_at i stride; Some (zb (v - u))
    | 3%nat => u ← z_at i stride; Some (zb (v - Z.shiftr u 1))
    | 4%nat => u ← z_at i stride; Some (zb (v - stbiw_paeth 0 u 0))
    | _ => Some (zb v)
    end
  else
    match type with
    | 1%nat => l ← z_at i n; Some (zb (v - l))
    | 2%nat => u ← z_at i stride; Some (zb (v - u))
    | 3%nat => l ← z_at i n; u ← z_at i stride; Some (zb (v - Z.shiftr (l + u) 1))
    | 4%nat => l ← z_at i n; u ← z_at i stride; c ← z_at i (stride + n); Some (zb (v - stbiw_paeth l u c))
    | 5%nat => l ← z_at i n; Some (zb (v - Z.shiftr l 1))
    | 6%nat => l ← z_at i n; Some (zb (v - stbiw_paeth l 0 0))
    | _ => Some (zb v)
    end.

Definition encode_png_line (width filter_type : nat) : option bytes :=
  let type := (if (y =? 0)%nat then firstmap else mapping) filter_type in
  if negb (type =? 0)%nat && (width =? 0)%nat then None (* the first loop writes a pixel into an empty line *)
  else mapM (line_byte type) (seq 0 (width * n)).

(** A byte as a [signed char]. *)
Definition schar (b : byte) : Z := if bz b <? 128 then bz b else bz b - 256.
Definition estimate (line : bytes) : Z := fold_left (fun est b => i32 (est + Z.abs (schar b))) line 0.

(** The filter whose line has the least entropy, the first of them. *)
Fixpoint best_filter (width : nat) (types : list nat) (best : nat) (best_val : Z) : option nat :=
  match types with
  | [] => Some best
  | t :: types =>
      line ← encode_png_line width t;
      let est := estimate line in
      if est <? best_val then best_filter width types t est else best_filter width types best best_val
  end.

(** A row of [filt]. *)
Definition filter_row (width : nat) : option bytes :=
  best ← best_filter width [0;1;2;3;4]%nat 0 0x7fffffff;
  line ← encode_png_line width best;
  Some (zb (Z.of_nat best) :: line).
End Filter.

(** ** The file *)

Definition png_sig : bytes := map zb [137;80;78;71;13;10;26;10].
Definition ctype : list Z := [-1; 0; 4; 2; 6].

(** [None]: an access outside of a block, or a size that is no [int]. *)
Definition stbi_write_png_to_mem (malloc_ok : Z -> bool) (pixels : bytes) (stride_bytes x y n : nat) : option (option bytes) :=
  let stride := if (stride_bytes =? 0)%nat then (x * n)%nat else stride_bytes in
  if INT_MAX <? Z.of_nat ((x * n + 1) * y) then None
  else if negb (malloc_ok (Z.of_nat ((x * n + 1) * y)) && malloc_ok (Z.of_nat (x * n))) then Some None
  else
    filt ← mapM (fun j => filter_row pixels stride j n x) (seq 0 y);
    zlib ← stbi_zlib_compress malloc_ok (concat filt) 8;
    match zlib with
    | None => Some None
    | Some zlib =>
        if INT_MAX <? Z.of_nat (8 + 12 + 13 + 12 + length zlib + 12) then None
        else if negb (malloc_ok (Z.of_nat (8 + 12 + 13 + 12 + length zlib + 12))) then Some None
        else
          ct ← ctype !! n;
          ihdr ← png_chunk (str "IHDR") (wp32 (Z.of_nat x) ++ wp32 (Z.of_nat y) ++ map zb [8; ct; 0; 0; 0]);
          idat ← png_chunk (str "IDAT") zlib;
          iend ← png_chunk (str "IEND") [];
          Some (Some (png_sig ++ ihdr ++ idat ++ iend))
    end.

(** What [stbi_write_png_to_func] gives to its callback: one chunk, or nothing. *)
Definition stbi_write_png_to_func (malloc_ok : Z -> bool) (x y comp : nat) (data : bytes) (stride_bytes : nat) : option (list bytes) :=
  png ← stbi_write_png_to_mem malloc_ok data stride_bytes x y comp;
  Some (match png with None => [] | Some png => [png] end).

(** ** CRC-32 is the division by its polynomial *)

(** As the PNG specification defines it, a bit at a time. *)
Definition crc_bit (c : Z) : Z := Z.lxor (Z.shiftr c 1) (if Z.odd c then 0xEDB88320 else 0).
Fixpoint crc_bits (n : nat) (c : Z) : Z := match n with O => c | S n => crc_bits n (crc_bit c) end.
Definition crc32 (s : bytes) : Z := u32 (Z.lnot (fold_left (fun c b => crc_bits 8 (Z.lxor c (bz b))) s 0xFFFFFFFF)).

Lemma crc_bit_lxor a b : crc_bit (Z.lxor a b) = Z.lxor (crc_bit a) (crc_bit b).
Proof.
  unfold crc_bit. rewrite Z.shiftr_lxor, <- !Z.bit0_odd, Z.lxor_spec. apply Z.bits_inj_iff'. intros i Hi. rewrite !Z.lxor_spec.
  destruct (Z.testbit a 0), (Z.testbit b 0); cbn [xorb]; rewrite ?Z.bits_0;
    generalize (Z.testbit (Z.shiftr a 1) i) (Z.testbit (Z.shiftr b 1) i) (Z.testbit 3988292384 i); by intros [] [] [].
Qed.

Lemma crc_bits_lxor n : forall a b, crc_bits n (Z.lxor a b) = Z.lxor (crc_bits n a) (crc_bits n b).
Proof. induction n as [|n IH]; intros a b; [done|]. cbn [crc_bits]. by rewrite crc_bit_lxor, IH. Qed.

Lemma crc_bits_shift n : forall m h, crc_bits n (Z.shiftl h (Z.of_nat (n + m))) = Z.shiftl h (Z.of_nat m).
Proof.
  induction n as [|n IH]; intros m h; [done|]. cbn [crc_bits]. rewrite <- (IH m h). f_equal. unfold crc_bit.
  rewrite <- Z.bit0_odd, Z.shiftl_spec_low by lia. rewrite Z.lxor_0_r, Z.shiftr_shiftl_l by lia. f_equal. lia.
Qed.

Lemma crc_table_bits i : (i < 256)%nat -> crc_table !! i = Some (crc_bits 8 (Z.of_nat i)).
Proof.
  intros Hi. assert (H : crc_table = map (fun i => crc_bits 8 (Z.of_nat i)) (seq 0 256)) by (vm_compute; reflexivity).
  rewrite H, list_lookup_fmap, lookup_seq_lt by done. done.
Qed.

Lemma split_low c : c = Z.lxor (Z.shiftl (Z.shiftr c 8) 8) (Z.land c 0xff).
Proof.
  apply Z.bits_inj_iff'. intros i Hi. change 0xff with (Z.ones 8). rewrite Z.lxor_spec, Z.land_spec, Z.shiftl_spec by done.
  destruct (Z_lt_le_dec i 8).
  - rewrite (Z.testbit_neg_r _ (i - 8)), Z.ones_spec_low by lia. by rewrite andb_true_r.
  - rewrite Z.shiftr_spec, Z.ones_spec_high by lia. rewrite andb_false_r, xorb_false_r. f_equal. lia.
Qed.

Lemma lxor_byte a b : 0 <= a < 256 -> 0 <= b < 256 -> 0 <= Z.lxor a b < 256.
Proof.
  intros Ha Hb. split; [apply Z.lxor_nonneg; lia|]. destruct (Z.eq_dec (Z.lxor a b) 0) as [->|H0]; [lia|].
  assert (Hp : 0 < Z.lxor a b) by (assert (0 <= Z.lxor a b) by (apply Z.lxor_nonneg; lia); lia).
  change 256 with (2 ^ 8). apply Z.log2_lt_pow2; [done|]. eapply Z.le_lt_trans; [apply Z.log2_lxor; lia|].
  apply Z.max_lub_lt; [destruct (Z.eq_dec a 0) as [->|]|destruct (Z.eq_dec b 0) as [->|]]; try done; apply Z.log2_lt_pow2; lia.
Qed.

Lemma crc32_byte_spec c b : crc32_byte c b = Some (crc_bits 8 (Z.lxor c (bz b))).
Proof.
  unfold crc32_byte. set (i := Z.lxor (bz b) (Z.land c 0xff)).
  assert (Hi : 0 <= i < 256).
  { unfold i. apply lxor_byte; [apply bz_range|]. change 0xff with (Z.ones 8). rewrite Z.land_ones by lia. by apply Z.mod_pos_bound. }
  rewrite crc_table_bits by lia. cbn [mbind option_bind]. f_equal. rewrite Z2Nat.id by lia.
  assert (Hs : Z.lxor c (bz b) = Z.lxor (Z.shiftl (Z.shiftr c 8) 8) i).
  { unfold i. rewrite (split_low c) at 1. by rewrite Z.lxor_assoc, (Z.lxor_comm (Z.land c _)). }
  rewrite Hs, crc_bits_lxor. f_equal. symmetry. exact (crc_bits_shift 8 0 (Z.shiftr c 8)).
Qed.

Lemma stbiw_crc32_spec s : stbiw_crc32 s = Some (crc32 s).
Proof.
  unfold stbiw_crc32, crc32. change (u32 (Z.lnot 0)) with 0xFFFFFFFF. generalize 0xFFFFFFFF as c.
  assert (H : forall s c, crc32_loop s c = Some (fold_left (fun c b => crc_bits 8 (Z.lxor c (bz b))) s c)).
  { clear. induction s as [|b s IH]; intros c; [done|]. cbn [crc32_loop fold_left]. by rewrite crc32_byte_spec; cbn [mbind option_bind]. }
  intros c. by rewrite H.
Qed.

(** A chunk as the PNG specification has it. *)
Definition chunk (tag data : bytes) : bytes := wp32 (Z.of_nat (length data)) ++ tag ++ data ++ wp32 (crc32 (tag ++ data)).

Lemma png_chunk_spec tag data : png_chunk tag data = Some (chunk tag data).
Proof. unfold png_chunk. by rewrite stbiw_crc32_spec. Qed.

Lemma crc32_range s : 0 <= crc32 s < 2 ^ 32.
Proof. apply Z.mod_pos_bound. lia. Qed.
