(* ===== verification/PngRead.v ===== *)
(** * stb_image.h: the PNG reader

    [stbi__parse_png_file] with its chunks, [stbi__create_png_image] with the
    filters, depths, palettes and interlacing, and the conversion to the
    number of components asked for. Accesses are checked as in [Inflate]. The
    options nobody sets have their defaults; images are only loaded, not
    scanned. Pixels are lists of samples, 16-bit ones as numbers. *)

From stdpp Require Import gmap.
From S2P Require Import Prelude RecvBuf Inflate.
Local Open Scope Z_scope.

(** ** Sizes *)

Definition addsizes_valid (a b : Z) : bool := if b <? 0 then false else a <=? INT_MAX - b.
Definition mul2sizes_valid (a b : Z) : bool :=
  if (a <? 0) || (b <? 0) then false else if b =? 0 then true else a <=? INT_MAX / b.
Definition mad2sizes_valid (a b add : Z) : bool := mul2sizes_valid a b && addsizes_valid (a * b) add.
Definition mad3sizes_valid (a b c add : Z) : bool :=
  mul2sizes_valid a b && mul2sizes_valid (a * b) c && addsizes_valid (a * b * c) add.

(** ** Reading the file *)

Definition get8 (s : bytes) : Z * bytes := match s with [] => (0, []) | b :: s => (bz b, s) end.
Definition get16be (s : bytes) : Z * bytes :=
  let '(a, s) := get8 s in let '(b, s) := get8 s in (Z.shiftl a 8 + b, s).
Definition get32be (s : bytes) : Z * bytes :=
  let '(a, s) := get16be s in let '(b, s) := get16be s in (u32 (Z.shiftl a 16) + b, s).
(** Its argument is an [int]. *)
Definition skip (n : Z) (s : bytes) : bytes := if i32 n <? 0 then [] else drop (Z.to_nat (i32 n)) s.

Definition check_png_header (s : bytes) : bool := bool_decide (map bz (take 8 s) = [137;80;78;71;13;10;26;10]).

Definition PNG_TYPE (a b c d : Z) : Z := Z.shiftl a 24 + Z.shiftl b 16 + Z.shiftl c 8 + d.
Definition type_CgBI : Z := PNG_TYPE 67 103 66 73.
Definition type_IHDR : Z := PNG_TYPE 73 72 68 82.
Definition type_PLTE : Z := PNG_TYPE 80 76 84 69.
Definition type_tRNS : Z := PNG_TYPE 116 82 78 83.
Definition type_IDAT : Z := PNG_TYPE 73 68 65 84.
Definition type_IEND : Z := PNG_TYPE 73 69 78 68.

(** ** Filters *)

Definition stbi_paeth (a b c : Z) : Z :=
  let thresh := c * 3 - (a + b) in
  let lo := if a <? b then a else b in
  let hi := if a <? b then b else a in
  let t0 := if hi <=? thresh then lo else c in
  if thresh <=? lo then hi else t0.

Inductive png_filter := F_none | F_sub | F_up | F_avg | F_paeth | F_avg_first.

Definition row_filter (j filter : Z) : option png_filter :=
  match filter with
  | 0 => Some F_none
  | 1 => Some F_sub
  | 2 => Some (if j =? 0 then F_none else F_up)
  | 3 => Some (if j =? 0 then F_avg_first else F_avg)
  | 4 => Some (if j =? 0 then F_sub else F_paeth)
  | _ => None
  end.

(** [a[k - back]] *)
Definition at_back (a : list Z) (k back : nat) : zres Z :=
  if (back <=? k)%nat then match a !! (k - back)%nat with Some v => ZOk v | None => ZOob end else ZOob.

(** What is added to [raw[k]]: [cur] holds the bytes before [k]. *)
Definition predict (f : png_filter) (filter_bytes : nat) (prior cur : list Z) (k : nat) : zres Z :=
  let here := (k <? filter_bytes)%nat in
  match f with
  | F_none => ZOk 0
  | F_sub => if here then ZOk 0 else at_back cur k filter_bytes
  | F_up => at_back prior k 0
  | F_avg =>
      u ← at_back prior k 0;
      if here then ZOk (Z.shiftr u 1) else l ← at_back cur k filter_bytes; ZOk (Z.shiftr (u + l) 1)
  | F_paeth =>
      u ← at_back prior k 0;
      if here then ZOk u
      else l ← at_back cur k filter_bytes; c ← at_back prior k filter_bytes; ZOk (stbi_paeth l u c)
  | F_avg_first => if here then ZOk 0 else l ← at_back cur k filter_bytes; ZOk (Z.shiftr l 1)
  end.

Fixpoint unfilter (f : png_filter) (filter_bytes : nat) (prior cur : list Z) (raw : bytes) : zres (list Z) :=
  match raw with
  | [] => ZOk cur
  | b :: raw =>
      p ← predict f filter_bytes prior cur (length cur);
      unfilter f filter_bytes prior (cur ++ [(bz b + p) mod 256]) raw
  end.

(** ** From a row of bytes to samples *)

Definition depth_scale_table : list Z := [0; 0xff; 0x55; 0; 0x11; 0; 0; 0; 0x01].

(** Sample [i] of a row of [depth] < 8 bits a sample: bits shifted out of the
    byte that holds it. *)
Definition bits_sample (cur : list Z) (depth : Z) (i : nat) : zres Z :=
  let per := Z.to_nat (8 / depth) in
  match cur !! (i / per)%nat with
  | Some inb => ZOk (Z.shiftr (Z.shiftl inb (depth * Z.of_nat (i mod per)) mod 256) (8 - depth))
  | None => ZOob
  end.

Definition sample16 (cur : list Z) (i : nat) : zres Z :=
  match cur !! (2 * i)%nat, cur !! (2 * i + 1)%nat with
  | Some hi, Some lo => ZOk (Z.lor (Z.shiftl hi 8) lo)
  | _, _ => ZOob
  end.

Fixpoint zmapM {A B} (f : A -> zres B) (l : list A) : zres (list B) :=
  match l with [] => ZOk [] | x :: l => y ← f x; ys ← zmapM f l; ZOk (y :: ys) end.

(** [stbi__create_png_alpha_expand8], and the same for 16 bits. *)
Fixpoint alpha_expand (n : nat) (img_n : nat) (alpha : Z) (src : list Z) : list Z :=
  match n with
  | O => []
  | S n => take img_n src ++ [alpha] ++ alpha_expand n img_n alpha (drop img_n src)
  end.

Definition row_samples (cur : list Z) (x img_n out_n depth color : Z) : zres (list Z) :=
  let nsmp := Z.to_nat (x * img_n) in
  samples ← (if depth <? 8 then
               let scale := if color =? 0 then nth (Z.to_nat depth) depth_scale_table 0 else 1 in
               zmapM (fun i => v ← bits_sample cur depth i; ZOk (scale * v mod 256)) (seq 0 nsmp)
             else if depth =? 8 then (if (nsmp <=? length cur)%nat then ZOk (take nsmp cur) else ZOob)
             else zmapM (sample16 cur) (seq 0 nsmp));
  if img_n =? out_n then ZOk samples
  else if (img_n =? 1) || (img_n =? 3)
  then ZOk (alpha_expand (Z.to_nat x) (Z.to_nat img_n) (if depth =? 16 then 0xffff else 255) samples)
  else ZOob.

Section Read.
Context (malloc_ok : Z -> bool) (pal_uninit : Z -> Z).

(** The loop over the rows: the samples of all of them. *)
Fixpoint png_rows (n : nat) (j : Z) (raw : bytes) (prior : list Z) (nk filter_bytes : nat) (x img_n out_n depth color : Z) : zres (list Z) :=
  match n with
  | O => ZOk []
  | S n =>
      match raw with
      | [] => ZOob
      | fb :: raw =>
          match row_filter j (bz fb) with
          | None => ZFail
          | Some f =>
              if (length raw <? nk)%nat then ZOob
              else
                cur ← unfilter f filter_bytes prior [] (take nk raw);
                row ← row_samples cur x img_n out_n depth color;
                rest ← png_rows n (j + 1) (drop nk raw) cur nk filter_bytes x img_n out_n depth color;
                ZOk (row ++ rest)
          end
      end
  end.

Definition width_bytes (img_n x depth : Z) : Z := Z.shiftr (u32 (img_n * x * depth + 7)) 3.

Definition create_png_image_raw (raw : bytes) (img_n out_n x y depth color : Z) : zres (list Z) :=
  let bytes := if depth =? 16 then 2 else 1 in
  if negb ((out_n =? img_n) || (out_n =? img_n + 1)) then ZOob
  else if negb (mad3sizes_valid x y (out_n * bytes) 0 && malloc_ok (x * y * (out_n * bytes))) then ZFail
  else if negb (mad3sizes_valid img_n x depth 7) then ZFail
  else
    let img_width_bytes := width_bytes img_n x depth in
    if negb (mad2sizes_valid img_width_bytes y img_width_bytes) then ZFail
    else
      let img_len := u32 ((img_width_bytes + 1) * y) in
      if Z.of_nat (length raw) <? img_len then ZFail
      else if negb (mad2sizes_valid img_width_bytes 2 0 && malloc_ok (img_width_bytes * 2)) then ZFail
      else
        let filter_bytes := if depth <? 8 then 1 else img_n * bytes in
        let width := if depth <? 8 then img_width_bytes else x in
        png_rows (Z.to_nat y) 0 raw [] (Z.to_nat (width * filter_bytes)) (Z.to_nat filter_bytes) x img_n out_n depth color.

(** ** Interlacing *)

(** [xorig], [yorig], [xspc], [yspc] of each pass. *)
Definition adam7 : list (Z * Z * Z * Z) :=
  [(0,0,8,8); (4,0,8,8); (0,4,4,8); (2,0,4,4); (0,2,2,4); (1,0,2,2); (0,1,1,2)].

(** The pixels of a pass into [final]: the pixel number and its samples. *)
Definition scatter (img_x : Z) (pass : Z * Z * Z * Z) (x y out_n : Z) (out : list Z) (final : gmap Z (list Z)) : gmap Z (list Z) :=
  let '(xorig, yorig, xspc, yspc) := pass in
  fold_left (fun final ji =>
      let '(j, i) := ji in
      let pixel := take (Z.to_nat out_n) (drop (Z.to_nat ((Z.of_nat j * x + Z.of_nat i) * out_n)) out) in
      <[(Z.of_nat j * yspc + yorig) * img_x + (Z.of_nat i * xspc + xorig) := pixel]> final)
    (j ← seq 0 (Z.to_nat y); i ← seq 0 (Z.to_nat x); [(j, i)]) final.

Fixpoint png_passes (passes : list (Z * Z * Z * Z)) (raw : bytes) (img_x img_y img_n out_n depth color : Z) (final : gmap Z (list Z)) : zres (gmap Z (list Z)) :=
  match passes with
  | [] => ZOk final
  | pass :: passes =>
      let '(xorig, yorig, xspc, yspc) := pass in
      let x := (u32 (img_x - xorig + xspc - 1)) / xspc in
      let y := (u32 (img_y - yorig + yspc - 1)) / yspc in
      if negb (x =? 0) && negb (y =? 0) then
        let img_len := u32 ((width_bytes img_n x depth + 1) * y) in
        out ← create_png_image_raw raw img_n out_n x y depth color;
        png_passes passes (drop (Z.to_nat img_len) raw) img_x img_y img_n out_n depth color (scatter img_x pass x y out_n out final)
      else png_passes passes raw img_x img_y img_n out_n depth color final
  end.

Definition create_png_image (raw : bytes) (img_x img_y img_n out_n depth color interlaced : Z) : zres (list Z) :=
  if interlaced =? 0 then create_png_image_raw raw img_n out_n img_x img_y depth color
  else
    let out_bytes := out_n * (if depth =? 16 then 2 else 1) in
    if negb (mad3sizes_valid img_x img_y out_bytes 0 && malloc_ok (img_x * img_y * out_bytes)) then ZFail
    else
      final ← png_passes adam7 raw img_x img_y img_n out_n depth color ∅;
      pixels ← zmapM (fun k => match final !! Z.of_nat k with Some p => ZOk p | None => ZOob end) (seq 0 (Z.to_nat (img_x * img_y)));
      ZOk (concat pixels).

(** ** Transparency and palettes *)

(** Both [stbi__compute_transparency]s: [opaque] is 255 or 65535. *)
Fixpoint compute_transparency (n : nat) (tc : list Z) (out_n opaque : Z) (out : list Z) : zres (list Z) :=
  match n with
  | O => ZOk out
  | S n =>
      if out_n =? 2 then
        match out with
        | p :: _ :: out =>
            rest ← compute_transparency n tc out_n opaque out;
            ZOk (p :: (if p =? nth 0 tc 0 then 0 else opaque) :: rest)
        | _ => ZOob
        end
      else
        match out with
        | p0 :: p1 :: p2 :: p3 :: out =>
            rest ← compute_transparency n tc out_n opaque out;
            ZOk (p0 :: p1 :: p2 :: (if (p0 =? nth 0 tc 0) && (p1 =? nth 1 tc 0) && (p2 =? nth 2 tc 0) then 0 else p3) :: rest)
        | _ => ZOob
        end
  end.

(** [palette[i]] of the 1024 bytes on the stack. *)
Definition palette_get (palette : gmap Z Z) (i : Z) : zres Z :=
  if (0 <=? i) && (i <? 1024) then ZOk (default (pal_uninit i) (palette !! i)) else ZOob.

Definition expand_png_palette (palette : gmap Z Z) (pal_img_n : Z) (pixel_count : Z) (orig : list Z) : zres (list Z) :=
  if negb (mad2sizes_valid pixel_count pal_img_n 0 && malloc_ok (pixel_count * pal_img_n)) then ZFail
  else if Z.of_nat (length orig) <? pixel_count then ZOob
  else
    pixels ← zmapM (fun v => zmapM (fun c => palette_get palette (v * 4 + Z.of_nat c)) (seq 0 (if pal_img_n =? 3 then 3 else 4)))
      (take (Z.to_nat pixel_count) orig);
    ZOk (concat pixels).

(** ** The chunks *)

Record png := Png {
  p_s : bytes; p_first : bool; p_iphone : bool;
  img_x : Z; img_y : Z; img_n : Z; p_depth : Z; p_color : Z; p_interlace : Z;
  palette : gmap Z Z; pal_len : Z; pal_img_n : Z;
  has_trans : bool; p_tc : list Z; p_tc16 : list Z;
  p_idata : option bytes; idata_limit : Z }.

Definition png_start (s : bytes) : png := Png s true false 0 0 0 0 0 0 ∅ 0 0 false [0;0;0] [0;0;0] None 0.

Definition set_s (s : bytes) (p : png) : png :=
  Png s (p_first p) (p_iphone p) (img_x p) (img_y p) (img_n p) (p_depth p) (p_color p) (p_interlace p) (palette p) (pal_len p) (pal_img_n p)
    (has_trans p) (p_tc p) (p_tc16 p) (p_idata p) (idata_limit p).
Definition set_iphone (p : png) : png :=
  Png (p_s p) (p_first p) true (img_x p) (img_y p) (img_n p) (p_depth p) (p_color p) (p_interlace p) (palette p) (pal_len p) (pal_img_n p)
    (has_trans p) (p_tc p) (p_tc16 p) (p_idata p) (idata_limit p).
Definition set_header (s : bytes) (x y n depth color interlace pal_n : Z) (p : png) : png :=
  Png s false (p_iphone p) x y n depth color interlace (palette p) (pal_len p) pal_n
    (has_trans p) (p_tc p) (p_tc16 p) (p_idata p) (idata_limit p).
Definition set_palette (s : bytes) (pal : gmap Z Z) (len pal_n : Z) (p : png) : png :=
  Png s (p_first p) (p_iphone p) (img_x p) (img_y p) (img_n p) (p_depth p) (p_color p) (p_interlace p) pal len pal_n
    (has_trans p) (p_tc p) (p_tc16 p) (p_idata p) (idata_limit p).
Definition set_trans (s : bytes) (tc tc16 : list Z) (p : png) : png :=
  Png s (p_first p) (p_iphone p) (img_x p) (img_y p) (img_n p) (p_depth p) (p_color p) (p_interlace p) (palette p) (pal_len p) (pal_img_n p)
    true tc tc16 (p_idata p) (idata_limit p).
Definition set_idata (s : bytes) (idata : bytes) (limit : Z) (p : png) : png :=
  Png s (p_first p) (p_iphone p) (img_x p) (img_y p) (img_n p) (p_depth p) (p_color p) (p_interlace p) (palette p) (pal_len p) (pal_img_n p)
    (has_trans p) (p_tc p) (p_tc16 p) (Some idata) limit.

Definition MAX_DIMENSIONS : Z := 16777216.

Definition chunk_IHDR (length : Z) (p : png) : zres png :=
  if negb (p_first p) then ZFail
  else if negb (length =? 13) then ZFail
  else
    let '(x, s) := get32be (p_s p) in
    let '(y, s) := get32be s in
    if (MAX_DIMENSIONS <? y) || (MAX_DIMENSIONS <? x) then ZFail
    else
      let '(depth, s) := get8 s in
      if negb ((depth =? 1) || (depth =? 2) || (depth =? 4) || (depth =? 8) || (depth =? 16)) then ZFail
      else
        let '(color, s) := get8 s in
        if (6 <? color) || ((color =? 3) && (depth =? 16)) then ZFail
        else if negb (color =? 3) && negb (Z.land color 1 =? 0) then ZFail
        else
          let '(comp, s) := get8 s in
          let '(filter, s) := get8 s in
          let '(interlace, s) := get8 s in
          if negb (comp =? 0) || negb (filter =? 0) || (1 <? interlace) then ZFail
          else if (x =? 0) || (y =? 0) then ZFail
          else
            let pal_n := if color =? 3 then 3 else pal_img_n p in
            let n := if pal_n =? 0 then (if Z.land color 2 =? 0 then 1 else 3) + (if Z.land color 4 =? 0 then 0 else 1) else 1 in
            if 2 ^ 30 / x / (if pal_n =? 0 then n else 4) <? y then ZFail
            else ZOk (set_header s x y n depth color interlace pal_n p).

Fixpoint read_palette (n : nat) (i : Z) (s : bytes) (pal : gmap Z Z) : bytes * gmap Z Z :=
  match n with
  | O => (s, pal)
  | S n =>
      let '(r, s) := get8 s in let '(g, s) := get8 s in let '(b, s) := get8 s in
      read_palette n (i + 1) s (<[i * 4 + 3 := 255]> (<[i * 4 + 2 := b]> (<[i * 4 + 1 := g]> (<[i * 4 := r]> pal))))
  end.

Definition chunk_PLTE (length : Z) (p : png) : zres png :=
  if p_first p then ZFail
  else if 256 * 3 <? length then ZFail
  else if negb (length / 3 * 3 =? length) then ZFail
  else
    let '(s, pal) := read_palette (Z.to_nat (length / 3)) 0 (p_s p) (palette p) in
    ZOk (set_palette s pal (length / 3) (pal_img_n p) p).

Fixpoint read_alphas (n : nat) (i : Z) (s : bytes) (pal : gmap Z Z) : bytes * gmap Z Z :=
  match n with
  | O => (s, pal)
  | S n => let '(a, s) := get8 s in read_alphas n (i + 1) s (<[i * 4 + 3 := a]> pal)
  end.

(** [n] values of 16 bits into the front of [old]. *)
Fixpoint read_trans (n : nat) (conv : Z -> Z) (s : bytes) (old : list Z) : bytes * list Z :=
  match n, old with
  | S n, _ :: old => let '(v, s) := get16be s in let '(s, l) := read_trans n conv s old in (s, conv v :: l)
  | _, _ => (s, old)
  end.

Definition chunk_tRNS (length : Z) (p : png) : zres png :=
  if p_first p then ZFail
  else if match p_idata p with Some _ => true | None => false end then ZFail
  else if negb (pal_img_n p =? 0) then
    if pal_len p =? 0 then ZFail
    else if pal_len p <? length then ZFail
    else let '(s, pal) := read_alphas (Z.to_nat length) 0 (p_s p) (palette p) in ZOk (set_palette s pal (pal_len p) 4 p)
  else if Z.land (img_n p) 1 =? 0 then ZFail
  else if negb (length =? u32 (img_n p * 2)) then ZFail
  else
    let n := Nat.min (Z.to_nat (img_n p)) 3 in
    if p_depth p =? 16 then let '(s, tc16) := read_trans n (fun v => v) (p_s p) (p_tc16 p) in ZOk (set_trans s (p_tc p) tc16 p)
    else
      let '(s, tc) := read_trans n (fun v => Z.land v 255 * nth (Z.to_nat (p_depth p)) depth_scale_table 0 mod 256) (p_s p) (p_tc p) in
      ZOk (set_trans s tc (p_tc16 p) p).

Definition chunk_IDAT (clen : Z) (p : png) : zres png :=
  if p_first p then ZFail
  else if negb (pal_img_n p =? 0) && (pal_len p =? 0) then ZFail
  else if 2 ^ 30 <? clen then ZFail
  else
    let old := default [] (p_idata p) in
    let ioff := Z.of_nat (length old) in
    if i32 (ioff + clen) <? i32 ioff then ZFail
    else
      limit ← (if idata_limit p <? ioff + clen then
                 let limit := if idata_limit p =? 0 then (if 4096 <? clen then clen else 4096) else idata_limit p in
                 match grow (grow_fuel (ioff + clen)) limit (ioff + clen) with
                 | Some l => if malloc_ok l then ZOk l else ZFail
                 | None => ZFuel
                 end
               else ZOk (idata_limit p));
      let n := Z.to_nat clen in
      if (length (p_s p) <? n)%nat then ZFail
      else if limit <? ioff + clen then ZOob
      else if (limit =? 0) then ZOk (set_s (p_s p) p)
      else ZOk (set_idata (drop n (p_s p)) (old ++ take n (p_s p)) limit p).

(** The image as read: its samples, its components, those of each pixel of [i_out]. *)
Record image := Image { i_x : Z; i_y : Z; i_n : Z; i_out_n : Z; i_depth : Z; i_out : list Z }.

Definition chunk_IEND (fuel : nat) (req_comp : Z) (p : png) : zres image :=
  if p_first p then ZFail
  else match p_idata p with
  | None => ZFail
  | Some idata =>
      let bpl := u32 (img_x p * p_depth p + 7) / 8 in
      let raw_len := u32 (bpl * img_y p * img_n p + img_y p) in
      expanded ← stbi_zlib_decode_malloc_guesssize_headerflag malloc_ok fuel idata (i32 raw_len) (negb (p_iphone p));
      let out_n := if ((req_comp =? img_n p + 1) && negb (req_comp =? 3) && (pal_img_n p =? 0)) || has_trans p then img_n p + 1 else img_n p in
      out ← create_png_image expanded (img_x p) (img_y p) (img_n p) out_n (p_depth p) (p_color p) (p_interlace p);
      let pixel_count := u32 (img_x p * img_y p) in
      out ← (if has_trans p then
               if negb ((out_n =? 2) || (out_n =? 4)) then ZOob
               else if p_depth p =? 16 then compute_transparency (Z.to_nat pixel_count) (p_tc16 p) out_n 65535 out
               else compute_transparency (Z.to_nat pixel_count) (p_tc p) out_n 255 out
             else ZOk out);
      if negb (pal_img_n p =? 0) then
        let out_n := if 3 <=? req_comp then req_comp else pal_img_n p in
        out ← expand_png_palette (palette p) out_n pixel_count out;
        ZOk (Image (img_x p) (img_y p) (pal_img_n p) out_n (p_depth p) out)
      else ZOk (Image (img_x p) (img_y p) (if has_trans p then img_n p + 1 else img_n p) out_n (p_depth p) out)
  end.

(** The loop over the chunks; [fuel] is for the chunks and for the decoder. *)
Fixpoint parse_chunks (n fuel : nat) (req_comp : Z) (p : png) : zres image :=
  match n with
  | O => ZFuel
  | S n =>
      let '(length, s) := get32be (p_s p) in
      let '(type, s) := get32be s in
      let p := set_s s p in
      if type =? type_IEND then chunk_IEND fuel req_comp p
      else
        p ← (if type =? type_CgBI then ZOk (set_iphone (set_s (skip length s) p))
             else if type =? type_IHDR then chunk_IHDR length p
             else if type =? type_PLTE then chunk_PLTE length p
             else if type =? type_tRNS then chunk_tRNS length p
             else if type =? type_IDAT then chunk_IDAT length p
             else if p_first p then ZFail
             else if Z.land type (2 ^ 29) =? 0 then ZFail
             else ZOk (set_s (skip length s) p));
        parse_chunks n fuel req_comp (set_s (get32be (p_s p)).2 p)
  end.

Definition parse_png_file (n fuel : nat) (req_comp : Z) (s : bytes) : zres image :=
  if check_png_header s then parse_chunks n fuel req_comp (png_start (drop 8 s)) else ZFail.

(** ** Components *)

Definition compute_y (r g b : Z) : Z := Z.shiftr (r * 77 + g * 150 + 29 * b) 8.

(** A pixel of [stbi__convert_format] and of [stbi__convert_format16]. *)
Definition convert_pixel (opaque : Z) (req_comp : Z) (px : list Z) : zres (list Z) :=
  match px, req_comp with
  | [v], 2 => ZOk [v; opaque]
  | [v], 3 => ZOk [v; v; v]
  | [v], 4 => ZOk [v; v; v; opaque]
  | [v; _], 1 => ZOk [v]
  | [v; _], 3 => ZOk [v; v; v]
  | [v; a], 4 => ZOk [v; v; v; a]
  | [r; g; b], 4 => ZOk [r; g; b; opaque]
  | [r; g; b], 1 => ZOk [compute_y r g b]
  | [r; g; b], 2 => ZOk [compute_y r g b; opaque]
  | [r; g; b; _], 1 => ZOk [compute_y r g b]
  | [r; g; b; a], 2 => ZOk [compute_y r g b; a]
  | [r; g; b; _], 3 => ZOk [r; g; b]
  | _, _ => ZFail
  end.

Fixpoint pixels_of (n : nat) (comps : nat) (data : list Z) : zres (list (list Z)) :=
  match n with
  | O => ZOk []
  | S n => if (length data <? comps)%nat then ZOob else rest ← pixels_of n comps (drop comps data); ZOk (take comps data :: rest)
  end.

Definition convert_format (wide : bool) (data : list Z) (img_n req_comp x y : Z) : zres (list Z) :=
  if req_comp =? img_n then ZOk data
  else if wide && negb (malloc_ok (u32 (req_comp * x * y * 2))) then ZFail
  else if negb wide && negb (mad3sizes_valid req_comp x y 0 && malloc_ok (req_comp * x * y)) then ZFail
  (* the 16-bit size wraps around, the loop does not *)
  else if wide && (u32 (req_comp * x * y * 2) <? req_comp * x * y * 2) then ZOob
  else
    px ← pixels_of (Z.to_nat (x * y)) (Z.to_nat img_n) data;
    out ← zmapM (convert_pixel (if wide then 0xffff else 255) req_comp) px;
    ZOk (concat out).

(** What [stbi__do_png] returns: width, height, the components of the file,
    whether samples have 16 bits, the samples. *)
Definition do_png (n fuel : nat) (req_comp : Z) (s : bytes) : zres (Z * Z * Z * bool * list Z) :=
  if (req_comp <? 0) || (4 <? req_comp) then ZFail
  else
    i ← parse_png_file n fuel req_comp s;
    let wide := negb (i_depth i <=? 8) in
    out ← (if negb (req_comp =? 0) && negb (req_comp =? i_out_n i)
           then convert_format wide (i_out i) (i_out_n i) req_comp (i_x i) (i_y i) else ZOk (i_out i));
    ZOk (i_x i, i_y i, i_n i, wide, out).

Definition convert_16_to_8 (w h channels : Z) (orig : list Z) : zres (list Z) :=
  if malloc_ok (w * h * channels) then ZOk (map (fun v => Z.land (Z.shiftr v 8) 0xFF) orig) else ZFail.
End Read.
