(* ===== verification/BmpRead.v ===== *)
(** * The BMP decoder (common/stb_image.h)

    [stbi__bmp_load] and what it calls, on a file in memory: headers of 12,
    40, 56, 108 and 124 bytes, palettes, 16, 24 and 32 bits with masks, both
    directions of the rows. Reading behind the end gives zeros; [ZOob] is an
    access outside a block. *)

From stdpp Require Import gmap.
From S2P Require Import Prelude Inflate PngRead.
Local Open Scope Z_scope.

(** ** Fields *)

Definition get16le (s : bytes) : Z * bytes :=
  let '(a, s) := get8 s in let '(b, s) := get8 s in (a + Z.shiftl b 8, s).
Definition get32le (s : bytes) : Z * bytes :=
  let '(a, s) := get16le s in let '(b, s) := get16le s in (a + Z.shiftl b 16, s).

(** [n] calls of [stbi__get32le] whose result is not used. *)
Fixpoint discard32 (n : nat) (s : bytes) : bytes := match n with O => s | S n => discard32 n (get32le s).2 end.

(** [sz] and [hsz] are ints, but only compared with small constants. *)
Definition bmp_sizes : list Z := [12; 40; 56; 108; 124].

Definition bmp_test (s : bytes) : bool :=
  let '(b, s) := get8 s in
  let '(m, s) := get8 s in
  let s := discard32 3 s in
  (b =? 66) && (m =? 77) && bool_decide ((get32le s).1 ∈ bmp_sizes).

(** ** Masks *)

(** 0..31 for the highest set bit *)
Definition high_bit (z : Z) : Z :=
  if z =? 0 then -1
  else
    let '(n, z) := if 0x10000 <=? z then (16, Z.shiftr z 16) else (0, z) in
    let '(n, z) := if 0x00100 <=? z then (n + 8, Z.shiftr z 8) else (n, z) in
    let '(n, z) := if 0x00010 <=? z then (n + 4, Z.shiftr z 4) else (n, z) in
    let '(n, z) := if 0x00004 <=? z then (n + 2, Z.shiftr z 2) else (n, z) in
    if 0x00002 <=? z then n + 1 else n.

Definition bitcount (a : Z) : Z :=
  let a := Z.land a 0x55555555 + Z.land (Z.shiftr a 1) 0x55555555 in
  let a := Z.land a 0x33333333 + Z.land (Z.shiftr a 2) 0x33333333 in
  let a := Z.land (a + Z.shiftr a 4) 0x0f0f0f0f in
  let a := u32 (a + Z.shiftr a 8) in
  let a := u32 (a + Z.shiftr a 16) in
  Z.land a 0xff.

Definition mul_table : list Z := [0; 0xff; 0x55; 0x49; 0x11; 0x21; 0x41; 0x81; 0x01].
Definition shift_table : list Z := [0; 0; 0; 1; 0; 2; 4; 6; 0].

Definition shiftsigned (v shift bits : Z) : zres Z :=
  let v := if shift <? 0 then u32 (Z.shiftl v (- shift)) else Z.shiftr v shift in
  if negb (v <? 256) then ZOob
  else
    m ← tbl_get mul_table bits;
    k ← tbl_get shift_table bits;
    ZOk (Z.shiftr (Z.shiftr v (8 - bits) * m) k).

(** ** The header *)

Record bmp_data := BmpData {
  b_bpp : Z; b_offset : Z; b_hsz : Z;
  b_mr : Z; b_mg : Z; b_mb : Z; b_ma : Z; b_all_a : Z; extra_read : Z }.

Definition set_masks (mr mg mb ma all_a : Z) (i : bmp_data) : bmp_data :=
  BmpData (b_bpp i) (b_offset i) (b_hsz i) mr mg mb ma all_a (extra_read i).
Definition set_extra (n : Z) (i : bmp_data) : bmp_data :=
  BmpData (b_bpp i) (b_offset i) (b_hsz i) (b_mr i) (b_mg i) (b_mb i) (b_ma i) (b_all_a i) n.

Definition bmp_set_mask_defaults (compress : Z) (i : bmp_data) : bmp_data :=
  if compress =? 3 then i
  else if compress =? 0 then
    if b_bpp i =? 16 then set_masks (Z.shiftl 31 10) (Z.shiftl 31 5) 31 (b_ma i) (b_all_a i) i
    else if b_bpp i =? 32 then set_masks (Z.shiftl 0xff 16) (Z.shiftl 0xff 8) 0xff (Z.shiftl 0xff 24) 0 i
    else set_masks 0 0 0 0 (b_all_a i) i
  else i.

(** Behind the sizes, when [hsz] is not 12. *)
Definition bmp_masks (compress : Z) (i : bmp_data) (s : bytes) : option (bmp_data * bytes) :=
  if (b_hsz i =? 40) || (b_hsz i =? 56) then
    let s := if b_hsz i =? 56 then discard32 4 s else s in
    if (b_bpp i =? 16) || (b_bpp i =? 32) then
      if compress =? 0 then Some (bmp_set_mask_defaults compress i, s)
      else if compress =? 3 then
        let '(mr, s) := get32le s in
        let '(mg, s) := get32le s in
        let '(mb, s) := get32le s in
        let i := set_extra (extra_read i + 12) (set_masks mr mg mb (b_ma i) (b_all_a i) i) in
        if (mr =? mg) && (mg =? mb) then None else Some (i, s)
      else None
    else Some (i, s)
  else
    let '(mr, s) := get32le s in
    let '(mg, s) := get32le s in
    let '(mb, s) := get32le s in
    let '(ma, s) := get32le s in
    let i := set_masks mr mg mb ma (b_all_a i) i in
    let i := if negb (compress =? 3) then bmp_set_mask_defaults compress i else i in
    let s := discard32 13 s in
    Some (i, if b_hsz i =? 124 then discard32 4 s else s).

(** Width, height, the masks, the rest of the file. *)
Definition bmp_parse_header (s : bytes) : option (Z * Z * bmp_data * bytes) :=
  let '(b, s) := get8 s in
  let '(m, s) := get8 s in
  if negb ((b =? 66) && (m =? 77)) then None
  else
    let s := discard32 2 s in
    let '(offset, s) := get32le s in
    let '(hsz, s) := get32le s in
    if i32 offset <? 0 then None
    else if negb (bool_decide (hsz ∈ bmp_sizes)) then None
    else
      let '(x, s) := if hsz =? 12 then get16le s else get32le s in
      let '(y, s) := if hsz =? 12 then get16le s else get32le s in
      let '(planes, s) := get16le s in
      if negb (planes =? 1) then None
      else
        let '(bpp, s) := get16le s in
        let i := BmpData bpp offset hsz 0 0 0 0 255 14 in
        if hsz =? 12 then Some (x, y, i, s)
        else
          let '(compress, s) := get32le s in
          let compress := i32 compress in
          if (compress =? 1) || (compress =? 2) then None
          else if 4 <=? compress then None
          else if (compress =? 3) && negb (bpp =? 16) && negb (bpp =? 32) then None
          else
            '(i, s) ← bmp_masks compress i (discard32 5 s);
            Some (x, y, i, s).

(** ** The pixels *)

Section Load.
(** [pal_uninit]: the palette on the stack before it is filled. *)
Context (malloc_ok : Z -> bool) (pal_uninit : Z -> Z).

(** [pal[i]], its first three components; [pal[i][c]] is at [4 * i + c]. *)
Definition pal_get (pal : gmap Z Z) (i : Z) : zres (list Z) :=
  if (0 <=? i) && (i <? 256)
  then ZOk (map (fun c => default (pal_uninit (4 * i + c)) (pal !! (4 * i + c))) [0; 1; 2])
  else ZOob.

Fixpoint bmp_palette (n : nat) (i hsz : Z) (s : bytes) (pal : gmap Z Z) : gmap Z Z * bytes :=
  match n with
  | O => (pal, s)
  | S n =>
      let '(b, s) := get8 s in
      let '(g, s) := get8 s in
      let '(r, s) := get8 s in
      let s := if negb (hsz =? 12) then (get8 s).2 else s in
      bmp_palette n (i + 1) hsz s (<[4 * i + 3 := 255]> (<[4 * i := r]> (<[4 * i + 1 := g]> (<[4 * i + 2 := b]> pal))))
  end.

Definition alpha (target : Z) (a : Z) : list Z := if target =? 4 then [a] else [].

(** A row of 1 bit a pixel: [n] pixels left, [v] the byte at hand. *)
Fixpoint row_1bit (n : nat) (target : Z) (bit_offset v : Z) (pal : gmap Z Z) (s : bytes) : zres (list Z * bytes) :=
  match n with
  | O => ZOk ([], s)
  | S n =>
      px ← pal_get pal (Z.land (Z.shiftr v bit_offset) 1);
      let px := px ++ alpha target 255 in
      match n with
      | O => ZOk (px, s)
      | _ =>
          let '(bit_offset, v, s) :=
            if bit_offset - 1 <? 0 then let '(v, s) := get8 s in (7, v, s) else (bit_offset - 1, v, s) in
          '(rest, s) ← row_1bit n target bit_offset v pal s;
          ZOk (px ++ rest, s)
      end
  end.

(** A row of 4 or 8 bits, two pixels at a time. *)
Fixpoint row_pal (n : nat) (bpp target : Z) (pal : gmap Z Z) (s : bytes) : zres (list Z * bytes) :=
  match n with
  | O => ZOk ([], s)
  | S n =>
      let '(v, s) := get8 s in
      let '(v, v2) := if bpp =? 4 then (Z.shiftr v 4, Z.land v 15) else (v, 0) in
      px ← pal_get pal v;
      match n with
      | O => ZOk (px ++ alpha target 255, s)
      | S n =>
          let '(v, s) := if bpp =? 8 then get8 s else (v2, s) in
          px2 ← pal_get pal v;
          '(rest, s) ← row_pal n bpp target pal s;
          ZOk (px ++ alpha target 255 ++ px2 ++ alpha target 255 ++ rest, s)
      end
  end.

(** A pixel whose components are bytes. *)
Definition pixel_easy (easy target : Z) (s : bytes) : list Z * Z * bytes :=
  let '(b, s) := get8 s in
  let '(g, s) := get8 s in
  let '(r, s) := get8 s in
  let '(a, s) := if easy =? 2 then get8 s else (255, s) in
  ([r; g; b] ++ alpha target a, a, s).

(** [rshift] to [acount], and the masks. *)
Definition component (v mask : Z) : zres Z := shiftsigned (Z.land v mask) (high_bit mask - 7) (bitcount mask).

Definition pixel_masked (bpp mr mg mb ma target : Z) (s : bytes) : zres (list Z * Z * bytes) :=
  let '(v, s) := if bpp =? 16 then get16le s else get32le s in
  r ← component v mr;
  g ← component v mg;
  b ← component v mb;
  a ← (if negb (ma =? 0) then component v ma else ZOk 255);
  ZOk ([r mod 256; g mod 256; b mod 256] ++ alpha target (a mod 256), a, s).

Fixpoint bmp_pixels (n : nat) (pixel : bytes -> zres (list Z * Z * bytes)) (all_a : Z) (s : bytes) : zres (list Z * Z * bytes) :=
  match n with
  | O => ZOk ([], all_a, s)
  | S n =>
      '(px, a, s) ← pixel s;
      '(rest, all_a, s) ← bmp_pixels n pixel (Z.lor all_a a) s;
      ZOk (px ++ rest, all_a, s)
  end.

(** [height] rows, with the padding behind each. *)
Fixpoint bmp_rows (height : nat) (row : Z -> bytes -> zres (list Z * Z * bytes)) (pad all_a : Z) (s : bytes) : zres (list (list Z) * Z * bytes) :=
  match height with
  | O => ZOk ([], all_a, s)
  | S height =>
      '(px, all_a, s) ← row all_a s;
      '(rows, all_a, s) ← bmp_rows height row pad all_a (skip pad s);
      ZOk (px :: rows, all_a, s)
  end.

(** [out[i] = 255] for each alpha component. *)
Fixpoint opaque (n : nat) (out : list Z) : list Z :=
  match n, out with
  | S n, r :: g :: b :: _ :: out => r :: g :: b :: 255 :: opaque n out
  | _, _ => out
  end.

(** The swaps of rows [j] and [height - 1 - j], for [j] below [n]. *)
Fixpoint flip_rows (n : nat) (rows : list (list Z)) : list (list Z) :=
  match n with
  | O => rows
  | S j =>
      let rows := flip_rows j rows in
      match rows !! j, rows !! (length rows - 1 - j)%nat with
      | Some p1, Some p2 => <[j := p2]> (<[(length rows - 1 - j)%nat := p1]> rows)
      | _, _ => rows
      end
  end.

(** The rows of a file with a palette: [psize] colours. *)
Definition bmp_indexed (i : bmp_data) (x y psize target : Z) (s : bytes) : zres (list (list Z)) :=
  if (psize =? 0) || (256 <? psize) then ZFail
  else
    let '(pal, s) := bmp_palette (Z.to_nat psize) 0 (b_hsz i) s ∅ in
    let s := skip (b_offset i - extra_read i - b_hsz i - psize * (if b_hsz i =? 12 then 3 else 4)) s in
    let w := Z.to_nat x in
    if b_bpp i =? 1 then
      let pad := Z.land (- Z.shiftr (x + 7) 3) 3 in
      '(rows, _, _) ← bmp_rows (Z.to_nat y)
         (fun a s => let '(v, s) := get8 s in '(px, s) ← row_1bit w target 7 v pal s; ZOk (px, a, s)) pad 0 s;
      ZOk rows
    else if (b_bpp i =? 4) || (b_bpp i =? 8) then
      let pad := Z.land (- (if b_bpp i =? 4 then Z.shiftr (x + 1) 1 else x)) 3 in
      '(rows, _, _) ← bmp_rows (Z.to_nat y) (fun a s => '(px, s) ← row_pal w (b_bpp i) target pal s; ZOk (px, a, s)) pad 0 s;
      ZOk rows
    else ZFail.

(** The rows of a file without a palette, and [all_a]. *)
Definition bmp_direct (i : bmp_data) (x y target : Z) (s : bytes) : zres (list (list Z) * Z) :=
  let s := skip (b_offset i - extra_read i - b_hsz i) s in
  let width := if b_bpp i =? 24 then 3 * x else if b_bpp i =? 16 then 2 * x else 0 in
  let pad := Z.land (- width) 3 in
  let easy := if b_bpp i =? 24 then 1
              else if (b_bpp i =? 32) && (b_mb i =? 0xff) && (b_mg i =? 0xff00) && (b_mr i =? 0xff0000) && (b_ma i =? 0xff000000) then 2
              else 0 in
  if (easy =? 0) && ((b_mr i =? 0) || (b_mg i =? 0) || (b_mb i =? 0)) then ZFail
  else if (easy =? 0) && ((8 <? bitcount (b_mr i)) || (8 <? bitcount (b_mg i)) || (8 <? bitcount (b_mb i)) || (8 <? bitcount (b_ma i))) then ZFail
  else
    let pixel s := if negb (easy =? 0) then ZOk (pixel_easy easy target s)
                   else pixel_masked (b_bpp i) (b_mr i) (b_mg i) (b_mb i) (b_ma i) target s in
    '(rows, all_a, _) ← bmp_rows (Z.to_nat y) (bmp_pixels (Z.to_nat x) pixel) pad (b_all_a i) s;
    ZOk (rows, all_a).

(** Width, height, the components of the file, the samples. *)
Definition bmp_load (req_comp : Z) (buffer : bytes) : zres (Z * Z * Z * list Z) :=
  match bmp_parse_header buffer with
  | None => ZFail
  | Some (x, y, i, s) =>
      let flip_vertically := 0 <? i32 y in
      let y := Z.abs (i32 y) in
      if (MAX_DIMENSIONS <? y) || (MAX_DIMENSIONS <? x) then ZFail
      else
        let psize := if b_hsz i =? 12 then (if b_bpp i <? 24 then Z.quot (b_offset i - extra_read i - 24) 3 else 0)
                     else (if b_bpp i <? 16 then Z.shiftr (b_offset i - extra_read i - b_hsz i) 2 else 0) in
        let bytes_read_so_far := Z.of_nat (length buffer - length s) in
        if (psize =? 0) && ((bytes_read_so_far <=? 0) || (1024 <? bytes_read_so_far)) then ZFail
        else if (psize =? 0) && ((b_offset i <? bytes_read_so_far) || (256 * 4 <? b_offset i - bytes_read_so_far)) then ZFail
        else
          let s := if psize =? 0 then skip (b_offset i - bytes_read_so_far) s else s in
          let n := if (b_bpp i =? 24) && (b_ma i =? 0xff000000) then 3 else if b_ma i =? 0 then 3 else 4 in
          let target := if 3 <=? req_comp then req_comp else n in
          if negb (mad3sizes_valid target x y 0 && malloc_ok (target * x * y)) then ZFail
          else
            '(rows, all_a) ← (if b_bpp i <? 16 then rows ← bmp_indexed i x y psize target s; ZOk (rows, 255)
                              else bmp_direct i x y target s);
            let rows := if (target =? 4) && (all_a =? 0) then map (opaque (Z.to_nat x)) rows else rows in
            let out := concat (if flip_vertically then flip_rows (Z.to_nat (Z.shiftr y 1)) rows else rows) in
            out ← (if negb (req_comp =? 0) && negb (req_comp =? target)
                   then convert_format malloc_ok false out target req_comp x y else ZOk out);
            ZOk (x, y, n, out)
  end.
End Load.
