(* ===== verification/StbLoad.v ===== *)
(** * [stbi_load_from_memory] (common/stb_image.h)

    [stbi__load_main]: the tests of every format in their order, the PNG and
    the BMP decoder, and 8 bits a sample. The decoders of the other formats,
    which the clients never produce, are a parameter. *)

From S2P Require Import Prelude CString Inflate PngRead BmpRead.
Local Open Scope Z_scope.

(** ** Which format *)

Inductive format := F_gif | F_psd | F_pic | F_jpeg | F_pnm | F_hdr | F_tga.

#[export] Instance format_eq_dec : EqDecision format.
Proof. solve_decision. Defined.

Definition gif_test (s : bytes) : bool :=
  let '(g, s) := get8 s in let '(i, s) := get8 s in let '(f, s) := get8 s in let '(v, s) := get8 s in
  if negb ((g =? 71) && (i =? 73) && (f =? 70) && (v =? 56)) then false
  else
    let '(sz, s) := get8 s in
    if negb (sz =? 57) && negb (sz =? 55) then false else (get8 s).1 =? 97.

Definition psd_test (s : bytes) : bool := (get32be s).1 =? 0x38425053.

(** Four bytes, and what is behind those that were read. *)
Fixpoint pic_is4 (lit : list Z) (s : bytes) : bool * bytes :=
  match lit with
  | [] => (true, s)
  | c :: lit => let '(b, s) := get8 s in if negb (b =? c) then (false, s) else pic_is4 lit s
  end.

Definition pic_test (s : bytes) : bool :=
  let '(r, s) := pic_is4 [0x53; 0x80; 0xF6; 0x34] s in
  if negb r then false else (pic_is4 [80; 73; 67; 84] (drop 84 s)).1.

(** [stbi__get_marker] with no marker pending. *)
Fixpoint fill_bytes (s : bytes) : Z := match s with [] => 0 | b :: s => if bz b =? 0xff then fill_bytes s else bz b end.
Definition get_marker (s : bytes) : Z := let '(x, s) := get8 s in if negb (x =? 0xff) then 0xff else fill_bytes s.

Definition pnm_test (s : bytes) : bool :=
  let '(p, s) := get8 s in let '(t, s) := get8 s in (p =? 80) && ((t =? 53) || (t =? 54)).

Fixpoint hdr_test_core (signature : bytes) (s : bytes) : bool :=
  match signature with
  | [] => true
  | c :: signature => let '(b, s) := get8 s in if negb (b =? bz c) then false else hdr_test_core signature s
  end.
Definition hdr_test (s : bytes) : bool := hdr_test_core (str "#?RADIANCE" ++ [x0a]) s || hdr_test_core (str "#?RGBE" ++ [x0a]) s.

Definition tga_depths : list Z := [8; 15; 16; 24; 32].

Definition tga_test (s : bytes) : bool :=
  let '(_, s) := get8 s in
  let '(color_type, s) := get8 s in
  if 1 <? color_type then false
  else
    let '(sz, s) := get8 s in
    let size s :=
      let '(w, s) := get16le s in
      if w <? 1 then false
      else
        let '(h, s) := get16le s in
        if h <? 1 then false
        else
          let '(sz, s) := get8 s in
          if (color_type =? 1) && negb (sz =? 8) && negb (sz =? 16) then false else bool_decide (sz ∈ tga_depths) in
    if color_type =? 1 then
      if negb (sz =? 1) && negb (sz =? 9) then false
      else
        let '(sz, s) := get8 (skip 4 s) in
        if negb (bool_decide (sz ∈ tga_depths)) then false else size (skip 4 s)
    else if negb (sz =? 2) && negb (sz =? 3) && negb (sz =? 10) && negb (sz =? 11) then false
    else size (skip 9 s).

Section Load.
(** [uninit]: what the palette on the stack holds before it is filled. *)
Context (malloc_ok : Z -> bool) (sizeof_jpeg : Z) (uninit : Z -> Z).
(** What the decoder of each of these formats returns. *)
Variable load_other : format -> bytes -> Z -> zres (Z * Z * Z * bool * list Z).
(** For the chunks of a PNG, and for its decoder. *)
Variables n fuel : nat.

Definition jpeg_test (s : bytes) : bool := malloc_ok sizeof_jpeg && (get_marker s =? 0xd8).

Definition format_test (f : format) : bytes -> bool :=
  match f with
  | F_gif => gif_test | F_psd => psd_test | F_pic => pic_test | F_jpeg => jpeg_test
  | F_pnm => pnm_test | F_hdr => hdr_test | F_tga => tga_test
  end.

(** Width, height, the components of the file, whether samples have 16 bits,
    the samples. *)
Definition load_main (req_comp : Z) (s : bytes) : zres (Z * Z * Z * bool * list Z) :=
  if check_png_header s then do_png malloc_ok uninit n fuel req_comp s
  else if bmp_test s then '(x, y, comp, out) ← bmp_load malloc_ok uninit req_comp s; ZOk (x, y, comp, false, out)
  else match List.find (fun f => format_test f s) [F_gif; F_psd; F_pic; F_jpeg; F_pnm; F_hdr; F_tga] with
       | Some f => load_other f s req_comp
       | None => ZFail
       end.

(** The option to flip images is never set. *)
Definition load_and_postprocess_8bit (req_comp : Z) (s : bytes) : zres (Z * Z * Z * list Z) :=
  '(x, y, comp, wide, out) ← load_main req_comp s;
  out ← (if wide : bool then convert_16_to_8 malloc_ok x y (if req_comp =? 0 then comp else req_comp) out else ZOk out);
  ZOk (x, y, comp, out).

Definition stbi_load_from_memory (buffer : bytes) (req_comp : Z) : zres (Z * Z * Z * bytes) :=
  '(x, y, comp, out) ← load_and_postprocess_8bit req_comp buffer;
  ZOk (x, y, comp, map zb out).
End Load.

(** ** Files of the clients *)

(** What starts like a BMP or a PNG is taken for nothing else. *)
Lemma client_formats malloc_ok sizeof_jpeg a b s : (a = "B"%byte /\ b = "M"%byte) \/ (a = x89 /\ b = x50) ->
  forall f, format_test malloc_ok sizeof_jpeg f (a :: b :: s) = false.
Proof.
  assert (Hpsd : forall hi s, 0 <= hi < 65536 -> hi <> 0x3842 -> get16be (a :: b :: s) = (hi, s) -> psd_test (a :: b :: s) = false).
  { intros hi t Hhi Hne Hr. unfold psd_test, get32be. rewrite Hr. assert (Hlo : 0 <= (get16be t).1 < 65536).
    { unfold get16be, get8. destruct t as [|c [|d t]]; cbn [fst]; rewrite ?Z.shiftl_mul_pow2 by lia; change (2 ^ 8) with 256; [lia|pose proof (bz_range c); lia|pose proof (bz_range c); pose proof (bz_range d); lia]. }
    destruct (get16be t) as [lo t']. cbn [fst] in *. apply Z.eqb_neq. rewrite Z.shiftl_mul_pow2 by lia. unfold u32. change (2 ^ 32) with 4294967296. change (2 ^ 16) with 65536. rewrite Z.mod_small by lia. lia. }
  intros [[-> ->]|[-> ->]] []; try reflexivity; try (unfold format_test, jpeg_test; apply andb_false_r); try (by destruct s as [|c [|d s]]);
    first [apply (Hpsd 0x424D s); [lia|done|reflexivity]|apply (Hpsd 0x8950 s); [lia|done|reflexivity]].
Qed.
