(* ===== verification/PngSafe.v ===== *)
(** * The PNG reader of stb_image.h is safe

    Whatever is in the file, the rows, the interlaced passes, the palette and
    the chunks are read inside their arrays, and the samples are as many as
    the header says. *)

From stdpp Require Import gmap list_numbers.
From S2P Require Import Prelude Bits Inflate Huffman InflateSafe RecvBuf PngRead.
Local Open Scope Z_scope.

Lemma zmapM_safe {A B} (P : B -> Prop) (f : A -> zres B) l :
  Forall (fun x => zsafe P (f x)) l -> zsafe (fun r => length r = length l /\ Forall P r) (zmapM f l).
Proof.
  induction 1 as [|x l Hx _ IH]; cbn [zmapM]; [done|]. eapply zsafe_bind; [exact Hx|]. intros y Hy.
  eapply zsafe_bind; [exact IH|]. intros ys [Hl Hys]. cbn. split; [by rewrite Hl|by constructor].
Qed.

(** Samples of [n] values. *)
Definition samples (n : Z) (l : list Z) : Prop := Forall (fun v => 0 <= v < n) l.

(** ** Rows *)

Lemma at_back_safe n a k back : samples n a -> (back <= k)%nat -> (k - back < length a)%nat -> zsafe (fun v => 0 <= v < n) (at_back a k back).
Proof.
  intros Ha Hb Hk. unfold at_back. rewrite (proj2 (Nat.leb_le _ _) Hb). destruct (lookup_lt_is_Some_2 a _ Hk) as [v Hv]. rewrite Hv.
  by apply (Forall_lookup_1 _ _ _ _ Ha Hv).
Qed.

Definition needs_prior (f : png_filter) : bool := match f with F_up | F_avg | F_paeth => true | _ => false end.

Lemma predict_safe f fb prior cur : (1 <= fb)%nat -> samples 256 prior -> samples 256 cur ->
  (needs_prior f = true -> (length cur < length prior)%nat) -> zsafe (fun _ => True) (predict f fb prior cur (length cur)).
Proof.
  intros Hfb Hp Hc Hl.
  assert (Hup : needs_prior f = true -> zsafe (fun v => 0 <= v < 256) (at_back prior (length cur) 0)).
  { intros Hn. apply at_back_safe; [done|lia|]. specialize (Hl Hn). lia. }
  assert (Hleft : (length cur <? fb)%nat = false -> zsafe (fun v => 0 <= v < 256) (at_back cur (length cur) fb)).
  { intros E. boolify. apply at_back_safe; [done|lia|lia]. }
  assert (Hdiag : needs_prior f = true -> (length cur <? fb)%nat = false -> zsafe (fun v => 0 <= v < 256) (at_back prior (length cur) fb)).
  { intros Hn E. specialize (Hl Hn). boolify. apply at_back_safe; [done|lia|lia]. }
  unfold predict. destruct f; cbn [needs_prior] in *; repeat match goal with
    | |- zsafe _ (if ?b then _ else _) => destruct b eqn:?
    | |- zsafe _ (at_back _ _ _ ≫= _) => eapply zsafe_bind; [by eauto|intros ? ?]
    | |- zsafe _ (at_back _ _ _) => eapply zsafe_weaken; [by eauto|done]
    | |- _ => exact I
    end.
Qed.

Lemma unfilter_safe f fb prior nk : (1 <= fb)%nat -> samples 256 prior -> (needs_prior f = true -> length prior = nk) ->
  forall raw cur, samples 256 cur -> (length cur + length raw = nk)%nat ->
  zsafe (fun r => length r = nk /\ samples 256 r) (unfilter f fb prior cur raw).
Proof.
  intros Hfb Hp Hn. induction raw as [|b raw IH]; intros cur Hc Hl; cbn [unfilter length] in *; [cbn; split; [lia|done]|].
  eapply zsafe_bind; [apply predict_safe; [done..|]|].
  - intros Hf. rewrite (Hn Hf). lia.
  - intros p _. apply IH; [|rewrite length_app; cbn; lia]. apply Forall_app. split; [done|]. constructor; [|done]. apply Z.mod_pos_bound. lia.
Qed.

Definition depth_ok (depth : Z) : Prop := depth = 1 \/ depth = 2 \/ depth = 4 \/ depth = 8 \/ depth = 16.

(** The values of samples of a depth. *)
Definition depth_range (depth : Z) : Z := if depth =? 16 then 65536 else 256.

Lemma bits_sample_safe cur depth i : depth = 1 \/ depth = 2 \/ depth = 4 -> Z.of_nat i * depth < 8 * Z.of_nat (length cur) ->
  zsafe (fun _ => True) (bits_sample cur depth i).
Proof.
  intros Hd Hi. unfold bits_sample. cbv zeta. destruct (lookup_lt_is_Some_2 cur (i / Z.to_nat (8 / depth))) as [v ->]; [|done].
  destruct Hd as [->|[->| ->]].
  - change (Z.to_nat (8 / 1)) with 8%nat. apply Nat.Div0.div_lt_upper_bound. lia.
  - change (Z.to_nat (8 / 2)) with 4%nat. apply Nat.Div0.div_lt_upper_bound. lia.
  - change (Z.to_nat (8 / 4)) with 2%nat. apply Nat.Div0.div_lt_upper_bound. lia.
Qed.

Lemma sample16_safe cur i : samples 256 cur -> (2 * i + 1 < length cur)%nat -> zsafe (fun v => 0 <= v < 65536) (sample16 cur i).
Proof.
  intros Hc Hi. unfold sample16. destruct (lookup_lt_is_Some_2 cur (2 * i)) as [hi Hhi]; [lia|]. destruct (lookup_lt_is_Some_2 cur (2 * i + 1)) as [lo Hlo]; [lia|].
  rewrite Hhi, Hlo. pose proof (Forall_lookup_1 _ _ _ _ Hc Hhi) as H1. pose proof (Forall_lookup_1 _ _ _ _ Hc Hlo) as H2. cbv beta in *. cbn [zsafe].
  rewrite Z.lor_comm, Z.shiftl_mul_pow2, lor_disjoint by (change (2 ^ 8) with 256; lia). change (2 ^ 8) with 256. lia.
Qed.

Lemma alpha_expand_spec n img_n a : forall src range, samples range src -> 0 <= a < range -> length src = (n * img_n)%nat ->
  length (alpha_expand n img_n a src) = (n * (img_n + 1))%nat /\ samples range (alpha_expand n img_n a src).
Proof.
  induction n as [|n IH]; intros src range Hs Ha Hl; cbn [alpha_expand]; [split; [done|constructor]|].
  destruct (IH (drop img_n src) range) as [H1 H2]; [by apply Forall_drop|done|rewrite length_drop; lia|]. rewrite !length_app, length_take, H1. cbn [length]. split; [lia|].
  unfold samples. rewrite !Forall_app. split_and!; [by apply Forall_take|by constructor|done].
Qed.

(** How many bytes a row has. *)
Definition row_bytes (x img_n depth : Z) : Z := (img_n * x * depth + 7) / 8.

Definition components_ok (img_n out_n : Z) : Prop := 1 <= img_n <= 4 /\ (out_n = img_n \/ out_n = img_n + 1 /\ (img_n = 1 \/ img_n = 3)).

Lemma row_samples_safe cur x img_n out_n depth color :
  samples 256 cur -> Z.of_nat (length cur) = row_bytes x img_n depth -> 1 <= x -> depth_ok depth -> components_ok img_n out_n ->
  zsafe (fun r => Z.of_nat (length r) = x * out_n /\ samples (depth_range depth) r) (row_samples cur x img_n out_n depth color).
Proof.
  intros Hc Hl Hx Hd [Hi Ho]. unfold row_samples, row_bytes in *. cbv zeta.
  assert (Hns : Z.of_nat (Z.to_nat (x * img_n)) = x * img_n) by nia. set (ns := Z.to_nat (x * img_n)) in *.
  apply (zsafe_bind (fun r => length r = ns /\ samples (depth_range depth) r)).
  - destruct (depth <? 8) eqn:E8; boolify.
    + eapply zsafe_weaken; [apply (zmapM_safe (fun v => 0 <= v < depth_range depth))|].
      * apply Forall_forall. intros i Hin. apply elem_of_seq in Hin. eapply zsafe_bind; [apply bits_sample_safe|].
        -- unfold depth_ok in Hd. lia.
        -- rewrite Hl. replace (img_n * x) with (Z.of_nat ns) by lia. unfold depth_ok in Hd. assert (Z.of_nat i * depth <= Z.of_nat ns * depth - depth) by nia. dlia.
        -- intros v _. cbn. unfold depth_range. destruct (depth =? 16) eqn:E; boolify; [lia|]. apply Z.mod_pos_bound. lia.
      * intros r [Hr Hf]. rewrite length_seq in Hr. done.
    + destruct (depth =? 8) eqn:E; boolify.
      * subst depth. change (depth_range 8) with 256. assert (length cur = ns) by (rewrite Z.div_add_l in Hl by lia || idtac; dlia).
        rewrite (proj2 (Nat.leb_le _ _)) by lia. cbn. rewrite length_take. split; [lia|]. by apply Forall_take.
      * assert (depth = 16) as -> by (unfold depth_ok in Hd; lia). change (depth_range 16) with 65536.
        assert (Hlc : length cur = (2 * ns)%nat) by dlia.
        eapply zsafe_weaken; [apply (zmapM_safe (fun v => 0 <= v < 65536))|].
        -- apply Forall_forall. intros i Hin. apply elem_of_seq in Hin. apply sample16_safe; [done|lia].
        -- intros r [Hr Hf]. rewrite length_seq in Hr. done.
  - intros r [Hr Hs]. destruct (img_n =? out_n) eqn:E; boolify; [cbn; split; [subst; lia|done]|].
    destruct Ho as [->|[-> H13]]; [done|]. rewrite (proj2 (orb_true_iff _ _)) by (rewrite !Z.eqb_eq; done).
    cbn [zsafe]. destruct (alpha_expand_spec (Z.to_nat x) (Z.to_nat img_n) (if depth =? 16 then 0xffff else 255) r (depth_range depth)) as [H1 H2]; [done| |nia|].
    + unfold depth_range. destruct (depth =? 16); lia.
    + rewrite H1. split; [nia|done].
Qed.

Lemma png_rows_safe x img_n out_n depth color nk fb :
  (1 <= fb)%nat -> Z.of_nat nk = row_bytes x img_n depth -> 1 <= x -> depth_ok depth -> components_ok img_n out_n ->
  forall n j raw prior, (n * (nk + 1) <= length raw)%nat -> 0 <= j -> (j <> 0 -> length prior = nk) -> samples 256 prior ->
  zsafe (fun r => Z.of_nat (length r) = Z.of_nat n * (x * out_n) /\ samples (depth_range depth) r)
    (png_rows n j raw prior nk fb x img_n out_n depth color).
Proof.
  intros Hfb Hnk Hx Hd Hc. induction n as [|n IH]; intros j raw prior Hl Hj Hp Hs; cbn [png_rows]; [cbn; split; [lia|constructor]|].
  destruct raw as [|b raw]; [cbn in Hl; lia|]. cbn [length] in Hl. destruct (row_filter j (bz b)) as [f|] eqn:Ef; [|done].
  rewrite (proj2 (Nat.ltb_ge _ _)) by lia.
  assert (Hprior : needs_prior f = true -> length prior = nk).
  { intros Hn. apply Hp. intros ->. unfold row_filter in Ef. change (0 =? 0) with true in Ef.
    destruct (bz b) as [|[[]|[[]|[]|]|]|]; simplify_eq; done. }
  eapply zsafe_bind; [apply (unfilter_safe f fb prior nk); [done|done|done|constructor|cbn [length]; rewrite length_take; lia]|].
  intros cur [Hlc Hsc]. eapply zsafe_bind; [apply row_samples_safe; [done|by rewrite Hlc|done..]|]. intros row [Hlr Hsr].
  eapply zsafe_bind; [apply IH; [rewrite length_drop; lia|lia|done|done]|]. intros rest [Hlrest Hsrest]. cbn. rewrite length_app. split; [lia|]. by apply Forall_app.
Qed.

(** ** Images *)

Section Image.
Context (malloc_ok : Z -> bool) (pal_uninit : Z -> Z) (Hu : forall i, 0 <= pal_uninit i < 256).

Lemma mul2sizes_spec a b : mul2sizes_valid a b = true -> 0 <= a /\ 0 <= b /\ a * b <= INT_MAX.
Proof.
  unfold mul2sizes_valid. destruct ((a <? 0) || (b <? 0)) eqn:E; [done|]. apply orb_false_iff in E as [Ea Eb]. boolify.
  destruct (b =? 0) eqn:E0; boolify; [subst; unfold INT_MAX; lia|]. intros H. boolify. split; [done|]. split; [done|].
  pose proof (Z.mul_div_le INT_MAX b ltac:(lia)). nia.
Qed.

Lemma addsizes_spec a b : addsizes_valid a b = true -> 0 <= b /\ a + b <= INT_MAX.
Proof. unfold addsizes_valid. destruct (b <? 0) eqn:E; [done|]. boolify. intros H. boolify. lia. Qed.

Lemma mad2sizes_spec a b add : mad2sizes_valid a b add = true -> 0 <= a /\ 0 <= b /\ 0 <= add /\ a * b + add <= INT_MAX.
Proof. unfold mad2sizes_valid. intros H. apply andb_true_iff in H as [H1 H2]. apply mul2sizes_spec in H1. apply addsizes_spec in H2. lia. Qed.

Lemma mad3sizes_spec a b c add : mad3sizes_valid a b c add = true ->
  0 <= a /\ 0 <= b /\ 0 <= c /\ 0 <= add /\ a * b <= INT_MAX /\ a * b * c + add <= INT_MAX.
Proof.
  unfold mad3sizes_valid. intros H. apply andb_true_iff in H as [H H3]. apply andb_true_iff in H as [H1 H2].
  apply mul2sizes_spec in H1. apply mul2sizes_spec in H2. apply addsizes_spec in H3. lia.
Qed.

(** An image with its size, its samples in range. *)
Definition image_ok (x y n depth : Z) (out : list Z) : Prop :=
  Z.of_nat (length out) = x * y * n /\ samples (depth_range depth) out /\ x * y * n * (if depth =? 16 then 2 else 1) <= INT_MAX.

Lemma image_raw_safe raw img_n out_n x y depth color :
  1 <= x -> 1 <= y <= MAX_DIMENSIONS -> depth_ok depth -> components_ok img_n out_n ->
  zsafe (image_ok x y out_n depth) (create_png_image_raw malloc_ok raw img_n out_n x y depth color).
Proof.
  intros Hx Hy Hd Hc. unfold create_png_image_raw, MAX_DIMENSIONS in *. cbv zeta.
  destruct (negb ((out_n =? img_n) || _)) eqn:E0; [destruct Hc as [_ Ho]; apply negb_true_iff, orb_false_iff in E0 as [E01 E02]; boolify; lia|].
  destruct (negb (mad3sizes_valid x y _ 0 && _)) eqn:E1; [done|]. apply negb_false_iff, andb_true_iff in E1 as [E1 _]. apply mad3sizes_spec in E1.
  destruct (negb (mad3sizes_valid img_n x depth 7)) eqn:E2; [done|]. apply negb_false_iff in E2. apply mad3sizes_spec in E2.
  destruct Hc as [Hi Ho]. assert (Hd1 : 1 <= depth <= 16) by (unfold depth_ok in Hd; lia). unfold INT_MAX in *.
  assert (Hwb : width_bytes img_n x depth = row_bytes x img_n depth).
  { unfold width_bytes, row_bytes, u32. rewrite Z.mod_small by (change (2 ^ 32) with 4294967296; nia). by rewrite Z.shiftr_div_pow2. }
  rewrite Hwb. destruct (negb (mad2sizes_valid _ y _)) eqn:E3; [done|]. apply negb_false_iff in E3. apply mad2sizes_spec in E3. unfold INT_MAX in *.
  set (wb := row_bytes x img_n depth) in *. unfold u32. rewrite Z.mod_small by (change (2 ^ 32) with 4294967296; nia).
  destruct (_ <? (wb + 1) * y) eqn:E4; boolify; [done|]. destruct (negb (mad2sizes_valid wb 2 0 && _)); [done|].
  assert (Hnk : Z.of_nat (Z.to_nat ((if depth <? 8 then wb else x) * (if depth <? 8 then 1 else img_n * (if depth =? 16 then 2 else 1)))) = wb).
  { destruct (depth <? 8) eqn:E8; boolify; [lia|]. unfold wb, row_bytes. destruct (depth =? 16) eqn:E16; boolify.
    - subst depth. replace (img_n * x * 16 + 7) with (7 + (x * (img_n * 2)) * 8) by lia. rewrite Z.div_add by lia. change (7 / 8) with 0. nia.
    - assert (depth = 8) as -> by (unfold depth_ok in Hd; lia). replace (img_n * x * 8 + 7) with (7 + (x * (img_n * 1)) * 8) by lia. rewrite Z.div_add by lia. change (7 / 8) with 0. nia. }
  eapply zsafe_weaken; [apply png_rows_safe; [|exact Hnk|done|done|done| |lia|done|constructor]|].
  - destruct (depth <? 8), (depth =? 16); lia.
  - nia.
  - intros out [Hl Hs]. split; [nia|]. split; [done|]. unfold INT_MAX. destruct (depth =? 16); lia.
Qed.

(** *** Interlacing: every pixel belongs to a pass *)

Definition in_pass (pass : Z * Z * Z * Z) (px py : Z) : bool :=
  let '(xorig, yorig, xspc, yspc) := pass in (px mod xspc =? xorig) && (py mod yspc =? yorig).

Lemma adam7_covers px py : existsb (fun pass => in_pass pass px py) adam7 = true.
Proof.
  assert (Hc : below 8 (fun a => below 8 (fun b => existsb (fun pass => in_pass pass a b) adam7)) = true) by (vm_compute; reflexivity).
  pose proof (below_spec _ _ (px mod 8) Hc ltac:(apply Z.mod_pos_bound; lia)) as H1. cbv beta in H1.
  pose proof (below_spec _ _ (py mod 8) H1 ltac:(apply Z.mod_pos_bound; lia)) as H2. cbv beta in H2. rewrite <- H2.
  assert (Hm : forall k a, (k = 1 \/ k = 2 \/ k = 4 \/ k = 8) -> (a mod 8) mod k = a mod k) by (intros k a [->|[->|[->| ->]]]; dlia).
  cbn [existsb adam7 in_pass]. by rewrite !Hm by tauto.
Qed.

Definition pass_ok (pass : Z * Z * Z * Z) : Prop :=
  let '(xorig, yorig, xspc, yspc) := pass in 0 <= xorig < xspc /\ 0 <= yorig < yspc /\ xspc <= 8 /\ yspc <= 8.

Lemma adam7_ok : Forall pass_ok adam7.
Proof. unfold adam7, pass_ok. repeat constructor; lia. Qed.

(** How many columns or rows a pass has. *)
Definition pass_count (n orig spc : Z) : Z := (n - orig + spc - 1) / spc.

Lemma pass_count_spec n orig spc : 1 <= n -> 0 <= orig < spc -> spc <= 8 -> n <= 2 ^ 24 ->
  u32 (n - orig + spc - 1) / spc = pass_count n orig spc /\ 0 <= pass_count n orig spc <= n
  /\ forall p, 0 <= p < n -> p mod spc = orig -> 0 <= (p - orig) / spc < pass_count n orig spc /\ (p - orig) / spc * spc + orig = p.
Proof.
  intros Hn Ho Hs Hmax. change (2 ^ 24) with 16777216 in Hmax. unfold u32, pass_count. rewrite Z.mod_small by (change (2 ^ 32) with 4294967296; lia).
  split; [done|]. split.
  { split; [apply Z.div_pos; lia|]. apply Z.lt_succ_r, Z.div_lt_upper_bound; [lia|]. nia. }
  intros p Hp Hm. pose proof (Z.div_mod p spc ltac:(lia)) as Hd. rewrite Hm in Hd. replace (p - orig) with (p / spc * spc) by lia. rewrite Z.div_mul by lia.
  split; [|lia]. split; [apply Z.div_pos; lia|]. apply Z.lt_le_trans with (p / spc + 1); [lia|]. apply Z.div_le_lower_bound; [lia|]. nia.
Qed.

(** The pixels stored so far have [n] samples each. *)
Definition pixels_ok (range n : Z) (final : gmap Z (list Z)) : Prop :=
  forall k p, final !! k = Some p -> Z.of_nat (length p) = n /\ samples range p.

Lemma scatter_spec range img_x xorig yorig xspc yspc x y out_n out final :
  0 <= x -> 0 <= y -> 0 <= out_n -> samples range out -> Z.of_nat (length out) = x * y * out_n -> pixels_ok range out_n final ->
  let final' := scatter img_x (xorig, yorig, xspc, yspc) x y out_n out final in
  pixels_ok range out_n final' /\ (forall k, is_Some (final !! k) -> is_Some (final' !! k))
  /\ forall i j, 0 <= i < x -> 0 <= j < y -> is_Some (final' !! ((j * yspc + yorig) * img_x + (i * xspc + xorig))).
Proof.
  intros Hx Hy Hn Hs Hl Hp. unfold scatter. cbv zeta. set (idx := _ ← seq 0 (Z.to_nat y); _).
  assert (Hidx : forall j i, (j, i) ∈ idx -> (j < Z.to_nat y)%nat /\ (i < Z.to_nat x)%nat).
  { intros j i Hin. unfold idx in Hin. apply list_elem_of_bind in Hin as (j' & Hin & Hj). apply list_elem_of_bind in Hin as (i' & Hin & Hi).
    apply list_elem_of_singleton in Hin as [= -> ->]. apply elem_of_seq in Hj, Hi. lia. }
  assert (Hall : forall i j, 0 <= i < x -> 0 <= j < y -> (Z.to_nat j, Z.to_nat i) ∈ idx).
  { intros i j Hi Hj. unfold idx. apply list_elem_of_bind. exists (Z.to_nat j). split; [|apply elem_of_seq; lia].
    apply list_elem_of_bind. exists (Z.to_nat i). split; [by apply list_elem_of_singleton|apply elem_of_seq; lia]. }
  set (f := fun (final : gmap Z (list Z)) '(j, i) => <[(Z.of_nat j * yspc + yorig) * img_x + (Z.of_nat i * xspc + xorig) := _]> final).
  assert (Hgen : forall l final, (forall j i, (j, i) ∈ l -> (j < Z.to_nat y)%nat /\ (i < Z.to_nat x)%nat) -> pixels_ok range out_n final ->
    pixels_ok range out_n (fold_left f l final) /\ (forall k, is_Some (final !! k) -> is_Some (fold_left f l final !! k))
    /\ forall j i, (j, i) ∈ l -> is_Some (fold_left f l final !! ((Z.of_nat j * yspc + yorig) * img_x + (Z.of_nat i * xspc + xorig)))).
  { induction l as [|[j i] l IH]; intros fin Hin Hf; cbn [fold_left].
    - split; [done|]. split; [done|]. intros j i H. by apply elem_of_nil in H.
    - destruct (IH (f fin (j, i))) as (H1 & H2 & H3).
      + intros j' i' H. apply Hin. by right.
      + destruct (Hin j i ltac:(by left)) as [Hj Hi]. intros k p. unfold f. destruct (decide (k = (Z.of_nat j * yspc + yorig) * img_x + (Z.of_nat i * xspc + xorig))) as [->|Hne].
        * rewrite lookup_insert_eq. intros [= <-]. split; [|by apply Forall_take, Forall_drop]. rewrite length_take, length_drop.
          assert (Hji : Z.of_nat j * x + Z.of_nat i + 1 <= x * y) by nia.
          pose proof (Z.mul_le_mono_nonneg_r _ _ out_n Hn Hji). assert (0 <= (Z.of_nat j * x + Z.of_nat i) * out_n) by nia. lia.
        * rewrite lookup_insert_ne by done. apply Hf.
      + split; [done|]. split.
        * intros k Hk. apply H2. unfold f. destruct (decide (k = (Z.of_nat j * yspc + yorig) * img_x + (Z.of_nat i * xspc + xorig))) as [->|Hne]; [by rewrite lookup_insert_eq|by rewrite lookup_insert_ne].
        * intros j' i' H. apply list_elem_of_In in H as [[= <- <-]|H]; [|apply H3; by apply list_elem_of_In]. apply H2. unfold f. by rewrite lookup_insert_eq. }
  destruct (Hgen idx final Hidx Hp) as (H1 & H2 & H3). split; [done|]. split; [done|]. intros i j Hi Hj.
  specialize (H3 (Z.to_nat j) (Z.to_nat i) (Hall i j Hi Hj)). by rewrite !Z2Nat.id in H3 by lia.
Qed.

Definition dim_ok (n : Z) : Prop := 1 <= n <= 2 ^ 24.

Lemma passes_safe img_x img_y img_n out_n depth color :
  dim_ok img_x -> dim_ok img_y -> depth_ok depth -> components_ok img_n out_n ->
  forall passes raw final, Forall pass_ok passes -> pixels_ok (depth_range depth) out_n final ->
  zsafe (fun final' => pixels_ok (depth_range depth) out_n final' /\ (forall k, is_Some (final !! k) -> is_Some (final' !! k))
      /\ forall px py, 0 <= px < img_x -> 0 <= py < img_y -> existsb (fun pass => in_pass pass px py) passes = true -> is_Some (final' !! (py * img_x + px)))
    (png_passes malloc_ok passes raw img_x img_y img_n out_n depth color final).
Proof.
  intros Hx Hy Hd Hc. unfold dim_ok in *. change (2 ^ 24) with 16777216 in *. induction passes as [|[[[xorig yorig] xspc] yspc] passes IH]; intros raw final Hp Hf; cbn [png_passes]; [done|].
  apply Forall_cons in Hp as [(Hxo & Hyo & Hxs & Hys) Hp]. cbv zeta.
  destruct (pass_count_spec img_x xorig xspc) as (-> & Hcx & Hix); [lia|lia|lia|change (2 ^ 24) with 16777216; lia|].
  destruct (pass_count_spec img_y yorig yspc) as (-> & Hcy & Hiy); [lia|lia|lia|change (2 ^ 24) with 16777216; lia|].
  set (x := pass_count img_x xorig xspc) in *. set (y := pass_count img_y yorig yspc) in *.
  assert (Hin : forall px py, 0 <= px < img_x -> 0 <= py < img_y -> in_pass (xorig, yorig, xspc, yspc) px py = true ->
    exists i j, 0 <= i < x /\ 0 <= j < y /\ (j * yspc + yorig) * img_x + (i * xspc + xorig) = py * img_x + px).
  { intros px py Hpx Hpy H. unfold in_pass in H. apply andb_true_iff in H as [H1 H2]. boolify.
    destruct (Hix px Hpx H1) as [Hi Ei]. destruct (Hiy py Hpy H2) as [Hj Ej]. exists ((px - xorig) / xspc), ((py - yorig) / yspc). rewrite Ei, Ej. done. }
  destruct (negb (x =? 0) && negb (y =? 0)) eqn:E.
  - apply andb_true_iff in E as [E1 E2]. apply negb_true_iff in E1, E2. boolify.
    eapply zsafe_bind; [apply image_raw_safe; [lia|unfold MAX_DIMENSIONS; lia|done|done]|]. intros out (Hl & Hs & _).
    destruct (scatter_spec (depth_range depth) img_x xorig yorig xspc yspc x y out_n out final) as (H1 & H2 & H3); [lia|lia|destruct Hc; lia|done|done|done|].
    eapply zsafe_weaken; [by apply IH|]. intros final' (G1 & G2 & G3). split; [done|]. split; [auto|].
    intros px py Hpx Hpy Hex. cbn [existsb] in Hex. apply orb_true_iff in Hex as [Hex|Hex]; [|by apply G3].
    destruct (Hin px py Hpx Hpy Hex) as (i & j & Hi & Hj & <-). by apply G2, H3.
  - eapply zsafe_weaken; [by apply IH|]. intros final' (G1 & G2 & G3). split; [done|]. split; [done|].
    intros px py Hpx Hpy Hex. cbn [existsb] in Hex. apply orb_true_iff in Hex as [Hex|Hex]; [|by apply G3].
    destruct (Hin px py Hpx Hpy Hex) as (i & j & Hi & Hj & _). exfalso. apply andb_false_iff in E as [E|E]; apply negb_false_iff in E; boolify; lia.
Qed.

Lemma samples_concat range n (l : list (list Z)) : 0 <= n ->
  Forall (fun p => Z.of_nat (length p) = n /\ samples range p) l -> Z.of_nat (length (concat l)) = Z.of_nat (length l) * n /\ samples range (concat l).
Proof.
  intros Hn. induction 1 as [|p l [Hl Hs] _ [IH1 IH2]]; cbn [concat length]; [split; [lia|constructor]|]. rewrite length_app. split; [lia|]. by apply Forall_app.
Qed.

Lemma image_safe raw img_x img_y img_n out_n depth color interlaced :
  dim_ok img_x -> dim_ok img_y -> depth_ok depth -> components_ok img_n out_n ->
  zsafe (image_ok img_x img_y out_n depth) (create_png_image malloc_ok raw img_x img_y img_n out_n depth color interlaced).
Proof.
  intros Hx Hy Hd Hc. unfold create_png_image. destruct (interlaced =? 0).
  - unfold dim_ok in *. change (2 ^ 24) with 16777216 in *. apply image_raw_safe; [lia|unfold MAX_DIMENSIONS; lia|done|done].
  - cbv zeta. destruct (negb _) eqn:E; [done|]. apply negb_false_iff, andb_true_iff in E as [E _]. apply mad3sizes_spec in E.
    eapply zsafe_bind; [apply passes_safe; [done|done|done|done|exact adam7_ok|]|].
    { intros k p. by rewrite lookup_empty. }
    intros final (Hp & _ & Hcov). unfold dim_ok in *.
    eapply zsafe_bind; [apply (zmapM_safe (fun p => Z.of_nat (length p) = out_n /\ samples (depth_range depth) p))|].
    + apply Forall_forall. intros k Hk. apply elem_of_seq in Hk. destruct (Hcov (Z.of_nat k mod img_x) (Z.of_nat k / img_x)) as [p Hpk].
      * apply Z.mod_pos_bound. lia.
      * split; [apply Z.div_pos; lia|]. apply Z.div_lt_upper_bound; lia.
      * apply adam7_covers.
      * replace (Z.of_nat k / img_x * img_x + Z.of_nat k mod img_x) with (Z.of_nat k) in Hpk by (rewrite (Z.div_mod (Z.of_nat k) img_x) at 1 by lia; lia).
        rewrite Hpk. by apply (Hp _ _ Hpk).
    + intros pixels [Hl Hf]. rewrite length_seq in Hl. destruct (samples_concat (depth_range depth) out_n pixels) as [H1 H2]; [destruct Hc; lia|done|].
      split; [rewrite H1, Hl; nia|]. split; [done|]. lia.
Qed.

(** ** Transparency and palettes *)

Lemma transparency_safe tc out_n opaque range : out_n = 2 \/ out_n = 4 -> 0 <= opaque < range -> forall n out,
  Z.of_nat (length out) = Z.of_nat n * out_n -> samples range out ->
  zsafe (fun r => length r = length out /\ samples range r) (compute_transparency n tc out_n opaque out).
Proof.
  intros Hn Ho. induction n as [|n IH]; intros out Hl Hs; cbn [compute_transparency]; [done|]. destruct (out_n =? 2) eqn:E; boolify.
  - destruct out as [|p [|q out]]; cbn [length] in Hl; [lia|lia|]. apply Forall_cons in Hs as [Hp Hs]. apply Forall_cons in Hs as [Hq Hs].
    eapply zsafe_bind; [apply IH; [lia|done]|]. intros r [Hr Hsr]. cbn. split; [lia|]. constructor; [done|]. constructor; [destruct (_ =? _); lia|done].
  - destruct out as [|p0 [|p1 [|p2 [|p3 out]]]]; cbn [length] in Hl; [lia..|]. do 4 (apply Forall_cons in Hs as [? Hs]).
    eapply zsafe_bind; [apply IH; [lia|done]|]. intros r [Hr Hsr]. cbn. split; [lia|]. repeat (constructor; [first [done|destruct (_ && _); lia]|]). done.
Qed.

Definition palette_ok (pal : gmap Z Z) : Prop := forall i v, pal !! i = Some v -> 0 <= v < 256.

Lemma palette_safe pal pal_img_n pixel_count orig : palette_ok pal -> pal_img_n = 3 \/ pal_img_n = 4 -> samples 256 orig -> pixel_count <= Z.of_nat (length orig) -> 0 <= pixel_count ->
  zsafe (fun r => Z.of_nat (length r) = pixel_count * pal_img_n /\ samples 256 r /\ pixel_count * pal_img_n <= INT_MAX) (expand_png_palette malloc_ok pal_uninit pal pal_img_n pixel_count orig).
Proof.
  intros Hp Hn Hs Hl H0. unfold expand_png_palette. destruct (negb _) eqn:E; [done|]. apply negb_false_iff, andb_true_iff in E as [E _]. apply mad2sizes_spec in E.
  rewrite (proj2 (Z.ltb_ge _ _)) by lia. set (c := if pal_img_n =? 3 then 3%nat else 4%nat). assert (Hcn : Z.of_nat c = pal_img_n) by (unfold c; destruct Hn as [->| ->]; done).
  eapply zsafe_bind; [apply (zmapM_safe (fun p => Z.of_nat (length p) = pal_img_n /\ samples 256 p))|].
  - apply Forall_take. eapply Forall_impl; [exact Hs|]. intros v Hv. cbv beta in Hv. eapply zsafe_weaken; [apply (zmapM_safe (fun v => 0 <= v < 256))|].
    + apply Forall_forall. intros i Hi. apply elem_of_seq in Hi. unfold palette_get. destruct (_ && _) eqn:E1; [|apply andb_false_iff in E1 as [E1|E1]; boolify; lia].
      cbn. destruct (pal !! _) as [w|] eqn:Ew; [by apply (Hp _ _ Ew)|apply Hu].
    + intros r [Hr Hsr]. rewrite length_seq in Hr. split; [lia|done].
  - intros pixels [Hpl Hf]. rewrite length_take in Hpl. destruct (samples_concat 256 pal_img_n pixels) as [H1 H2]; [lia|done|]. cbn. split; [nia|]. split; [done|lia].
Qed.

(** ** Chunks *)

Lemma get8_spec s : 0 <= (get8 s).1 < 256 /\ (length (get8 s).2 <= length s)%nat.
Proof. destruct s as [|b s]; cbn [get8 fst snd length]; [lia|]. pose proof (bz_range b). lia. Qed.

Lemma get16be_spec s : 0 <= (get16be s).1 < 65536 /\ (length (get16be s).2 <= length s)%nat.
Proof.
  unfold get16be. pose proof (get8_spec s). destruct (get8 s) as [a s1]. pose proof (get8_spec s1). destruct (get8 s1) as [b s2]. cbn [fst snd] in *.
  rewrite Z.shiftl_mul_pow2 by lia. change (2 ^ 8) with 256. lia.
Qed.

Lemma get32be_spec s : 0 <= (get32be s).1 < 2 ^ 32 /\ (length (get32be s).2 <= length s)%nat /\ (s <> [] -> (length (get32be s).2 < length s)%nat).
Proof.
  unfold get32be. pose proof (get16be_spec s). destruct (get16be s) as [a s1] eqn:E. pose proof (get16be_spec s1). destruct (get16be s1) as [b s2]. cbn [fst snd] in *.
  assert (Hu16 : u32 (Z.shiftl a 16) = a * 65536) by (unfold u32; rewrite Z.shiftl_mul_pow2 by lia; change (2 ^ 16) with 65536; change (2 ^ 32) with 4294967296; apply Z.mod_small; lia).
  rewrite Hu16. change (2 ^ 32) with 4294967296. split_and!; [lia|lia|lia|].
  intros Hs. destruct s as [|c s]; [done|]. unfold get16be in E. cbn [get8] in E. pose proof (get8_spec s) as G. destruct (get8 s) as [d s3]. injection E as _ <-. cbn [fst snd length] in *. lia.
Qed.

Lemma skip_length n s : (length (skip n s) <= length s)%nat.
Proof. unfold skip. destruct (_ <? 0); [cbn; lia|]. rewrite length_drop. lia. Qed.

(** What the chunks read so far have stored, of a file of [len] bytes. *)
Record png_ok (len : nat) (p : png) : Prop := {
  ok_length : (length (p_s p) + length (default [] (p_idata p)) <= len)%nat;
  ok_idata : Z.of_nat (length (default [] (p_idata p))) <= INT_MAX;
  ok_palette : palette_ok (palette p);
  ok_limit : 0 <= idata_limit p;
  ok_first : p_first p = true -> pal_img_n p = 0 /\ has_trans p = false;
  ok_header : p_first p = false -> dim_ok (img_x p) /\ dim_ok (img_y p) /\ depth_ok (p_depth p) /\ 1 <= img_n p <= 4
      /\ img_x p * img_y p * img_n p <= 2 ^ 30 /\ (pal_img_n p = 0 \/ (pal_img_n p = 3 \/ pal_img_n p = 4) /\ p_depth p <> 16 /\ img_n p = 1 /\ has_trans p = false)
      /\ (has_trans p = true -> img_n p = 1 \/ img_n p = 3) }.

Lemma set_s_ok len s p : png_ok len p -> (length s <= length (p_s p))%nat -> png_ok len (set_s s p).
Proof. intros [] Hs. split; cbn [set_s p_s p_idata palette idata_limit p_first pal_img_n has_trans img_x img_y img_n p_depth]; [lia|done..]. Qed.

Lemma IHDR_safe len clen p : png_ok len p -> zsafe (png_ok len) (chunk_IHDR clen p).
Proof.
  intros Hp. pose proof Hp as [Hlen Hid Hpal Hlim Hfirst _]. unfold chunk_IHDR. destruct (p_first p) eqn:Ef; [|done]. cbn [negb]. destruct (negb (clen =? 13)); [done|].
  pose proof (get32be_spec (p_s p)) as (Hx & Hl1 & _). destruct (get32be (p_s p)) as [x s1]. pose proof (get32be_spec s1) as (Hy & Hl2 & _). destruct (get32be s1) as [y s2]. cbn [fst snd] in *.
  destruct (_ || _) eqn:E1; [done|]. apply orb_false_iff in E1 as [E1 E2]. pose proof (get8_spec s2) as [_ Hl3]. destruct (get8 s2) as [depth s3]. cbn [fst snd] in *.
  destruct (negb _) eqn:E3; [done|]. apply negb_false_iff in E3. pose proof (get8_spec s3) as [_ Hl4]. destruct (get8 s3) as [color s4]. cbn [fst snd] in *.
  destruct ((6 <? color) || _) eqn:E4; [done|]. apply orb_false_iff in E4 as [_ E4]. destruct (negb (color =? 3) && _) eqn:E5; [done|].
  pose proof (get8_spec s4) as [_ Hl5]. destruct (get8 s4) as [comp s5]. pose proof (get8_spec s5) as [_ Hl6]. destruct (get8 s5) as [fm s6]. pose proof (get8_spec s6) as [_ Hl7]. destruct (get8 s6) as [inter s7]. cbn [fst snd] in *.
  destruct (_ || (1 <? inter)); [done|]. destruct ((x =? 0) || _) eqn:E6; [done|]. apply orb_false_iff in E6 as [E6 E7].
  destruct (Hfirst eq_refl) as [Hp0 Ht0]. rewrite Hp0. cbv zeta. set (pn := if color =? 3 then 3 else 0).
  set (n := if pn =? 0 then _ else 1). destruct (2 ^ 30 / x / (if pn =? 0 then n else 4) <? y) eqn:E8; [done|]. boolify. unfold MAX_DIMENSIONS in *. cbn [zsafe].
  assert (Hn : 1 <= n <= 4) by (unfold n; destruct (pn =? 0); [destruct (Z.land color 2 =? 0), (Z.land color 4 =? 0); lia|lia]).
  assert (Hd : depth_ok depth) by (unfold depth_ok; rewrite !orb_true_iff, !Z.eqb_eq in E3; tauto).
  assert (Hxyn : x * y * n <= 2 ^ 30).
  { assert (Hd2 : 2 ^ 30 / x / (if pn =? 0 then n else 4) = 2 ^ 30 / (x * (if pn =? 0 then n else 4))) by (apply Z.div_div; [lia|destruct (pn =? 0); lia]). rewrite Hd2 in E8.
    pose proof (Z.mul_div_le (2 ^ 30) (x * (if pn =? 0 then n else 4)) ltac:(destruct (pn =? 0); nia)) as Hm. unfold n in *. destruct (pn =? 0); nia. }
  split; cbn [set_header p_s p_idata palette idata_limit p_first pal_img_n has_trans img_x img_y img_n p_depth]; [lia|done..|].
  intros _. unfold dim_ok. change (2 ^ 24) with 16777216. split_and!; [lia..|done|lia|lia|done| |intros Ht; by rewrite Ht0 in Ht].
  unfold n, pn. destruct (color =? 3) eqn:Ec; [right|by left]. split; [by left|]. rewrite andb_true_l in E4. boolify. done.
Qed.

Lemma palette_insert pal i v : palette_ok pal -> 0 <= v < 256 -> palette_ok (<[i := v]> pal).
Proof.
  intros Hp Hv j w. destruct (decide (j = i)) as [->|Hn]; [rewrite lookup_insert_eq; by intros [= <-]|rewrite lookup_insert_ne by done; apply Hp].
Qed.

Lemma read_palette_spec n : forall i s pal, palette_ok pal ->
  (length (read_palette n i s pal).1 <= length s)%nat /\ palette_ok (read_palette n i s pal).2.
Proof.
  induction n as [|n IH]; intros i s pal Hp; cbn [read_palette]; [split; [done|exact Hp]|].
  pose proof (get8_spec s) as [Hr Hl1]. destruct (get8 s) as [r s1]. pose proof (get8_spec s1) as [Hg Hl2]. destruct (get8 s1) as [g s2].
  pose proof (get8_spec s2) as [Hb Hl3]. destruct (get8 s2) as [b s3]. cbn [fst snd] in *.
  destruct (IH (i + 1) s3 (<[i * 4 + 3:=255]> (<[i * 4 + 2:=b]> (<[i * 4 + 1:=g]> (<[i * 4:=r]> pal))))) as [H1 H2]; [|split; [lia|done]].
  repeat (apply palette_insert; [|lia]). done.
Qed.

Lemma read_alphas_spec n : forall i s pal, palette_ok pal ->
  (length (read_alphas n i s pal).1 <= length s)%nat /\ palette_ok (read_alphas n i s pal).2.
Proof.
  induction n as [|n IH]; intros i s pal Hp; cbn [read_alphas]; [split; [done|exact Hp]|].
  pose proof (get8_spec s) as [Hr Hl1]. destruct (get8 s) as [a s1]. cbn [fst snd] in *.
  destruct (IH (i + 1) s1 (<[i * 4 + 3:=a]> pal)) as [H1 H2]; [by apply palette_insert|split; [lia|done]].
Qed.

Lemma read_trans_length n conv : forall s old, (length (read_trans n conv s old).1 <= length s)%nat.
Proof.
  induction n as [|n IH]; intros s old; [done|]. destruct old as [|t old]; [done|]. cbn [read_trans].
  pose proof (get16be_spec s) as [_ H1]. destruct (get16be s) as [v s1]. specialize (IH s1 old). destruct (read_trans n conv s1 old) as [s2 l]. cbn [fst snd] in *. lia.
Qed.

Lemma PLTE_safe len clen p : png_ok len p -> zsafe (png_ok len) (chunk_PLTE clen p).
Proof.
  intros [Hlen Hid Hpal Hlim Hfirst Hh]. unfold chunk_PLTE. destruct (p_first p) eqn:Ef; [done|]. destruct (_ <? clen); [done|]. destruct (negb _); [done|].
  destruct (read_palette_spec (Z.to_nat (clen / 3)) 0 (p_s p) (palette p) Hpal) as [H1 H2]. destruct (read_palette _ _ _ _) as [s pal]. cbn [fst snd] in *.
  cbn. split; cbn [set_palette p_s p_idata palette idata_limit p_first pal_img_n has_trans img_x img_y img_n p_depth]; [lia|done|done|done|by rewrite Ef|intros _; by apply Hh].
Qed.

Lemma tRNS_safe len clen p : png_ok len p -> zsafe (png_ok len) (chunk_tRNS clen p).
Proof.
  intros [Hlen Hid Hpal Hlim Hfirst Hh]. unfold chunk_tRNS. destruct (p_first p) eqn:Ef; [done|]. destruct (match p_idata p with Some _ => true | None => false end); [done|].
  destruct (Hh eq_refl) as (Hx & Hy & Hd & Hn & Hxyn & Hpn & Ht). destruct (negb (pal_img_n p =? 0)) eqn:Ep.
  - apply negb_true_iff in Ep. boolify. destruct (pal_len p =? 0); [done|]. destruct (pal_len p <? clen); [done|].
    destruct (read_alphas_spec (Z.to_nat clen) 0 (p_s p) (palette p) Hpal) as [H1 H2]. destruct (read_alphas _ _ _ _) as [s pal]. cbn [fst snd] in *.
    cbn. split; cbn [set_palette p_s p_idata palette idata_limit p_first pal_img_n has_trans img_x img_y img_n p_depth]; [lia|done|done|done|by rewrite Ef|].
    intros _. refine (conj Hx (conj Hy (conj Hd (conj Hn (conj Hxyn (conj _ Ht)))))). right. destruct Hpn as [?|(_ & H)]; [done|]. split; [by right|done].
  - apply negb_false_iff in Ep. boolify. destruct (Z.land (img_n p) 1 =? 0) eqn:Eo; [done|]. destruct (negb _); [done|]. cbv zeta.
    assert (H13 : img_n p = 1 \/ img_n p = 3).
    { assert (Hc : img_n p = 1 \/ img_n p = 2 \/ img_n p = 3 \/ img_n p = 4) by lia. destruct Hc as [->|[Hc|[->|Hc]]]; [by left| |by right|]; by rewrite Hc in Eo. }
    assert (Hgoal : forall s tc tc16, (length s <= length (p_s p))%nat -> png_ok len (set_trans s tc tc16 p)).
    { intros s tc tc16 Hs. split; cbn [set_trans p_s p_idata palette idata_limit p_first pal_img_n has_trans img_x img_y img_n p_depth]; [lia|done|done|done|by rewrite Ef|].
      intros _. refine (conj Hx (conj Hy (conj Hd (conj Hn (conj Hxyn (conj _ (fun _ => H13))))))). by left. }
    destruct (p_depth p =? 16).
    + match goal with |- context [read_trans ?n ?c ?s ?o] => pose proof (read_trans_length n c s o) as Hl; destruct (read_trans n c s o) as [s' tc] end. by apply Hgoal.
    + match goal with |- context [read_trans ?n ?c ?s ?o] => pose proof (read_trans_length n c s o) as Hl; destruct (read_trans n c s o) as [s' tc] end. by apply Hgoal.
Qed.

Lemma IDAT_safe len clen p : png_ok len p -> 0 <= clen -> zsafe (png_ok len) (chunk_IDAT malloc_ok clen p).
Proof.
  intros Hp Hc. pose proof Hp as [Hlen Hid Hpal Hlim Hfirst Hh]. unfold chunk_IDAT. destruct (p_first p) eqn:Ef; [done|]. destruct (negb _ && _); [done|].
  destruct (2 ^ 30 <? clen) eqn:E; boolify; [done|]. cbv zeta. set (old := default [] (p_idata p)) in *. set (ioff := Z.of_nat (length old)) in *.
  change (2 ^ 30) with 1073741824 in E. destruct (i32 (ioff + clen) <? i32 ioff) eqn:E1; boolify; [done|]. unfold INT_MAX in *.
  assert (Hsum : ioff + clen <= INT_MAX).
  { unfold i32, INT_MAX in *. change (2 ^ 31) with 2147483648 in *. change (2 ^ 32) with 4294967296 in *. unfold ioff in *. dlia. }
  assert (H1 : zsafe (fun l => ioff + clen <= l) (if idata_limit p <? ioff + clen then
      match grow (grow_fuel (ioff + clen)) (if idata_limit p =? 0 then if 4096 <? clen then clen else 4096 else idata_limit p) (ioff + clen) with
      | Some l => if malloc_ok l then ZOk l else ZFail | None => ZFuel end else ZOk (idata_limit p))).
  { destruct (_ <? ioff + clen) eqn:E2; boolify; [|done]. set (c0 := if idata_limit p =? 0 then _ else _).
    assert (Hc0 : 1 <= c0) by (unfold c0; destruct (idata_limit p =? 0) eqn:E3; boolify; [destruct (4096 <? clen) eqn:E4; boolify; lia|lia]).
    destruct (grow_spec (grow_fuel (ioff + clen)) c0 (ioff + clen)) as (c & -> & _ & Hc1 & _); [lia|apply grow_fuel_enough; lia|unfold grow_fuel; lia|].
    destruct (malloc_ok c); [done|done]. }
  eapply zsafe_bind; [exact H1|]. intros limit Hlimit. cbv beta in Hlimit. destruct (_ <? Z.to_nat clen)%nat eqn:E2; boolify; [done|]. rewrite (proj2 (Z.ltb_ge limit _)) by lia.
  destruct (limit =? 0) eqn:E3; boolify; cbn; [by apply set_s_ok|].
  split; cbn [set_idata p_s p_idata palette idata_limit p_first pal_img_n has_trans img_x img_y img_n p_depth]; fold old; [| |done| |by rewrite Ef|intros _; by apply Hh].
  - change (default [] (Some ?l)) with l. rewrite length_app, length_take, length_drop. lia.
  - change (default [] (Some ?l)) with l. rewrite length_app, length_take. unfold INT_MAX in *. lia.
  - lia.
Qed.

(** What a file is read as. *)
Definition image_read (req_comp : Z) (i : image) : Prop :=
  dim_ok (i_x i) /\ dim_ok (i_y i) /\ depth_ok (i_depth i) /\ 1 <= i_out_n i <= 4 /\ (req_comp = 0 -> i_n i = i_out_n i)
  /\ image_ok (i_x i) (i_y i) (i_out_n i) (i_depth i) (i_out i).

Section Parse.
Context (Hptr : forall n, 2 ^ 63 <= n -> malloc_ok n = false).
Context (req_comp : Z) (Hreq : 0 <= req_comp <= 4).

(** The size guessed for the rows is an [int] other than 0. *)
Lemma raw_len_spec x y n depth : dim_ok x -> dim_ok y -> depth_ok depth -> 1 <= n -> x * y * n <= 2 ^ 30 ->
  i32 (u32 (u32 (x * depth + 7) / 8 * y * n + y)) <> 0.
Proof.
  unfold dim_ok. change (2 ^ 24) with 16777216. change (2 ^ 30) with 1073741824. intros Hx Hy Hd Hn Hxyn.
  assert (Hd16 : 1 <= depth <= 16) by (unfold depth_ok in Hd; lia).
  assert (Hb : 0 <= u32 (x * depth + 7) / 8 <= 2 * x).
  { unfold u32. rewrite Z.mod_small by (change (2 ^ 32) with 4294967296; nia). split; [apply Z.div_pos; nia|]. unfold depth_ok in Hd. destruct Hd as [->|[->|[->|[->| ->]]]]; dlia. }
  set (b := u32 (x * depth + 7) / 8) in *. assert (Hs : 1 <= b * y * n + y < 4294967296) by nia.
  unfold u32, i32. change (2 ^ 31) with 2147483648. change (2 ^ 32) with 4294967296. dlia.
Qed.

Lemma IEND_safe len fuel p : png_ok len p -> zlib_fuel (default [] (p_idata p)) fuel ->
  zsafe (image_read req_comp) (chunk_IEND malloc_ok pal_uninit fuel req_comp p).
Proof.
  intros [Hlen Hid Hpal Hlim Hfirst Hh] Hf. unfold chunk_IEND. destruct (p_first p) eqn:Ef; [done|]. destruct (p_idata p) as [idata|]; [|done].
  destruct (Hh eq_refl) as (Hx & Hy & Hd & Hn & Hxyn & Hpn & Ht). cbv zeta.
  eapply zsafe_bind; [apply zlib_decode_safe; [exact Hf|apply i32_range|by apply raw_len_spec; [..|lia|]|exact Hptr]|]. intros expanded _.
  set (out_n := if _ || has_trans p then img_n p + 1 else img_n p).
  assert (Hco : components_ok (img_n p) out_n /\ (has_trans p = true -> out_n = 2 \/ out_n = 4) /\ (pal_img_n p <> 0 -> out_n = img_n p) /\ (req_comp = 0 -> has_trans p = false -> out_n = img_n p) /\ (has_trans p = true -> out_n = img_n p + 1)).
  { unfold out_n, components_ok. destruct (has_trans p) eqn:Eh.
    - rewrite orb_true_r. specialize (Ht eq_refl). split_and!; [lia|lia|right; lia|intros _; lia| |done|done].
      intros Hp0. destruct Hpn as [?|(_ & _ & _ & ?)]; done.
    - rewrite orb_false_r. destruct (_ && (pal_img_n p =? 0)) eqn:E.
      + apply andb_true_iff in E as [E E2]. apply andb_true_iff in E as [E1 E3]. apply negb_true_iff in E3. boolify. split_and!; [lia|lia|right; lia|done|done|lia|done].
      + split_and!; [lia|lia|by left|done|done|done|done]. }
  destruct Hco as (Hco & Ht24 & Hpout & Hr0 & Htout).
  eapply zsafe_bind; [by apply image_safe|]. intros out (Hl & Hs & Hmax).
  assert (Hpc : u32 (img_x p * img_y p) = img_x p * img_y p).
  { unfold u32. apply Z.mod_small. unfold dim_ok in *. change (2 ^ 30) with 1073741824 in *. change (2 ^ 32) with 4294967296. nia. }
  rewrite Hpc. assert (Hxy : 0 <= img_x p * img_y p) by (unfold dim_ok in *; nia).
  apply (zsafe_bind (fun o => length o = length out /\ samples (depth_range (p_depth p)) o)).
  - destruct (has_trans p) eqn:Eh; [|done]. specialize (Ht24 eq_refl).
    assert (Hgo : forall tc opaque, 0 <= opaque < depth_range (p_depth p) ->
      zsafe (fun o => length o = length out /\ samples (depth_range (p_depth p)) o) (compute_transparency (Z.to_nat (img_x p * img_y p)) tc out_n opaque out)).
    { intros tc opaque Hop. apply transparency_safe; [done|done|rewrite Z2Nat.id by lia; lia|done]. }
    rewrite (proj2 (orb_true_iff _ _)) by (rewrite !Z.eqb_eq; done). cbn [negb].
    destruct (p_depth p =? 16) eqn:E16; apply Hgo; unfold depth_range; rewrite E16; lia.
  - intros o [Hlo Hso]. destruct (negb (pal_img_n p =? 0)) eqn:Ep.
    + apply negb_true_iff in Ep. boolify. destruct Hpn as [?|(H34 & Hd16 & Hn1 & Hnt)]; [done|]. specialize (Hpout Ep).
      assert (Hrange : depth_range (p_depth p) = 256) by (unfold depth_range; by rewrite (proj2 (Z.eqb_neq _ 16))). rewrite Hrange in Hso.
      set (pn := if 3 <=? req_comp then req_comp else pal_img_n p). assert (Hpn34 : pn = 3 \/ pn = 4) by (unfold pn; destruct (3 <=? req_comp) eqn:E3; boolify; lia).
      eapply zsafe_bind; [apply (palette_safe _ pn); [done|done|done|rewrite Hlo, Hl, Hpout, Hn1; lia|done]|].
      intros q (Hlq & Hsq & Hmq). cbn. unfold image_read, image_ok. cbn [i_x i_y i_depth i_out_n i_n i_out].
      rewrite Hrange, (proj2 (Z.eqb_neq _ 16) Hd16). split_and!; try done; [lia|lia| |lia]. intros ->. done.
    + apply negb_false_iff in Ep. boolify. cbn. unfold image_read, image_ok. cbn [i_x i_y i_depth i_out_n i_n i_out].
      destruct Hco as [Hn14 Hoc]. split_and!; try done; [lia|lia| |by rewrite Hlo]. intros Hr. destruct (has_trans p) eqn:Eh; [by rewrite Htout|by rewrite Hr0].
Qed.

(** Each turn takes at least a byte, and a chunk behind the end is refused. *)
Lemma chunk_behind_end n fuel p : p_s p = [] -> parse_chunks malloc_ok pal_uninit (S n) fuel req_comp p = ZFail.
Proof.
  intros Hs. cbn [parse_chunks]. rewrite Hs. change (get32be []) with (0, @nil byte). cbv iota beta zeta. change (get32be []) with (0, @nil byte). cbv iota beta.
  change (0 =? type_IEND) with false. change (0 =? type_CgBI) with false. change (0 =? type_IHDR) with false. change (0 =? type_PLTE) with false.
  change (0 =? type_tRNS) with false. change (0 =? type_IDAT) with false. cbv iota. change (Z.land 0 (2 ^ 29) =? 0) with true. by destruct (p_first _).
Qed.

Lemma chunks_safe fuel : forall n len p, png_ok len p -> (len < n)%nat ->
  UINT_MAX < Z.of_nat fuel -> 8 * Z.of_nat len < Z.of_nat fuel ->
  zsafe (image_read req_comp) (parse_chunks malloc_ok pal_uninit n fuel req_comp p).
Proof.
  induction n as [|n IH]; intros len p Hp Hn Hf1 Hf2; [lia|]. destruct (decide (p_s p = [])) as [He|Hne]; [by rewrite chunk_behind_end|]. cbn [parse_chunks].
  pose proof (get32be_spec (p_s p)) as (Hc1 & _ & Hlt). specialize (Hlt Hne). destruct (get32be (p_s p)) as [clen s1]. pose proof (get32be_spec s1) as (_ & Hl2 & _).
  destruct (get32be s1) as [type s2]. cbn [fst snd] in *.
  assert (Hp2 : png_ok (len - 1) (set_s s2 p)).
  { pose proof Hp as []. split; cbn [set_s p_s p_idata palette idata_limit p_first pal_img_n has_trans img_x img_y img_n p_depth]; [lia|done..]. }
  set (p2 := set_s s2 p) in *. pose proof (ok_length _ _ Hp) as Hlen. assert (Hlen1 : (1 <= length (p_s p))%nat) by (destruct (p_s p); [done|cbn; lia]).
  destruct (type =? type_IEND); [apply (IEND_safe (len - 1)); [done|]; split; [done|]; pose proof (ok_length _ _ Hp2); lia|].
  assert (Hskip : png_ok (len - 1) (set_s (skip clen (p_s p2)) p2)) by (apply set_s_ok; [done|apply skip_length]).
  apply (zsafe_bind (png_ok (len - 1))).
  - destruct (type =? type_CgBI); [by destruct Hskip|]. destruct (type =? type_IHDR); [by apply IHDR_safe|]. destruct (type =? type_PLTE); [by apply PLTE_safe|].
    destruct (type =? type_tRNS); [by apply tRNS_safe|]. destruct (type =? type_IDAT); [apply IDAT_safe; [done|lia]|].
    destruct (p_first p2); [done|]. by destruct (_ =? 0).
  - intros q Hq. apply (IH (len - 1)%nat); [|lia|done|lia]. apply set_s_ok; [done|]. apply get32be_spec.
Qed.

Lemma png_start_ok s : png_ok (length s) (png_start s).
Proof.
  split; cbn [png_start p_s p_idata palette idata_limit p_first pal_img_n has_trans img_x img_y img_n p_depth];
    first [done|cbn; lia|intros i v; by rewrite lookup_empty].
Qed.

Lemma parse_png_safe n fuel s : (length s < n)%nat -> zlib_fuel s fuel -> zsafe (image_read req_comp) (parse_png_file malloc_ok pal_uninit n fuel req_comp s).
Proof.
  intros Hn [Hf1 Hf2]. unfold parse_png_file. destruct (check_png_header s); [|done]. pose proof (length_drop s 8) as Hd.
  apply (chunks_safe fuel n (length (drop 8 s))); [apply png_start_ok|lia|done|lia].
Qed.
End Parse.

(** ** Conversion *)

Lemma convert_pixel_safe opaque img_n req px : Z.of_nat (length px) = img_n -> 1 <= img_n <= 4 -> 1 <= req <= 4 -> req <> img_n ->
  zsafe (fun q => Z.of_nat (length q) = req) (convert_pixel opaque req px).
Proof.
  intros Hl Hi Hr Hne. assert (Hr4 : req = 1 \/ req = 2 \/ req = 3 \/ req = 4) by lia.
  destruct px as [|a [|b [|c [|d [|e px]]]]]; cbn [length] in Hl; try lia; destruct Hr4 as [->|[->|[->| ->]]]; first [lia|done].
Qed.

Lemma pixels_of_safe comps : forall n data, length data = (n * comps)%nat ->
  zsafe (fun r => length r = n /\ Forall (fun p => length p = comps) r) (pixels_of n comps data).
Proof.
  induction n as [|n IH]; intros data Hl; cbn [pixels_of]; [done|]. rewrite (proj2 (Nat.ltb_ge _ _)) by lia.
  eapply zsafe_bind; [apply IH; rewrite length_drop; lia|]. intros r [Hr Hf]. cbn. split; [lia|]. constructor; [rewrite length_take; lia|done].
Qed.

(** Only the 16-bit conversion of an image of 4 GiB and more writes outside. *)
Definition convert_overflows (wide : bool) (req_comp img_n x y : Z) : Prop := wide = true /\ req_comp <> img_n /\ 2 ^ 32 <= req_comp * x * y * 2.

Lemma convert_format_safe wide data img_n req_comp x y :
  0 <= x -> 0 <= y -> 1 <= img_n <= 4 -> 1 <= req_comp <= 4 -> Z.of_nat (length data) = x * y * img_n -> x * y * img_n <= INT_MAX ->
  zsafe (fun r => Z.of_nat (length r) = x * y * req_comp /\ x * y * req_comp <= INT_MAX) (convert_format malloc_ok wide data img_n req_comp x y)
  \/ convert_format malloc_ok wide data img_n req_comp x y = ZOob /\ convert_overflows wide req_comp img_n x y.
Proof.
  intros Hx Hy Hi Hr Hl Hmax. unfold convert_format, convert_overflows. destruct (req_comp =? img_n) eqn:E; boolify; [left; cbn; subst; by split|].
  assert (H0 : 0 <= req_comp * x * y) by nia.
  destruct (wide && negb _) eqn:E1; [by left|]. destruct (negb wide && _) eqn:E2; [by left|].
  destruct (wide && (_ <? _)) eqn:E3; [right|left].
  { split; [done|]. apply andb_true_iff in E3 as [-> E3]. boolify. split; [done|]. split; [done|]. apply Z.nlt_ge. intros Hlt. unfold u32 in E3. rewrite Z.mod_small in E3 by lia. lia. }
  assert (Hsize : req_comp * x * y <= INT_MAX).
  { destruct wide; cbn [andb negb] in *.
    - boolify. unfold u32 in E3. pose proof (Z.mod_pos_bound (req_comp * x * y * 2) (2 ^ 32) ltac:(lia)). change (2 ^ 32) with 4294967296 in *. unfold INT_MAX. lia.
    - apply negb_false_iff, andb_true_iff in E2 as [E2 _]. apply mad3sizes_spec in E2. lia. }
  eapply zsafe_bind; [apply (pixels_of_safe (Z.to_nat img_n)); nia|]. intros px [Hpl Hpf].
  eapply zsafe_bind; [apply (zmapM_safe (fun q => Z.of_nat (length q) = req_comp /\ samples 0 []))|].
  - eapply Forall_impl; [exact Hpf|]. intros p Hp. cbv beta in Hp. eapply zsafe_weaken; [apply (convert_pixel_safe _ img_n); [lia|done|done|done]|]. intros q Hq. split; [done|constructor].
  - intros out [Ho Hf]. cbn. assert (Hc : Z.of_nat (length (concat out)) = Z.of_nat (length out) * req_comp).
    { clear -Hf Hr. induction Hf as [|q out [Hq _] _ IH]; [done|]. cbn [concat length]. rewrite length_app. lia. }
    rewrite Hc, Ho, Hpl. split; [nia|nia].
Qed.

(** The samples of a loaded image: as many as the header says. *)
Definition loaded (req_comp x y comp : Z) {A} (out : list A) : Prop :=
  0 <= x <= 2 ^ 24 /\ 0 <= y <= 2 ^ 24 /\ let n := if req_comp =? 0 then comp else req_comp in
  Z.of_nat (length out) = x * y * n /\ x * y * n <= INT_MAX.

Lemma do_png_safe (Hptr : forall n, 2 ^ 63 <= n -> malloc_ok n = false) req_comp n fuel s :
  0 <= req_comp <= 4 -> (length s < n)%nat -> zlib_fuel s fuel ->
  zsafe (fun r => let '(x, y, comp, wide, out) := r in loaded req_comp x y comp out) (do_png malloc_ok pal_uninit n fuel req_comp s)
  \/ do_png malloc_ok pal_uninit n fuel req_comp s = ZOob /\ exists i, parse_png_file malloc_ok pal_uninit n fuel req_comp s = ZOk i
       /\ convert_overflows (negb (i_depth i <=? 8)) req_comp (i_out_n i) (i_x i) (i_y i).
Proof.
  intros Hr Hn Hf. unfold do_png. destruct (_ || _); [by left|]. pose proof (parse_png_safe Hptr req_comp Hr n fuel s Hn Hf) as Hp.
  destruct (parse_png_file malloc_ok pal_uninit n fuel req_comp s) as [i| | |]; [|by left|done|done]. cbn [zsafe] in Hp.
  destruct Hp as (Hx & Hy & Hd & Hon & Hreq0 & (Hl & Hs & Hmax)). cbn [mbind zres_bind]. cbv zeta. unfold dim_ok in *.
  assert (Hmax1 : i_x i * i_y i * i_out_n i <= INT_MAX) by (destruct (i_depth i =? 16); unfold INT_MAX in *; nia).
  destruct (negb (req_comp =? 0) && negb (req_comp =? i_out_n i)) eqn:E.
  - apply andb_true_iff in E as [E1 E2]. apply negb_true_iff in E1, E2. boolify.
    destruct (convert_format_safe (negb (i_depth i <=? 8)) (i_out i) (i_out_n i) req_comp (i_x i) (i_y i)) as [Hc|[Hz Hc]]; [lia|lia|done|lia|done|done| |].
    + left. eapply zsafe_bind; [exact Hc|]. intros out [Hlo Hmo]. unfold loaded. rewrite (proj2 (Z.eqb_neq _ 0) E1). cbn. lia.
    + right. split; [by rewrite Hz|by exists i].
  - left. cbn. unfold loaded. destruct (req_comp =? 0) eqn:E0; boolify.
    + rewrite (Hreq0 E0). lia.
    + cbn [negb andb] in E. apply negb_false_iff in E. boolify. rewrite E. lia.
Qed.
End Image.
