(* ===== verification/StbSafe.v ===== *)
(** * Loading an image is safe (common/stb_image.h)

    The BMP decoder, and with [PngSafe] the whole of [stbi_load_from_memory],
    on whatever bytes another device or the clipboard provides. *)

From stdpp Require Import gmap.
From S2P Require Import Prelude CString Bits Inflate Huffman InflateSafe PngRead PngSafe BmpRead StbLoad.
Local Open Scope Z_scope.

(** ** Masks *)

Definition u32_range (z : Z) : Prop := 0 <= z < 2 ^ 32.

Lemma get16le_range s : 0 <= (get16le s).1 < 65536.
Proof.
  unfold get16le. pose proof (get8_spec s) as [H1 _]. destruct (get8 s) as [a s1]. pose proof (get8_spec s1) as [H2 _]. destruct (get8 s1) as [b s2]. cbn [fst snd] in *.
  rewrite Z.shiftl_mul_pow2 by lia. change (2 ^ 8) with 256. lia.
Qed.

Lemma get32le_range s : u32_range (get32le s).1.
Proof.
  unfold get32le, u32_range. pose proof (get16le_range s) as H1. destruct (get16le s) as [a s1]. pose proof (get16le_range s1) as H2. destruct (get16le s1) as [b s2]. cbn [fst snd] in *.
  rewrite Z.shiftl_mul_pow2 by lia. change (2 ^ 16) with 65536. change (2 ^ 32) with 4294967296. lia.
Qed.

Lemma high_bit_spec z : u32_range z -> z <> 0 -> 0 <= high_bit z /\ z < 2 ^ (high_bit z + 1).
Proof.
  unfold u32_range. change (2 ^ 32) with 4294967296. intros Hz H0. unfold high_bit. rewrite (proj2 (Z.eqb_neq _ _) H0).
  destruct (Z.leb_spec 0x10000 z) as [H1|H1]; cbv iota beta zeta; rewrite ?Z.shiftr_div_pow2 by lia; change (2 ^ 16) with 65536;
  match goal with |- context [0x00100 <=? ?y] => destruct (Z.leb_spec 0x00100 y) as [H2|H2] end; cbv iota beta zeta; rewrite ?Z.shiftr_div_pow2 by lia; change (2 ^ 8) with 256;
  match goal with |- context [0x00010 <=? ?y] => destruct (Z.leb_spec 0x00010 y) as [H3|H3] end; cbv iota beta zeta; rewrite ?Z.shiftr_div_pow2 by lia; change (2 ^ 4) with 16;
  match goal with |- context [0x00004 <=? ?y] => destruct (Z.leb_spec 0x00004 y) as [H4|H4] end; cbv iota beta zeta; rewrite ?Z.shiftr_div_pow2 by lia; change (2 ^ 2) with 4;
  match goal with |- context [0x00002 <=? ?y] => destruct (Z.leb_spec 0x00002 y) as [H5|H5] end;
  (split; [done|]); match goal with |- _ < 2 ^ ?e => let v := eval vm_compute in (2 ^ e) in change (2 ^ e) with v end; dlia.
Qed.

Lemma shiftsigned_safe v mask : u32_range mask -> mask <> 0 -> bitcount mask <= 8 -> 0 <= v ->
  zsafe (fun _ => True) (component v mask).
Proof.
  intros Hm H0 Hb Hv. unfold component. destruct (high_bit_spec mask Hm H0) as [Hh Hlt]. set (h := high_bit mask) in *. unfold u32_range in *.
  assert (Hv0 : 0 <= Z.land v mask <= mask).
  { split; [apply Z.land_nonneg; lia|]. rewrite Z.land_comm. apply Z.ldiff_le; [lia|]. apply Z.bits_inj'. intros i Hi. rewrite Z.ldiff_spec, Z.land_spec, Z.bits_0. by destruct (Z.testbit mask i), (Z.testbit v i). }
  set (w := Z.land v mask) in *. assert (Hbc : 0 <= bitcount mask) by (unfold bitcount; cbv zeta; apply Z.land_nonneg; lia).
  unfold shiftsigned. set (w' := if h - 7 <? 0 then _ else _).
  assert (Hw : w' < 256).
  { unfold w'. destruct (h - 7 <? 0) eqn:E; boolify.
    - rewrite Z.shiftl_mul_pow2 by lia. assert (Hp : 2 ^ (h + 1) * 2 ^ (- (h - 7)) = 256) by (rewrite <- Z.pow_add_r by lia; by replace (h + 1 + - (h - 7)) with 8 by lia).
      assert (0 < 2 ^ (- (h - 7))) by (apply Z.pow_pos_nonneg; lia). unfold u32. rewrite Z.mod_small; change (2 ^ 32) with 4294967296; nia.
    - rewrite Z.shiftr_div_pow2 by lia. apply Z.div_lt_upper_bound; [apply Z.pow_pos_nonneg; lia|].
      assert (Hp : 2 ^ (h - 7) * 256 = 2 ^ (h + 1)) by (change 256 with (2 ^ 8); rewrite <- Z.pow_add_r by lia; f_equal; lia). lia. }
  rewrite (proj2 (Z.ltb_lt _ _) Hw). cbn [negb].
  assert (Ht : forall b, 0 <= b <= 8 -> exists m k, tbl_get mul_table b = ZOk m /\ tbl_get shift_table b = ZOk k).
  { intros b Hb8. assert (Hc : b = 0 \/ b = 1 \/ b = 2 \/ b = 3 \/ b = 4 \/ b = 5 \/ b = 6 \/ b = 7 \/ b = 8) by lia.
    repeat (destruct Hc as [->|Hc]; [by eexists _, _|]). subst. by eexists _, _. }
  destruct (Ht (bitcount mask)) as (m & k & -> & ->); [lia|]. done.
Qed.

(** ** The header *)

Definition masks_ok (i : bmp_data) : Prop := u32_range (b_mr i) /\ u32_range (b_mg i) /\ u32_range (b_mb i) /\ u32_range (b_ma i).

Definition header_ok (h : Z * Z * bmp_data * bytes) : Prop :=
  let '(x, y, i, s) := h in 0 <= x /\ masks_ok i /\ 0 <= b_bpp i.

Lemma mask_defaults_range compress i : masks_ok i ->
  masks_ok (bmp_set_mask_defaults compress i) /\ b_bpp (bmp_set_mask_defaults compress i) = b_bpp i.
Proof.
  intros Hi. unfold bmp_set_mask_defaults. destruct (compress =? 3); [done|]. destruct (compress =? 0); [|done].
  split; [|by destruct (b_bpp i =? 16), (b_bpp i =? 32)]. unfold masks_ok, u32_range in *. change (2 ^ 32) with 4294967296 in *.
  destruct (b_bpp i =? 16); [|destruct (b_bpp i =? 32)]; cbn [set_masks b_mr b_mg b_mb b_ma];
  repeat match goal with |- context [Z.shiftl ?a ?b] => let v := eval vm_compute in (Z.shiftl a b) in change (Z.shiftl a b) with v end; lia.
Qed.

Lemma masks_range compress i s i' s' : masks_ok i -> bmp_masks compress i s = Some (i', s') -> masks_ok i' /\ b_bpp i' = b_bpp i.
Proof.
  intros Hi. unfold bmp_masks. destruct (_ || _).
  - destruct (_ || (b_bpp i =? 32)); [|by intros [= <- <-]]. destruct (compress =? 0); [intros [= <- <-]; by apply mask_defaults_range|]. destruct (compress =? 3); [|done].
    pose proof (get32le_range (if b_hsz i =? 56 then discard32 4 s else s)) as R1. destruct (get32le _) as [mr s1]. pose proof (get32le_range s1) as R2. destruct (get32le s1) as [mg s2].
    pose proof (get32le_range s2) as R3. destruct (get32le s2) as [mb s3]. cbn [fst snd] in *. destruct (_ && _); [done|]. intros [= <- <-]. split; [|done]. by destruct Hi as (_ & _ & _ & Hi).
  - pose proof (get32le_range s) as R1. destruct (get32le s) as [mr s1]. pose proof (get32le_range s1) as R2. destruct (get32le s1) as [mg s2].
    pose proof (get32le_range s2) as R3. destruct (get32le s2) as [mb s3]. pose proof (get32le_range s3) as R4. destruct (get32le s3) as [ma s4]. cbn [fst snd] in *.
    generalize (discard32 13 s4) as s5. intros s5 [= <- <-]. assert (Hm : masks_ok (set_masks mr mg mb ma (b_all_a i) i)) by done.
    destruct (negb (compress =? 3)); [by apply (mask_defaults_range compress) in Hm|done].
Qed.

Lemma parse_header_ok s h : bmp_parse_header s = Some h -> header_ok h.
Proof.
  unfold bmp_parse_header. destruct (get8 s) as [b s1]. destruct (get8 s1) as [m s2]. destruct (negb _); [done|].
  destruct (get32le (discard32 2 s2)) as [offset s3]. destruct (get32le s3) as [hsz s4]. destruct (i32 offset <? 0); [done|]. destruct (negb _); [done|].
  assert (Hx : 0 <= (if hsz =? 12 then get16le s4 else get32le s4).1) by (destruct (hsz =? 12); [apply get16le_range|apply get32le_range]).
  destruct (if hsz =? 12 then get16le s4 else get32le s4) as [x s5]. destruct (if hsz =? 12 then get16le s5 else get32le s5) as [y s6].
  destruct (get16le s6) as [planes s7]. destruct (negb _); [done|]. pose proof (get16le_range s7) as Hb. destruct (get16le s7) as [bpp s8]. cbn [fst snd] in *.
  assert (Hi : masks_ok (BmpData bpp offset hsz 0 0 0 0 255 14)) by (unfold masks_ok, u32_range; cbn; lia).
  destruct (hsz =? 12); [by intros [= <-]; split; [|split; [|cbn; lia]]|]. destruct (get32le s8) as [compress s9]. cbv zeta.
  repeat (destruct (_ || _) || destruct (4 <=? _) || destruct (_ && _ && _); [done|]).
  destruct (bmp_masks _ _ _) as [[i s10]|] eqn:Em; [|done]. cbn [mbind option_bind]. intros [= <-]. apply masks_range in Em; [|done].
  destruct Em as [Hm Hbpp]. split; [done|]. split; [done|]. rewrite Hbpp. cbn. lia.
Qed.

(** ** The rows *)

(** Rows of the size of the image. *)
Definition rows_ok (y len : Z) (rows : list (list Z)) : Prop := Z.of_nat (length rows) = y /\ Forall (fun r => Z.of_nat (length r) = len) rows.

Lemma rows_ok_concat y len rows : rows_ok y len rows -> Z.of_nat (length (concat rows)) = y * len.
Proof.
  intros [<- Hf]. induction Hf as [|r rows Hr _ IH]; [done|]. cbn [concat length]. rewrite length_app. lia.
Qed.

Lemma bmp_rows_safe height row pad len : (forall a s, zsafe (fun r => Z.of_nat (length r.1.1) = len) (row a s)) ->
  forall all_a s, zsafe (fun r => rows_ok (Z.of_nat height) len r.1.1) (bmp_rows height row pad all_a s).
Proof.
  intros Hrow. induction height as [|height IH]; intros all_a s; cbn [bmp_rows]; [done|].
  eapply zsafe_bind; [apply Hrow|]. intros [[px a] s1] Hp. eapply zsafe_bind; [apply IH|]. intros [[rows a2] s2] [Hl Hf]. cbn in *.
  split; [cbn [length]; lia|by constructor].
Qed.

Lemma bmp_pixels_safe n pixel target : (forall s, zsafe (fun r => Z.of_nat (length r.1.1) = target) (pixel s)) ->
  forall all_a s, zsafe (fun r => Z.of_nat (length r.1.1) = Z.of_nat n * target) (bmp_pixels n pixel all_a s).
Proof.
  intros Hpx. induction n as [|n IH]; intros all_a s; cbn [bmp_pixels]; [done|].
  eapply zsafe_bind; [apply Hpx|]. intros [[px a] s1] Hp. eapply zsafe_bind; [apply IH|]. intros [[rest a2] s2] Hr. cbn in *.
  rewrite length_app. lia.
Qed.

Lemma flip_rows_ok y len n : forall rows, rows_ok y len rows -> rows_ok y len (flip_rows n rows).
Proof.
  induction n as [|n IH]; intros rows H; cbn [flip_rows]; [done|]. specialize (IH _ H). cbv zeta. set (rows' := flip_rows n rows) in *.
  destruct (rows' !! n) as [p1|] eqn:E1; [|done]. destruct (rows' !! (_ - 1 - n)%nat) as [p2|] eqn:E2; [|done]. destruct IH as [Hl Hf].
  split; [by rewrite !length_insert|]. pose proof (Forall_lookup_1 _ _ _ _ Hf E1). pose proof (Forall_lookup_1 _ _ _ _ Hf E2).
  by repeat apply Forall_insert.
Qed.

Lemma opaque_length n : forall out, length (opaque n out) = length out.
Proof. induction n as [|n IH]; intros out; [done|]. destruct out as [|r [|g [|b [|a out]]]]; try done. cbn [opaque length]. by rewrite IH. Qed.

Lemma alpha_length target a : target = 3 \/ target = 4 -> Z.of_nat (length (alpha target a)) = target - 3.
Proof. by intros [->| ->]. Qed.

Section Load.
Context (malloc_ok : Z -> bool) (pal_uninit : Z -> Z).

Lemma pal_get_safe pal i : 0 <= i < 256 -> zsafe (fun px => length px = 3%nat) (pal_get pal_uninit pal i).
Proof. intros Hi. unfold pal_get. destruct (_ && _) eqn:E; [done|]. apply andb_false_iff in E as [E|E]; boolify; lia. Qed.

Lemma bit_range v n : 0 <= Z.land v 1 < 256 /\ 0 <= Z.land n 15 < 256.
Proof. change 1 with (Z.ones 1). change 15 with (Z.ones 4). rewrite !Z.land_ones by lia. change (2 ^ 1) with 2. change (2 ^ 4) with 16. dlia. Qed.

Lemma row_1bit_safe target pal (Ht : target = 3 \/ target = 4) : forall n bit_offset v s,
  zsafe (fun r => Z.of_nat (length r.1) = Z.of_nat n * target) (row_1bit pal_uninit n target bit_offset v pal s).
Proof.
  induction n as [|n IH]; intros bit_offset v s; cbn [row_1bit]; [done|].
  eapply zsafe_bind; [apply pal_get_safe, (bit_range _ 0)|]. intros px Hpx. cbv beta in Hpx. pose proof (alpha_length target 255 Ht). cbv zeta.
  destruct n as [|n]; [cbn [zsafe fst]; rewrite length_app; lia|].
  assert (Hrest : forall b v s, zsafe (fun r => Z.of_nat (length r.1) = Z.of_nat (S (S n)) * target)
    ('(rest, s) ← row_1bit pal_uninit (S n) target b v pal s; ZOk ((px ++ alpha target 255) ++ rest, s))).
  { intros b w t. eapply zsafe_bind; [apply IH|]. intros [rest s1] Hr. cbn [zsafe fst] in *. rewrite !length_app. lia. }
  destruct (bit_offset - 1 <? 0); [|apply Hrest]. destruct (get8 s) as [w t]. apply Hrest.
Qed.

Lemma row_pal_safe bpp target pal (Ht : target = 3 \/ target = 4) : forall n s,
  zsafe (fun r => Z.of_nat (length r.1) = Z.of_nat n * target) (row_pal pal_uninit n bpp target pal s).
Proof.
  enough (H : forall k n s, (n <= k)%nat -> zsafe (fun r => Z.of_nat (length r.1) = Z.of_nat n * target) (row_pal pal_uninit n bpp target pal s)) by (intros n s; by apply (H n)).
  pose proof (alpha_length target 255 Ht) as Ha.
  induction k as [|k IH]; intros [|n] s Hk; cbn [row_pal]; [done|lia|done|].
  pose proof (get8_spec s) as [Hv _]. destruct (get8 s) as [v s1]. cbn [fst] in Hv.
  assert (Hv2 : forall v1 v2, (v1, v2) = (if bpp =? 4 then (Z.shiftr v 4, Z.land v 15) else (v, 0)) -> 0 <= v1 < 256 /\ 0 <= v2 < 256).
  { intros v1 v2. destruct (bpp =? 4); intros [= -> ->]; [|lia]. pose proof (bit_range 0 v). rewrite Z.shiftr_div_pow2 by lia. change (2 ^ 4) with 16. dlia. }
  destruct (if bpp =? 4 then _ else _) as [v1 v2]. destruct (Hv2 _ _ eq_refl) as [H1 H2].
  eapply zsafe_bind; [by apply pal_get_safe|]. intros px Hpx. cbv beta in Hpx. destruct n as [|n]; [cbn [zsafe fst]; rewrite length_app; lia|].
  assert (Hrest : forall w t, 0 <= w < 256 -> zsafe (fun r => Z.of_nat (length r.1) = Z.of_nat (S (S n)) * target)
    (px2 ← pal_get pal_uninit pal w; '(rest, s) ← row_pal pal_uninit n bpp target pal t; ZOk (px ++ alpha target 255 ++ px2 ++ alpha target 255 ++ rest, s))).
  { intros w t Hw. eapply zsafe_bind; [by apply pal_get_safe|]. intros px2 Hpx2. cbv beta in Hpx2. eapply zsafe_bind; [apply IH; lia|].
    intros [rest s2] Hr. cbn [zsafe fst] in *. rewrite !length_app. lia. }
  destruct (bpp =? 8); [|by apply Hrest]. pose proof (get8_spec s1) as [Hw _]. destruct (get8 s1) as [w t]. by apply Hrest.
Qed.

Lemma pixel_easy_length easy target s : target = 3 \/ target = 4 -> Z.of_nat (length (pixel_easy easy target s).1.1) = target.
Proof.
  intros Ht. unfold pixel_easy. destruct (get8 s) as [b s1]. destruct (get8 s1) as [g s2]. destruct (get8 s2) as [r s3].
  destruct (if easy =? 2 then get8 s3 else (255, s3)) as [a s4]. cbn [fst]. rewrite length_app. pose proof (alpha_length target a Ht). cbn [length]. lia.
Qed.

(** A mask that [shiftsigned] can scale. *)
Definition mask_ok (m : Z) : Prop := u32_range m /\ m <> 0 /\ bitcount m <= 8.

Lemma pixel_masked_safe bpp mr mg mb ma target s : mask_ok mr -> mask_ok mg -> mask_ok mb -> ma = 0 \/ mask_ok ma -> target = 3 \/ target = 4 ->
  zsafe (fun r => Z.of_nat (length r.1.1) = target) (pixel_masked bpp mr mg mb ma target s).
Proof.
  intros (R1 & R2 & R3) (G1 & G2 & G3) (B1 & B2 & B3) Ha Ht. unfold pixel_masked.
  assert (Hv : 0 <= (if bpp =? 16 then get16le s else get32le s).1) by (destruct (bpp =? 16); [apply get16le_range|apply get32le_range]).
  destruct (if bpp =? 16 then get16le s else get32le s) as [v s1]. cbn [fst] in Hv.
  eapply zsafe_bind; [by apply shiftsigned_safe|]. intros r _. eapply zsafe_bind; [by apply shiftsigned_safe|]. intros g _.
  eapply zsafe_bind; [by apply shiftsigned_safe|]. intros b _.
  eapply (zsafe_bind (fun _ => True)).
  - destruct (ma =? 0) eqn:E; [done|]. boolify. destruct Ha as [Ha|(A1 & A2 & A3)]; [done|]. by apply shiftsigned_safe.
  - intros a _. cbn [zsafe fst]. rewrite length_app. pose proof (alpha_length target (a mod 256) Ht). cbn [length]. lia.
Qed.

Lemma bmp_indexed_safe i x y psize target s : 0 <= x -> 0 <= y -> target = 3 \/ target = 4 ->
  zsafe (rows_ok y (x * target)) (bmp_indexed pal_uninit i x y psize target s).
Proof.
  intros Hx Hy Ht. unfold bmp_indexed. destruct (_ || _); [done|]. destruct (bmp_palette _ _ _ _ _) as [pal s1]. cbv zeta.
  assert (Hrows : forall row pad s, (forall a s, zsafe (fun r => Z.of_nat (length r.1.1) = x * target) (row a s)) ->
    zsafe (rows_ok y (x * target)) ('(rows, _, _) ← bmp_rows (Z.to_nat y) row pad 0 s; ZOk rows)).
  { intros row pad t Hrow. eapply zsafe_bind; [by apply bmp_rows_safe|]. intros [[rows a] s2] H. cbn [zsafe fst] in *. by rewrite Z2Nat.id in H by lia. }
  destruct (b_bpp i =? 1).
  - apply Hrows. intros a t. destruct (get8 t) as [v t1]. eapply zsafe_bind; [by apply row_1bit_safe|]. intros [px t2] H. cbn [zsafe fst] in *. by rewrite Z2Nat.id in H by lia.
  - destruct (_ || _); [|done]. apply Hrows. intros a t. eapply zsafe_bind; [by apply row_pal_safe|]. intros [px t2] H. cbn [zsafe fst] in *. by rewrite Z2Nat.id in H by lia.
Qed.

Lemma bmp_direct_safe i x y target s : masks_ok i -> 0 <= x -> 0 <= y -> target = 3 \/ target = 4 ->
  zsafe (fun r => rows_ok y (x * target) r.1) (bmp_direct i x y target s).
Proof.
  intros (Hr & Hg & Hb & Ha) Hx Hy Ht. unfold bmp_direct. cbv zeta. set (easy := if b_bpp i =? 24 then 1 else _).
  destruct ((easy =? 0) && ((b_mr i =? 0) || _ || _)) eqn:E1; [done|]. destruct ((easy =? 0) && (_ || (8 <? bitcount (b_ma i)))) eqn:E2; [done|].
  eapply zsafe_bind; [apply bmp_rows_safe, (bmp_pixels_safe _ _ target)|].
  - intros t. destruct (easy =? 0) eqn:Ee; cbn [negb andb] in *; [|by apply pixel_easy_length].
    apply orb_false_iff in E1 as [E1 B0], E2 as [E2 A8]. apply orb_false_iff in E1 as [R0 G0], E2 as [E2 B8]. apply orb_false_iff in E2 as [R8 G8].
    boolify. apply pixel_masked_safe; try done. destruct (decide (b_ma i = 0)); [by left|by right].
  - intros [[rows a] s2] H. cbn [zsafe fst] in *. by rewrite !Z2Nat.id in H by lia.
Qed.

Lemma bmp_load_safe req_comp s : 0 <= req_comp <= 4 ->
  zsafe (fun r => let '(x, y, comp, out) := r in loaded req_comp x y comp out) (bmp_load malloc_ok pal_uninit req_comp s).
Proof.
  intros Hreq. unfold bmp_load. destruct (bmp_parse_header s) as [[[[x y0] i] s1]|] eqn:Eh; [|done]. apply parse_header_ok in Eh as (Hx & Hi & Hbpp). cbv zeta.
  set (y := Z.abs (i32 y0)). assert (Hy : 0 <= y) by lia. destruct ((MAX_DIMENSIONS <? y) || _) eqn:Ed; [done|]. apply orb_false_iff in Ed as [Ed1 Ed2]. boolify.
  set (psize := if b_hsz i =? 12 then _ else _). destruct ((psize =? 0) && (_ || (1024 <? _))); [done|]. destruct ((psize =? 0) && _); [done|].
  set (s2 := if psize =? 0 then _ else _). set (n := if (b_bpp i =? 24) && _ then 3 else _).
  assert (Hn : n = 3 \/ n = 4) by (unfold n; destruct (_ && _), (b_ma i =? 0); lia).
  set (target := if 3 <=? req_comp then _ else _). assert (Ht : target = 3 \/ target = 4) by (unfold target; destruct (3 <=? req_comp) eqn:E; boolify; lia).
  destruct (negb _) eqn:Em; [done|]. apply negb_false_iff, andb_true_iff in Em as [Em _]. apply mad3sizes_spec in Em as (_ & _ & _ & _ & _ & Hmax).
  eapply (zsafe_bind (fun r => rows_ok y (x * target) r.1)).
  { destruct (b_bpp i <? 16); [|by apply bmp_direct_safe]. eapply zsafe_bind; [by apply bmp_indexed_safe|]. done. }
  intros [rows all_a] Hrows. cbn [fst] in Hrows. set (rows' := if (target =? 4) && (all_a =? 0) then _ else _).
  assert (Hrows' : rows_ok y (x * target) rows').
  { unfold rows'. destruct ((target =? 4) && (all_a =? 0)); [|exact Hrows]. destruct Hrows as [Hl Hf]. split; [by rewrite length_map|]. apply Forall_map. eapply Forall_impl; [exact Hf|]. intros r Hr. cbn. by rewrite opaque_length. }
  set (out := concat _). assert (Hout : Z.of_nat (length out) = x * y * target).
  { unfold out. erewrite rows_ok_concat; [|destruct (0 <? i32 y0); [by apply flip_rows_ok|exact Hrows']]. lia. }
  apply (zsafe_bind (fun r => Z.of_nat (length r) = x * y * (if req_comp =? 0 then n else req_comp) /\ x * y * (if req_comp =? 0 then n else req_comp) <= INT_MAX)).
  - destruct (negb (req_comp =? 0) && negb (req_comp =? target)) eqn:E.
    + apply andb_true_iff in E as [E1 E2]. apply negb_true_iff in E1, E2. rewrite E1. boolify.
      destruct (convert_format_safe malloc_ok false out target req_comp x y) as [Hc|[_ [? _]]]; [lia|lia|lia|lia|done|lia|exact Hc|done].
    + cbn [zsafe]. assert (Ht' : (if req_comp =? 0 then n else req_comp) = target); [|rewrite Ht'; lia].
      unfold target in *. destruct (req_comp =? 0) eqn:E0; boolify; [by subst|]. cbn [negb andb] in E. apply negb_false_iff in E. by boolify.
  - intros r Hr. cbv beta in Hr. unfold loaded, MAX_DIMENSIONS in *. cbn. lia.
Qed.

(** ** Loading *)

Variable (sizeof_jpeg : Z) (load_other : format -> bytes -> Z -> zres (Z * Z * Z * bool * list Z)).

(** The image of 4 GiB whose conversion of 16-bit samples writes outside. *)
Definition load_overflows (n fuel : nat) (req_comp : Z) (s : bytes) : Prop :=
  check_png_header s = true /\ exists i, parse_png_file malloc_ok pal_uninit n fuel req_comp s = ZOk i
    /\ convert_overflows (negb (i_depth i <=? 8)) req_comp (i_out_n i) (i_x i) (i_y i).

Context (Hu : forall i, 0 <= pal_uninit i < 256) (Hptr : forall n, 2 ^ 63 <= n -> malloc_ok n = false).

Lemma load_main_safe n fuel req_comp s : (length s < n)%nat -> zlib_fuel s fuel -> 0 <= req_comp <= 4 ->
  (forall f, format_test malloc_ok sizeof_jpeg f s = true ->
    zsafe (fun r => let '(x, y, comp, wide, out) := r in loaded req_comp x y comp out) (load_other f s req_comp)) ->
  zsafe (fun r => let '(x, y, comp, wide, out) := r in loaded req_comp x y comp out) (load_main malloc_ok sizeof_jpeg pal_uninit load_other n fuel req_comp s)
  \/ load_main malloc_ok sizeof_jpeg pal_uninit load_other n fuel req_comp s = ZOob /\ load_overflows n fuel req_comp s.
Proof.
  intros Hn Hf Hreq Ho. unfold load_main. destruct (check_png_header s) eqn:Ec; [|left].
  - destruct (do_png_safe malloc_ok pal_uninit Hu Hptr req_comp n fuel s Hreq Hn Hf) as [H|[Hz H]]; [by left|by right].
  - destruct (bmp_test s).
    + eapply zsafe_bind; [by apply bmp_load_safe|]. by intros [[[x y] comp] out].
    + destruct (List.find _ _) as [f|] eqn:Ef; [|done]. apply List.find_some in Ef as [_ Ef]. by apply Ho.
Qed.

(** The files of the clients need nothing of the other decoders. *)
Lemma other_formats req_comp s :
  (starts_with (str "BM") s = false -> starts_with [x89; x50] s = false -> forall f, format_test malloc_ok sizeof_jpeg f s = true ->
    zsafe (fun r => let '(x, y, comp, wide, out) := r in loaded req_comp x y comp out) (load_other f s req_comp)) ->
  forall f, format_test malloc_ok sizeof_jpeg f s = true ->
    zsafe (fun r => let '(x, y, comp, wide, out) := r in loaded req_comp x y comp out) (load_other f s req_comp).
Proof.
  intros Ho f Hf. apply Ho; [| |done]; apply bool_decide_eq_false_2; intros Hs; destruct s as [|a [|b s]]; try done; injection Hs as -> ->;
    rewrite client_formats in Hf by auto; done.
Qed.

(** What is loaded of one sample a byte, whatever [load_main] gave. *)
Lemma postprocess_safe req_comp n fuel s :
  zsafe (fun r => let '(x, y, comp, wide, out) := r in loaded req_comp x y comp out) (load_main malloc_ok sizeof_jpeg pal_uninit load_other n fuel req_comp s) ->
  zsafe (fun r => let '(x, y, comp, out) := r in loaded req_comp x y comp out) (stbi_load_from_memory malloc_ok sizeof_jpeg pal_uninit load_other n fuel s req_comp).
Proof.
  intros H. unfold stbi_load_from_memory, load_and_postprocess_8bit.
  apply (zsafe_bind (fun r => let '(x, y, comp, out) := r in loaded req_comp x y comp out)); [eapply zsafe_bind; [exact H|]|].
  - intros [[[[x y] comp] wide] out] Hl. eapply (zsafe_bind (loaded req_comp x y comp)).
    + destruct wide; [|done]. unfold convert_16_to_8. destruct (malloc_ok _); [|done]. cbn [zsafe]. unfold loaded in *. by rewrite length_map.
    + intros o Ho'. exact Ho'.
  - intros [[[x y] comp] out] Hl. cbn [zsafe] in *. unfold loaded in *. by rewrite length_map.
Qed.

End Load.

