(* ===== verification/PngTrip.v ===== *)
(** * PNG images survive stb: what is written is read back

    The filters of [PngWrite] are undone by those of [PngRead], row by row;
    the compressed rows by [ZlibTrip]; the chunks are found again. *)

From stdpp Require Import gmap.
From S2P Require Import Prelude Bits Deflate Inflate ZlibTrip PngWrite RecvBuf PngRead BmpRead StbLoad.
Local Open Scope Z_scope.

(** ** Filters *)

(** Every comparison both ways. *)
Ltac split_compares :=
  cbv zeta; repeat match goal with
  | |- context [?a <? ?b] => destruct (Z.ltb_spec a b)
  | |- context [?a <=? ?b] => destruct (Z.leb_spec a b)
  end; cbn [andb]; lia.

(** The reader's formulation of the Paeth predictor is the writer's. *)
Lemma paeth_same a b c : stbi_paeth a b c = stbiw_paeth a b c.
Proof.
  unfold stbi_paeth, stbiw_paeth. split_compares.
Qed.

Lemma paeth_up u : 0 <= u -> stbiw_paeth 0 u 0 = u.
Proof. intros. unfold stbiw_paeth. split_compares. Qed.

Lemma paeth_left l : stbiw_paeth l 0 0 = l.
Proof. unfold stbiw_paeth. split_compares. Qed.

Section Rows.
Context (pixels : bytes) (L n : nat) (Hn : (1 <= n <= L)%nat).

(** Row [j] of the image. *)
Definition row (j : nat) : list Z := map bz (take L (drop (L * j) pixels)).

Lemma row_lookup j i : (i < L)%nat -> row j !! i = bz <$> pixels !! (L * j + i)%nat.
Proof. clear Hn. intros Hi. unfold row. rewrite list_lookup_fmap, lookup_take_lt by done. by rewrite lookup_drop. Qed.

Lemma length_row j : (L * S j <= length pixels)%nat -> length (row j) = L.
Proof. clear Hn. intros Hj. unfold row. rewrite length_map, length_take, length_drop. lia. Qed.

(** Byte [i] of row [y] under a filter: what the reader adds is what the writer
    took away. *)
Lemma filter_byte y t f i :
  (t < 5)%nat -> (L * S y <= length pixels)%nat -> (i < L)%nat -> row_filter (Z.of_nat y) (Z.of_nat t) = Some f ->
  exists v p, row y !! i = Some v /\ 0 <= v < 256
    /\ line_byte pixels L y n ((if (y =? 0)%nat then firstmap else mapping) t) i = Some (zb (v - p))
    /\ predict f n (if (y =? 0)%nat then [] else row (y - 1)) (take i (row y)) i = ZOk p.
Proof.
  intros Ht Hy Hi Hf.
  assert (Hz : forall back, (back <= L * y + i)%nat -> exists v, z_at pixels L y i back = Some v /\ 0 <= v < 256 /\ bz <$> pixels !! (L * y + i - back)%nat = Some v).
  { intros back Hb. unfold z_at. destruct (back <=? _)%nat eqn:E; boolify; [|lia].
    destruct (lookup_lt_is_Some_2 pixels (L * y + i - back)) as [b Hb']; [lia|]. rewrite Hb'. cbn. exists (bz b). split_and!; [done|apply bz_range..|done]. }
  destruct (Hz 0%nat ltac:(lia)) as (v & Hv & Hr & Hl). rewrite Nat.sub_0_r in Hl.
  assert (Hrow : row y !! i = Some v) by by rewrite row_lookup. exists v.
  (* left neighbour *)
  assert (Hleft : (n <= i)%nat -> exists l, z_at pixels L y i n = Some l /\ at_back (take i (row y)) i n = ZOk l).
  { intros Hge. destruct (Hz n ltac:(lia)) as (l & Hl1 & _ & Hl2). exists l. split; [done|]. unfold at_back.
    destruct (n <=? i)%nat eqn:E; boolify; [|lia]. rewrite lookup_take_lt, row_lookup by lia.
    replace (L * y + (i - n))%nat with (L * y + i - n)%nat by lia. by rewrite Hl2. }
  assert (Hup : y <> 0%nat -> exists u, z_at pixels L y i L = Some u /\ 0 <= u < 256 /\ at_back (row (y - 1)) i 0 = ZOk u).
  { intros Hy0. destruct (Hz L ltac:(nia)) as (u & Hu1 & Hu2 & Hu3). exists u. split; [done|]. split; [done|]. unfold at_back. cbn [Nat.leb].
    rewrite Nat.sub_0_r, row_lookup by lia. replace (L * (y - 1) + i)%nat with (L * y + i - L)%nat by nia. by rewrite Hu3. }
  assert (Hdiag : y <> 0%nat -> (n <= i)%nat -> exists c, z_at pixels L y i (L + n) = Some c /\ at_back (row (y - 1)) i n = ZOk c).
  { intros Hy0 Hge. destruct (Hz (L + n)%nat ltac:(nia)) as (c & Hc1 & _ & Hc3). exists c. split; [done|]. unfold at_back.
    destruct (n <=? i)%nat eqn:E; boolify; [|lia]. rewrite row_lookup by lia.
    replace (L * (y - 1) + (i - n))%nat with (L * y + i - (L + n))%nat by nia. by rewrite Hc3. }
  assert (Hp0 : forall p, (zb v = zb (v - p) -> p = 0 -> True)) by done.
  unfold line_byte. rewrite Hv. cbn [mbind option_bind].
  assert (Hy1 : (Z.of_nat y =? 0) = (y =? 0)%nat) by (destruct (Nat.eqb_spec y 0); boolify; lia).
  unfold row_filter in Hf. rewrite Hy1 in Hf.
  destruct (i <? n)%nat eqn:Ei; boolify.
  - (* the first pixel *)
    destruct (y =? 0)%nat eqn:Ey; boolify.
    + assert (H0 : exists p, Some (zb v) = Some (zb (v - p)) /\ predict f n [] (take i (row y)) i = ZOk p /\ firstmap t ∈ [0; 1; 5; 6]%nat).
      { exists 0. rewrite Z.sub_0_r. split; [done|].
        do 5 (destruct t as [|t]; [injection Hf as <-; cbn [predict]; rewrite ?(proj2 (Nat.ltb_lt i n)) by done; split; [done|]; unfold firstmap; cbn; set_solver|]). lia. }
      destruct H0 as (p & H1 & H2 & H3). exists p. split_and!; [done|lia..| |done]. rewrite <- H1.
      do 5 (destruct t as [|t]; [done|]). lia.
    + destruct (Hup Ey) as (u & Hu1 & Hu2 & Hu3). unfold mapping.
      do 5 (destruct t as [|t]; [injection Hf as <-; cbn [predict]; rewrite ?(proj2 (Nat.ltb_lt i n)) by done;
        rewrite ?Hu1, ?Hu3; cbn [mbind option_bind zres_bind]; rewrite ?paeth_up by lia;
        first [exists 0; rewrite Z.sub_0_r; split_and!; [done|lia|lia|done|done]|eexists; split_and!; [done|lia|lia|done|done]]|]). lia.
  - destruct (Hleft Ei) as (l & Hl1 & Hl2). destruct (y =? 0)%nat eqn:Ey; boolify.
    + do 5 (destruct t as [|t]; [injection Hf as <-; cbn [predict firstmap nth]; rewrite ?(proj2 (Nat.ltb_ge i n)) by done;
        rewrite ?Hl1, ?Hl2; cbn [mbind option_bind zres_bind]; rewrite ?paeth_left;
        first [exists 0; rewrite Z.sub_0_r; split_and!; [done|lia|lia|done|done]|eexists; split_and!; [done|lia|lia|done|done]]|]). lia.
    + destruct (Hup Ey) as (u & Hu1 & Hu2 & Hu3). destruct (Hdiag Ey Ei) as (c & Hc1 & Hc2). unfold mapping.
      do 5 (destruct t as [|t]; [injection Hf as <-; cbn [predict]; rewrite ?(proj2 (Nat.ltb_ge i n)) by done;
        rewrite ?Hl1, ?Hl2, ?Hu1, ?Hu3, ?Hc1, ?Hc2; cbn [mbind option_bind zres_bind]; rewrite ?Hl1, ?Hl2, ?Hu1, ?Hu3, ?Hc1, ?Hc2; cbn [mbind option_bind zres_bind];
        rewrite ?Hc1, ?Hc2; cbn [mbind option_bind zres_bind]; rewrite ?paeth_same, ?(Z.add_comm u l);
        first [exists 0; rewrite Z.sub_0_r; split_and!; [done|lia|lia|done|done]|eexists; split_and!; [done|lia|lia|done|done]]|]). lia.
Qed.
End Rows.

Section Image.
Context (pixels : bytes) (n width : nat) (Hn : (1 <= n)%nat) (Hw : (1 <= width)%nat).
Let L : nat := (width * n)%nat.
#[local] Abbreviation row := (row pixels L).

(** What a filter leaves of row [y], and what the reader makes of it. *)
Lemma filtered_row y t f :
  (t < 5)%nat -> (L * S y <= length pixels)%nat -> row_filter (Z.of_nat y) (Z.of_nat t) = Some f ->
  exists line, encode_png_line pixels L y n width t = Some line /\ length line = L
    /\ unfilter f n (if (y =? 0)%nat then [] else row (y - 1)) [] line = ZOk (row y).
Proof.
  intros Ht Hy Hf. assert (HnL : (1 <= n <= L)%nat) by (unfold L; nia).
  pose proof (fun i => filter_byte pixels L n HnL y t f i Ht Hy) as Hb. unfold encode_png_line.
  destruct (mapM_seq_total (line_byte pixels L y n ((if (y =? 0)%nat then firstmap else mapping) t)) L) as (line & Hl & Hlen & Hat).
  { intros i Hi. destruct (Hb i Hi Hf) as (v & p & _ & _ & -> & _). by eexists. }
  exists line. split; [rewrite (proj2 (Nat.eqb_neq width 0)), andb_false_r by lia; exact Hl|]. split; [done|].
  assert (Hgen : forall m i, (m + i = L)%nat ->
    unfilter f n (if (y =? 0)%nat then [] else row (y - 1)) (take i (row y)) (drop i line) = ZOk (row y)).
  { intros m. induction m as [|m IH]; intros i Hi.
    - rewrite drop_ge by lia. cbn [unfilter]. rewrite take_ge; [done|]. rewrite length_row by done. lia.
    - destruct (Hb i ltac:(lia) Hf) as (v & p & Hv & Hr & Hline & Hp).
      assert (Hli : line !! i = Some (zb (v - p))) by (rewrite Hat by lia; exact Hline).
      rewrite (drop_S _ _ _ Hli). cbn [unfilter]. rewrite length_take, length_row by done. rewrite Nat.min_l by lia. rewrite Hp. cbn [mbind zres_bind].
      replace ((bz (zb (v - p)) + p) mod 256) with v; [rewrite (take_snoc _ _ _ Hv); apply IH; lia|].
      rewrite bz_zb, Z.add_mod_idemp_l by lia. replace (v - p + p) with v by lia. by rewrite Z.mod_small. }
  rewrite <- (Hgen L 0%nat) by lia. done.
Qed.

Lemma row_filter_total j t : (t < 5)%nat -> exists f, row_filter j (Z.of_nat t) = Some f.
Proof. intros Ht. do 5 (destruct t as [|t]; [by eexists|]). lia. Qed.

Lemma best_filter_total y types : forall best best_val,
  (L * S y <= length pixels)%nat -> Forall (fun t => (t < 5)%nat) types -> (best < 5)%nat ->
  exists t, best_filter pixels L y n width types best best_val = Some t /\ (t < 5)%nat.
Proof.
  induction types as [|t types IH]; intros best best_val Hy Hf Hb; cbn [best_filter]; [by exists best|].
  apply Forall_cons in Hf as [Ht Hf]. destruct (row_filter_total (Z.of_nat y) t Ht) as [f Hrf].
  destruct (filtered_row y t f Ht Hy Hrf) as (line & -> & _). cbn [mbind option_bind]. destruct (_ <? best_val); by apply IH.
Qed.

Lemma filter_row_spec y :
  (L * S y <= length pixels)%nat ->
  exists t line f, filter_row pixels L y n width = Some (zb (Z.of_nat t) :: line) /\ (t < 5)%nat
    /\ row_filter (Z.of_nat y) (Z.of_nat t) = Some f /\ length line = L
    /\ unfilter f n (if (y =? 0)%nat then [] else row (y - 1)) [] line = ZOk (row y).
Proof.
  intros Hy. unfold filter_row.
  destruct (best_filter_total y [0;1;2;3;4]%nat 0 0x7fffffff Hy) as (t & -> & Ht); [repeat constructor|lia|]. cbn [mbind option_bind].
  destruct (row_filter_total (Z.of_nat y) t Ht) as [f Hf]. destruct (filtered_row y t f Ht Hy Hf) as (line & -> & Hl & Hu).
  cbn [mbind option_bind]. by exists t, line, f.
Qed.

Lemma row_samples_8 y color :
  (L * S y <= length pixels)%nat -> row_samples (row y) (Z.of_nat width) (Z.of_nat n) (Z.of_nat n) 8 color = ZOk (row y).
Proof.
  intros Hy. unfold row_samples. change (8 <? 8) with false. change (8 =? 8) with true. cbv iota zeta. 
  assert (Hns : Z.to_nat (Z.of_nat width * Z.of_nat n) = L) by (unfold L; lia). rewrite Hns. pose proof (length_row pixels L y Hy) as Hl.
  rewrite (proj2 (Nat.leb_le L (length (row y)))) by lia. cbn [mbind zres_bind]. rewrite Z.eqb_refl, take_ge by lia. done.
Qed.

(** All rows. *)
Lemma rows_read color m : forall y,
  (L * (y + m) <= length pixels)%nat ->
  exists filt, mapM (fun j => filter_row pixels L j n width) (seq y m) = Some filt
    /\ length (concat filt) = ((L + 1) * m)%nat
    /\ forall rest, png_rows m (Z.of_nat y) (concat filt ++ rest) (if (y =? 0)%nat then [] else row (y - 1)) L n
         (Z.of_nat width) (Z.of_nat n) (Z.of_nat n) 8 color = ZOk (map bz (take (L * m) (drop (L * y) pixels))).
Proof.
  induction m as [|m IH]; intros y Hy; cbn [seq mapM].
  - exists []. split_and!; [done|cbn; lia|]. intros rest. rewrite Nat.mul_0_r. done.
  - assert (Hy1 : (L * S y <= length pixels)%nat) by nia. destruct (filter_row_spec y Hy1) as (t & line & f & -> & Ht & Hf & Hl & Hu).
    destruct (IH (S y)) as (filt & Hm & Hlen & Hr); [nia|]. cbn [mbind option_bind]. rewrite Hm. cbn [mbind option_bind].
    eexists. split; [done|]. cbn [concat app length]. rewrite length_app. split; [nia|]. intros rest. cbn [png_rows].
    assert (Hbt : bz (zb (Z.of_nat t)) = Z.of_nat t) by (apply bz_zb_small; lia). rewrite Hbt, Hf.
    rewrite <- app_assoc. destruct (length (line ++ _) <? L)%nat eqn:E; boolify; [rewrite length_app in E; lia|].
    rewrite take_app_exact, drop_app_exact, Hu by done. cbn [mbind zres_bind]. rewrite row_samples_8 by done. cbn [mbind zres_bind].
    specialize (Hr rest). cbn [Nat.eqb Nat.sub] in Hr. rewrite Nat.sub_0_r in Hr. replace (Z.of_nat y + 1) with (Z.of_nat (S y)) by lia.
    rewrite Hr. cbn [mbind zres_bind]. unfold row. rewrite <- map_app. do 2 f_equal.
    replace (L * S m)%nat with (L + L * m)%nat by lia. replace (L * S y)%nat with (L * y + L)%nat by lia.
    rewrite <- drop_drop. set (d := drop (L * y) pixels). rewrite <- (take_drop L (take (L + L * m) d)), take_take, take_drop_commute.
    by rewrite Nat.min_l by lia.
Qed.
End Image.

(** ** Sizes *)

Lemma mul2sizes_ok a b : 0 <= a -> 0 <= b -> a * b <= INT_MAX -> mul2sizes_valid a b = true.
Proof.
  intros Ha Hb Hab. unfold mul2sizes_valid. rewrite (proj2 (Z.ltb_ge a 0)), (proj2 (Z.ltb_ge b 0)) by done. cbn [orb].
  destruct (Z.eqb_spec b 0) as [->|Hb0]; [done|]. apply Z.leb_le. apply Z.div_le_lower_bound; lia.
Qed.

Lemma mad2sizes_ok a b add : 0 <= a -> 0 <= b -> 0 <= add -> a * b + add <= INT_MAX -> mad2sizes_valid a b add = true.
Proof.
  intros Ha Hb Hadd H. unfold mad2sizes_valid, addsizes_valid. rewrite mul2sizes_ok by lia.
  rewrite (proj2 (Z.ltb_ge add 0)) by done. cbn [andb]. apply Z.leb_le. lia.
Qed.

Lemma mad3sizes_ok a b c add : 0 <= a -> 0 <= b -> 1 <= c -> 0 <= add -> a * b * c + add <= INT_MAX -> mad3sizes_valid a b c add = true.
Proof.
  intros Ha Hb Hc Hadd H. unfold mad3sizes_valid, addsizes_valid. rewrite !mul2sizes_ok by nia.
  rewrite (proj2 (Z.ltb_ge add 0)) by done. cbn [andb]. apply Z.leb_le. lia.
Qed.

(** ** Chunks *)

Lemma get32be_wp32 v s : 0 <= v < 2 ^ 32 -> get32be (wp32 v ++ s) = (v, s).
Proof.
  intros Hv. unfold get32be, get16be, wp32. cbn [app get8]. rewrite !bz_zb, !Z.shiftr_div_pow2, !Z.shiftl_mul_pow2 by lia.
  unfold u32. f_equal. change (2 ^ 24) with 16777216. change (2 ^ 16) with 65536. change (2 ^ 8) with 256. change (2 ^ 32) with 4294967296 in *.
  rewrite (Z.mod_small (_ * 65536)) by dlia. dlia.
Qed.

Lemma length_wp32 v : length (wp32 v) = 4%nat.
Proof. done. Qed.

(** ** The file *)

Section File.
Context (malloc_ok : Z -> bool) (pal_uninit : Z -> Z) (Hm : forall n, n <= UINT_MAX -> malloc_ok n = true).
Context (pixels : bytes) (w h : nat) (Hw : (1 <= w)%nat) (Hh : (1 <= h)%nat).
Context (Hl : length pixels = (w * 4 * h)%nat) (Hdim : Z.of_nat w <= 2 ^ 24 /\ Z.of_nat h <= 2 ^ 24) (Hmax : Z.of_nat w * Z.of_nat h <= 2 ^ 26).

Lemma image_rows :
  exists filt, mapM (fun j => filter_row pixels (w * 4) j 4 w) (seq 0 h) = Some filt
    /\ length (concat filt) = ((w * 4 + 1) * h)%nat
    /\ create_png_image_raw malloc_ok (concat filt) 4 4 (Z.of_nat w) (Z.of_nat h) 8 6 = ZOk (map bz pixels).
Proof.
  destruct (rows_read pixels 4 w ltac:(lia) Hw 6 h 0) as (filt & Hf & Hlen & Hr); [lia|].
  exists filt. split; [done|]. split; [done|]. specialize (Hr []). rewrite app_nil_r in Hr. cbn [Nat.eqb] in Hr.
  rewrite Nat.mul_0_r, drop_0, take_ge in Hr by lia.
  unfold create_png_image_raw. change (8 =? 16) with false. change ((4 =? 4) || (4 =? 4 + 1)) with true. cbn [negb]. change (8 <? 8) with false.
  change (4 * 1) with 4. cbv iota zeta.
  assert (Hwb : width_bytes 4 (Z.of_nat w) 8 = Z.of_nat w * 4).
  { unfold width_bytes, u32. rewrite Z.mod_small by lia. rewrite Z.shiftr_div_pow2 by lia. change (2 ^ 3) with 8. dlia. }
  rewrite Hwb, !Hm by (unfold UINT_MAX; lia). rewrite mad3sizes_ok by (unfold INT_MAX; lia). rewrite mad3sizes_ok by (unfold INT_MAX; lia).
  rewrite mad2sizes_ok by (unfold INT_MAX; nia). rewrite mad2sizes_ok by (unfold INT_MAX; lia). cbn [andb negb].
  unfold u32. rewrite Z.mod_small by nia. rewrite Hlen. destruct (_ <? _) eqn:E; boolify; [nia|].
  replace (Z.to_nat (Z.of_nat w * 4)) with (w * 4)%nat by lia. change (Z.to_nat 4) with 4%nat. rewrite Nat2Z.id. exact Hr.
Qed.

Lemma parse_IHDR s rest :
  s = wp32 (Z.of_nat w) ++ wp32 (Z.of_nat h) ++ map zb [8; 6; 0; 0; 0] ++ rest ->
  chunk_IHDR 13 (set_s s (png_start [])) = ZOk (set_header rest (Z.of_nat w) (Z.of_nat h) 4 8 6 0 0 (png_start [])).
Proof.
  intros ->. unfold chunk_IHDR. cbn [set_s png_start p_first p_s negb Z.eqb Pos.eqb]. rewrite !get32be_wp32 by lia.
  unfold MAX_DIMENSIONS. change (2 ^ 24) with 16777216 in *.
  destruct ((16777216 <? Z.of_nat h) || (16777216 <? Z.of_nat w)) eqn:E; [apply orb_true_iff in E; lia|].
  cbn [map app get8]. rewrite !bz_zb. change (8 mod 256) with 8. change (6 mod 256) with 6. change (0 mod 256) with 0.
  cbn -[Z.div Z.pow]. destruct ((Z.of_nat w =? 0) || (Z.of_nat h =? 0)) eqn:E1; [apply orb_true_iff in E1; lia|].
  change (Z.land 6 1) with 0. change (Z.land 6 2) with 2. change (Z.land 6 4) with 4. cbn -[Z.div Z.pow].
  change (3 + 1) with 4. rewrite (proj2 (Z.ltb_ge (2 ^ 30 / Z.of_nat w / 4) (Z.of_nat h))); [done|].
  apply Z.div_le_lower_bound; [lia|]. apply Z.div_le_lower_bound; [lia|]. lia.
Qed.

Lemma parse_IDAT zlib p rest :
  p_first p = false -> pal_img_n p = 0 -> p_idata p = None -> idata_limit p = 0 ->
  1 <= Z.of_nat (length zlib) <= 2 ^ 30 ->
  exists limit, chunk_IDAT malloc_ok (Z.of_nat (length zlib)) (set_s (zlib ++ rest) p) = ZOk (set_idata rest zlib limit p).
Proof.
  intros Hf Hp Hi Hlim Hz. unfold chunk_IDAT. cbn [set_s p_first pal_img_n p_idata idata_limit p_s pal_len]. rewrite Hf, Hp, Hi, Hlim.
  cbn [Z.eqb negb andb default option_map from_option length]. destruct (_ <? Z.of_nat (length zlib)) eqn:E; boolify; [lia|].
  rewrite Z.add_0_l. rewrite !i32_id by (unfold INT_MIN, INT_MAX; lia). destruct (Z.of_nat (length zlib) <? Z.of_nat 0) eqn:E1; boolify; [lia|].
  destruct (0 <? Z.of_nat (length zlib)) eqn:E2; boolify; [|lia].
  set (limit := if 4096 <? Z.of_nat (length zlib) then Z.of_nat (length zlib) else 4096).
  assert (Hlim2 : Z.of_nat (length zlib) <= limit /\ 1 <= limit) by (unfold limit; destruct (_ <? _) eqn:E3; boolify; lia).
  assert (Hg : grow (grow_fuel (Z.of_nat (length zlib))) limit (Z.of_nat (length zlib)) = Some limit).
  { unfold grow_fuel. cbn [grow]. by rewrite (proj2 (Z.ltb_ge limit _)) by lia. }
  rewrite Hg, Hm by (unfold UINT_MAX, limit; destruct (_ <? _); lia). cbn [mbind zres_bind]. rewrite Nat2Z.id.
  destruct (length (zlib ++ rest) <? length zlib)%nat eqn:E4; boolify; [rewrite length_app in E4; lia|].
  destruct (limit <? _) eqn:E5; boolify; [lia|]. destruct (limit =? 0) eqn:E6; boolify; [lia|].
  exists limit. by rewrite take_app_exact, drop_app_exact by done.
Qed.

(** One turn of the loop: the reader takes a chunk that the writer wrote, and its CRC. *)
Lemma get32be_chunk tag data s :
  Z.of_nat (length data) < 2 ^ 32 ->
  get32be (chunk tag data ++ s) = (Z.of_nat (length data), tag ++ data ++ wp32 (crc32 (tag ++ data)) ++ s).
Proof. intros Hd. unfold chunk. rewrite <- !app_assoc. apply get32be_wp32. lia. Qed.

Definition header_data : bytes := wp32 (Z.of_nat w) ++ wp32 (Z.of_nat h) ++ map zb [8; 6; 0; 0; 0].
Definition header_read (s : bytes) : png := set_header s (Z.of_nat w) (Z.of_nat h) 4 8 6 0 0 (png_start []).

Lemma turn_IHDR n fuel rest :
  parse_chunks malloc_ok pal_uninit (S n) fuel 4 (png_start (chunk (str "IHDR") header_data ++ rest))
  = parse_chunks malloc_ok pal_uninit n fuel 4 (header_read rest).
Proof.
  cbn [parse_chunks]. change (p_s (png_start ?x)) with x. rewrite get32be_chunk by done.
  change (get32be (str "IHDR" ++ ?x)) with (type_IHDR, x). cbv iota beta zeta.
  change (type_IHDR =? type_CgBI) with false. change (type_IHDR =? type_IHDR) with true. change (type_IHDR =? type_IEND) with false. cbv iota.
  change (Z.of_nat (length header_data)) with 13. change (set_s ?x (png_start ?y)) with (set_s x (png_start [])).
  rewrite (parse_IHDR _ (wp32 (crc32 (str "IHDR" ++ header_data)) ++ rest)) by (unfold header_data; by rewrite <- !app_assoc).
  cbn [mbind zres_bind]. change (p_s (set_header ?x _ _ _ _ _ _ _ _)) with x. by rewrite get32be_wp32 by apply crc32_range.
Qed.

Lemma turn_IDAT n fuel zlib rest :
  1 <= Z.of_nat (length zlib) <= 2 ^ 30 ->
  exists limit, parse_chunks malloc_ok pal_uninit (S n) fuel 4 (header_read (chunk (str "IDAT") zlib ++ rest))
    = parse_chunks malloc_ok pal_uninit n fuel 4 (set_idata rest zlib limit (header_read [])).
Proof.
  intros Hz. cbn [parse_chunks]. change (p_s (header_read ?x)) with x. rewrite get32be_chunk by lia.
  change (get32be (str "IDAT" ++ ?x)) with (type_IDAT, x). cbv iota beta zeta.
  change (type_IDAT =? type_CgBI) with false. change (type_IDAT =? type_IHDR) with false. change (type_IDAT =? type_IEND) with false.
  change (type_IDAT =? type_PLTE) with false. change (type_IDAT =? type_tRNS) with false. change (type_IDAT =? type_IDAT) with true. cbv iota.
  change (set_s ?x (header_read ?y)) with (set_s x (header_read [])).
  destruct (parse_IDAT zlib (header_read []) (wp32 (crc32 (str "IDAT" ++ zlib)) ++ rest)) as (limit & Hp); [done..|].
  exists limit. rewrite Hp. cbn [mbind zres_bind]. change (p_s (set_idata ?x _ _ _)) with x. by rewrite get32be_wp32 by apply crc32_range.
Qed.

(** What is left of the loop at the last chunk. *)
Lemma parse_IEND fuel filt zlib limit rest :
  ((w * 4 + 1) * h < fuel)%nat -> length (concat filt) = ((w * 4 + 1) * h)%nat ->
  create_png_image_raw malloc_ok (concat filt) 4 4 (Z.of_nat w) (Z.of_nat h) 8 6 = ZOk (map bz pixels) ->
  (forall size, 1 <= size <= UINT_MAX -> stbi_zlib_decode_malloc_guesssize_headerflag malloc_ok fuel zlib size true = ZOk (concat filt)) ->
  chunk_IEND malloc_ok pal_uninit fuel 4 (set_s rest (set_idata rest zlib limit (set_header rest (Z.of_nat w) (Z.of_nat h) 4 8 6 0 0 (png_start []))))
  = ZOk (Image (Z.of_nat w) (Z.of_nat h) 4 4 8 (map bz pixels)).
Proof.
  intros Hf Hlen Hraw Hz. unfold chunk_IEND. cbn [set_s set_idata set_header png_start p_first p_idata img_x img_y img_n p_depth p_color p_interlace p_iphone pal_img_n has_trans].
  change (2 ^ 24) with 16777216 in *. change (2 ^ 26) with 67108864 in *.
  assert (Hb : u32 (Z.of_nat w * 8 + 7) / 8 = Z.of_nat w) by (unfold u32; rewrite Z.mod_small by lia; dlia).
  assert (Hr : u32 (Z.of_nat w * Z.of_nat h * 4 + Z.of_nat h) = Z.of_nat w * Z.of_nat h * 4 + Z.of_nat h) by (unfold u32; apply Z.mod_small; nia).
  cbv zeta. rewrite Hb, Hr. rewrite i32_id by (unfold INT_MIN, INT_MAX; nia). cbn [negb]. rewrite Hz by (unfold UINT_MAX; nia).
  cbn [mbind zres_bind]. change (4 =? 4 + 1) with false. cbn [andb orb]. unfold create_png_image. change (0 =? 0) with true. cbv iota.
  rewrite Hraw. reflexivity.
Qed.

Lemma turn_IEND n fuel filt zlib limit :
  ((w * 4 + 1) * h < fuel)%nat -> length (concat filt) = ((w * 4 + 1) * h)%nat ->
  create_png_image_raw malloc_ok (concat filt) 4 4 (Z.of_nat w) (Z.of_nat h) 8 6 = ZOk (map bz pixels) ->
  (forall size, 1 <= size <= UINT_MAX -> stbi_zlib_decode_malloc_guesssize_headerflag malloc_ok fuel zlib size true = ZOk (concat filt)) ->
  parse_chunks malloc_ok pal_uninit (S n) fuel 4 (set_idata (chunk (str "IEND") []) zlib limit (header_read []))
  = ZOk (Image (Z.of_nat w) (Z.of_nat h) 4 4 8 (map bz pixels)).
Proof.
  intros Hf Hlen Hraw Hz. cbn [parse_chunks]. change (p_s (set_idata ?x _ _ _)) with x.
  rewrite <- (app_nil_r (chunk (str "IEND") [])), get32be_chunk by done.
  change (get32be (str "IEND" ++ ?x)) with (type_IEND, x). cbv iota beta zeta. change (type_IEND =? type_IEND) with true. cbv iota.
  by apply (parse_IEND fuel filt zlib limit).
Qed.

(** The reader reads what the writer wrote. *)
Lemma png_read_back stride n fuel :
  stride = 0%nat \/ stride = (w * 4)%nat -> (3 <= n)%nat -> ((w * 4 + 1) * h < fuel)%nat ->
  exists png rows, stbi_write_png_to_mem malloc_ok pixels stride w h 4 = Some (Some png)
    /\ mapM (fun j => filter_row pixels (w * 4) j 4 w) (seq 0 h) = Some rows
    /\ (exists body, png = png_sig ++ chunk (str "IHDR") (wp32 (Z.of_nat w) ++ wp32 (Z.of_nat h) ++ map zb [8; 6; 0; 0; 0])
          ++ chunk (str "IDAT") ([x78; x5e] ++ body ++ adler_be (concat rows)) ++ chunk (str "IEND") [])
    /\ do_png malloc_ok pal_uninit n fuel 4 png = ZOk (Z.of_nat w, Z.of_nat h, 4, false, map bz pixels)
    /\ check_png_header png = true.
Proof.
  intros Hs Hn Hf. unfold stbi_write_png_to_mem.
  assert (Hdata : Z.of_nat ((w * 4 + 1) * h) <= 5 * 2 ^ 26) by (change (2 ^ 26) with 67108864 in *; nia).
  change (2 ^ 26) with 67108864 in *. rewrite (proj2 (Z.ltb_ge INT_MAX (Z.of_nat ((w * 4 + 1) * h)))) by (unfold INT_MAX; lia). rewrite !Hm by (unfold UINT_MAX; nia). cbn [andb negb].
  assert (Hst : (if (stride =? 0)%nat then (w * 4)%nat else stride) = (w * 4)%nat).
  { destruct (stride =? 0)%nat eqn:E; boolify; [done|]. destruct Hs; lia. }
  rewrite Hst. destruct image_rows as (filt & Hrows & Hlen & Hraw). rewrite Hrows. cbn [mbind option_bind].
  assert (Hne : concat filt <> []) by (intros E; apply (f_equal length) in E; rewrite Hlen in E; cbn in E; nia).
  destruct (stbi_zlib_compress_spec malloc_ok (concat filt) 8 Hne (Hm (ZHASH * 8) ltac:(discriminate)) ltac:(rewrite Hlen; change (2 ^ 30) with 1073741824; lia)) as (body & -> & Hb & Hbl). cbn [mbind option_bind].
  set (zlib := [x78; x5e] ++ body ++ adler_be (concat filt)).
  assert (Hzl : 1 <= Z.of_nat (length zlib) <= 2 ^ 30).
  { unfold zlib. rewrite !length_app, length_adler_be. cbn [length]. rewrite Hlen in Hbl. unfold stored_need in Hbl. change (2 ^ 30) with 1073741824. dlia. }
  change (ctype !! 4%nat) with (Some 6). cbn [mbind option_bind].
  change (2 ^ 30) with 1073741824 in Hzl. rewrite (proj2 (Z.ltb_ge INT_MAX _)) by (unfold INT_MAX; lia).
  rewrite !png_chunk_spec. cbn [mbind option_bind]. rewrite !Hm by (unfold UINT_MAX; lia). cbn [negb].
  eexists _, filt. split; [reflexivity|]. split; [done|]. split; [by exists body|]. split; [|reflexivity].
  unfold do_png. change ((4 <? 0) || (4 <? 4)) with false. cbv iota. unfold parse_png_file.
  change (png_sig ++ chunk (str "IHDR") header_data ++ ?x) with (png_sig ++ (chunk (str "IHDR") header_data ++ x)).
  change (check_png_header (png_sig ++ ?x)) with true. cbv iota. change (drop 8 (png_sig ++ ?x)) with x.
  destruct n as [|[|[|n]]]; [lia..|]. rewrite turn_IHDR. destruct (turn_IDAT (S n) fuel zlib (chunk (str "IEND") [] ++ []) Hzl) as (limit & Hd).
  rewrite app_nil_r in Hd. rewrite Hd, (turn_IEND n fuel filt zlib limit); [done..|]. intros size Hsize.
  apply zlib_header_read; [done|apply length_adler_be|done| |lia|done|done].
  rewrite Hlen. change (2 ^ 31) with 2147483648. lia.
Qed.
End File.

(** ** Properties *)

(** Samples of 8 bits are returned as they are. *)
Lemma png_loaded malloc_ok sizeof_jpeg pal_uninit load_other n fuel png x y comp px :
  check_png_header png = true -> do_png malloc_ok pal_uninit n fuel 4 png = ZOk (x, y, comp, false, map bz px) ->
  stbi_load_from_memory malloc_ok sizeof_jpeg pal_uninit load_other n fuel png 4 = ZOk (x, y, comp, px).
Proof.
  intros Hc Hr. unfold stbi_load_from_memory, load_and_postprocess_8bit, load_main. rewrite Hc, Hr. cbn [mbind zres_bind]. do 2 f_equal. rewrite map_map.
  rewrite <- (map_id px) at 2. apply map_ext. intros b. apply zb_bz.
Qed.

(** C19: An image survives the PNG codec.  What the writer makes of any image
    of 8-bit RGBA pixels - within the reader's limits - is a PNG file as the
    specification has it: signature, header, one compressed chunk that ends
    with the Adler-32 of the filtered rows, each chunk with the CRC-32 of its
    contents; and the loader reads exactly the image back from it, whatever
    filters and matches the writer chose. *)
Theorem png_round_trip malloc_ok sizeof_jpeg pal_uninit load_other pixels w h n fuel
    (Hm : forall n, n <= UINT_MAX -> malloc_ok n = true) (Hw : (1 <= w)%nat) (Hh : (1 <= h)%nat) (Hl : length pixels = (w * 4 * h)%nat)
    (Hdim : Z.of_nat w <= 2 ^ 24 /\ Z.of_nat h <= 2 ^ 24) (Hmax : Z.of_nat w * Z.of_nat h <= 2 ^ 26)
    (Hn : (3 <= n)%nat) (Hf : ((w * 4 + 1) * h < fuel)%nat) :
  exists png, stbi_write_png_to_func malloc_ok w h 4 pixels (w * 4) = Some [png]
    /\ (exists rows body, mapM (fun j => filter_row pixels (w * 4) j 4 w) (seq 0 h) = Some rows
          /\ png = png_sig ++ chunk (str "IHDR") (wp32 (Z.of_nat w) ++ wp32 (Z.of_nat h) ++ map zb [8; 6; 0; 0; 0])
          ++ chunk (str "IDAT") ([x78; x5e] ++ body ++ adler_be (concat rows)) ++ chunk (str "IEND") [])
    /\ stbi_load_from_memory malloc_ok sizeof_jpeg pal_uninit load_other n fuel png 4 = ZOk (Z.of_nat w, Z.of_nat h, 4, pixels).
Proof.
  destruct (png_read_back malloc_ok pal_uninit Hm pixels w h Hw Hh Hl Hdim Hmax (w * 4) n fuel (or_intror eq_refl) Hn Hf)
    as (png & rows & Hwr & Hrows & (body & Hshape) & Hr & Hc).
  exists png. unfold stbi_write_png_to_func. rewrite Hwr. split; [done|]. split; [by exists rows, body|].
  by apply png_loaded.
Qed.

Lemma png_round_trip_witness :
  let pixels := map (fun i => zb (Z.of_nat (i * i))) (seq 0 24) in
  exists png, stbi_write_png_to_func (fun _ => true) 3 2 4 pixels 12 = Some [png]
    /\ stbi_load_from_memory (fun _ => true) 18528 (fun _ => 0) (fun _ _ _ => ZFail) 3 30 png 4 = ZOk (3, 2, 4, pixels).
Proof.
  cbv zeta.
  destruct (png_round_trip (fun _ => true) 18528 (fun _ => 0) (fun _ _ _ => ZFail) (map (fun i => zb (Z.of_nat (i * i))) (seq 0 24)) 3 2 3 30)
    as (png & H1 & _ & H2); [intros; reflexivity|apply Nat.leb_le; reflexivity|apply Nat.leb_le; reflexivity|reflexivity|split; discriminate|discriminate
    |apply Nat.leb_le; reflexivity|apply Nat.leb_le; reflexivity|].
  exists png. split; [exact H1|exact H2].
Defined.
