(* ===== verification/Dib.v ===== *)
(** * Images on the Windows clipboard (windows/main.c)

    [clipboard_get_image] puts a file header before the DIB the clipboard
    holds, [clipboard_set_image] takes it off again or turns a PNG into a DIB
    ([png_to_dib]). The decoder and the encoder are stb's (class [Stb]). *)

From S2P Require Import Prelude CString JsonPrint RecvBuf Http Clip.
Local Open Scope Z_scope.

(** Fields of the Win32 structures, little endian. *)
Definition le16 (n : Z) : bytes := [zb n; zb (Z.shiftr n 8)].
Definition le32 (n : Z) : bytes := [zb n; zb (Z.shiftr n 8); zb (Z.shiftr n 16); zb (Z.shiftr n 24)].
Definition get16 (b : bytes) (i : nat) : option Z :=
  b0 ← b !! i; b1 ← b !! (i + 1)%nat; Some (bz b0 + 256 * bz b1).
Definition get32 (b : bytes) (i : nat) : option Z :=
  lo ← get16 b i; hi ← get16 b (i + 2); Some (lo + 65536 * hi).

(** [Outside]: an access outside of a block. *)
Inductive converted (A : Type) := Converted (a : A) | Failed | Outside.
Arguments Converted {A}.
Arguments Failed {A}.
Arguments Outside {A}.

Class Stb := {
  (** [stbi_load_from_memory(..., 4)]: width, height, pixels *)
  stbi_load : bytes -> converted (Z * Z * bytes);
  (** [stbi_write_png_to_func]: the chunks written; [None] as [Outside] *)
  stb_write_png : Z -> Z -> bytes -> option (list bytes) }.

(** Four bytes a pixel, row by row from the top; stb refuses larger images. *)
Class StbLaws `{Stb} := {
  stbi_load_size : forall d w h px, stbi_load d = Converted (w, h, px) ->
    0 <= w /\ 0 <= h /\ w * h * 4 <= INT_MAX /\ w <= INT_MAX /\ h <= INT_MAX /\ Z.of_nat (length px) = w * h * 4;
  (** the length of a PNG is an [int] *)
  stb_png_size : forall w h px chunks, stb_write_png w h px = Some chunks -> Z.of_nat (length (concat chunks)) <= INT_MAX }.

Definition sizeof_BITMAPINFOHEADER : nat := 40.
Definition sizeof_BITMAPFILEHEADER : nat := 14.

Section Dib.
Context `{Stb}.
Context (malloc_ok : Z -> bool) (uninit : nat -> bytes).

Definition bmp_to_png (bmp : bytes) : converted bytes :=
  match stbi_load bmp with
  | Failed => Failed
  | Outside => Outside
  | Converted (w, h, pixels) =>
      match (chunks ← stb_write_png w h pixels; dynbuf_writes malloc_ok uninit chunks (MkBlock [] 0)) with
      | None => Outside
      | Some b => if (used b =? 0)%nat then Failed else Converted (take (used b) (contents b))
      end
  end.

(** [biSize] to [biClrImportant]; bottom-up, 32 bits, [BI_RGB]. *)
Definition info_header (w h size_image : Z) : bytes :=
  le32 40 ++ le32 w ++ le32 h ++ le16 1 ++ le16 32 ++ le32 0 ++ le32 (u32 size_image) ++ zeros 16.

(** The pixel at [src_row + x*4], as the inner loop stores it. *)
Definition bgra (pixels : bytes) (i : nat) : option bytes :=
  r ← pixels !! i; g ← pixels !! (i + 1)%nat; b ← pixels !! (i + 2)%nat; a ← pixels !! (i + 3)%nat;
  Some [b; g; r; a].

Definition dst_row (pixels : bytes) (w h y : nat) : option bytes :=
  let src_row := ((h - 1 - y) * (w * 4))%nat in
  concat (A := byte) <$> mapM (fun x => bgra pixels (src_row + x * 4)) (seq 0 w).

Definition png_to_dib (png : bytes) : converted bytes :=
  match stbi_load png with
  | Failed => Failed
  | Outside => Outside
  | Converted (w, h, pixels) =>
      let row_bytes := u64 (w * 4) in
      let dib_len := u64 (40 + row_bytes * h) in
      if negb (malloc_ok dib_len) then Failed
      else match mapM (dst_row pixels (Z.to_nat w) (Z.to_nat h)) (seq 0 (Z.to_nat h)) with
      | Some rows => Converted (info_header w h (row_bytes * h) ++ concat rows)
      | None => Outside
      end
  end.

(** [dib]: the block [GetClipboardData(CF_DIB)] gives, if it can be had. *)
Definition file_header (total off_bits : Z) : bytes :=
  str "BM" ++ le32 total ++ zeros 4 ++ le32 off_bits.

Definition off_bits (bi_size bit_count compression : Z) : Z :=
  let off := u32 (14 + bi_size) in
  if bit_count <=? 8 then u32 (off + Z.shiftl 1 bit_count * 4)
  else if (compression =? 3) && (bi_size =? 40) then u32 (off + 12)
  else off.

Definition clipboard_get_image (dib : option bytes) : converted bytes :=
  match dib with
  | None => Failed
  | Some d =>
      let dib_size := u32 (Z.of_nat (length d)) in
      let total := u32 (14 + dib_size) in
      if negb (malloc_ok total) then Failed
      else match get32 d 0, get16 d 14, get32 d 16 with
      | Some bi_size, Some bit_count, Some compression =>
          if total <? 14 + dib_size then Outside
          else Converted (file_header total (off_bits bi_size bit_count compression) ++ take (Z.to_nat dib_size) d)
      | _, _, _ => Outside
      end
  end.

(** What [clipboard_set_image] hands to [SetClipboardData(CF_DIB, ...)]. *)
Definition clipboard_set_image (data : bytes) : converted bytes :=
  if (4 <? length data)%nat && starts_with [x89; x50; x4e; x47] data then png_to_dib data
  else if (14 <? length data)%nat && starts_with (str "BM") data
  then Converted (drop sizeof_BITMAPFILEHEADER data)
  else Converted data.
End Dib.

(** ** What an image is *)

(** A pixel, in both formats: red, green, blue, alpha. *)
Definition image_pixel (w : nat) (pixels : bytes) (x y : nat) : option (byte * byte * byte * byte) :=
  let i := ((y * w + x) * 4)%nat in
  r ← pixels !! i; g ← pixels !! (i + 1)%nat; b ← pixels !! (i + 2)%nat; a ← pixels !! (i + 3)%nat; Some (r, g, b, a).

(** A bottom-up DIB of 32 bits, as documented. *)
Definition dib_pixel (d : bytes) (x y : nat) : option (byte * byte * byte * byte) :=
  size ← get32 d 0; w ← get32 d 4; h ← get32 d 8; depth ← get16 d 14; compression ← get32 d 16;
  if (depth =? 32) && (compression =? 0) then
    let i := (Z.to_nat size + ((Z.to_nat h - 1 - y) * Z.to_nat w + x) * 4)%nat in
    b ← d !! i; g ← d !! (i + 1)%nat; r ← d !! (i + 2)%nat; a ← d !! (i + 3)%nat; Some (r, g, b, a)
  else None.

(** ** Fields *)

Lemma get32_le32 n rest : 0 <= n < 2 ^ 32 -> get32 (le32 n ++ rest) 0 = Some n.
Proof.
  intros Hn. unfold get32, get16, le32. cbn [app lookup list_lookup mbind option_bind Nat.add]. f_equal.
  rewrite !bz_zb, !Z.shiftr_div_pow2 by lia. change (2 ^ 8) with 256. change (2 ^ 16) with 65536.
  change (2 ^ 24) with 16777216. change (2 ^ 32) with 4294967296 in *. dlia.
Qed.

Lemma get32_app pre b i : get32 (pre ++ b) (length pre + i) = get32 b i.
Proof.
  unfold get32, get16.
  rewrite <- !Nat.add_assoc. by rewrite !lookup_behind.
Qed.

Lemma get16_app pre b i : get16 (pre ++ b) (length pre + i) = get16 b i.
Proof. unfold get16. rewrite <- !Nat.add_assoc. by rewrite !lookup_behind. Qed.

(** ** The buffer of [bmp_to_png] *)

Lemma dynbuf_writes_used malloc_ok uninit chunks b b' :
  dynbuf_writes malloc_ok uninit chunks b = Some b' -> used b' = (used b + length (concat chunks))%nat.
Proof.
  revert b. induction chunks as [|c cs IH]; intros b; cbn [dynbuf_writes concat]; [intros [= <-]; cbn; lia|].
  destruct (dynbuf_write malloc_ok uninit c b) as [b1|] eqn:E; cbn [mbind option_bind]; [|done].
  intros Hb. rewrite (IH _ Hb), length_app. revert E. unfold dynbuf_write.
  set (grown := if (length (contents b) <? _)%nat then _ else _). destruct grown as [a|]; cbn [mbind option_bind]; [|done].
  destruct (poke a (used b) c); cbn [mbind option_bind]; [|done]. intros [= <-]. cbn [used]. lia.
Qed.

Lemma bmp_to_png_size `{StbLaws} malloc_ok uninit bmp png :
  bmp_to_png malloc_ok uninit bmp = Converted png -> Z.of_nat (length png) <= INT_MAX.
Proof.
  unfold bmp_to_png. destruct (stbi_load bmp) as [[[w h] px]| |]; [|done..].
  destruct (stb_write_png w h px) as [cs|] eqn:E; [|done]. apply stb_png_size in E. cbn [mbind option_bind].
  destruct (dynbuf_writes _ _ _ _) as [b|] eqn:Eb; [|done]. apply dynbuf_writes_used in Eb. cbn in Eb.
  destruct (used b =? 0)%nat; [done|]. intros [= <-]. rewrite length_take. lia.
Qed.

(** ** [png_to_dib] *)

Section Pixels.
Context `{StbLaws}.

Lemma bgra_in px i : (i + 4 <= length px)%nat ->
  exists q, bgra px i = Some q /\ length q = 4%nat
    /\ q !! 0%nat = px !! (i + 2)%nat /\ q !! 1%nat = px !! (i + 1)%nat
    /\ q !! 2%nat = px !! i /\ q !! 3%nat = px !! (i + 3)%nat.
Proof.
  intros Hi. unfold bgra.
  assert (Hk : forall k, (k < 4)%nat -> is_Some (px !! (i + k)%nat)) by (intros; apply lookup_lt_is_Some_2; lia).
  destruct (Hk 0%nat) as [r Hr]; [lia|]. rewrite Nat.add_0_r in Hr. destruct (Hk 1%nat) as [g Hg]; [lia|].
  destruct (Hk 2%nat) as [b Hb]; [lia|]. destruct (Hk 3%nat) as [a Ha]; [lia|].
  rewrite Hr, Hg, Hb, Ha. by exists [b; g; r; a].
Qed.

(** Row [y] of the DIB is row [h - 1 - y] of the image, red and blue swapped. *)
Lemma dst_row_spec px w h y :
  length px = (w * h * 4)%nat -> (y < h)%nat ->
  exists row, dst_row px w h y = Some row /\ length row = (w * 4)%nat
    /\ forall x, (x < w)%nat -> let i := ((h - 1 - y) * (w * 4) + x * 4)%nat in
         row !! (x * 4)%nat = px !! (i + 2)%nat /\ row !! (x * 4 + 1)%nat = px !! (i + 1)%nat
         /\ row !! (x * 4 + 2)%nat = px !! i /\ row !! (x * 4 + 3)%nat = px !! (i + 3)%nat.
Proof.
  intros Hl Hy. unfold dst_row. set (src := ((h - 1 - y) * (w * 4))%nat).
  assert (Hin : forall x, (x < w)%nat -> (src + x * 4 + 4 <= length px)%nat) by (unfold src; intros; nia).
  destruct (mapM_seq_total (fun x => bgra px (src + x * 4)) w) as (qs & Hqs & Hn & Hx).
  { intros x Hx. destruct (bgra_in px (src + x * 4) (Hin x Hx)) as (q & -> & _). by eexists. }
  rewrite Hqs. cbn [fmap option_fmap option_map].
  assert (Hq4 : Forall (fun q => length q = 4%nat) qs).
  { apply Forall_lookup. intros x q Hq. assert (Hxw : (x < w)%nat) by (rewrite <- Hn; by eapply lookup_lt_Some).
    rewrite Hx in Hq by done. destruct (bgra_in px (src + x * 4) (Hin x Hxw)) as (q' & Hq' & Hl' & _).
    rewrite Hq' in Hq. by injection Hq as <-. }
  eexists. split; [done|]. split; [rewrite (length_concat_same 4) by done; lia|].
  intros x Hxw. cbv zeta. destruct (bgra_in px (src + x * 4) (Hin x Hxw)) as (q & Hq & _ & H0' & H1' & H2' & H3').
  rewrite <- (Hx x Hxw) in Hq. pose proof (fun k => lookup_concat 4 qs x k q Hq4 Hq) as Hc.
  pose proof (Hc 0%nat ltac:(lia)) as Hc0. rewrite Nat.add_0_r in Hc0.
  by rewrite Hc0, !Hc, H0', H1', H2', H3' by lia.
Qed.

Lemma info_header_fields w h s rest :
  0 <= w < 2 ^ 32 -> 0 <= h < 2 ^ 32 ->
  let d := info_header w h s ++ rest in
  length (info_header w h s) = 40%nat /\ get32 d 0 = Some 40 /\ get32 d 4 = Some w /\ get32 d 8 = Some h
  /\ get16 d 14 = Some 32 /\ get32 d 16 = Some 0.
Proof.
  intros Hw Hh d. subst d. unfold info_header. rewrite <- !app_assoc. split_and!; [done|by apply get32_le32| | |done|done].
  - rewrite (get32_app (le32 40) _ 0). by apply get32_le32.
  - rewrite app_assoc. rewrite (get32_app (le32 40 ++ le32 w) _ 0). by apply get32_le32.
Qed.

Lemma png_to_dib_spec malloc_ok png w h px :
  (forall n, n < 2 ^ 32 -> malloc_ok n = true) -> stbi_load png = Converted (w, h, px) ->
  exists dib, png_to_dib malloc_ok png = Converted dib /\ Z.of_nat (length dib) = 40 + w * h * 4
    /\ get32 dib 4 = Some w /\ get32 dib 8 = Some h
    /\ forall x y, (x < Z.to_nat w)%nat -> (y < Z.to_nat h)%nat -> dib_pixel dib x y = image_pixel (Z.to_nat w) px x y.
Proof.
  intros Hm Hs. destruct (stbi_load_size _ _ _ _ Hs) as (Hw & Hh & Hmax & Hwm & Hhm & Hl).
  set (wn := Z.to_nat w). set (hn := Z.to_nat h).
  assert (Hln : length px = (wn * hn * 4)%nat) by (unfold wn, hn; nia).
  unfold png_to_dib. rewrite Hs, Hm by (unfold u64, INT_MAX in *; change (2 ^ 32) with 4294967296; rewrite !Z.mod_small by (change (2 ^ 64) with 18446744073709551616; rewrite ?Z.mod_small by lia; nia); nia). cbn [negb]. fold wn hn.
  destruct (mapM_seq_total (dst_row px wn hn) hn) as (rows & -> & Hn & Hrow).
  { intros y Hy. destruct (dst_row_spec px wn hn y Hln Hy) as (row & -> & _). by eexists. }
  assert (Hr4 : Forall (fun r => length r = (wn * 4)%nat) rows).
  { apply Forall_lookup. intros y r Hr. assert (Hy : (y < hn)%nat) by (rewrite <- Hn; by eapply lookup_lt_Some).
    rewrite Hrow in Hr by done. destruct (dst_row_spec px wn hn y Hln Hy) as (r' & Hr' & Hl' & _).
    rewrite Hr' in Hr. by injection Hr as <-. }
  assert (Hw32 : 0 <= w < 2 ^ 32) by (unfold INT_MAX in *; nia).
  assert (Hh32 : 0 <= h < 2 ^ 32) by (unfold INT_MAX in *; nia).
  destruct (info_header_fields w h (u64 (w * 4) * h) (concat rows) Hw32 Hh32) as (H40 & F0 & F4 & F8 & F14 & F16).
  eexists. split; [done|]. split; [|split; [done|split; [done|]]].
  - rewrite length_app, H40, (length_concat_same (wn * 4)) by done. unfold wn, hn in *. nia.
  - intros x y Hx Hy. unfold dib_pixel. rewrite F0, F4, F8, F14, F16. cbn [mbind option_bind].
    change ((32 =? 32) && (0 =? 0)) with true. fold wn hn. cbv iota.
    destruct (dst_row_spec px wn hn (hn - 1 - y) Hln ltac:(lia)) as (row & Hd & Hrl & Hp).
    rewrite <- Hrow in Hd by lia. specialize (Hp x Hx). cbv zeta in Hp.
    replace (hn - 1 - (hn - 1 - y))%nat with y in Hp by lia.
    assert (Hlk : forall k, (k < 4)%nat -> (info_header w h (u64 (w * 4) * h) ++ concat rows)
        !! (Z.to_nat 40 + ((hn - 1 - y) * wn + x) * 4 + k)%nat = row !! (x * 4 + k)%nat).
    { intros k Hk. change (Z.to_nat 40) with 40%nat. rewrite <- !Nat.add_assoc, <- H40, lookup_behind.
      rewrite <- (lookup_concat (wn * 4) rows (hn - 1 - y) (x * 4 + k) row Hr4 Hd) by lia. f_equal.
      generalize (hn - 1 - y)%nat. intros m. lia. }
    pose proof (Hlk 0%nat ltac:(lia)) as L0. rewrite !Nat.add_0_r in L0.
    rewrite L0, (Hlk 1%nat), (Hlk 2%nat), (Hlk 3%nat) by lia. destruct Hp as (P0 & P1 & P2 & P3).
    rewrite P0, P1, P2, P3. unfold image_pixel. replace ((y * wn + x) * 4)%nat with (y * (wn * 4) + x * 4)%nat by lia.
    destruct (px !! _), (px !! _), (px !! _), (px !! _); try done.
Qed.
End Pixels.

(** ** BMP files *)

Lemma starts_with_byte lit s b c :
  lit !! 0%nat = Some b -> s !! 0%nat = Some c -> b <> c -> starts_with lit s = false.
Proof.
  intros Hb Hc Hn. unfold starts_with. apply bool_decide_eq_false_2. intros E.
  destruct lit as [|b' lit], s as [|c' s]; cbn in *; simplify_eq.
Qed.

Lemma u32_small n : 0 <= n < 2 ^ 32 -> u32 n = n.
Proof. intros Hn. unfold u32. by apply Z.mod_small. Qed.

Lemma get_fields d : (40 <= length d)%nat -> is_Some (get32 d 0) /\ is_Some (get16 d 14) /\ is_Some (get32 d 16).
Proof.
  intros Hd. do 40 (destruct d as [|? d]; [cbn in Hd; lia|]). by repeat split; eexists.
Qed.

(** What an image is survives the Windows clipboard.  A received PNG is
    handed to the clipboard as the DIB of the same size whose pixels are
    those of the image - bottom-up, blue and red swapped - for every size the
    decoder accepts, without an access outside the pixels; and a DIB that is
    copied is announced as a BMP file with its own length, which, set on a
    clipboard, gives the same DIB back. *)
Theorem images_cross_clipboards `{StbLaws} malloc_ok (Hm : forall n, n < 2 ^ 32 -> malloc_ok n = true) :
  (forall png w h px, (4 < length png)%nat -> starts_with [x89; x50; x4e; x47] png = true ->
     stbi_load png = Converted (w, h, px) ->
     exists dib, clipboard_set_image malloc_ok png = Converted dib /\ Z.of_nat (length dib) = 40 + w * h * 4
       /\ get32 dib 4 = Some w /\ get32 dib 8 = Some h
       /\ forall x y, (x < Z.to_nat w)%nat -> (y < Z.to_nat h)%nat ->
            dib_pixel dib x y = image_pixel (Z.to_nat w) px x y)
  /\ (forall d, (40 <= length d)%nat -> 14 + Z.of_nat (length d) < 2 ^ 32 ->
     exists bmp, clipboard_get_image malloc_ok (Some d) = Converted bmp
       /\ get32 bmp 2 = Some (Z.of_nat (length bmp)) /\ clipboard_set_image malloc_ok bmp = Converted d).
Proof.
  split.
  - intros png w h px Hl Hp Hs. unfold clipboard_set_image. rewrite (proj2 (Nat.ltb_lt _ _) Hl), Hp. cbn [andb].
    by apply png_to_dib_spec.
  - intros d Hd Hmax. unfold clipboard_get_image. rewrite Hm by (unfold u32; apply Z.mod_pos_bound; lia). cbn [negb].
    destruct (get_fields d Hd) as ([size ->] & [depth ->] & [comp ->]).
    rewrite (u32_small (Z.of_nat (length d))) by lia. rewrite u32_small by lia.
    destruct (_ <? _) eqn:E; boolify; [lia|]. rewrite Nat2Z.id, take_ge by lia.
    eexists. split; [done|]. unfold file_header.
    set (off := off_bits size depth comp). split.
    + replace (Z.of_nat (length ((str "BM" ++ le32 (14 + Z.of_nat (length d)) ++ zeros 4 ++ le32 off) ++ d)))
        with (14 + Z.of_nat (length d)) by (rewrite length_app; cbn [length app str le32 zeros replicate]; cbn; lia).
      rewrite <- !app_assoc. rewrite (get32_app (str "BM") _ 0). apply get32_le32. lia.
    + unfold clipboard_set_image.
      rewrite (starts_with_byte _ _ x89 "B"%byte), andb_false_r by done.
      rewrite (proj2 (Nat.ltb_lt _ _)) by (rewrite length_app; cbn; lia).
      rewrite <- app_assoc, starts_with_app. done.
Qed.

(** For the witness: "\x89PNG" is followed by a width, a height and as many
    pixels; of anything else the first four bytes are the only pixel. *)
#[export] Instance toy_stb : Stb := {|
  stbi_load d :=
    if negb (starts_with [x89; x50; x4e; x47] d) then Converted (1, 1, take 4 (d ++ zeros 4))
    else match drop 4 d with
    | w :: h :: px => if Z.of_nat (length px) =? bz w * bz h * 4 then Converted (bz w, bz h, px) else Failed
    | _ => Failed
    end;
  stb_write_png w h px := Some [str "PNG"; take 100 px] |}.

#[export] Instance toy_stb_laws : StbLaws.
Proof.
  split; [|intros w h px chunks [= <-]; cbn; rewrite app_nil_r, length_take; unfold INT_MAX; lia].
  intros d w h px. unfold stbi_load, toy_stb. destruct (negb _).
  - intros [= <- <- <-]. split_and!; [done..|]. rewrite length_take, length_app. change (length (zeros 4)) with 4%nat. lia.
  - destruct (drop 4 d) as [|a [|b px']]; try done.
    destruct (_ =? _) eqn:E; [|done]. intros [= <- <- <-]. boolify.
    pose proof (bz_range a). pose proof (bz_range b). unfold INT_MAX. split_and!; try lia. nia.
Qed.

Definition toy_png : bytes := [x89; x50; x4e; x47; x01; x02] ++ str "abcdefgh".

Lemma images_cross_clipboards_witness :
  (exists dib, clipboard_set_image (fun _ => true) toy_png = Converted dib /\ Z.of_nat (length dib) = 40 + 1 * 2 * 4
     /\ get32 dib 4 = Some 1 /\ get32 dib 8 = Some 2
     /\ forall x y, (x < Z.to_nat 1)%nat -> (y < Z.to_nat 2)%nat ->
          dib_pixel dib x y = image_pixel (Z.to_nat 1) (str "abcdefgh") x y)
  /\ match clipboard_set_image (fun _ => true) toy_png with
     | Converted dib => drop 40 dib = str "gfehcbad"
     | _ => False
     end.
Proof.
  split; [|vm_compute; reflexivity].
  apply (proj1 (images_cross_clipboards (fun _ => true) (fun _ _ => eq_refl)) toy_png).
  - vm_compute. lia.
  - reflexivity.
  - vm_compute. reflexivity.
Defined.
