(* ===== verification/BmpTrip.v ===== *)
(** * What the BMP decoder reads (common/stb_image.h)

    The pixels of a file of 24 or 32 bits without compression, by their place
    in the file: rows of four bytes' multiple, from the bottom or from the
    top, blue first, the alpha opaque when all of it is zero. *)

From stdpp Require Import gmap.
From S2P Require Import Prelude CString Inflate PngRead BmpRead StbLoad PngTrip Dib.
Local Open Scope Z_scope.

(** ** Fields *)

Lemma get8_nth s : get8 s = (bz (nth 0 s x00), drop 1 s).
Proof. by destruct s. Qed.

Lemma lookup_nth (s : bytes) i b : s !! i = Some b -> nth i s x00 = b.
Proof. revert i. induction s as [|c s IH]; intros [|i] H; [done|done|by injection H as ->|by apply IH]. Qed.

Lemma nth_drop (s : bytes) i k : nth i (drop k s) x00 = nth (k + i) s x00.
Proof. revert s. induction k as [|k IH]; intros [|c s]; try done; [by destruct i|apply IH]. Qed.

Lemma get16le_get s n : get16 s 0 = Some n -> get16le s = (n, drop 2 s).
Proof.
  unfold get16, get16le. destruct s as [|b0 [|b1 s]]; try done. cbn. intros [= <-]. f_equal. rewrite Z.shiftl_mul_pow2 by lia. change (2 ^ 8) with 256. lia.
Qed.

Lemma get32le_get s n : get32 s 0 = Some n -> get32le s = (n, drop 4 s).
Proof.
  unfold get32. destruct (get16 s 0) as [lo|] eqn:El; [|done]. cbn [mbind option_bind]. destruct (get16 s (0 + 2)) as [hi|] eqn:Eh; [|done].
  intros [= <-]. unfold get32le. rewrite (get16le_get _ _ El), (get16le_get (drop 2 s) hi).
  - rewrite drop_drop. f_equal. rewrite Z.shiftl_mul_pow2 by lia. change (2 ^ 16) with 65536. lia.
  - revert Eh. unfold get16. by rewrite !lookup_drop.
Qed.

Lemma get16_drop s i k : get16 (drop k s) i = get16 s (k + i).
Proof. unfold get16. rewrite !lookup_drop. by rewrite Nat.add_assoc. Qed.

Lemma get32_drop s i k : get32 (drop k s) i = get32 s (k + i).
Proof. unfold get32. rewrite !get16_drop. by rewrite Nat.add_assoc. Qed.

Lemma get32le_drop s : (get32le s).2 = drop 4 s.
Proof. by destruct s as [|? [|? [|? [|? s]]]]. Qed.

Lemma discard32_drop n : forall s, discard32 n s = drop (4 * n) s.
Proof.
  induction n as [|n IH]; intros s; cbn [discard32]; [done|]. rewrite IH, get32le_drop, drop_drop. f_equal. lia.
Qed.

Lemma skip_drop n s : 0 <= n <= INT_MAX -> skip n s = drop (Z.to_nat n) s.
Proof. intros Hn. unfold skip. rewrite i32_id by (unfold INT_MIN; lia). by rewrite (proj2 (Z.ltb_ge n 0)) by lia. Qed.

(** ** Rows *)

(** The pixel whose [k] bytes are at [i]. *)
Definition rgba (k : nat) (s : bytes) (i : nat) : list Z :=
  [bz (nth (i + 2) s x00); bz (nth (i + 1) s x00); bz (nth i s x00); if (k =? 4)%nat then bz (nth (i + 3) s x00) else 255].
Definition alpha_of (q : list Z) : Z := nth 3 q 0.

Lemma rgba_drop k d s i : rgba k (drop d s) i = rgba k s (d + i).
Proof. unfold rgba. rewrite !nth_drop, !Nat.add_assoc. done. Qed.

Definition row_pixels (k w : nat) (s : bytes) (i : nat) : list (list Z) := map (fun x => rgba k s (i + x * k)) (seq 0 w).

Lemma row_pixels_drop k w d s i : row_pixels k w (drop d s) i = row_pixels k w s (d + i).
Proof. unfold row_pixels. apply map_ext. intros x. rewrite rgba_drop. f_equal. lia. Qed.

Lemma row_pixels_next k w s i : row_pixels k (S w) s i = rgba k s i :: row_pixels k w s (i + k).
Proof.
  unfold row_pixels. cbn [seq map]. rewrite Nat.add_0_r. f_equal. rewrite <- seq_shift, map_map. apply map_ext. intros x. f_equal. lia.
Qed.

Definition bytes_of (easy : Z) : nat := if easy =? 2 then 4 else 3.

Lemma pixel_easy_read easy s : pixel_easy easy 4 s = (rgba (bytes_of easy) s 0, alpha_of (rgba (bytes_of easy) s 0), drop (bytes_of easy) s).
Proof.
  unfold pixel_easy, bytes_of. destruct (easy =? 2), s as [|b [|g [|r [|a s]]]]; reflexivity.
Qed.

Lemma bmp_pixels_read easy : forall n all_a s,
  let px := row_pixels (bytes_of easy) n s 0 in
  bmp_pixels n (fun s => ZOk (pixel_easy easy 4 s)) all_a s = ZOk (concat px, fold_left Z.lor (map alpha_of px) all_a, drop (n * bytes_of easy) s).
Proof.
  induction n as [|n IH]; intros all_a s; cbv zeta; cbn [bmp_pixels]; [done|]. rewrite pixel_easy_read. cbn [mbind zres_bind].
  rewrite IH. cbn [mbind zres_bind]. rewrite row_pixels_drop, row_pixels_next, drop_drop, Nat.add_0_r. done.
Qed.

Lemma bmp_rows_read easy w pad : 0 <= pad <= 3 -> forall n all_a s,
  let stride := (w * bytes_of easy + Z.to_nat pad)%nat in
  let rows := map (fun j => row_pixels (bytes_of easy) w s (j * stride)) (seq 0 n) in
  bmp_rows n (bmp_pixels w (fun s => ZOk (pixel_easy easy 4 s))) pad all_a s
  = ZOk (map (@concat Z) rows, fold_left Z.lor (map alpha_of (concat rows)) all_a, drop (n * stride) s).
Proof.
  intros Hpad n. induction n as [|n IH]; intros all_a s; cbv zeta; cbn [bmp_rows]; [done|]. rewrite bmp_pixels_read. cbn [mbind zres_bind].
  rewrite skip_drop, drop_drop by (unfold INT_MAX; lia). rewrite IH. cbn [mbind zres_bind]. cbv zeta. rewrite drop_drop.
  set (stride := (w * bytes_of easy + Z.to_nat pad)%nat).
  assert (Hrows : map (fun j => row_pixels (bytes_of easy) w (drop stride s) (j * stride)) (seq 0 n) = map (fun j => row_pixels (bytes_of easy) w s (j * stride)) (seq 1 n)).
  { rewrite <- seq_shift, map_map. apply map_ext. intros j. by rewrite row_pixels_drop. }
  cbn [seq map concat]. by rewrite Hrows, map_app, fold_left_app.
Qed.

(** ** The order of the rows, the alpha *)

Lemma flip_rows_length n rows : length (flip_rows n rows) = length rows.
Proof.
  induction n as [|n IH]; cbn [flip_rows]; [done|]. destruct (flip_rows n rows !! n); [|done]. destruct (flip_rows n rows !! (_ - 1 - n)%nat); [|done].
  by rewrite !length_insert.
Qed.

Lemma flip_rows_lookup rows n : (2 * n <= length rows)%nat -> forall i, (i < length rows)%nat ->
  flip_rows n rows !! i = rows !! (if decide (i < n \/ length rows - n <= i)%nat then length rows - 1 - i else i)%nat.
Proof.
  induction n as [|n IH]; intros Hn i Hi; cbn [flip_rows].
  - destruct (decide _); [lia|done].
  - specialize (IH ltac:(lia)). pose proof (flip_rows_length n rows) as Hl. set (rows' := flip_rows n rows) in *. cbv zeta. rewrite !Hl.
    assert (H1 : rows' !! n = rows !! n) by (rewrite IH by lia; destruct (decide _); [lia|done]).
    assert (H2 : rows' !! (length rows - 1 - n)%nat = rows !! (length rows - 1 - n)%nat) by (rewrite IH by lia; destruct (decide _); [lia|done]).
    rewrite H1, H2. destruct (lookup_lt_is_Some_2 rows n ltac:(lia)) as [p1 E1]. destruct (lookup_lt_is_Some_2 rows (length rows - 1 - n) ltac:(lia)) as [p2 E2].
    rewrite E1, E2. destruct (decide (i = n)) as [->|Hin].
    + rewrite list_lookup_insert_eq by (rewrite length_insert; lia). destruct (decide _); [by rewrite E2|lia].
    + rewrite list_lookup_insert_ne by done. destruct (decide (i = length rows - 1 - n)%nat) as [->|Him].
      * rewrite list_lookup_insert_eq by lia. destruct (decide _); [|lia]. rewrite <- E1. f_equal. lia.
      * rewrite list_lookup_insert_ne by done. rewrite IH by done. f_equal. destruct (decide _), (decide _); lia.
Qed.

Lemma flip_rows_all rows : flip_rows (Z.to_nat (Z.shiftr (Z.of_nat (length rows)) 1)) rows = reverse rows.
Proof.
  rewrite Z.shiftr_div_pow2 by lia. change (2 ^ 1) with 2. set (n := Z.to_nat (Z.of_nat (length rows) / 2)).
  assert (Hn : (2 * n <= length rows <= 2 * n + 1)%nat) by (unfold n; dlia).
  apply list_eq. intros i. destruct (decide (i < length rows)%nat) as [Hi|Hi].
  - rewrite flip_rows_lookup, reverse_lookup by lia. f_equal. destruct (decide _); lia.
  - rewrite !lookup_ge_None_2; [done|rewrite length_reverse; lia|rewrite flip_rows_length; lia].
Qed.

Definition solid (q : list Z) : list Z := take 3 q ++ [255].

Lemma opaque_solid px : Forall (fun q => length q = 4%nat) px -> opaque (length px) (concat px) = concat (map solid px).
Proof.
  induction 1 as [|q px Hq _ IH]; [done|]. destruct q as [|r [|g [|b [|a [|]]]]]; try done. cbn [length concat map app opaque solid take]. by rewrite IH.
Qed.

Lemma row_pixels_quads k w s i : Forall (fun q => length q = 4%nat) (row_pixels k w s i).
Proof. unfold row_pixels. apply Forall_map, Forall_true. intros x. done. Qed.

Lemma row_pixels_length k w s i : length (row_pixels k w s i) = w.
Proof. unfold row_pixels. by rewrite length_map, length_seq. Qed.

Lemma row_pixels_lookup k w s i x : (x < w)%nat -> row_pixels k w s i !! x = Some (rgba k s (i + x * k)).
Proof. intros Hx. unfold row_pixels. rewrite list_lookup_fmap, lookup_seq_lt by done. done. Qed.

(** No alpha at all: every one is zero. *)
Lemma lor_alphas px a : fold_left Z.lor (map alpha_of px) a = 0 <-> a = 0 /\ Forall (fun q => alpha_of q = 0) px.
Proof.
  revert a. induction px as [|q px IH]; intros a; cbn [map fold_left].
  - split; [by intros ->|by intros [-> _]].
  - rewrite IH, Z.lor_eq_0_iff, Forall_cons. tauto.
Qed.

(** ** Files *)

(** [d] is a DIB of [w] by [h] pixels of [8 * k] bits, without compression;
    from the top when [down]. *)
Definition stride (k w : nat) : nat := (w * k + Z.to_nat (Z.land (- (Z.of_nat w * Z.of_nat k)) 3))%nat.

Definition is_dib (d : bytes) (w h k : nat) (down : bool) : Prop :=
  get32 d 0 = Some 40 /\ get32 d 4 = Some (Z.of_nat w) /\ get32 d 8 = Some (if down then 2 ^ 32 - Z.of_nat h else Z.of_nat h)
  /\ get16 d 12 = Some 1 /\ get16 d 14 = Some (8 * Z.of_nat k) /\ get32 d 16 = Some 0
  /\ (k = 3%nat \/ k = 4%nat) /\ length d = (40 + h * stride k w)%nat.

(** No pixel of 32 bits uses its fourth byte. *)
Definition blank (d : bytes) (w h : nat) : bool :=
  forallb (fun y => forallb (fun x => beq (nth (40 + y * stride 4 w + x * 4 + 3) d x00) x00) (seq 0 w)) (seq 0 h).

(** The pixel in column [x] of row [y] from the top: red, green, blue, alpha. *)
Definition shown_pixel (d : bytes) (w h k : nat) (down : bool) (x y : nat) : byte * byte * byte * byte :=
  let i := (40 + (if down then y else h - 1 - y) * stride k w + x * k)%nat in
  (nth (i + 2) d x00, nth (i + 1) d x00, nth i d x00,
   if (k =? 4)%nat && negb (blank d w h) then nth (i + 3) d x00 else xff).

Lemma stride_pad k w : (k = 3 \/ k = 4)%nat -> Z.of_nat w <= 2 ^ 24 ->
  stride k w = (w * k + Z.to_nat (Z.land (- (if (8 * Z.of_nat k =? 24)%Z then 3 * Z.of_nat w else if (8 * Z.of_nat k =? 16)%Z then 2 * Z.of_nat w else 0)) 3))%nat.
Proof.
  intros [->| ->] Hw; unfold stride.
  - change (8 * Z.of_nat 3 =? 24) with true. cbv iota. by rewrite (Z.mul_comm (Z.of_nat w)).
  - change (8 * Z.of_nat 4 =? 24) with false. change (8 * Z.of_nat 4 =? 16) with false. cbv iota.
    change 3 with (Z.ones 2). rewrite !Z.land_ones by lia. change (2 ^ 2) with 4. dlia.
Qed.

(** The header of the file that [clipboard_get_image] makes of a DIB. *)
Lemma bmp_header_read d w h k down total : is_dib d w h k down -> Z.of_nat w <= 2 ^ 24 -> 1 <= Z.of_nat h <= 2 ^ 24 ->
  exists masks, bmp_parse_header (file_header total 54 ++ d)
    = Some (Z.of_nat w, if down then 2 ^ 32 - Z.of_nat h else Z.of_nat h, masks, drop 40 d)
    /\ b_bpp masks = 8 * Z.of_nat k /\ b_offset masks = 54 /\ b_hsz masks = 40 /\ extra_read masks = 14
    /\ ((k = 3%nat /\ b_ma masks = 0 /\ b_all_a masks = 255)
        \/ (k = 4%nat /\ b_mb masks = 0xff /\ b_mg masks = 0xff00 /\ b_mr masks = 0xff0000 /\ b_ma masks = 0xff000000 /\ b_all_a masks = 0)).
Proof.
  intros (F0 & F4 & F8 & F12 & F14 & F16 & Hk & Hl) Hw Hh. unfold bmp_parse_header, file_header. rewrite <- !app_assoc.
  change (get8 (str "BM" ++ ?x)) with (66, "M"%byte :: x). cbv iota. change (get8 ("M"%byte :: ?x)) with (77, x). cbv iota.
  change (negb ((66 =? 66) && (77 =? 77))) with false. cbv iota. rewrite discard32_drop.
  change (drop (4 * 2) (le32 total ++ zeros 4 ++ ?x)) with x.
  rewrite (get32le_get (le32 54 ++ d) 54) by (by apply get32_le32). change (drop 4 (le32 54 ++ d)) with d. cbv iota.
  rewrite (get32le_get d 40 F0). cbv iota. change (i32 54 <? 0) with false. cbv iota. rewrite bool_decide_true by (unfold bmp_sizes; set_solver). cbn [negb].
  change (40 =? 12) with false. cbv iota.
  assert (Hat : forall i j n, get32 d i = Some n -> j = (i + 4)%nat -> get32le (drop i d) = (n, drop j d)).
  { intros i j n Hi ->. rewrite (get32le_get _ n); [by rewrite drop_drop|]. by rewrite get32_drop, Nat.add_0_r. }
  assert (Hat16 : forall i j n, get16 d i = Some n -> j = (i + 2)%nat -> get16le (drop i d) = (n, drop j d)).
  { intros i j n Hi ->. rewrite (get16le_get _ n); [by rewrite drop_drop|]. by rewrite get16_drop, Nat.add_0_r. }
  rewrite (Hat 4%nat 8%nat _ F4 eq_refl). cbv iota. rewrite (Hat 8%nat 12%nat _ F8 eq_refl). cbv iota. rewrite (Hat16 12%nat 14%nat _ F12 eq_refl). cbv iota. change (negb (1 =? 1)) with false. cbv iota.
  rewrite (Hat16 14%nat 16%nat _ F14 eq_refl). cbv iota. rewrite (Hat 16%nat 20%nat _ F16 eq_refl). cbv iota zeta. change (i32 0) with 0. cbn [Nat.add].
  change ((0 =? 1) || (0 =? 2)) with false. change (4 <=? 0) with false. change ((0 =? 3) && _ && _) with false. cbv iota.
  rewrite discard32_drop, drop_drop. cbn [Nat.mul Nat.add]. unfold bmp_masks. cbn [b_hsz b_bpp]. change ((40 =? 40) || (40 =? 56)) with true. change (40 =? 56) with false. cbv iota.
  destruct Hk as [->| ->].
  - change (8 * Z.of_nat 3) with 24. cbn [Z.eqb Pos.eqb orb mbind option_bind]. eexists. split; [done|]. cbn. split_and!; [done..|]. by left.
  - change (8 * Z.of_nat 4) with 32. cbn [Z.eqb Pos.eqb orb mbind option_bind]. eexists. split; [done|]. split_and!; [done..|]. by right.
Qed.

Lemma skip_0 s : skip 0 s = s.
Proof. by rewrite skip_drop by (unfold INT_MAX; lia). Qed.

(** The rows in the order of the file, each a list of pixels. *)
Definition file_rows (d : bytes) (w h k : nat) : list (list (list Z)) :=
  map (fun j => row_pixels k w d (40 + j * stride k w)) (seq 0 h).

Lemma bmp_direct_dib d w h k masks : (k = 3 \/ k = 4)%nat -> Z.of_nat w <= 2 ^ 24 ->
  b_bpp masks = 8 * Z.of_nat k -> b_offset masks = 54 -> b_hsz masks = 40 -> extra_read masks = 14 ->
  (k = 4%nat -> b_mb masks = 0xff /\ b_mg masks = 0xff00 /\ b_mr masks = 0xff0000 /\ b_ma masks = 0xff000000) ->
  bmp_direct masks (Z.of_nat w) (Z.of_nat h) 4 (drop 40 d)
  = ZOk (map (@concat Z) (file_rows d w h k), fold_left Z.lor (map alpha_of (concat (file_rows d w h k))) (b_all_a masks)).
Proof.
  intros Hk Hw Hbpp Hoff Hhsz Hex Hm. unfold bmp_direct. rewrite Hoff, Hhsz, Hex. change (54 - 14 - 40) with 0. rewrite skip_0, Hbpp. cbv zeta.
  set (easy := if 8 * Z.of_nat k =? 24 then 1 else _).
  assert (He : easy = (if (k =? 4)%nat then 2 else 1) /\ bytes_of easy = k).
  { unfold easy. destruct Hk as [->| ->]; [done|]. destruct (Hm eq_refl) as (-> & -> & -> & ->). done. }
  destruct He as [He Hb]. assert (Hne : easy =? 0 = false) by (rewrite He; by destruct (k =? 4)%nat). rewrite Hne. cbn [andb negb]. rewrite !Nat2Z.id.
  rewrite bmp_rows_read; [|change 3 with (Z.ones 2); rewrite Z.land_ones by lia; change (2 ^ 2) with 4; change (Z.ones 2) with 3; dlia].
  cbn [mbind zres_bind]. rewrite Hb, <- (stride_pad k w Hk Hw). unfold file_rows. do 2 f_equal.
  - f_equal. apply map_ext. intros j. apply row_pixels_drop.
  - f_equal. f_equal. f_equal. apply map_ext. intros j. apply row_pixels_drop.
Qed.

Lemma bmp_load_dib malloc_ok uninit d w h k down total : is_dib d w h k down ->
  1 <= Z.of_nat w <= 2 ^ 24 -> 1 <= Z.of_nat h <= 2 ^ 24 -> 4 * Z.of_nat w * Z.of_nat h <= INT_MAX -> malloc_ok (4 * Z.of_nat w * Z.of_nat h) = true ->
  let rows := file_rows d w h k in
  exists n a, (a = 0 <-> k = 4%nat /\ Forall (fun q => alpha_of q = 0) (concat rows))
    /\ let rows := if a =? 0 then map (map solid) rows else rows in
       bmp_load malloc_ok uninit 4 (file_header total 54 ++ d)
       = ZOk (Z.of_nat w, Z.of_nat h, n, concat (map (@concat Z) (if down then rows else reverse rows))).
Proof.
  intros Hd Hw Hh Hsize Hm rows. pose proof Hd as (_ & _ & _ & _ & _ & _ & Hk & Hl).
  destruct (bmp_header_read d w h k down total Hd) as (i & Hp & Hbpp & Hoff & Hhsz & Hex & Hmask); [lia..|].
  unfold bmp_load. rewrite Hp. cbv zeta.
  set (y := if down then 2 ^ 32 - Z.of_nat h else Z.of_nat h).
  assert (Hy : (0 <? i32 y) = negb down /\ Z.abs (i32 y) = Z.of_nat h).
  { unfold y. change (2 ^ 32) with 4294967296 in *. change (2 ^ 24) with 16777216 in *. destruct down.
    - assert (Hi : i32 (4294967296 - Z.of_nat h) = - Z.of_nat h) by (unfold i32; dlia). rewrite Hi. cbn [negb]. split; [apply Z.ltb_ge; lia|lia].
    - rewrite i32_id by (unfold INT_MIN, INT_MAX; lia). cbn [negb]. split; [apply Z.ltb_lt; lia|lia]. }
  destruct Hy as [-> ->]. rewrite (proj2 (Z.ltb_ge MAX_DIMENSIONS (Z.of_nat h))), (proj2 (Z.ltb_ge MAX_DIMENSIONS (Z.of_nat w))) by (unfold MAX_DIMENSIONS; lia). cbn [orb].
  rewrite Hhsz, Hbpp, Hoff, Hex. change (40 =? 12) with false. rewrite !(proj2 (Z.ltb_ge (8 * Z.of_nat k) 16)) by lia. cbv iota. change (0 =? 0) with true. cbn [andb].
  assert (Hread : Z.of_nat (length (file_header total 54 ++ d) - length (drop 40 d)) = 54).
  { rewrite length_app, length_drop. change (length (file_header total 54)) with 14%nat. lia. }
  rewrite Hread. change ((54 <=? 0) || (1024 <? 54)) with false. change ((54 <? 54) || (256 * 4 <? 54 - 54)) with false. cbv iota. change (54 - 54) with 0. rewrite skip_0.
  change (3 <=? 4) with true. cbv iota. rewrite mad3sizes_ok, Hm by lia. cbn [andb negb]. change (4 =? 0) with false. change (4 =? 4) with true. cbn [andb negb].
  rewrite bmp_direct_dib with (k := k); [|lia|lia|done..|by intros ->; destruct Hmask as [[? _]|(_ & ? & ? & ? & ? & _)]].
  fold rows. set (a := fold_left Z.lor _ _). cbn [mbind zres_bind].
  eexists _, a. split.
  - unfold a. rewrite lor_alphas. destruct Hmask as [(-> & _ & ->)|(-> & _ & _ & _ & _ & ->)]; [split; [by intros [? _]|by intros [? _]]|]. split; intros [_ ?]; by split.
  - assert (Hrows : (if a =? 0 then map (opaque (Z.to_nat (Z.of_nat w))) (map (@concat Z) rows) else map (@concat Z) rows)
      = map (@concat Z) (if a =? 0 then map (map solid) rows else rows)).
    { destruct (a =? 0); [|done]. rewrite !map_map. apply map_ext_Forall. unfold rows, file_rows. apply Forall_map, Forall_true. intros j. cbn.
      rewrite Nat2Z.id. rewrite <- (row_pixels_length k w d (40 + j * stride k w)) at 1. apply opaque_solid, row_pixels_quads. }
    rewrite Hrows. set (rows' := if a =? 0 then _ else _).
    assert (Hlen : length rows' = h) by (unfold rows'; destruct (a =? 0); rewrite ?length_map; unfold rows, file_rows; by rewrite length_map, length_seq).
    destruct down; cbn [negb]; [done|]. rewrite <- (length_map (@concat Z)) in Hlen. rewrite <- Hlen, flip_rows_all.
    by rewrite (eq_sym (fmap_reverse (@concat Z) rows') : reverse (map (@concat Z) rows') = map (@concat Z) (reverse rows')).
Qed.
