(* ===== verification/Images.v ===== *)
(** * An image from one clipboard to another

    The class [Stb], which the clipboard of [Dib] is proved against, is
    implemented by the model of stb: what [StbSafe] shows of its loader and
    the writer's bounds are the laws.  With them, [BmpTrip] and [PngTrip], a
    picture copied on one Windows device is followed to the clipboard of
    another. *)

From stdpp Require Import gmap.
From S2P Require Import Prelude CString JsonPrint RecvBuf Http Clip Deflate Inflate Huffman InflateSafe PngWrite PngRead BmpRead StbLoad PngSafe StbSafe PngTrip Dib BmpTrip.
Local Open Scope Z_scope.

(** ** stb, as the clients use it *)

Section Stb.
Context (malloc_ok : Z -> bool) (sizeof_jpeg : Z) (pal_uninit : Z -> Z) (load_other : format -> bytes -> Z -> zres (Z * Z * Z * bool * list Z)).

(** Enough for the symbols and the blocks of any stream in [d]. *)
Definition load_fuel (d : bytes) : nat := Z.to_nat (UINT_MAX + 8 * Z.of_nat (length d) + 1).

Definition as_converted (r : zres (Z * Z * Z * bytes)) : converted (Z * Z * bytes) :=
  match r with
  | ZOk (w, h, _, px) => Converted (w, h, px)
  | ZFail => Failed
  | ZOob | ZFuel => Outside
  end.

Definition stb_codec : Stb := {|
  stbi_load d := as_converted (stbi_load_from_memory malloc_ok sizeof_jpeg pal_uninit load_other (S (length d)) (load_fuel d) d 4);
  stb_write_png w h px := stbi_write_png_to_func malloc_ok (Z.to_nat w) (Z.to_nat h) 4 px (Z.to_nat w * 4) |}.

Lemma load_fuel_enough d : zlib_fuel d (load_fuel d).
Proof. unfold zlib_fuel, load_fuel. rewrite Z2Nat.id by (unfold UINT_MAX; lia). unfold UINT_MAX. lia. Qed.

Lemma chunk_length tag data : length tag = 4%nat -> length (chunk tag data) = (12 + length data)%nat.
Proof. intros Ht. unfold chunk. rewrite !length_app, !length_wp32, Ht. lia. Qed.

Lemma png_size px stride x y n png : stbi_write_png_to_mem malloc_ok px stride x y n = Some (Some png) -> Z.of_nat (length png) <= INT_MAX.
Proof.
  unfold stbi_write_png_to_mem. destruct (INT_MAX <? _); [done|]. destruct (negb _); [done|].
  destruct (mapM _ _) as [filt|]; [|done]. cbn [mbind option_bind]. destruct (stbi_zlib_compress _ _ _) as [[zlib|]|]; [|done..]. cbn [mbind option_bind].
  destruct (INT_MAX <? _) eqn:E; [done|]. boolify. destruct (negb _); [done|]. destruct (ctype !! n) as [ct|]; [|done]. cbn [mbind option_bind].
  rewrite !png_chunk_spec. cbn [mbind option_bind]. intros Hp.
  assert (Heq : forall p q : bytes, Some (Some p) = Some (Some q) -> p = q) by (intros p q; congruence). apply Heq in Hp. rewrite <- Hp, !length_app, !chunk_length by done.
  rewrite ?length_app, ?length_wp32. cbn [length map png_sig]. lia.
Qed.

Context (Hu : forall i, 0 <= pal_uninit i < 256) (Hptr : forall n, 2 ^ 63 <= n -> malloc_ok n = false).
(** The other decoders return what they announce of data that passes their test. *)
Context (Hother : forall f d, format_test malloc_ok sizeof_jpeg f d = true -> zsafe (fun r => let '(x, y, comp, wide, out) := r in loaded 4 x y comp out) (load_other f d 4)).

Lemma stb_codec_laws : @StbLaws stb_codec.
Proof.
  split.
  - intros d w h px. cbn [stbi_load stb_codec]. intros Hl.
    destruct (load_main_safe malloc_ok pal_uninit sizeof_jpeg load_other Hu Hptr (S (length d)) (load_fuel d) 4 d ltac:(lia) (load_fuel_enough d) ltac:(lia) (fun f => Hother f d)) as [H|[Hz _]].
    + apply postprocess_safe in H. destruct (stbi_load_from_memory _ _ _ _ _ _ _) as [[[[x y] comp] out]| | |]; try done. injection Hl as -> -> ->.
      cbn in H. destruct H as (Hx & Hy & Hlen & Hmax). unfold INT_MAX in *. change (2 ^ 24) with 16777216 in *. change (4 =? 0) with false in *. cbv iota in *. split_and!; lia.
    + unfold stbi_load_from_memory, load_and_postprocess_8bit in Hl. rewrite Hz in Hl. done.
  - intros w h px chunks. cbn [stb_write_png stb_codec]. unfold stbi_write_png_to_func.
    destruct (stbi_write_png_to_mem _ _ _ _ _ _) as [[png|]|] eqn:E; [|intros [= <-]; cbn; unfold INT_MAX; lia|done].
    intros [= <-]. apply png_size in E. cbn [concat]. rewrite app_nil_r. exact E.
Qed.
End Stb.

(** ** The picture on the way *)

Lemma dynbuf_one malloc_ok uninit (Hm : forall n, n <= UINT_MAX -> malloc_ok n = true) (Hun : forall n, length (uninit n) = n) png :
  (1 <= length png)%nat -> Z.of_nat (length png) <= INT_MAX ->
  exists b, dynbuf_writes malloc_ok uninit [png] (MkBlock [] 0) = Some b /\ used b = length png /\ take (used b) (contents b) = png.
Proof.
  intros H1 Hmax. cbn [dynbuf_writes]. unfold dynbuf_write. cbn [contents used length Nat.add]. rewrite (proj2 (Nat.ltb_lt 0 (length png))) by lia.
  change (0 =? 0)%nat with true. cbv iota.
  destruct (grow_spec (grow_fuel (Z.of_nat (length png))) 4096 (Z.of_nat (length png))) as (c & Hg & Hc1 & Hc2 & Hc3);
    [lia|apply grow_fuel_enough; lia|unfold grow_fuel; lia|]. rewrite Hg. cbn [mbind option_bind]. unfold INT_MAX in *.
  unfold realloc. rewrite Hm by (unfold UINT_MAX; lia). cbn [mbind option_bind length drop]. rewrite take_nil, drop_0. cbn [app].
  destruct (poke_spec (uninit (Z.to_nat c)) 0 png) as (b & -> & Hl & Ht); [rewrite Hun; lia|]. cbn [mbind option_bind].
  eexists. split; [done|]. cbn [used contents]. split; [done|]. cbn in Ht. by rewrite take_0 in Ht.
Qed.

Lemma bz_zero b : bz b = 0 <-> beq b x00 = true.
Proof. rewrite beq_true. split; [|by intros ->]. intros H. rewrite <- (zb_bz b), H. done. Qed.

(** The alpha of a file without alpha. *)
Lemma blank_rows d w h : Forall (fun q => alpha_of q = 0) (concat (file_rows d w h 4)) <-> blank d w h = true.
Proof.
  unfold blank. rewrite forallb_forall, Forall_concat. unfold file_rows. rewrite Forall_map, Forall_forall.
  apply forall_proper. intros y. rewrite list_elem_of_In. apply forall_proper. intros _.
  rewrite forallb_forall. unfold row_pixels. rewrite Forall_map, Forall_forall. apply forall_proper. intros x. rewrite list_elem_of_In. apply forall_proper. intros _.
  unfold rgba, alpha_of. cbn [nth]. apply bz_zero.
Qed.

(** Rows of [w] pixels of four samples. *)
Definition quads (w : nat) (rows : list (list (list Z))) : Prop := Forall (fun row => length row = w /\ Forall (fun q => length q = 4%nat) row) rows.

Lemma row_length w row : length row = w -> Forall (fun q : list Z => length q = 4%nat) row -> length (concat row) = (w * 4)%nat.
Proof. intros <- H. by apply length_concat_same. Qed.

Lemma quads_rows w rows : quads w rows -> Forall (fun r => length r = (w * 4)%nat) (map (@concat Z) rows).
Proof. intros H. apply Forall_map. eapply Forall_impl; [exact H|]. intros row [Hl Hq]. by apply row_length. Qed.

Lemma quads_file_rows d w h k : quads w (file_rows d w h k).
Proof. unfold quads, file_rows. apply Forall_map, Forall_true. intros j. split; [apply row_pixels_length|apply row_pixels_quads]. Qed.

Lemma quads_solid w rows : quads w rows -> quads w (map (map solid) rows).
Proof.
  intros H. apply Forall_map. eapply Forall_impl; [exact H|]. intros row [Hl Hq]. split; [by rewrite length_map|].
  apply Forall_map. eapply Forall_impl; [exact Hq|]. intros q Hq4. unfold solid. rewrite length_app, length_take, Hq4. done.
Qed.

Lemma image_pixel_rows w rows x y row r g b a : quads w rows -> rows !! y = Some row -> row !! x = Some [r; g; b; a] ->
  image_pixel w (map zb (concat (map (@concat Z) rows))) x y = Some (zb r, zb g, zb b, zb a).
Proof.
  intros Hq Hy Hx. destruct (Forall_lookup_1 _ _ _ _ Hq Hy) as [Hl H4]. pose proof (lookup_lt_Some _ _ _ Hx) as Hxw. rewrite Hl in Hxw.
  assert (Hat : forall c v, [r; g; b; a] !! c = Some v -> map zb (concat (map (@concat Z) rows)) !! ((y * w + x) * 4 + c)%nat = Some (zb v)).
  { intros c v Hc. pose proof (lookup_lt_Some _ _ _ Hc) as Hc4. cbn in Hc4. rewrite (list_lookup_fmap zb).
    replace ((y * w + x) * 4 + c)%nat with (y * (w * 4) + (x * 4 + c))%nat by lia.
    rewrite (lookup_concat (w * 4) _ y (x * 4 + c) (concat row) (quads_rows _ _ Hq)); [|by rewrite (list_lookup_fmap (@concat Z)), Hy|nia].
    by rewrite (lookup_concat 4 row x c _ H4 Hx Hc4), Hc. }
  unfold image_pixel. pose proof (Hat 0%nat r eq_refl) as H0. rewrite Nat.add_0_r in H0.
  by rewrite H0, (Hat 1%nat g), (Hat 2%nat b), (Hat 3%nat a).
Qed.

Section Device.
Context (malloc_ok : Z -> bool) (sizeof_jpeg : Z) (pal_uninit : Z -> Z) (load_other : format -> bytes -> Z -> zres (Z * Z * Z * bool * list Z)) (uninit : nat -> bytes).
Context (Hm : forall n, n <= UINT_MAX -> malloc_ok n = true) (Hun : forall n, length (uninit n) = n).

(** What the writer makes of RGBA pixels is a PNG to [clipboard_set_image] and to the loader. *)
Lemma png_on_the_way pixels w h : (1 <= w)%nat -> (1 <= h)%nat -> length pixels = (w * 4 * h)%nat ->
  Z.of_nat w <= 2 ^ 24 /\ Z.of_nat h <= 2 ^ 24 -> Z.of_nat w * Z.of_nat h <= 2 ^ 26 ->
  let stb := stb_codec malloc_ok sizeof_jpeg pal_uninit load_other in
  exists png, @stb_write_png stb (Z.of_nat w) (Z.of_nat h) pixels = Some [png] /\ @stbi_load stb png = Converted (Z.of_nat w, Z.of_nat h, pixels)
    /\ starts_with [x89; x50; x4e; x47] png = true /\ (4 < length png)%nat.
Proof.
  intros Hw Hh Hl Hdim Hmax stb. unfold stb. cbn [stb_write_png stbi_load stb_codec]. rewrite !Nat2Z.id.
  pose proof (png_read_back malloc_ok pal_uninit Hm pixels w h Hw Hh Hl Hdim Hmax (w * 4)) as Hback.
  destruct (Hback 3%nat (S ((w * 4 + 1) * h)) (or_intror eq_refl) ltac:(lia) ltac:(lia)) as (png & rows & Hwr & _ & (body & Hshape) & _).
  assert (Hhead : exists t, png = png_sig ++ t) by (by eexists).
  exists png. unfold stbi_write_png_to_func. rewrite Hwr. split; [done|].
  assert (Hlen : (8 <= length png)%nat) by (destruct Hhead as [t ->]; rewrite length_app; cbn; lia).
  assert (Hfuel : ((w * 4 + 1) * h < load_fuel png)%nat).
  { apply Nat2Z.inj_lt. unfold load_fuel. rewrite Z2Nat.id by (unfold UINT_MAX; lia). change (2 ^ 24) with 16777216 in *. change (2 ^ 26) with 67108864 in *. unfold UINT_MAX. nia. }
  destruct (Hback (S (length png)) (load_fuel png) (or_intror eq_refl) ltac:(lia) Hfuel) as (png' & _ & Hwr' & _ & _ & Hr & Hc).
  rewrite Hwr in Hwr'. injection Hwr' as <-. rewrite (png_loaded _ _ _ _ _ _ _ _ _ _ _ Hc Hr).
  split; [done|]. destruct Hhead as [t ->]. split; [done|lia].
Qed.

(** What the loader makes of the file of a DIB. *)
Lemma dib_loaded d w h k down total : is_dib d w h k down -> (1 <= w)%nat -> (1 <= h)%nat ->
  Z.of_nat w <= 2 ^ 24 /\ Z.of_nat h <= 2 ^ 24 -> Z.of_nat w * Z.of_nat h <= 2 ^ 26 ->
  exists px, @stbi_load (stb_codec malloc_ok sizeof_jpeg pal_uninit load_other) (file_header total 54 ++ d) = Converted (Z.of_nat w, Z.of_nat h, px)
    /\ length px = (w * 4 * h)%nat
    /\ forall x y, (x < w)%nat -> (y < h)%nat -> image_pixel w px x y = Some (shown_pixel d w h k down x y).
Proof.
  intros Hd Hw Hh [Hw24 Hh24] Hmax. change (2 ^ 26) with 67108864 in Hmax.
  destruct (bmp_load_dib malloc_ok pal_uninit d w h k down total Hd) as (n & a & Ha & Hload); [lia|lia|unfold INT_MAX; lia|apply Hm; unfold UINT_MAX; lia|]. cbv zeta in Ha, Hload.
  set (rows := if a =? 0 then map (map solid) (file_rows d w h k) else file_rows d w h k) in *.
  assert (Hq : quads w rows) by (unfold rows; destruct (a =? 0); [apply quads_solid|]; apply quads_file_rows).
  assert (Hlen : length rows = h) by (unfold rows, file_rows; destruct (a =? 0); by rewrite ?length_map, length_seq).
  set (ordered := if down then rows else reverse rows) in *.
  assert (Hoq : quads w ordered) by (unfold ordered; destruct down; [done|by apply Forall_reverse]).
  exists (map zb (concat (map (@concat Z) ordered))). split; [|split].
  - cbn [stbi_load stb_codec]. unfold stbi_load_from_memory, load_and_postprocess_8bit, load_main.
    change (check_png_header (file_header total 54 ++ d)) with false. cbv iota.
    assert (Ht : bmp_test (file_header total 54 ++ d) = true).
    { unfold bmp_test, file_header. rewrite <- !app_assoc. change (get8 (str "BM" ++ ?x)) with (66, "M"%byte :: x). cbv iota. change (get8 ("M"%byte :: ?x)) with (77, x). cbv iota.
      rewrite discard32_drop. change (drop (4 * 3) (le32 total ++ zeros 4 ++ le32 54 ++ d)) with d. destruct Hd as (F0 & _). by rewrite (get32le_get d 40 F0). }
    rewrite Ht, Hload. done.
  - rewrite length_map, (length_concat_same (w * 4)) by by apply quads_rows. rewrite length_map. unfold ordered. destruct down; rewrite ?length_reverse; nia.
  - intros x y Hx Hy.
    assert (Hrow : ordered !! y = rows !! (if down then y else h - 1 - y)%nat).
    { unfold ordered. destruct down; [done|]. rewrite reverse_lookup by lia. f_equal. lia. }
    set (j := if down then y else (h - 1 - y)%nat) in *. assert (Hj : (j < h)%nat) by (unfold j; destruct down; lia).
    assert (Hfile : file_rows d w h k !! j = Some (row_pixels k w d (40 + j * stride k w))).
    { unfold file_rows. rewrite list_lookup_fmap, lookup_seq_lt by done. done. }
    assert (Hpix := row_pixels_lookup k w d (40 + j * stride k w) x Hx). unfold shown_pixel. fold j. set (i := (40 + j * stride k w + x * k)%nat) in *.
    assert (Hb : a =? 0 = (k =? 4)%nat && blank d w h).
    { apply eq_true_iff_eq. rewrite Z.eqb_eq, andb_true_iff, Nat.eqb_eq, Ha. split; intros [-> H]; (split; [done|]); by apply blank_rows. }
    unfold rows in Hrow. rewrite Hb in Hrow. destruct (k =? 4)%nat eqn:Ek; cbn [andb negb] in *; [destruct (blank d w h); cbn [negb]|].
    + erewrite image_pixel_rows; [|exact Hoq|rewrite Hrow, list_lookup_fmap, Hfile; reflexivity|rewrite list_lookup_fmap, Hpix; reflexivity]. by rewrite !zb_bz.
    + erewrite image_pixel_rows; [|exact Hoq|rewrite Hrow, Hfile; reflexivity|rewrite Hpix; reflexivity]. rewrite Ek. by rewrite !zb_bz.
    + erewrite image_pixel_rows; [|exact Hoq|rewrite Hrow, Hfile; reflexivity|rewrite Hpix; reflexivity]. rewrite Ek. by rewrite !zb_bz.
Qed.

Lemma dib_file_size d w h k down : is_dib d w h k down -> Z.of_nat w <= 2 ^ 24 /\ Z.of_nat h <= 2 ^ 24 -> Z.of_nat w * Z.of_nat h <= 2 ^ 26 ->
  (40 <= length d)%nat /\ 14 + Z.of_nat (length d) < 2 ^ 32.
Proof.
  intros (_ & _ & _ & _ & _ & _ & Hk & Hl) [Hw Hh] Hmax. split; [lia|]. unfold stride in Hl.
  assert (Hp : 0 <= Z.land (- (Z.of_nat w * Z.of_nat k)) 3 <= 3) by (change 3 with (Z.ones 2); rewrite Z.land_ones by lia; change (2 ^ 2) with 4; change (Z.ones 2) with 3; dlia).
  set (pad := Z.land _ _) in *. change (2 ^ 24) with 16777216 in *. change (2 ^ 26) with 67108864 in *. change (2 ^ 32) with 4294967296.
  assert (Hs : (h * (w * k + Z.to_nat pad) <= 4 * (h * w) + 3 * h)%nat) by (destruct Hk as [->| ->]; nia). nia.
Qed.

Context (Hu : forall i, 0 <= pal_uninit i < 256) (Hptr : forall n, 2 ^ 63 <= n -> malloc_ok n = false).
Context (Hother : forall f d, format_test malloc_ok sizeof_jpeg f d = true -> zsafe (fun r => let '(x, y, comp, wide, out) := r in loaded 4 x y comp out) (load_other f d 4)).

(** C18: A picture copied on one Windows device appears on another as it was.
    From a DIB of 24 or 32 bits a pixel, from the bottom or from the top,
    [clipboard_get_image] makes a BMP file, [bmp_to_png] a PNG of it, which is
    what the other device receives; [clipboard_set_image] puts a DIB of the
    same size on its clipboard, every pixel of which has the colour of the
    original and its alpha - opaque where there was none, or only zeros. *)
Theorem picture_crosses_devices d w h k down : is_dib d w h k down -> (1 <= w)%nat -> (1 <= h)%nat ->
  Z.of_nat w <= 2 ^ 24 /\ Z.of_nat h <= 2 ^ 24 -> Z.of_nat w * Z.of_nat h <= 2 ^ 26 ->
  let stb := stb_codec malloc_ok sizeof_jpeg pal_uninit load_other in
  exists bmp png dib,
    clipboard_get_image malloc_ok (Some d) = Converted bmp
    /\ @bmp_to_png stb malloc_ok uninit bmp = Converted png
    /\ @clipboard_set_image stb malloc_ok png = Converted dib
    /\ Z.of_nat (length dib) = 40 + Z.of_nat w * Z.of_nat h * 4 /\ get32 dib 4 = Some (Z.of_nat w) /\ get32 dib 8 = Some (Z.of_nat h)
    /\ forall x y, (x < w)%nat -> (y < h)%nat -> dib_pixel dib x y = Some (shown_pixel d w h k down x y).
Proof.
  intros Hd Hw Hh Hdim Hmax stb. destruct (dib_file_size d w h k down Hd Hdim Hmax) as [H40 H32]. pose proof Hd as (F0 & _ & _ & _ & F14 & F16 & Hk & _).
  set (total := u32 (14 + Z.of_nat (length d))).
  destruct (dib_loaded d w h k down total Hd Hw Hh Hdim Hmax) as (px & Hload & Hpx & Hpixels).
  destruct (png_on_the_way px w h Hw Hh Hpx Hdim Hmax) as (png & Hwrite & Hread & Hpng & Hlen).
  pose proof (@stb_png_size stb (stb_codec_laws malloc_ok sizeof_jpeg pal_uninit load_other Hu Hptr Hother) _ _ _ _ Hwrite) as Hsize. cbn [concat] in Hsize. rewrite app_nil_r in Hsize.
  destruct (dynbuf_one malloc_ok uninit Hm Hun png ltac:(lia) Hsize) as (b & Hb & Hused & Htake).
  destruct (@png_to_dib_spec stb (stb_codec_laws malloc_ok sizeof_jpeg pal_uninit load_other Hu Hptr Hother) malloc_ok png _ _ px ltac:(intros m Hm32; apply Hm; unfold UINT_MAX; change (2 ^ 32) with 4294967296 in Hm32; lia) Hread)
    as (dib & Hdib & Hdl & Hdw & Hdh & Hdp).
  exists (file_header total 54 ++ d), png, dib. split_and!; [..|done|done|done|].
  - unfold clipboard_get_image. rewrite (u32_small (Z.of_nat (length d))) by lia. fold total.
    rewrite Hm by (unfold total, u32, UINT_MAX; dlia). cbn [negb]. rewrite F0, F14, F16.
    unfold total at 1. rewrite u32_small, Z.ltb_irrefl by lia. rewrite Nat2Z.id, take_ge by lia.
    assert (Hoff : off_bits 40 (8 * Z.of_nat k) 0 = 54) by (destruct Hk as [->| ->]; done). by rewrite Hoff.
  - unfold stb, bmp_to_png. rewrite Hload, Hwrite. cbn [mbind option_bind]. rewrite Hb, Hused. rewrite (proj2 (Nat.eqb_neq _ _)) by lia. by rewrite <- Hused, Htake.
  - unfold clipboard_set_image. rewrite (proj2 (Nat.ltb_lt _ _) Hlen), Hpng. exact Hdib.
  - intros x y Hx Hy. rewrite Hdp, Nat2Z.id by lia. by apply Hpixels.
Qed.
End Device.

(** A bottom-up picture of 3 by 2 pixels, 24 bits each. *)
Definition toy_dib : bytes := info_header 3 2 0 ++ map (fun i => zb (Z.of_nat (i * 7))) (seq 0 24).
Definition toy_dib24 : bytes := <[14%nat := x18]> toy_dib.

Lemma picture_crosses_devices_witness :
  let malloc_ok n := n <=? UINT_MAX in
  let stb := stb_codec malloc_ok 18528 (fun _ => 0) (fun _ _ _ => ZFail) in
  exists bmp png dib,
    clipboard_get_image malloc_ok (Some toy_dib24) = Converted bmp
    /\ @bmp_to_png stb malloc_ok zeros bmp = Converted png
    /\ @clipboard_set_image stb malloc_ok png = Converted dib
    /\ dib_pixel dib 2 0 = Some (zb 140, zb 133, zb 126, xff).
Proof.
  cbv zeta.
  destruct (picture_crosses_devices (fun n => n <=? UINT_MAX) 18528 (fun _ => 0) (fun _ _ _ => ZFail) zeros) with (d := toy_dib24) (w := 3%nat) (h := 2%nat) (k := 3%nat) (down := false)
    as (bmp & png & dib & H1 & H2 & H3 & _ & _ & _ & H4).
  - intros n Hn. by apply Z.leb_le.
  - intros n. apply length_replicate.
  - intros i. lia.
  - intros n Hn. apply Z.leb_gt. change (2 ^ 63) with 9223372036854775808 in Hn. unfold UINT_MAX. lia.
  - done.
  - unfold is_dib. split_and!; try (vm_compute; reflexivity). by left.
  - lia.
  - lia.
  - split; vm_compute; discriminate.
  - vm_compute. discriminate.
  - exists bmp, png, dib. split; [exact H1|]. split; [exact H2|]. split; [exact H3|]. rewrite H4 by lia. vm_compute. reflexivity.
Defined.
