(* ===== verification/Client.v ===== *)
(** * The Linux client: WebSocket handler and clipboard monitor (linux/main.c)

    The globals of main.c are the record [Client]; each case of [ws_callback]
    and each part of [process_clipboard_change] is a function on it that may
    make system calls ([st W]). [g_xfer.data] is a pointer: a location of
    [g_heap], the live blocks. A null or dangling pointer that is used or
    freed sets [g_crashed]. The outgoing queue is the list of its messages
    ([SendQueue] relates it to the linked list). *)

From S2P Require Import Prelude CString Double Codec Rfc4648 Crypto Config FtSocket FtProto FtOs FtAddr.
From S2P Require Import RecvBuf Json JsonParse JsonPrint Msg Auth Clip FileUri.
From stdpp Require Import gmap.
Local Open Scope Z_scope.

(** ** State *)

(** [TransferState]; arrays exactly as long as declared. *)
Record TransferState := MkXfer {
  xf_file_id : bytes; xf_file_name : bytes; xf_mime_type : bytes; xf_file_size : Z; xf_checksum : bytes;
  xf_data : option nat; xf_data_len : Z; xf_source_path : bytes; xf_is_sender : bool;
  xf_listen_fd : Z; xf_listen_port : Z; xf_peer_addrs : list bytes; xf_peer_addr_count : nat;
  xf_peer_public_addr : bytes; xf_from_device : bytes; xf_max_relay_size : Z; xf_udp_port : Z;
  xf_phase : Z; xf_success : bool; xf_eff_file_level : Z; xf_same_lan : bool }.

(** [{0}] *)
Definition xfer_zero : TransferState :=
  MkXfer (zeros 64) (zeros 256) (zeros 64) 0 (zeros 65) None 0 (zeros 512) false 0 0
    (replicate FT_MAX_ADDRS (zeros 64)) 0 (zeros 64) (zeros 128) 0 0 0 false 0 false.

Definition set_listen_fd fd '(MkXfer a b c d e f g h i _ k l m n o p q r s t u) :=
  MkXfer a b c d e f g h i fd k l m n o p q r s t u.

(** A transfer thread: created, then running. *)
Record Thread := MkThread { th_state : TransferState; th_running : bool }.

(** A change [process_clipboard_change] has found and not offered yet: what it
    is, and whether the wait for other transfers is over. *)
Inductive change := CImage (data mime : bytes) | CFile (path : bytes) (size : Z).
Record Pending := MkPending { pd_change : change; pd_checked : bool }.

Record Client := MkClient {
  g_authenticated : bool; g_logged_in : bool; g_connected : bool; g_wsi : bool;
  g_server_file_level : Z; g_reconnect_delay : Z;
  g_send : list bytes; g_written : list bytes; g_recv : RecvBuf;
  g_last_clip_hash : bytes; g_last_img_hash : bytes; g_suppress_until_ms : Z;
  g_xfer : TransferState; g_xfer_active_count : Z; g_threads : list Thread; g_pending : option Pending;
  g_heap : gmap nat bytes; g_disk : Disk; g_piped : list Piped; g_crashed : bool }.

Definition client_zero (d : Disk) : Client :=
  MkClient false false false false 3 1 [] [] empty_recv [] [] 0 xfer_zero 0 [] None ∅ d [] false.

Definition set_session au lo co ws '(MkClient _ _ _ _ e f g h i j k l m n o p q r s t) :=
  MkClient au lo co ws e f g h i j k l m n o p q r s t.
Definition set_level v '(MkClient a b c d _ f g h i j k l m n o p q r s t) :=
  MkClient a b c d v f g h i j k l m n o p q r s t.
Definition set_delay v '(MkClient a b c d e _ g h i j k l m n o p q r s t) :=
  MkClient a b c d e v g h i j k l m n o p q r s t.
Definition set_send v '(MkClient a b c d e f _ h i j k l m n o p q r s t) :=
  MkClient a b c d e f v h i j k l m n o p q r s t.
Definition set_written v '(MkClient a b c d e f g _ i j k l m n o p q r s t) :=
  MkClient a b c d e f g v i j k l m n o p q r s t.
Definition set_recv v '(MkClient a b c d e f g h _ j k l m n o p q r s t) :=
  MkClient a b c d e f g h v j k l m n o p q r s t.
Definition set_clip_hash v '(MkClient a b c d e f g h i _ k l m n o p q r s t) :=
  MkClient a b c d e f g h i v k l m n o p q r s t.
Definition set_img_hash v '(MkClient a b c d e f g h i j _ l m n o p q r s t) :=
  MkClient a b c d e f g h i j v l m n o p q r s t.
Definition set_suppress v '(MkClient a b c d e f g h i j k _ m n o p q r s t) :=
  MkClient a b c d e f g h i j k v m n o p q r s t.
Definition set_xfer v '(MkClient a b c d e f g h i j k l _ n o p q r s t) :=
  MkClient a b c d e f g h i j k l v n o p q r s t.
Definition set_active v '(MkClient a b c d e f g h i j k l m _ o p q r s t) :=
  MkClient a b c d e f g h i j k l m v o p q r s t.
Definition set_threads v '(MkClient a b c d e f g h i j k l m n _ p q r s t) :=
  MkClient a b c d e f g h i j k l m n v p q r s t.
Definition set_pending v '(MkClient a b c d e f g h i j k l m n o _ q r s t) :=
  MkClient a b c d e f g h i j k l m n o v q r s t.
Definition set_heap v '(MkClient a b c d e f g h i j k l m n o p _ r s t) :=
  MkClient a b c d e f g h i j k l m n o p v r s t.
Definition set_disk v '(MkClient a b c d e f g h i j k l m n o p q _ s t) :=
  MkClient a b c d e f g h i j k l m n o p q v s t.
Definition set_piped v '(MkClient a b c d e f g h i j k l m n o p q r _ t) :=
  MkClient a b c d e f g h i j k l m n o p q r v t.
Definition crash '(MkClient a b c d e f g h i j k l m n o p q r s _) :=
  MkClient a b c d e f g h i j k l m n o p q r s true.

Record ClipboardOps := MkOps {
  get_text : option bytes;
  set_text : bytes -> list Piped;
  refresh_types : nat -> bytes;
  read_type : bytes -> option Block;
  set_image : bytes -> bytes -> list Piped;
  set_file : bytes -> list Piped }.

(** The three backends [main] and [clipboard_monitor] choose from. *)
Section Backends.
Context `{Shell}.
Context (malloc_ok : Z -> bool) (uninit : nat -> bytes).

Definition xclip_ops : ClipboardOps :=
  MkOps (xclip_clipboard_get_text malloc_ok) xclip_clipboard_set_text xclip_clipboard_refresh_types
    (xclip_clipboard_read_type malloc_ok uninit) (xclip_clipboard_set_image malloc_ok uninit) xclip_clipboard_set_file.
Definition wl_ops : ClipboardOps :=
  MkOps (wl_clipboard_get_text malloc_ok) wl_clipboard_set_text wl_clipboard_refresh_types
    (wl_clipboard_read_type malloc_ok uninit) (wl_clipboard_set_image malloc_ok uninit) wl_clipboard_set_file.
(** X11 reads, xclip writes. *)
Definition x11_ops : ClipboardOps :=
  MkOps (x11_clipboard_get_text malloc_ok) xclip_clipboard_set_text x11_clipboard_refresh_types
    x11_clipboard_read_type (xclip_clipboard_set_image malloc_ok uninit) xclip_clipboard_set_file.

(** [wl] is the variable [WAYLAND_DISPLAY]. *)
Definition detect_display_server (wl : option bytes) : bool :=
  match wl with Some s => negb (beq (hd NUL s) NUL) | None => false end.

(** [wl_paste]: [which wl-paste] succeeds; [x11]: the monitor could open the
    display and found XFIXES there. *)
Definition choose_ops (wl : option bytes) (wl_paste x11 : bool) : ClipboardOps :=
  if detect_display_server wl && wl_paste then wl_ops else if x11 then x11_ops else xclip_ops.
End Backends.

(** ** Small parts *)

Definition effective_file_level (cfg : ClientConfig) (c : Client) : Z :=
  let s := g_server_file_level c in
  let l := file_transfer_level cfg in
  if s <? l then s else l.

Definition suppress_clipboard_ms (now ms : Z) (c : Client) : Client := set_suppress (now + ms) c.
Definition is_suppressed (now : Z) (c : Client) : bool := now <? g_suppress_until_ms c.

(** [queue_send(msg)]; [strdup] dereferences a null message, and leaves one
    for the WRITEABLE case to dereference when it fails. *)
Definition enqueue (malloc_ok : Z -> bool) (msg : option bytes) (c : Client) : Client :=
  if negb (malloc_ok 16) then c
  else match msg with
  | Some m => if malloc_ok (Z.of_nat (strlen m) + 1) then set_send (g_send c ++ [cstr m]) c else crash c
  | None => crash c
  end.

Definition pipe (l : list Piped) (c : Client) : Client := set_piped (g_piped c ++ l) c.

(** [free(g_xfer.data)]; freeing a block that is not live crashes. *)
Definition free_data (c : Client) : Client :=
  match xf_data (g_xfer c) with
  | None => c
  | Some l => match g_heap c !! l with
              | Some _ => set_heap (delete l (g_heap c)) c
              | None => crash c
              end
  end.

(** [(uint64_t) d]; the x86-64 result where C leaves it undefined. *)
Definition u64_of (d : double) : Z :=
  match d with
  | S754_nan | S754_infinity true => 2 ^ 63
  | S754_infinity false => 0
  | _ => let z := trunc d in
         if z <? - 2 ^ 63 then 2 ^ 63 else if z <? 2 ^ 63 then u64 z else if z <? 2 ^ 64 then z else 0
  end.

(** ** The cases of [ws_callback] *)

Section Handlers.
Context `{OS : Os W} `{Base64Engine, Evp, Sha256}.
Context (malloc_ok : Z -> bool) (uninit : nat -> bytes) (indet : nat -> Z).
Context (cfg : ClientConfig).

Local Abbreviation queue := (enqueue malloc_ok).

Definition str_field (j : cJSON) (key : string) : option bytes :=
  cJSON_GetStringValue (cJSON_GetObjectItem (Some j) (str key)).
Definition num_field (j : cJSON) (key : string) : double :=
  cJSON_GetNumberValue (cJSON_GetObjectItem (Some j) (str key)).

Definition on_established (c : Client) : Client :=
  let c := set_delay 1 (set_session true true true (g_wsi c) c) in
  queue (sc_msg_hello malloc_ok uninit (Some (str "linux")) (Some (cstr (device_id cfg))) (Some (str "2.0.0"))) c.

(** CONNECTION_ERROR and CLOSED. *)
Definition on_disconnected (c : Client) : Client :=
  set_recv (reset_recv (g_recv c)) (set_session false false false false c).

(** WRITEABLE, on the queue as a list. *)
Definition on_write (c : Client) : Client :=
  match g_send c with
  | [] => c
  | m :: ms =>
      let c := set_send ms c in
      if malloc_ok (Z.of_nat (length m)) then set_written (g_written c ++ [m]) c else c
  end.

Definition on_hello_ack (j : cJSON) (c : Client) : Client :=
  match cJSON_GetObjectItem (Some j) (str "serverFileLevel") with
  | Some ftl => set_level (int_of (cJSON_GetNumberValue (Some ftl))) c
  | None => set_level 3 c
  end.

Definition decrypt (content : bytes) : option bytes :=
  match aes_gcm_decrypt malloc_ok content (aes_key cfg) with
  | Some dec => Some dec
  | None => aes_decrypt malloc_ok indet content (aes_key cfg)
  end.

Definition on_clipboard (ops : ClipboardOps) (now : Z) (j : cJSON) (c : Client) : Client :=
  match str_field j "content" with
  | None => c
  | Some content =>
      match decrypt content with
      | Some dec =>
          let c := set_clip_hash (ft_sha256 (cstr dec)) c in
          let c := suppress_clipboard_ms now 2000 c in
          pipe (set_text ops (cstr dec)) c
      | None => c
      end
  end.

Definition opt_copy (src : option bytes) (n : nat) : bytes :=
  match src with Some s => strncpy (zeros n) s (n - 1) | None => zeros n end.

(** Lines common to the three places that reset [g_xfer]: the listener is
    closed ([ft_close] ignores [FT_INVALID_SOCK]) and the data freed. *)
Definition drop_xfer (c : Client) : st W Client :=
  _ ← ft_close (xf_listen_fd (g_xfer c));
  mret (free_data c).

Definition on_file_notify (ifs : option (list ifaddr)) (j : cJSON) (c : Client) : st W Client :=
  if effective_file_level cfg c <=? 0 then mret c
  else
    c ← drop_xfer c;
    let fid := str_field j "fileId" in
    '(fd, port) ← ft_start_server;
    let x := MkXfer (opt_copy fid 64) (opt_copy (str_field j "fileName") 256) (opt_copy (str_field j "mimeType") 64)
      (u64_of (num_field j "fileSize")) (opt_copy (str_field j "checksum") 65) None 0 (zeros 512) false
      fd port (replicate FT_MAX_ADDRS (zeros 64)) 0 (zeros 64) (opt_copy (str_field j "from") 128)
      (long_of (num_field j "maxRelaySize")) (int_of (num_field j "udpPort")) 1 false 0 false in
    let c := set_xfer x c in
    mret (queue (build_file_request malloc_ok uninit fid (ft_get_local_addresses ifs port)) c).

(** The loop over [peerLocalAddresses]: the addresses and their number. *)
Fixpoint peer_addrs (items : list cJSON) (idx : nat) (arr : list bytes) : list bytes * nat :=
  match items with
  | [] => (arr, idx)
  | item :: items =>
      if (FT_MAX_ADDRS <=? idx)%nat then (arr, idx)
      else
        let arr := match cJSON_GetStringValue (Some item) with
                   | Some a => alter (fun old => strncpy old a 63) idx arr
                   | None => arr
                   end in
        peer_addrs items (S idx) arr
  end.

Definition peer_addresses (j : cJSON) (arr : list bytes) : list bytes * nat :=
  let pa := cJSON_GetObjectItem (Some j) (str "peerLocalAddresses") in
  match pa with
  | Some p => if cJSON_IsArray pa then peer_addrs p.(child) 0 arr else (arr, 0%nat)
  | None => (arr, 0%nat)
  end.

Definition SIZEOF_XFER : Z := 1744.

(** The fields of [g_xfer] that a file_peer_info sets, [phase] included. *)
Definition with_peer (j : cJSON) (c : Client) : TransferState :=
  let '(MkXfer a b d e f g h i k l m pas pan pub q r s _ t _ _) := g_xfer c in
  let pub := match str_field j "peerPublicAddress" with Some p => strncpy pub p 63 | None => pub end in
  let '(pas, pan) := peer_addresses j pas in
  let srv_level := match cJSON_GetObjectItem (Some j) (str "fileTransferLevel") with
                   | Some ftl => int_of (cJSON_GetNumberValue (Some ftl))
                   | None => g_server_file_level c
                   end in
  let eff := if file_transfer_level cfg <? srv_level then file_transfer_level cfg else srv_level in
  MkXfer a b d e f g h i k l m pas pan pub q r s 2 t eff
    (cJSON_IsTrue (cJSON_GetObjectItem (Some j) (str "sameLan"))).

(** file_peer_info for another transfer, or for a receiver that is already
    running, is ignored. *)
Definition peer_info_ignored (j : cJSON) (c : Client) : bool :=
  let x := g_xfer c in
  match str_field j "fileId" with
  | Some fid => negb (streq fid (xf_file_id x))
  | None => false
  end
  || negb (xf_is_sender x) && ((0 <? g_xfer_active_count c) || (2 <=? xf_phase x)).

Definition on_file_peer_info (j : cJSON) (c : Client) : Client :=
  if peer_info_ignored j c then c
  else
    let x := with_peer j c in
    let c := set_xfer x c in
    if malloc_ok SIZEOF_XFER then
      let c := if xf_is_sender x then c else set_xfer (set_listen_fd FT_INVALID_SOCK x) c in
      set_threads (g_threads c ++ [MkThread x false]) c
    else c.

(** The data is read through the pointer. *)
Definition on_relay_request (j : cJSON) (c : Client) : Client :=
  let x := g_xfer c in
  match xf_data x, str_field j "requesterId" with
  | Some l, Some requester =>
      if 0 <? xf_data_len x then
        match g_heap c !! l with
        | Some data =>
            queue (build_file_relay_data malloc_ok uninit (Some (cstr (xf_file_id x))) data (xf_file_size x)
                     (Some requester)) c
        | None => crash c
        end
      else c
  | _, _ => c
  end.

(** [fopen(tmp, "wb")], [fwrite], [fclose]. *)
Definition write_file (path data : bytes) (d : Disk) : Disk :=
  match fopen_wb path d with Some d => (fwrite path data d).2 | None => d end.

Definition tmp_path (name : bytes) : bytes := (snprintf 512 (str "/tmp/syncclip_" ++ cstr name)).1.

Definition is_image (mime : bytes) : bool := bool_decide (strstr (cstr mime) (str "image/") = Some 0%nat).

Definition on_relay_data (ops : ClipboardOps) (now : Z) (j : cJSON) (c : Client) : Client :=
  match str_field j "data" with
  | None => c
  | Some b64 =>
      match ft_base64_decode malloc_ok b64 with
      | None => c
      | Some dec =>
          let c := set_img_hash (ft_sha256 dec) c in
          let c := suppress_clipboard_ms now 2000 c in
          let image := match str_field j "mimeType" with
                       | Some mt => if is_image mt then Some mt else None
                       | None => None
                       end in
          let c := match image with
                   | Some mt => pipe (set_image ops dec mt) c
                   | None =>
                       let tmp := tmp_path (default (str "file") (str_field j "fileName")) in
                       pipe (set_file ops tmp) (set_disk (write_file tmp dec (g_disk c)) c)
                   end in
          queue (build_transfer_result malloc_ok uninit (str_field j "fileId") (Some (str "relay")) true 0 0) c
      end
  end.

(** A parsed message. *)
Definition dispatch (ops : ClipboardOps) (now : Z) (ifs : option (list ifaddr)) (type : bytes) (j : cJSON)
    (c : Client) : st W Client :=
  if streq type (str "hello_ack") then mret (on_hello_ack j c)
  else if streq type (str "auth_result") || streq type (str "login_result") then mret c
  else if streq type (str "clipboard") then mret (on_clipboard ops now j c)
  else if streq type (str "file_notify") then on_file_notify ifs j c
  else if streq type (str "file_peer_info") then mret (on_file_peer_info j c)
  else if streq type (str "file_relay_request") then mret (on_relay_request j c)
  else if streq type (str "file_relay_data") then mret (on_relay_data ops now j c)
  else mret c.

Definition on_text (ops : ClipboardOps) (now : Z) (ifs : option (list ifaddr)) (data : bytes) (c : Client)
    : st W Client :=
  match cJSON_Parse malloc_ok (Some data) with
  | None => mret c
  | Some j =>
      match str_field j "type" with
      | None => mret c
      | Some type => dispatch ops now ifs type j c
      end
  end.

(** RECEIVE: a fragment. *)
Definition on_receive (ops : ClipboardOps) (now : Z) (ifs : option (list ifaddr)) (frag : bytes) (final : bool)
    (c : Client) : st W Client :=
  let '(r, b) := on_fragment malloc_ok frag final (g_recv c) in
  let c := set_recv b c in
  match r with
  | Message data => on_text ops now ifs data c
  | Overflow => mret (crash c)
  | Dropped | Partial => mret c
  end.

(** ** The clipboard monitor *)

(** A text read from the clipboard or the PRIMARY selection. *)
Definition offer_text (text : bytes) (c : Client) : Client :=
  let hash := ft_sha256 (cstr text) in
  if bool_decide (hash = g_last_clip_hash c) then c
  else
    let c := set_clip_hash hash c in
    match aes_gcm_encrypt malloc_ok (cstr text) (aes_key cfg) with
    | Some enc => queue (build_clipboard_msg malloc_ok uninit (Some enc)) c
    | None => c
    end.

Definition change_text (ops : ClipboardOps) (c : Client) : Client :=
  match get_text ops with None => c | Some clip => offer_text clip c end.

(** [data] is what [x11_read_selection_ex(XA_PRIMARY, ...)] gives. *)
Definition process_primary_change (data : option bytes) (c : Client) : Client :=
  match data with
  | None => c
  | Some d =>
      if (length d =? 0)%nat then c
      else if negb (malloc_ok (Z.of_nat (length d) + 1)) then c
      else if (strlen d =? 0)%nat then c
      else offer_text d c
  end.

Definition change_file (ops : ClipboardOps) (types : bytes) (c : Client) : Client :=
  if (0 <? effective_file_level cfg c) && clipboard_has_file types then
    match clipboard_get_file_uri malloc_ok (read_type ops) with
    | Invalid => crash c
    | NoFile => change_text ops c
    | Path fpath =>
        match files (g_disk c) !! fpath with
        | None => c
        | Some content =>
            let fsize := Z.of_nat (length content) in
            if (fsize <=? 0) || (1024 * 1024 * max_transfer_size cfg <=? fsize) then c
            else set_pending (Some (MkPending (CFile fpath fsize) false)) c
        end
    end
  else change_text ops c.

(** [process_clipboard_change] up to the wait for running transfers. *)
Definition process_clipboard_change (ops : ClipboardOps) (c : Client) : Client :=
  let types := refresh_types ops TYPES_LEN in
  if (0 <? effective_file_level cfg c) && clipboard_has_image types then
    match clipboard_get_image (read_type ops) with
    | Some (img, mime) =>
        if (0 <? length img)%nat then
          let hash := ft_sha256 img in
          if bool_decide (hash = g_last_img_hash c) then c
          else set_pending (Some (MkPending (CImage img mime) false)) (set_img_hash hash c)
        else change_file ops types c
    | None => change_file ops types c
    end
  else change_file ops types c.

(** The end of the wait: [g_xfer_active_count] is tested once more. *)
Definition check_transfers (c : Client) : Client :=
  match g_pending c with
  | Some (MkPending ch false) =>
      if 0 <? g_xfer_active_count c then set_pending None c
      else set_pending (Some (MkPending ch true)) c
  | _ => c
  end.

Definition send_offer (x : TransferState) (addrs : list bytes) (c : Client) : Client :=
  queue (build_file_offer malloc_ok uninit (Some (cstr (xf_file_id x))) (Some (cstr (xf_file_name x)))
    (Some (cstr (xf_mime_type x))) (xf_file_size x) (Some (cstr (xf_checksum x))) addrs) c.

(** [uuid] is what [ft_generate_uuid] writes. *)
Definition offer_image (ifs : option (list ifaddr)) (uuid img mime : bytes) (c : Client) : st W Client :=
  let ext := if bool_decide (strstr (cstr mime) (str "jpeg") <> None) then str "clipboard.jpg" else str "clipboard.png" in
  c ← drop_xfer c;
  '(fd, port) ← ft_start_server;
  let l := fresh (dom (g_heap c)) in
  let len := Z.of_nat (length img) in
  let x := MkXfer (strncpy (zeros 64) uuid 63) (strncpy (zeros 256) ext 255) (strncpy (zeros 64) mime 63) len
    (strncpy (zeros 65) (ft_sha256 img) 64) (Some l) len (zeros 512) true fd port (replicate FT_MAX_ADDRS (zeros 64)) 0
    (zeros 64) (zeros 128) 0 0 1 false 0 false in
  let c := set_xfer x (set_heap (<[l := img]> (g_heap c)) c) in
  mret (send_offer x (ft_get_local_addresses ifs port) c).

Definition offer_file (ifs : option (list ifaddr)) (uuid fpath : bytes) (fsize : Z) (c : Client) : st W Client :=
  match ft_sha256_file (files (g_disk c) !! fpath) with
  | None => mret (crash c)  (* [fhash] is used uninitialised *)
  | Some fhash =>
      let name := basename fpath in
      c ← drop_xfer c;
      '(fd, port) ← ft_start_server;
      let x := MkXfer (strncpy (zeros 64) uuid 63) (strncpy (zeros 256) name 255)
        (strncpy (zeros 64) (mime_from_extension name) 63) fsize (strncpy (zeros 65) fhash 64) None 0
        (strncpy (zeros 512) fpath 511) true fd port (replicate FT_MAX_ADDRS (zeros 64)) 0
        (zeros 64) (zeros 128) 0 0 1 false 0 false in
      let c := set_img_hash fhash (set_xfer x c) in
      mret (send_offer x (ft_get_local_addresses ifs port) c)
  end.

(** The rest of [process_clipboard_change]. *)
Definition offer_pending (ifs : option (list ifaddr)) (uuid : bytes) (c : Client) : st W Client :=
  match g_pending c with
  | Some (MkPending ch true) =>
      let c := set_pending None c in
      match ch with
      | CImage img mime => offer_image ifs uuid img mime c
      | CFile path size => offer_file ifs uuid path size c
      end
  | _ => mret c
  end.

(** A turn of the polling loop, or a CLIPBOARD event after its debounce. *)
Definition on_clipboard_event (ops : ClipboardOps) (now : Z) (c : Client) : Client :=
  if negb (g_logged_in c) then c
  else if is_suppressed now c then c
  else match g_pending c with
  | Some _ => c  (* the monitor thread is still in the previous call *)
  | None => process_clipboard_change ops c
  end.

(** The debounced PRIMARY event. *)
Definition on_primary_event (data : option bytes) (now : Z) (c : Client) : Client :=
  if g_logged_in c && negb (is_suppressed now c) then process_primary_change data c else c.
End Handlers.
