(* ===== verification/Threads.v ===== *)
(** * The transfer threads of the Linux client (linux/main.c)

    [receiver_thread] and [sender_thread] run on a copy of [g_xfer]; what they
    do to the globals is modelled as one step at their end (see [History]
    for the interleaving). *)

From S2P Require Import Prelude CString Double Codec Crypto Config FtSocket FtProto FtAuth FtOs FtAddr FtNat.
From S2P Require Import FtLan RecvBuf Json JsonParse JsonPrint Msg Clip FileUri Client.
From stdpp Require Import gmap.
Local Open Scope Z_scope.

Section Threads.
Context `{SockOps W, Os W} `{Base64Engine, Sha256, Hmac}.
Context (malloc_ok : Z -> bool) (uninit : nat -> bytes).
Context (cfg : ClientConfig).

(** [ft_set_max_file_size((uint64_t) max_transfer_size * 1024 * 1024)] *)
Definition ft_max_size : Z := u64 (max_transfer_size cfg * 1024 * 1024).

Definition XFER_TIMEOUT : Z := 5000.

Definition nat_candidate (x : TransferState) : st W Z :=
  if negb (xf_same_lan x) && negb (beq (hd NUL (xf_peer_public_addr x)) NUL) && (2 <=? xf_eff_file_level x)
  then ft_nat_punch_start (xf_peer_public_addr x)
  else mret FT_INVALID_SOCK.

(** [None] for the result when the race did not end within [fuel] rounds. *)
Definition connect_peer (fuel : nat) (x : TransferState) (is_sender : bool) : st W (option Z) :=
  nat_sock ← nat_candidate x;
  ft_lan_transfer_auth fuel (xf_listen_fd x) (take (xf_peer_addr_count x) (xf_peer_addrs x)) nat_sock
    XFER_TIMEOUT (Some (xf_file_id x)) (Some (aes_key cfg)) is_sender.

Definition file_zero : FtFileInfo := MkFile (zeros 64) (zeros 256) (zeros 64) 0 (zeros 65) None 0.

(** What is done with a file that has been received at [path]. *)
Definition deliver_file (ops : ClipboardOps) (now : Z) (x : TransferState) (path : bytes) (size : Z) (c : Client)
    : Client :=
  let file := files (g_disk c) !! path in
  let c := match ft_sha256_file file with Some h => set_img_hash h c | None => c end in
  let c := suppress_clipboard_ms now 2000 c in
  if is_image (xf_mime_type x) then
    let c := match file with
             | Some f =>
                 let img := take (Z.to_nat size) f in
                 if malloc_ok size && (Z.of_nat (length img) =? size)
                 then pipe (set_image ops img (xf_mime_type x)) c else c
             | None => c
             end in
    set_disk (FtProto.remove path (g_disk c)) c
  else pipe (set_file ops path) c.

(** The connected part of [receiver_thread]: whether it succeeded. *)
Definition receive_file (ops : ClipboardOps) (x : TransferState) (conn_ms t_conn sock : Z) (c : Client)
    : W -> (bool * Client) * W := fun w =>
  let path := tmp_path (xf_file_name x) in
  let '(rc, info, w, d) := ft_recv_file_to_path malloc_ok ft_max_size sock file_zero path w (g_disk c) in
  let c := set_disk d c in
  match rc with
  | None => ((false, c), w)
  | Some _ =>
      let '(t_end, w) := ft_now_ms w in
      let '(now, w) := ft_now_ms w in
      let c := deliver_file ops now x path (file_size info) c in
      let c := enqueue malloc_ok (build_transfer_result malloc_ok uninit (Some (cstr (xf_file_id x)))
                 (Some (str "p2p")) true conn_ms (t_end - t_conn)) c in
      ((true, c), w)
  end.

(** What is reported when nothing was received. *)
Definition report_failure (now t0 : Z) (x : TransferState) (c : Client) : Client :=
  if (3 <=? xf_eff_file_level x) && (i64 (xf_file_size x) <=? xf_max_relay_size x)
  then enqueue malloc_ok (build_file_relay_request malloc_ok uninit (Some (cstr (xf_file_id x)))) c
  else enqueue malloc_ok (build_transfer_result malloc_ok uninit (Some (cstr (xf_file_id x)))
         (Some (str "failed")) false (now - t0) 0) c.

Definition receiver_thread (fuel : nat) (ops : ClipboardOps) (x : TransferState) (c : Client)
    : st W (option Client) :=
  t0 ← ft_now_ms;
  r ← connect_peer fuel x false;
  match r with
  | None => mret None
  | Some sock =>
      t_conn ← ft_now_ms;
      '(success, c) ← (if sock =? FT_INVALID_SOCK then mret (false, c)
                       else '(ok, c) ← receive_file ops x (t_conn - t0) t_conn sock c;
                            _ ← ft_close sock; mret (ok, c));
      c ← (if success : bool then mret c
           else now ← ft_now_ms; mret (report_failure now t0 x c));
      _ ← ft_close (xf_listen_fd x);
      mret (Some c)
  end.

(** One transfer of [sender_thread]: [None] when the data is not live. *)
Definition send_to_peer (x : TransferState) (sock : Z) (c : Client) : W -> option (option unit * W) := fun w =>
  if negb (beq (hd NUL (xf_source_path x)) NUL) then
    Some (ft_send_file_from_path malloc_ok sock (xf_file_id x) (xf_file_size x)
            (files (g_disk c) !! cstr (xf_source_path x)) w)
  else
    let send data :=
      ft_send_file sock (MkFile (strncpy (zeros 64) (xf_file_id x) 63) (zeros 256) (zeros 64) (xf_file_size x)
        (zeros 65) data (xf_data_len x)) w in
    match xf_data x with
    | None => Some (send None)
    | Some l => data ← g_heap c !! l; Some (send (Some data))
    end.

(** The loop of [sender_thread], a peer after the other: how many were served,
    and the client, which may have crashed. *)
Fixpoint serve (race_fuel fuel : nat) (x : TransferState) (t0 sock : Z) (sent_count : nat) (c : Client)
    : st W (option (nat * Client)) :=
  match fuel with
  | O => mret None
  | S fuel =>
      if sock =? FT_INVALID_SOCK then mret (Some (sent_count, c))
      else
        _ ← ft_now_ms;
        _ ← ft_now_ms;
        rc ← (fun w => match send_to_peer x sock c w with
                       | Some (rc, w) => (Some rc, w)
                       | None => (None, w)
                       end);
        match rc with
        | None => mret (Some (sent_count, crash c))
        | Some rc =>
            sent_count ← match rc with
                         | Some _ => _ ← ft_now_ms; mret (S sent_count)
                         | None => mret sent_count
                         end;
            _ ← ft_close sock;
            if xf_listen_fd x =? FT_INVALID_SOCK then mret (Some (sent_count, c))
            else
              now ← ft_now_ms;
              let remaining := XFER_TIMEOUT - i32 (now - t0) in
              if remaining <=? 0 then mret (Some (sent_count, c))
              else
                r ← ft_lan_transfer_auth race_fuel (xf_listen_fd x) [] FT_INVALID_SOCK remaining
                      (Some (xf_file_id x)) (Some (aes_key cfg)) true;
                match r with
                | None => mret None
                | Some sock => serve race_fuel fuel x t0 sock sent_count c
                end
        end
  end.

Definition sender_thread (race_fuel fuel : nat) (x : TransferState) (c : Client) : st W (option Client) :=
  t0 ← ft_now_ms;
  r ← connect_peer race_fuel x true;
  match r with
  | None => mret None
  | Some sock =>
      out ← serve race_fuel fuel x t0 sock 0 c;
      match out with
      | None => mret None
      | Some (_, c) => mret (Some c)
      end
  end.
End Threads.

(** ** Transfers keep the descriptors *)

Section Keeps.
Context `{OsLaws W}.
Context (malloc_ok : Z -> bool) (max : Z).

Lemma send_all_open sock b (w : W) r w' : ft_send_all sock b w = (r, w') -> open w' = open w.
Proof. intros E. pose proof (keeps_send_all sock b w) as Hk. by rewrite E in Hk. Qed.

Lemma recv_all_open sock n (w : W) r w' : ft_recv_all sock n w = (r, w') -> open w' = open w.
Proof. intros E. pose proof (keeps_recv_all sock n w) as Hk. by rewrite E in Hk. Qed.

Lemma send_header_open sock fid size (w : W) r w' : send_header sock fid size w = (r, w') -> open w' = open w.
Proof.
  unfold send_header. intros E. destruct (ft_send_all sock FT_MAGIC w) as [r1 w1] eqn:E1.
  apply send_all_open in E1. destruct r1; [|by simplify_eq].
  destruct (ft_send_all sock _ w1) as [r2 w2] eqn:E2. apply send_all_open in E2.
  destruct r2; [|simplify_eq; congruence]. apply send_all_open in E. congruence.
Qed.

Lemma recv_header_open sock info (w : W) r i w' : recv_header max sock info w = (r, i, w') -> open w' = open w.
Proof.
  unfold recv_header. intros E. destruct (ft_recv_all sock FT_MAGIC_LEN w) as [r1 w1] eqn:E1.
  apply recv_all_open in E1. destruct r1; [|by simplify_eq]. destruct (negb _); [by simplify_eq|].
  destruct (ft_recv_all sock FT_UUID_LEN w1) as [r2 w2] eqn:E2. apply recv_all_open in E2.
  destruct r2; [|simplify_eq; congruence].
  destruct (ft_recv_all sock 8 w2) as [r3 w3] eqn:E3. apply recv_all_open in E3.
  destruct r3; [|simplify_eq; congruence]. case_match; simplify_eq; congruence.
Qed.

Lemma recv_chunks_open fuel sock remaining path (w : W) d r w' d' :
  recv_chunks fuel sock remaining path w d = Some (r, w', d') -> open w' = open w.
Proof.
  revert remaining w d. induction fuel as [|fuel IH]; intros remaining w d; [done|]. cbn [recv_chunks].
  destruct (0 <? remaining); [|by intros [= _ -> _]].
  destruct (ft_recv_all sock _ w) as [r1 w1] eqn:E1. apply recv_all_open in E1.
  destruct r1; [|intros [= <- <- <-]; done].
  destruct (fwrite path _ d) as [n d1]. destruct (negb _); [intros [= <- <- <-]; done|].
  intros E. apply IH in E. congruence.
Qed.

Lemma recv_file_to_path_open sock info path (w : W) d r i w' d' :
  ft_recv_file_to_path malloc_ok max sock info path w d = (r, i, w', d') -> open w' = open w.
Proof.
  unfold ft_recv_file_to_path. destruct (recv_header max sock info w) as [[r1 i1] w1] eqn:E1.
  apply recv_header_open in E1. destruct r1 as [fs|]; [|intros; by simplify_eq].
  destruct (fopen_wb path d); [|intros; by simplify_eq]. destruct (negb _); [intros; by simplify_eq|].
  destruct (recv_chunks _ sock fs path w1 _) as [[[r2 w2] d2]|] eqn:E2; [|intros; by simplify_eq].
  apply recv_chunks_open in E2. destruct r2; intros; simplify_eq; congruence.
Qed.

Lemma send_chunks_open fuel sock remaining f (w : W) r w' :
  send_chunks fuel sock remaining f w = Some (r, w') -> open w' = open w.
Proof.
  revert remaining f w. induction fuel as [|fuel IH]; intros remaining f w; [done|]. cbn [send_chunks].
  destruct (0 <? remaining); [|by intros [= _ ->]]. cbn [fread].
  destruct (negb _); [by intros [= <- <-]|].
  destruct (ft_send_all sock _ w) as [r1 w1] eqn:E1. apply send_all_open in E1.
  destruct r1; [|intros [= <- <-]; done]. intros E. apply IH in E. congruence.
Qed.

Lemma send_file_open sock info (w : W) r w' : ft_send_file sock info w = (r, w') -> open w' = open w.
Proof.
  unfold ft_send_file. destruct (send_header sock _ _ w) as [r1 w1] eqn:E1. apply send_header_open in E1.
  destruct r1; [|by intros [= <- <-]]. intros E. apply send_all_open in E. congruence.
Qed.

Lemma send_file_from_path_open sock fid size file (w : W) r w' :
  ft_send_file_from_path malloc_ok sock fid size file w = (r, w') -> open w' = open w.
Proof.
  unfold ft_send_file_from_path. destruct file as [f|]; [|by intros [= <- <-]].
  destruct (send_header sock _ _ w) as [r1 w1] eqn:E1. apply send_header_open in E1.
  destruct r1; [|by intros [= <- <-]]. destruct (negb _); [by intros [= <- <-]|].
  destruct (send_chunks _ sock size f w1) as [[r2 w2]|] eqn:E2; cbn [default from_option id].
  - apply send_chunks_open in E2. intros [= <- <-]. congruence.
  - by intros [= <- <-].
Qed.
End Keeps.
