(* ===== verification/WinClient.v ===== *)
(** * The Windows client (windows/main.c)

    The globals it has in common with the Linux client are the same record
    [Client]; [WinClient] adds the others and the clipboard. Handlers that are
    the same code are the same definitions; files travel in memory
    ([xf_source_path] stays empty), and one flag, not a time, holds the monitor
    back. The functions of common/ft/ are those of the Linux branches behind
    the same interface. *)

From S2P Require Import Prelude CString Double Codec Rfc4648 Crypto Config FtSocket FtProto FtAuth FtOs.
From S2P Require Import FtAddr FtNat FtLan RecvBuf Json JsonParse JsonPrint Msg Clip FileUri Client Threads Dib.
From stdpp Require Import gmap.
Local Open Scope Z_scope.

(** [WideCharToMultiByte] and [MultiByteToWideChar] for UTF-8. *)
Class Win32 := { utf8_of : list Z -> bytes; wide_of : bytes -> list Z }.

(** What [SetClipboardData] is given. *)
Inductive Placed := PText (wide : list Z) | PDib (dib : bytes) | PDrop (path : bytes).

(** The clipboard as a step finds it: its formats and data, whether this
    process can fill it ([GlobalAlloc], [OpenClipboard]), and [GetTempPathA]. *)
Record Snapshot := MkSnap {
  snap_text : option (list Z);
  has_dib : bool; snap_dib : option bytes;
  has_drop : bool; snap_drop : option bytes;
  snap_can_set : bool; snap_tmp : bytes }.

(** A change [on_clipboard_changed] has found, before its wait is over. *)
Inductive WinChange := WImage (bmp : bytes) | WFile (path hash data : bytes).

Record WinClient := MkWin {
  shared : Client; g_suppress_next : bool; g_last_file_hash : bytes;
  found : option (WinChange * bool); placed : list Placed }.

Definition lift (f : Client -> Client) '(MkWin c s h p l) := MkWin (f c) s h p l.
Definition set_suppress_next v '(MkWin c _ h p l) := MkWin c v h p l.
Definition set_file_hash v '(MkWin c s _ p l) := MkWin c s v p l.
Definition set_found v '(MkWin c s h _ l) := MkWin c s h v l.
Definition place (snap : Snapshot) (x : Placed) '(MkWin c s h p l) :=
  MkWin c s h p (if snap_can_set snap then l ++ [x] else l).

Definition win_zero (d : Disk) : WinClient := MkWin (client_zero d) false [] None [].

Definition MAX_PATH : nat := 260.

Definition win_mime_from_ext (filename : bytes) : bytes :=
  match strrchr filename "." with
  | None => str "application/octet-stream"
  | Some i =>
      let ext := drop (S i) (cstr filename) in
      if strcaseeq ext (str "png") then str "image/png"
      else if strcaseeq ext (str "jpg") || strcaseeq ext (str "jpeg") then str "image/jpeg"
      else if strcaseeq ext (str "gif") then str "image/gif"
      else if strcaseeq ext (str "bmp") then str "image/bmp"
      else if strcaseeq ext (str "pdf") then str "application/pdf"
      else if strcaseeq ext (str "txt") then str "text/plain"
      else str "application/octet-stream"
  end.

Definition win_basename (path : bytes) : bytes :=
  match strrchr path "\" with
  | Some i => drop (S i) (cstr path)
  | None => basename path
  end.

Section Win.
Context `{OS : Os W, SO : SockOps W} `{Base64Engine, Evp, Sha256, Hmac} `{Win32, Stb}.
Context (malloc_ok : Z -> bool) (uninit : nat -> bytes) (indet : nat -> Z).
Context (cfg : ClientConfig).

(** ** Clipboard operations *)

Definition clipboard_get (snap : Snapshot) : option bytes :=
  wtext ← snap_text snap;
  let utf8 := utf8_of wtext ++ [NUL] in
  if malloc_ok (Z.of_nat (length utf8)) then Some utf8 else None.

Definition clipboard_set (snap : Snapshot) (text : bytes) : WinClient -> WinClient :=
  place snap (PText (wide_of (cstr text))).

Definition win_set_image (snap : Snapshot) (data : bytes) (c : WinClient) : WinClient :=
  match clipboard_set_image malloc_ok data with
  | Converted dib => place snap (PDib dib) c
  | Failed => c
  | Outside => lift crash c
  end.

Definition win_tmp_path (snap : Snapshot) (filename : bytes) : bytes :=
  (snprintf MAX_PATH (snap_tmp snap ++ str "syncclip_" ++ cstr filename)).1.

(** The path in the system's code page; the drop effect goes with it. *)
Definition clipboard_set_file_path (snap : Snapshot) (file_path : bytes) : WinClient -> WinClient :=
  place snap (PDrop file_path).

Definition win_set_file (snap : Snapshot) (data filename : bytes) (c : WinClient) : WinClient :=
  let path := win_tmp_path snap filename in
  match fopen_wb path (g_disk (shared c)) with
  | None => c
  | Some d => clipboard_set_file_path snap path (lift (set_disk (fwrite path data d).2) c)
  end.

(** What is done with data that has been received. *)
Definition win_deliver (snap : Snapshot) (mime name : option bytes) (data : bytes) (c : WinClient) : WinClient :=
  let c := set_suppress_next true c in
  if match mime with Some mt => is_image mt | None => false end then win_set_image snap data c
  else win_set_file snap data (default (str "file") name) c.

(** ** The cases of [ws_callback] *)

Definition win_on_established (c : Client) : Client :=
  let c := set_delay 1 (set_session true true true (g_wsi c) c) in
  enqueue malloc_ok (sc_msg_hello malloc_ok uninit (Some (str "windows")) (Some (cstr (device_id cfg)))
    (Some (str "2.0.0"))) c.

Definition win_on_clipboard (snap : Snapshot) (j : cJSON) (c : WinClient) : WinClient :=
  match str_field j "content" with
  | None => c
  | Some content =>
      match decrypt malloc_ok indet cfg content with
      | Some dec =>
          let c := set_suppress_next true c in
          let c := lift (set_clip_hash (ft_sha256 (cstr dec))) c in
          clipboard_set snap dec c
      | None => c
      end
  end.

(** The data is freed before the listener is closed. *)
Definition win_drop_xfer (c : Client) : st W Client :=
  let c := free_data c in
  _ ← ft_close (xf_listen_fd (g_xfer c));
  mret c.

(** [long] has 32 bits. *)
Definition win_on_file_notify (ifs : option (list ifaddr)) (j : cJSON) (c : Client) : st W Client :=
  if effective_file_level cfg c <=? 0 then mret c
  else
    c ← win_drop_xfer c;
    let fid := str_field j "fileId" in
    '(fd, port) ← ft_start_server;
    let x := MkXfer (opt_copy fid 64) (opt_copy (str_field j "fileName") 256) (opt_copy (str_field j "mimeType") 64)
      (u64_of (num_field j "fileSize")) (opt_copy (str_field j "checksum") 65) None 0 (zeros 512) false
      fd port (replicate FT_MAX_ADDRS (zeros 64)) 0 (zeros 64) (opt_copy (str_field j "from") 128)
      (int_of (num_field j "maxRelaySize")) (int_of (num_field j "udpPort")) 1 false 0 false in
    let c := set_xfer x c in
    mret (enqueue malloc_ok (build_file_request malloc_ok uninit fid (ft_get_local_addresses ifs port)) c).

(** [sizeof(TransferState)]: no [source_path], [SOCKET] of 64 and [long] of 32
    bits. *)
Definition WIN_SIZEOF_XFER : Z := 1232.

Definition win_on_file_peer_info (j : cJSON) (c : Client) : Client :=
  if peer_info_ignored j c then c
  else
    let x := with_peer cfg j c in
    let c := set_xfer x c in
    if malloc_ok WIN_SIZEOF_XFER then
      let c := if xf_is_sender x then c else set_xfer (set_listen_fd FT_INVALID_SOCK x) c in
      set_threads (g_threads c ++ [MkThread x false]) c
    else c.

Definition win_on_relay_data (snap : Snapshot) (j : cJSON) (c : WinClient) : WinClient :=
  match str_field j "data" with
  | None => c
  | Some b64 =>
      match ft_base64_decode malloc_ok b64 with
      | None => c
      | Some dec =>
          let c := win_deliver snap (str_field j "mimeType") (str_field j "fileName") dec c in
          lift (enqueue malloc_ok (build_transfer_result malloc_ok uninit (str_field j "fileId") (Some (str "relay"))
            true 0 0)) c
      end
  end.

(** The handlers that touch only the shared globals. *)
Definition on_shared (f : Client -> st W Client) (c : WinClient) : st W WinClient :=
  c' ← f (shared c); mret (lift (fun _ => c') c).

Definition win_dispatch (snap : Snapshot) (ifs : option (list ifaddr)) (type : bytes) (j : cJSON)
    (c : WinClient) : st W WinClient :=
  if streq type (str "hello_ack") then mret (lift (on_hello_ack j) c)
  else if streq type (str "auth_result") || streq type (str "login_result") then mret c
  else if streq type (str "clipboard") then mret (win_on_clipboard snap j c)
  else if streq type (str "file_notify") then on_shared (win_on_file_notify ifs j) c
  else if streq type (str "file_peer_info") then mret (lift (win_on_file_peer_info j) c)
  else if streq type (str "file_relay_request") then mret (lift (on_relay_request malloc_ok uninit j) c)
  else if streq type (str "file_relay_data") then mret (win_on_relay_data snap j c)
  else mret c.

Definition win_on_receive (snap : Snapshot) (ifs : option (list ifaddr)) (frag : bytes) (final : bool)
    (c : WinClient) : st W WinClient :=
  let '(r, b) := on_fragment malloc_ok frag final (g_recv (shared c)) in
  let c := lift (set_recv b) c in
  match r with
  | Message data =>
      match cJSON_Parse malloc_ok (Some data) with
      | None => mret c
      | Some j => match str_field j "type" with
                  | None => mret c
                  | Some type => win_dispatch snap ifs type j c
                  end
      end
  | Overflow => mret (lift crash c)
  | Dropped | Partial => mret c
  end.

(** ** [on_clipboard_changed], up to the wait *)

Definition win_change_text (snap : Snapshot) (c : WinClient) : WinClient :=
  match clipboard_get snap with
  | None => c
  | Some clip => if (strlen clip =? 0)%nat then c else lift (offer_text malloc_ok uninit cfg clip) c
  end.

(** [ReadFile] is asked for the low 32 bits of the size. *)
Definition read_back (content : bytes) : bytes :=
  let got := take (Z.to_nat (u32 (Z.of_nat (length content)))) content in
  got ++ drop (length got) (uninit (length content)).

Definition win_change_file (snap : Snapshot) (c : WinClient) : WinClient :=
  match (if (0 <? effective_file_level cfg (shared c)) && has_drop snap then snap_drop snap else None) with
  | None => win_change_text snap c
  | Some fpath =>
      match files (g_disk (shared c)) !! fpath with
      | None => c
      | Some content =>
          let fsize := Z.of_nat (length content) in
          if (fsize <=? 0) || (1024 * 1024 * max_transfer_size cfg <=? fsize) then c
          else match ft_sha256_file (Some content) with
          | None => lift crash c
          | Some fhash =>
              if bool_decide (fhash = g_last_file_hash c) then c
              else
                let c := set_file_hash fhash c in
                if malloc_ok fsize then set_found (Some (WFile fpath fhash (read_back content), false)) c else c
          end
      end
  end.

Definition on_clipboard_changed (snap : Snapshot) (c : WinClient) : WinClient :=
  if negb (g_logged_in (shared c)) then c
  else if g_suppress_next c then set_suppress_next false c
  else if (0 <? effective_file_level cfg (shared c)) && has_dib snap then
    match clipboard_get_image malloc_ok (snap_dib snap) with
    | Converted img =>
        let hash := ft_sha256 img in
        if bool_decide (hash = g_last_img_hash (shared c)) then c
        else set_found (Some (WImage img, false)) (lift (set_img_hash hash) c)
    | Failed => win_change_file snap c
    | Outside => lift crash c
    end
  else win_change_file snap c.

(** The end of the wait. *)
Definition win_check_transfers (c : WinClient) : WinClient :=
  match found c with
  | Some (ch, false) => if 0 <? g_xfer_active_count (shared c) then set_found None c else set_found (Some (ch, true)) c
  | _ => c
  end.

(** The rest: [g_xfer] is reset before an image is converted. *)
Definition win_offer (ifs : option (list ifaddr)) (uuid name mime checksum data : bytes) (c : Client)
    : st W Client :=
  '(fd, port) ← ft_start_server;
  let l := fresh (dom (g_heap c)) in
  let len := Z.of_nat (length data) in
  let x := MkXfer (strncpy (zeros 64) uuid 63) (strncpy (zeros 256) name 255) (strncpy (zeros 64) mime 63) len
    (strncpy (zeros 65) checksum 64) (Some l) len (zeros 512) true fd port (replicate FT_MAX_ADDRS (zeros 64)) 0
    (zeros 64) (zeros 128) 0 0 1 false 0 false in
  let c := set_xfer x (set_heap (<[l := data]> (g_heap c)) c) in
  mret (send_offer malloc_ok uninit x (ft_get_local_addresses ifs port) c).

Definition offered_nothing (uuid : bytes) : TransferState :=
  MkXfer (strncpy (zeros 64) uuid 63) (zeros 256) (zeros 64) 0 (zeros 65) None 0 (zeros 512) true FT_INVALID_SOCK 0
    (replicate FT_MAX_ADDRS (zeros 64)) 0 (zeros 64) (zeros 128) 0 0 0 false 0 false.

Definition win_offer_found (ifs : option (list ifaddr)) (uuid : bytes) (c : WinClient) : st W WinClient :=
  match found c with
  | Some (ch, true) =>
      on_shared (fun s =>
        s ← win_drop_xfer s;
        match ch with
        | WImage img =>
            match bmp_to_png malloc_ok uninit img with
            | Converted png => win_offer ifs uuid (str "clipboard.png") (str "image/png") (ft_sha256 png) png s
            | Failed => mret (set_xfer (offered_nothing uuid) s)
            | Outside => mret (crash s)
            end
        | WFile path hash data =>
            let name := win_basename path in
            win_offer ifs uuid name (win_mime_from_ext name) hash data s
        end) (set_found None c)
  | _ => mret c
  end.

(** ** Transfer threads *)

Definition win_receive (snap : Snapshot) (x : TransferState) (conn_ms sock : Z) (c : WinClient)
    : st W (bool * WinClient) :=
  t_xfer ← ft_now_ms;
  '(rc, info) ← (fun w => ft_recv_file malloc_ok (ft_max_size cfg) sock file_zero w);
  match rc, data info with
  | Some _, Some d =>
      t_end ← ft_now_ms;
      let c := win_deliver snap (Some (xf_mime_type x)) (Some (xf_file_name x)) d c in
      let c := lift (enqueue malloc_ok (build_transfer_result malloc_ok uninit (Some (cstr (xf_file_id x)))
                 (Some (str "p2p")) true conn_ms (t_end - t_xfer))) c in
      mret (true, c)
  | _, _ => mret (false, c)
  end.

Definition win_receiver_thread (fuel : nat) (snap : Snapshot) (x : TransferState) (c : WinClient)
    : st W (option WinClient) :=
  t0 ← ft_now_ms;
  r ← connect_peer cfg fuel x false;
  match r with
  | None => mret None
  | Some sock =>
      now ← ft_now_ms;
      '(success, c) ← (if sock =? FT_INVALID_SOCK then mret (false, c)
                       else '(ok, c) ← win_receive snap x (now - t0) sock c;
                            _ ← ft_close sock; mret (ok, c));
      c ← (if success : bool then mret c
           else now ← ft_now_ms; mret (lift (report_failure malloc_ok uninit now t0 x) c));
      _ ← ft_close (xf_listen_fd x);
      mret (Some c)
  end.

(** [sender_thread_func] is the Linux loop: [xf_source_path] is empty. *)
Definition sender_thread_func (race_fuel fuel : nat) (x : TransferState) (c : WinClient) : st W (option WinClient) :=
  out ← sender_thread malloc_ok cfg race_fuel fuel x (shared c);
  mret ((fun s => lift (fun _ => s) c) <$> out).

(** A text that comes while the clipboard cannot be opened is lost, and the
    next thing the user copies is not offered: the flag waits for a change
    that never happens. *)
Lemma unset_clipboard_swallows_copy snap snap' j content dec c :
  str_field j "content" = Some content -> decrypt malloc_ok indet cfg content = Some dec ->
  snap_can_set snap = false -> g_logged_in (shared c) = true ->
  on_clipboard_changed snap' (win_on_clipboard snap j c)
  = set_suppress_next false (lift (set_clip_hash (ft_sha256 (cstr dec))) c).
Proof.
  intros Hj Hd Hs Hl. unfold win_on_clipboard. rewrite Hj, Hd.
  destruct c as [s ? ? ? ?]. unfold clipboard_set, place. rewrite Hs. cbn.
  unfold on_clipboard_changed. cbn. cbn in Hl. destruct s. cbn in *. by rewrite Hl.
Qed.
End Win.
