(* ===== verification/ClientSafe.v ===== *)
(** * The invariant of the Linux client's globals

    [good]: what holds of the globals and of the open descriptors between two
    steps, and that every handler, every part of the monitor and every
    transfer thread keeps it ([History] puts the steps together). *)

From S2P Require Import Prelude CString Double Codec Rfc4648 Crypto Config FtSocket FtProto FtAuth FtOs.
From S2P Require Import FtAddr FtNat FtLan RecvBuf Json JsonParse JsonPrint Msg Clip FileUri Client Threads.
From stdpp Require Import gmap.
Local Open Scope Z_scope.

(** ** The invariant *)

Record xfer_ok (x : TransferState) : Prop := {
  ok_file_id : arr 64 (xf_file_id x);
  ok_file_name : arr 256 (xf_file_name x);
  ok_mime_type : arr 64 (xf_mime_type x);
  ok_checksum : arr 65 (xf_checksum x);
  ok_source_path : arr 512 (xf_source_path x);
  ok_peer_addrs : length (xf_peer_addrs x) = FT_MAX_ADDRS /\ Forall (arr 64) (xf_peer_addrs x);
  ok_peer_addr_count : (xf_peer_addr_count x <= FT_MAX_ADDRS)%nat;
  ok_peer_public_addr : arr 64 (xf_peer_public_addr x);
  ok_from_device : arr 128 (xf_from_device x);
  ok_file_size : 0 <= xf_file_size x < 2 ^ 64;
  ok_udp_port : INT_MIN <= xf_udp_port x <= INT_MAX;
  ok_phase : 0 <= xf_phase x <= 2 }.

(** A hash variable: empty, or 64 hexadecimal digits. *)
Definition hash_ok (h : bytes) : Prop := h = [] \/ length h = 64%nat /\ Forall (fun b => isxdigit b = true) h.

Definition receivers (ts : list Thread) : list TransferState :=
  filter (fun x => xf_is_sender x = false) (map th_state ts).

(** The listening sockets and their owners: [g_xfer], and the receiver threads. *)
Definition listeners (c : Client) : list Z := xf_listen_fd (g_xfer c) :: map xf_listen_fd (receivers (g_threads c)).

Definition running (ts : list Thread) : Z := Z.of_nat (length (filter (fun t => th_running t = true) ts)).

(** The size of a pending change fits [uint64_t]. *)
Definition pending_ok (p : option Pending) : Prop :=
  match p with
  | None => True
  | Some (MkPending (CImage img _) _) => Z.of_nat (length img) < 2 ^ 64
  | Some (MkPending (CFile _ size) _) => 0 <= size < 2 ^ 64
  end.

(** What doubling from 1, stopping from 60 on, gives: the branch for a failed
    connection also clamps to 60, the one for a failed login does not. *)
Definition delays : list Z := [1; 2; 4; 8; 16; 32; 64; 60].

(** [base] are the descriptors of the rest of the process, [S] all of them. *)
Record good (base S : gset Z) (c : Client) : Prop := {
  good_xfer : xfer_ok (g_xfer c);
  good_threads : Forall (fun t => xfer_ok (th_state t)) (g_threads c);
  good_heap : dom (g_heap c) = (match xf_data (g_xfer c) with Some l => {[l]} | None => ∅ end : gset nat);
  good_active : g_xfer_active_count c = running (g_threads c);
  good_fds : held base (listeners c) S;
  good_recv : recv_ok (g_recv c) /\ 0 <= g_recv_cap (g_recv c);
  good_hash : hash_ok (g_last_clip_hash c) /\ hash_ok (g_last_img_hash c);
  good_session : g_authenticated c = g_connected c /\ g_logged_in c = g_connected c;
  good_delay : In (g_reconnect_delay c) delays;
  good_pending : pending_ok (g_pending c);
  good_running : g_crashed c = false }.

(** A step either ends the process or leaves a good state. *)
Definition safe (base : gset Z) (c : Client) (S : gset Z) : Prop := g_crashed c = true \/ good base S c.

(** Operations that leave what the invariant speaks of. *)
Ltac same_good c :=
  let H := fresh in
  match goal with Hg : good _ _ c |- _ => destruct c; destruct Hg; constructor; assumption end.

Lemma hash_ok_sha256 `{Sha256} d : hash_ok (ft_sha256 d).
Proof.
  right. unfold ft_sha256. pose proof (sha256_length d) as Hl. revert Hl. generalize (sha256 d) as l.
  intros l Hl. change 64%nat with (2 * 32)%nat. rewrite <- Hl. clear Hl.
  induction l as [|b l IH]; [by split|]. cbn [map concat length]. destruct IH as [IH1 IH2].
  split; [rewrite length_app, IH1; cbn; lia|]. apply Forall_app. split; [apply print_02x_xdigits|done].
Qed.

Lemma sha256_file_hash `{Sha256} f h : ft_sha256_file f = Some h -> hash_ok h.
Proof.
  unfold ft_sha256_file. destruct f as [f|]; [|done].
  destruct (digest_chunks _ f []) as [m|]; [|done]. intros [= <-]. apply hash_ok_sha256.
Qed.

Section Local.
Context (malloc_ok : Z -> bool) (base : gset Z).

Lemma enqueue_safe S m c : good base S c -> safe base (enqueue malloc_ok m c) S.
Proof.
  intros Hg. unfold enqueue. destruct (malloc_ok 16); cbn [negb]; [|by right].
  destruct m as [m|]; [|left; by destruct c]. destruct (malloc_ok _); [|left; by destruct c].
  right. same_good c.
Qed.

Lemma pipe_good S l c : good base S c -> good base S (pipe l c).
Proof. intros Hg. unfold pipe. same_good c. Qed.

Lemma suppress_good S now ms c : good base S c -> good base S (suppress_clipboard_ms now ms c).
Proof. intros Hg. unfold suppress_clipboard_ms. same_good c. Qed.

Lemma set_disk_good S d c : good base S c -> good base S (set_disk d c).
Proof. intros Hg. same_good c. Qed.

Lemma set_pending_good S p c : good base S c -> pending_ok p -> good base S (set_pending p c).
Proof. intros [] Hp. destruct c. by constructor. Qed.

Lemma set_level_good S v c : good base S c -> good base S (set_level v c).
Proof. intros Hg. same_good c. Qed.

Lemma set_recv_good S b c :
  good base S c -> recv_ok b -> 0 <= g_recv_cap b -> good base S (set_recv b c).
Proof. intros [] Hb Hc. destruct c. constructor; try assumption. by split. Qed.

Lemma set_clip_hash_good S h c : good base S c -> hash_ok h -> good base S (set_clip_hash h c).
Proof. intros [] Hh. destruct c. constructor; try assumption; cbn in *; by destruct_and?. Qed.

Lemma set_img_hash_good S h c : good base S c -> hash_ok h -> good base S (set_img_hash h c).
Proof. intros [] Hh. destruct c. constructor; try assumption; cbn in *; by destruct_and?. Qed.
End Local.

#[export] Hint Resolve pipe_good suppress_good set_disk_good set_pending_good set_level_good set_clip_hash_good
  set_img_hash_good hash_ok_sha256 sha256_file_hash enqueue_safe : sc.

(** ** Arrays of the messages *)

Lemma arr_opt_copy n s : (0 < n)%nat -> arr n (opt_copy s n).
Proof. intros Hn. unfold opt_copy. destruct s; [apply arr_strncpy|]; auto using arr_zeros. Qed.

Lemma arr_copy n s : (0 < n)%nat -> arr n (strncpy (zeros n) s (n - 1)).
Proof. intros Hn. apply arr_strncpy; auto using arr_zeros. Qed.

Lemma u64_of_range d : 0 <= u64_of d < 2 ^ 64.
Proof.
  unfold u64_of. destruct d as [s|[]| |s m e]; try lia.
  all: set (z := trunc _); repeat case_match; boolify; try lia; apply u64_range.
Qed.

Lemma int_of_range d : INT_MIN <= int_of d <= INT_MAX.
Proof.
  unfold int_of. destruct d as [s|[]| |s m e]; try (unfold INT_MIN, INT_MAX; lia).
  all: set (z := trunc _); case_match; boolify; unfold INT_MIN, INT_MAX in *; lia.
Qed.

Lemma peer_addrs_ok items idx arrs :
  length arrs = FT_MAX_ADDRS -> Forall (arr 64) arrs -> (idx <= FT_MAX_ADDRS)%nat ->
  let '(arrs', n) := peer_addrs items idx arrs in
  length arrs' = FT_MAX_ADDRS /\ Forall (arr 64) arrs' /\ (n <= FT_MAX_ADDRS)%nat.
Proof.
  revert idx arrs. induction items as [|i items IH]; intros idx arrs Hl Hf Hi; [done|]. cbn [peer_addrs].
  destruct (FT_MAX_ADDRS <=? idx)%nat eqn:E; boolify; [done|].
  apply IH; [|destruct (cJSON_GetStringValue _); [|done]|lia].
  - destruct (cJSON_GetStringValue _); [|done]. by rewrite length_alter.
  - apply Forall_alter; [done|]. intros a Ha Harr. by apply (arr_strncpy 64); [lia|].
Qed.

Lemma peer_addresses_ok j arrs :
  length arrs = FT_MAX_ADDRS -> Forall (arr 64) arrs ->
  let '(arrs', n) := peer_addresses j arrs in
  length arrs' = FT_MAX_ADDRS /\ Forall (arr 64) arrs' /\ (n <= FT_MAX_ADDRS)%nat.
Proof.
  intros Hl Hf. unfold peer_addresses. destruct (cJSON_GetObjectItem _ _); [|split_and!; [done|done|lia]].
  destruct (cJSON_IsArray _); [apply peer_addrs_ok; [done|done|lia]|split_and!; [done|done|lia]].
Qed.

Lemma replicate_addrs_ok :
  length (replicate FT_MAX_ADDRS (zeros 64)) = FT_MAX_ADDRS /\ Forall (arr 64) (replicate FT_MAX_ADDRS (zeros 64)).
Proof. split; [apply length_replicate|]. apply Forall_replicate, arr_zeros. lia. Qed.

Lemma xfer_zero_ok : xfer_ok xfer_zero.
Proof.
  constructor; cbn; try (by apply arr_zeros; lia); try lia; try apply replicate_addrs_ok.
  unfold INT_MIN, INT_MAX. lia.
Qed.

Section WithPeer.
Context (cfg : ClientConfig).

Lemma with_peer_ok j c : xfer_ok (g_xfer c) -> xfer_ok (with_peer cfg j c).
Proof.
  intros Hx. unfold with_peer. destruct (g_xfer c) as [a b d e f g h i k l m pas pan pub q r s u t v z].
  destruct Hx as [??????????? _]. cbn in *. destruct_and?.
  pose proof (peer_addresses_ok j pas) as Hp.
  destruct (peer_addresses j pas) as [pas' n]. destruct Hp as (? & ? & ?); [done|done|].
  constructor; cbn; try done; try lia; try (split; done).
  destruct (str_field j "peerPublicAddress"); [by apply (arr_strncpy 64); [lia|]|done].
Qed.

(** What a file_peer_info leaves alone. *)
Lemma with_peer_frame j c :
  xf_data (with_peer cfg j c) = xf_data (g_xfer c) /\ xf_listen_fd (with_peer cfg j c) = xf_listen_fd (g_xfer c)
  /\ xf_is_sender (with_peer cfg j c) = xf_is_sender (g_xfer c)
  /\ xf_file_id (with_peer cfg j c) = xf_file_id (g_xfer c) /\ xf_phase (with_peer cfg j c) = 2.
Proof.
  unfold with_peer. destruct (g_xfer c) as [a b d e f g h i k l m pas pan pub q r s u t v z].
  by destruct (peer_addresses j pas).
Qed.
End WithPeer.

Lemma set_listen_fd_ok fd x : xfer_ok x -> xfer_ok (set_listen_fd fd x).
Proof. destruct x. intros []. by constructor. Qed.

Lemma set_listen_fd_frame fd x :
  xf_data (set_listen_fd fd x) = xf_data x /\ xf_listen_fd (set_listen_fd fd x) = fd
  /\ xf_is_sender (set_listen_fd fd x) = xf_is_sender x.
Proof. by destruct x. Qed.

(** Changing [g_xfer] and the threads. *)
Lemma set_xfer_good base S S' x ts c :
  good base S c -> xfer_ok x -> xf_data x = xf_data (g_xfer c) ->
  Forall (fun t => xfer_ok (th_state t)) ts -> running ts = running (g_threads c) ->
  held base (xf_listen_fd x :: map xf_listen_fd (receivers ts)) S' ->
  good base S' (set_threads ts (set_xfer x c)).
Proof.
  intros [] Hx Hd Ht Hr Hh. destruct c. constructor; cbn in *; try done; [by rewrite Hd|by rewrite Hr].
Qed.

(** ** The handlers *)

Section Handlers.
Context `{OL : OsLaws W} `{Base64Engine, Evp, Sha256}.
Context (malloc_ok : Z -> bool) (uninit : nat -> bytes) (indet : nat -> Z) (cfg : ClientConfig).
Context (base : gset Z).

Lemma on_established_safe S c : good base S c -> safe base (on_established malloc_ok uninit cfg c) S.
Proof.
  intros Hg. unfold on_established. apply enqueue_safe. destruct c, Hg. constructor; cbn in *; auto; lia.
Qed.

Lemma on_disconnected_good S c : good base S c -> good base S (on_disconnected c).
Proof.
  intros Hg. unfold on_disconnected. destruct c as [a b c d e f g h r i j k l m n o p q s t], Hg.
  constructor; cbn in *; try done. unfold recv_ok, g_recv_len. cbn. by destruct_and?.
Qed.

Lemma on_write_good S c : good base S c -> good base S (on_write malloc_ok c).
Proof.
  intros Hg. unfold on_write. destruct (g_send c) as [|m ms]; [done|].
  destruct (malloc_ok _); [|same_good c]. same_good c.
Qed.

Lemma on_clipboard_good S ops now j c :
  good base S c -> good base S (on_clipboard malloc_ok indet cfg ops now j c).
Proof.
  intros Hg. unfold on_clipboard. destruct (str_field j "content"); [|done].
  destruct (decrypt _ _ _ _); eauto with sc.
Qed.

Lemma on_relay_request_safe S j c : good base S c -> safe base (on_relay_request malloc_ok uninit j c) S.
Proof.
  intros Hg. unfold on_relay_request. destruct (xf_data (g_xfer c)) as [l|]; [|by right].
  destruct (str_field j "requesterId"); [|by right]. destruct (_ <? _); [|by right].
  destruct (g_heap c !! l); [by apply enqueue_safe|left; by destruct c].
Qed.

Lemma on_relay_data_safe S ops now j c : good base S c -> safe base (on_relay_data malloc_ok uninit ops now j c) S.
Proof.
  intros Hg. unfold on_relay_data. destruct (str_field j "data"); [|by right].
  destruct (ft_base64_decode malloc_ok _); [|by right]. apply enqueue_safe.
  destruct (match str_field j "mimeType" with Some _ => _ | None => _ end); eauto 10 with sc.
Qed.

(** A new thread that is not running yet. *)
Lemma running_snoc ts x : running (ts ++ [MkThread x false]) = running ts.
Proof. unfold running. by rewrite filter_app, app_nil_r. Qed.

Lemma receivers_snoc ts x b :
  receivers (ts ++ [MkThread x b]) = receivers ts ++ (if xf_is_sender x then [] else [x]).
Proof.
  unfold receivers. rewrite map_app, filter_app. f_equal. cbn [map th_state]. destruct (xf_is_sender x) eqn:E.
  - rewrite filter_cons_False; [done|congruence].
  - rewrite filter_cons_True; [done|congruence].
Qed.

(** A transfer that has its peer, and its thread; a receiver's thread takes
    the listener with it. *)
Lemma spawn_good S x c :
  good base S c -> xfer_ok x -> xf_data x = xf_data (g_xfer c) -> xf_listen_fd x = xf_listen_fd (g_xfer c) ->
  good base S (set_xfer x c)
  /\ good base S (set_threads (g_threads (set_xfer x c) ++ [MkThread x false])
       (if xf_is_sender x then set_xfer x c else set_xfer (set_listen_fd FT_INVALID_SOCK x) (set_xfer x c))).
Proof.
  intros Hg Hx Hd Hl. split.
  { destruct c as [? ? ? ? ? ? ? ? ? ? ? ? y act ts ? ? ? ? ?].
    eapply (set_xfer_good base S S x ts (MkClient _ _ _ _ _ _ _ _ _ _ _ _ y act ts _ _ _ _ _));
      [exact Hg|done|done|apply Hg|done|]. rewrite Hl. apply Hg. }
  assert (Hth : Forall (fun t => xfer_ok (th_state t)) (g_threads c ++ [MkThread x false])).
  { apply Forall_app. split; [apply Hg|]. constructor; [exact Hx|constructor]. }
  pose proof (good_fds _ _ _ Hg) as Hh. unfold listeners in Hh.
  replace (g_threads (set_xfer x c)) with (g_threads c) by by destruct c.
  destruct (xf_is_sender x) eqn:Es.
  - apply (set_xfer_good base S S x _ c); try done; [by rewrite running_snoc|].
    by rewrite receivers_snoc, Es, app_nil_r, Hl.
  - set (y := set_listen_fd FT_INVALID_SOCK x).
    destruct (set_listen_fd_frame FT_INVALID_SOCK x) as (Hd' & Hl' & Hs'). fold y in Hd', Hl', Hs'.
    replace (set_xfer y (set_xfer x c)) with (set_xfer y c) by by destruct c.
    apply (set_xfer_good base S S y _ c); try done.
    + by apply set_listen_fd_ok.
    + congruence.
    + by rewrite running_snoc.
    + rewrite receivers_snoc, Es, map_app, Hl'. apply held_invalid. cbn [map].
      rewrite Hl in *. eapply held_perm; [|exact Hh]. apply Permutation_cons_append.
Qed.

Lemma on_file_peer_info_good S j c : good base S c -> good base S (on_file_peer_info malloc_ok cfg j c).
Proof.
  intros Hg. unfold on_file_peer_info. destruct (peer_info_ignored j c); [done|].
  destruct (with_peer_frame cfg j c) as (Hd & Hl & _).
  pose proof (spawn_good S _ c Hg (with_peer_ok cfg j c (good_xfer _ _ _ Hg)) Hd Hl) as [H1' H2'].
  destruct (malloc_ok SIZEOF_XFER); [|done]. destruct (xf_is_sender _); [done|].
  by replace (g_threads (set_xfer (set_listen_fd FT_INVALID_SOCK (with_peer cfg j c)) (set_xfer (with_peer cfg j c) c)))
    with (g_threads (set_xfer (with_peer cfg j c) c)) by by destruct c.
Qed.

Lemma offer_text_safe S text c : good base S c -> safe base (offer_text malloc_ok uninit cfg text c) S.
Proof.
  intros Hg. unfold offer_text. case_bool_decide; [by right|].
  assert (good base S (set_clip_hash (ft_sha256 (cstr text)) c)) by eauto with sc.
  destruct (aes_gcm_encrypt malloc_ok _ _); [by apply enqueue_safe|by right].
Qed.

Lemma change_text_safe S ops c : good base S c -> safe base (change_text malloc_ok uninit cfg ops c) S.
Proof. intros Hg. unfold change_text. destruct (get_text ops); [by apply offer_text_safe|by right]. Qed.

(** The blocks of the clipboard fit the address space. *)
Definition ops_ok (ops : ClipboardOps) : Prop :=
  forall mime b, read_type ops mime = Some b -> Z.of_nat (used b) < 2 ^ 64.

Lemma change_file_safe S ops types c :
  max_transfer_size cfg <= INT_MAX ->
  good base S c -> safe base (change_file malloc_ok uninit cfg ops types c) S.
Proof.
  intros Hmax Hg. unfold change_file. destruct (_ && _); [|by apply change_text_safe].
  destruct (clipboard_get_file_uri malloc_ok _) as [p| |]; [|by apply change_text_safe|left; by destruct c].
  destruct (files (g_disk c) !! p); [|by right]. destruct (_ || _) eqn:E; [by right|]. boolify.
  right. apply set_pending_good; [done|]. cbn. unfold INT_MAX in *. lia.
Qed.

Lemma image_size ops img mime :
  ops_ok ops -> clipboard_get_image (read_type ops) = Some (img, mime) -> Z.of_nat (length img) < 2 ^ 64.
Proof.
  intros Ho. unfold clipboard_get_image.
  destruct (read_type ops (str "image/png")) as [b|] eqn:E1; cbn [fmap option_fmap option_map].
  - intros [= <- <-]. pose proof (Ho _ _ E1). rewrite length_take. lia.
  - destruct (read_type ops (str "image/jpeg")) as [b|] eqn:E2; cbn [fmap option_fmap option_map]; [|done].
    intros [= <- <-]. pose proof (Ho _ _ E2). rewrite length_take. lia.
Qed.

Lemma process_clipboard_change_safe S ops c :
  max_transfer_size cfg <= INT_MAX ->
  ops_ok ops -> good base S c -> safe base (process_clipboard_change malloc_ok uninit cfg ops c) S.
Proof.
  intros Hmax Ho Hg. unfold process_clipboard_change. destruct (_ && _); [|by apply change_file_safe].
  destruct (clipboard_get_image _) as [[img mime]|] eqn:E; [|by apply change_file_safe].
  destruct (0 <? length img)%nat; [|by apply change_file_safe].
  case_bool_decide; [by right|right]. apply set_pending_good; [eauto with sc|]. by eapply image_size.
Qed.

Lemma process_primary_change_safe S d c :
  good base S c -> safe base (process_primary_change malloc_ok uninit cfg d c) S.
Proof.
  intros Hg. unfold process_primary_change. destruct d as [d|]; [|by right].
  repeat (case_match; [by right|]). by apply offer_text_safe.
Qed.

Lemma check_transfers_good S c : good base S c -> good base S (check_transfers c).
Proof.
  intros Hg. pose proof (good_pending _ _ _ Hg) as Hp. unfold check_transfers.
  destruct (g_pending c) as [[ch []]|]; try done. by destruct (0 <? _); apply set_pending_good.
Qed.

(** ** Replacing the transfer *)

Lemma free_data_good S c : good base S c -> free_data c = set_heap ∅ c.
Proof.
  clear malloc_ok uninit indet cfg.
  intros Hg. pose proof (good_heap _ _ _ Hg) as Hh. unfold free_data.
  destruct (xf_data (g_xfer c)) as [l|].
  - assert (Hl : l ∈ dom (g_heap c)) by set_solver. apply elem_of_dom in Hl as [d Hl]. rewrite Hl.
    replace (delete l (g_heap c)) with (∅ : gmap nat bytes); [done|].
    symmetry. apply dom_empty_iff_L. rewrite dom_delete_L. set_solver.
  - apply dom_empty_iff_L in Hh. destruct c. cbn in *. by subst.
Qed.

Lemma held_drop S fd l S' : held S (fd :: l) S' ->
  (fd <> FT_INVALID_SOCK -> fd ∈ S') /\ held S l (if decide (fd = FT_INVALID_SOCK) then S' else S' ∖ {[fd]}).
Proof.
  intros Hh. destruct (decide (fd = FT_INVALID_SOCK)) as [->|Hfd].
  - split; [done|]. by apply held_invalid.
  - apply held_cons in Hh as [Hn Hh]; [|done]. destruct (held_close _ _ _ _ Hn Hh) as [? ?]. by split.
Qed.

Lemma held_new S l S' r S'' : held S l S' -> yields S' r S'' -> held S (r :: l) S''.
Proof.
  intros Hh [[-> ->]|(Hr & Hn & ->)]; [by apply held_invalid|].
  apply held_cons; [done|]. by apply held_add.
Qed.

Lemma drop_xfer_owns S c :
  good base S c ->
  owns S (drop_xfer c) (fun c' S' => c' = set_heap ∅ c /\ held base (map xf_listen_fd (receivers (g_threads c))) S').
Proof.
  clear malloc_ok uninit indet cfg.
  intros Hg. unfold drop_xfer. rewrite (free_data_good S c Hg).
  destruct (held_drop _ _ _ _ (good_fds _ _ _ Hg)) as [Hin Hh].
  apply owns_close; [done|]. by apply owns_ret.
Qed.

Lemma install_good S S' x h c :
  good base S c -> xfer_ok x ->
  dom h = (match xf_data x with Some l => {[l]} | None => ∅ end : gset nat) ->
  held base (xf_listen_fd x :: map xf_listen_fd (receivers (g_threads c))) S' ->
  good base S' (set_xfer x (set_heap h c)).
Proof. intros [] Hx Hd Hh. destruct c. by constructor. Qed.

Lemma on_file_notify_safe S ifs j c :
  good base S c -> owns S (on_file_notify malloc_ok uninit cfg ifs j c) (safe base).
Proof.
  intros Hg. unfold on_file_notify. destruct (_ <=? 0); [apply owns_ret; by right|].
  eapply owns_bind; [by apply drop_xfer_owns|]. intros c1 S1 [-> Hh].
  eapply owns_bind; [apply ft_start_server_owns|]. intros [fd port] S2 Hy. apply owns_ret.
  apply enqueue_safe. apply (install_good S _ _ ∅ c Hg).
  - constructor; cbn; try (by apply arr_opt_copy; lia); try (by apply arr_zeros; lia);
      try apply replicate_addrs_ok; try apply u64_of_range; try apply int_of_range; lia.
  - cbn. by rewrite dom_empty_L.
  - cbn [xf_listen_fd]. by eapply held_new.
Qed.

Lemma offer_image_safe S ifs uuid img mime c :
  Z.of_nat (length img) < 2 ^ 64 ->
  good base S c -> owns S (offer_image malloc_ok uninit ifs uuid img mime c) (safe base).
Proof.
  intros Hl Hg. unfold offer_image.
  eapply owns_bind; [by apply drop_xfer_owns|]. intros c1 S1 [-> Hh].
  eapply owns_bind; [apply ft_start_server_owns|]. intros [fd port] S2 Hy. apply owns_ret.
  unfold send_offer. apply enqueue_safe.
  set (l := fresh (dom (g_heap (set_heap ∅ c)))).
  replace (set_heap (<[l:=img]> (g_heap (set_heap ∅ c))) (set_heap ∅ c)) with (set_heap {[l := img]} c) by by destruct c.
  apply (install_good S _ _ {[l := img]} c Hg).
  - constructor; cbn; try (by apply arr_copy; lia); try (by apply arr_zeros; lia);
      try apply replicate_addrs_ok; unfold INT_MIN, INT_MAX; lia.
  - cbn. by rewrite dom_singleton_L.
  - cbn [xf_listen_fd]. by eapply held_new.
Qed.

Lemma offer_file_safe S ifs uuid fpath fsize c :
  0 <= fsize < 2 ^ 64 ->
  good base S c -> owns S (offer_file malloc_ok uninit ifs uuid fpath fsize c) (safe base).
Proof.
  intros Hl Hg. unfold offer_file. destruct (ft_sha256_file _) as [h|] eqn:Eh; [|apply owns_ret; left; by destruct c].
  eapply owns_bind; [by apply drop_xfer_owns|]. intros c1 S1 [-> Hh].
  eapply owns_bind; [apply ft_start_server_owns|]. intros [fd port] S2 Hy. apply owns_ret.
  unfold send_offer. apply enqueue_safe. apply set_img_hash_good; [|by eapply sha256_file_hash].
  apply (install_good S _ _ ∅ c Hg).
  - constructor; cbn; try (by apply arr_copy; lia); try (by apply arr_zeros; lia);
      try apply replicate_addrs_ok; try lia; unfold INT_MIN, INT_MAX; lia.
  - cbn. by rewrite dom_empty_L.
  - cbn [xf_listen_fd]. by eapply held_new.
Qed.

Lemma offer_pending_safe S ifs uuid c :
  good base S c -> owns S (offer_pending malloc_ok uninit ifs uuid c) (safe base).
Proof.
  clear indet cfg.
  intros Hg. pose proof (good_pending _ _ _ Hg) as Hp. unfold offer_pending.
  destruct (g_pending c) as [[ch []]|]; try (apply owns_ret; by right).
  assert (good base S (set_pending None c)) by by apply set_pending_good.
  destruct ch as [img mime|path size]; [by apply offer_image_safe|by apply offer_file_safe].
Qed.

(** ** Messages *)

Lemma dispatch_safe S ops now ifs type j c :
  good base S c -> owns S (dispatch malloc_ok uninit indet cfg ops now ifs type j c) (safe base).
Proof.
  intros Hg. unfold dispatch.
  repeat match goal with
  | |- owns _ (if ?b then _ else _) _ => destruct b
  | |- owns _ (mret _) _ => apply owns_ret
  end; try (by right).
  - right. unfold on_hello_ack. destruct (cJSON_GetObjectItem _ _); eauto with sc.
  - right. by apply on_clipboard_good.
  - by apply on_file_notify_safe.
  - right. by apply on_file_peer_info_good.
  - by apply on_relay_request_safe.
  - by apply on_relay_data_safe.
Qed.

Lemma on_fragment_recv_ok frag final b r b' :
  recv_ok b -> 0 <= g_recv_cap b -> on_fragment malloc_ok frag final b = (r, b') ->
  recv_ok b' /\ 0 <= g_recv_cap b'.
Proof.
  intros Hb Hc. unfold on_fragment, recv_ok, g_recv_len in *.
  set (needed := Z.of_nat (length (g_recv_buf b)) + Z.of_nat (length frag)).
  assert (Hn : Z.of_nat (length (g_recv_buf b ++ frag)) = needed) by (rewrite length_app; lia).
  destruct (g_recv_cap b <? needed) eqn:E; boolify.
  - set (c0 := if g_recv_cap b =? 0 then 4096 else g_recv_cap b).
    assert (Hc0 : 1 <= c0) by (unfold c0; destruct (_ =? 0) eqn:E0; boolify; lia).
    destruct (grow_spec (grow_fuel (needed + 1)) c0 (needed + 1)) as (cap & -> & Hg1 & Hg2 & _);
      [lia|apply grow_fuel_enough; lia|unfold grow_fuel; lia|].
    destruct (malloc_ok cap); [|intros [= <- <-]; cbn; lia].
    destruct final; cbn [negb]; [|intros [= <- <-]; cbn [g_recv_buf g_recv_cap]; lia].
    case_match; intros [= <- <-]; cbn; lia.
  - destruct final; cbn [negb]; [|intros [= <- <-]; cbn [g_recv_buf g_recv_cap]; lia].
    case_match; intros [= <- <-]; cbn; lia.
Qed.

Lemma on_receive_safe S ops now ifs frag final c :
  good base S c -> owns S (on_receive malloc_ok uninit indet cfg ops now ifs frag final c) (safe base).
Proof.
  intros Hg. unfold on_receive. destruct (good_recv _ _ _ Hg) as [Hb Hc].
  destruct (on_fragment malloc_ok frag final (g_recv c)) as [r b] eqn:E.
  destruct (on_fragment_recv_ok _ _ _ _ _ Hb Hc E) as [Hb' Hc'].
  assert (good base S (set_recv b c)) by by apply set_recv_good.
  destruct r as [| |data|]; try (apply owns_ret; (by right) || (left; by destruct c)).
  unfold on_text. destruct (cJSON_Parse malloc_ok _) as [j|]; [|apply owns_ret; by right].
  destruct (str_field j "type"); [by apply dispatch_safe|apply owns_ret; by right].
Qed.
End Handlers.

(** ** Transfer threads *)

Section ThreadSafe.
Context `{OL : OsLaws W} `{Base64Engine, Evp, Sha256, Hmac}.
Context (malloc_ok : Z -> bool) (uninit : nat -> bytes) (cfg : ClientConfig).
Context (base : gset Z).

Lemma yields_held S r S' : yields S r S' -> held S [r] S'.
Proof.
  intros [[-> ->]|(Hr & Hn & ->)]; [apply held_invalid, held_nil|].
  apply held_cons; [done|]. split; [done|apply held_nil].
Qed.

Lemma nat_candidate_owns x S : owns S (nat_candidate x) (yields S).
Proof.
  unfold nat_candidate. destruct (_ && _); [|apply owns_ret; by left].
  unfold ft_nat_punch_start. destruct (ft_parse_addr _); [apply punch_connect_owns|apply owns_ret; by left].
Qed.

Lemma connect_peer_owns fuel x is_sender S :
  owns S (connect_peer cfg fuel x is_sender) (fun out S' => forall r, out = Some r -> yields S r S').
Proof.
  unfold connect_peer. eapply owns_bind; [apply nat_candidate_owns|]. intros nat S1 Hn.
  eapply owns_conseq; [apply ft_lan_transfer_auth_owns, yields_held, Hn|].
  intros out S2 Ho r Hr. by destruct (Ho r Hr).
Qed.

Lemma owns_close_new {B} S r S' (f : unit -> st W B) Q :
  yields S r S' -> owns S (f tt) Q -> owns S' (ft_close r ≫= f) Q.
Proof.
  clear malloc_ok uninit cfg.
  intros [[-> ->]|(Hr & Hn & ->)] Hf; apply owns_close; try done; try set_solver.
  rewrite decide_False by done. by replace (({[r]} ∪ S) ∖ {[r]}) with S by set_solver.
Qed.

(** What a thread does to the globals: they stay good, with the same threads
    and the same current transfer. *)
Definition tame (S : gset Z) (c c' : Client) : Prop :=
  g_crashed c' = true
  \/ good base S c' /\ g_threads c' = g_threads c /\ g_xfer c' = g_xfer c.

Lemma tame_refl S c : good base S c -> tame S c c.
Proof. intros Hg. right. done. Qed.

Lemma enqueue_tame S m c c' : tame S c c' -> tame S c (enqueue malloc_ok m c').
Proof.
  intros Ht. unfold enqueue. destruct (malloc_ok 16); cbn [negb]; [|done].
  destruct Ht as [Hc|(Hg & Ht & Hx)].
  - left. destruct m; [destruct (malloc_ok _)|]; by destruct c'.
  - destruct m as [m|]; [destruct (malloc_ok _)|]; [|left; by destruct c'..].
    right. split; [same_good c'|]. by destruct c'.
Qed.

Lemma tame_op S c c' (f : Client -> Client) :
  (forall c, g_crashed (f c) = g_crashed c /\ g_threads (f c) = g_threads c /\ g_xfer (f c) = g_xfer c) ->
  (forall c, good base S c -> good base S (f c)) -> tame S c c' -> tame S c (f c').
Proof.
  intros Hf Hgf [Hc|(Hg & Ht & Hx)]; destruct (Hf c') as (H1' & H2' & H3').
  - left. congruence.
  - right. split_and!; [auto|congruence|congruence].
Qed.

Lemma set_disk_tame S d c c' : tame S c c' -> tame S c (set_disk d c').
Proof. apply (tame_op S c c' (set_disk d)); [by intros []|eauto with sc]. Qed.

Lemma pipe_tame S l c c' : tame S c c' -> tame S c (pipe l c').
Proof. apply (tame_op S c c' (pipe l)); [by intros []|eauto with sc]. Qed.

Lemma suppress_tame S now ms c c' : tame S c c' -> tame S c (suppress_clipboard_ms now ms c').
Proof. apply (tame_op S c c' (suppress_clipboard_ms now ms)); [by intros []|eauto with sc]. Qed.

Lemma set_img_hash_tame S h c c' : hash_ok h -> tame S c c' -> tame S c (set_img_hash h c').
Proof. intros Hh. apply (tame_op S c c' (set_img_hash h)); [by intros []|eauto with sc]. Qed.

Lemma deliver_file_tame S ops now x path size c c' :
  tame S c c' -> tame S c (deliver_file malloc_ok ops now x path size c').
Proof.
  intros Ht. unfold deliver_file. set (file := files (g_disk c') !! path).
  assert (Hh : tame S c (match ft_sha256_file file with Some h => set_img_hash h c' | None => c' end)).
  { destruct (ft_sha256_file file) eqn:E; [|done]. apply set_img_hash_tame; [|done]. by eapply sha256_file_hash. }
  destruct (is_image _); [|by apply pipe_tame, suppress_tame].
  apply set_disk_tame. destruct file as [f|]; [|by apply suppress_tame].
  destruct (_ && _); [apply pipe_tame|]; by apply suppress_tame.
Qed.

Lemma receive_file_owns S T ops x conn_ms t_conn sock c :
  good base S c ->
  owns T (receive_file malloc_ok uninit cfg ops x conn_ms t_conn sock c) (fun r T' => tame S c r.2 /\ T' = T).
Proof.
  intros Hg w <-. unfold receive_file.
  destruct (ft_recv_file_to_path _ _ _ _ _ w _) as [[[rc info] w1] d] eqn:E.
  apply recv_file_to_path_open in E. destruct rc; [|split; [by apply set_disk_tame, tame_refl|done]].
  pose proof (keeps_call Now_ms I w1) as H1'. unfold ft_now_ms. destruct (call Now_ms w1) as [t w2].
  pose proof (keeps_call Now_ms I w2) as H2'. destruct (call Now_ms w2) as [t' w3]. cbn in *.
  split; [|congruence]. by apply enqueue_tame, deliver_file_tame, set_disk_tame, tame_refl.
Qed.

Lemma report_failure_tame S now t0 x c c' : tame S c c' -> tame S c (report_failure malloc_ok uninit now t0 x c').
Proof. intros Ht. unfold report_failure. case_match; by apply enqueue_tame. Qed.

Definition without (fd : Z) (S : gset Z) : gset Z := if decide (fd = FT_INVALID_SOCK) then S else S ∖ {[fd]}.

Lemma receiver_thread_owns S fuel ops x c :
  good base S c -> (xf_listen_fd x <> FT_INVALID_SOCK -> xf_listen_fd x ∈ S) ->
  owns S (receiver_thread malloc_ok uninit cfg fuel ops x c)
    (fun out S' => forall c', out = Some c' -> tame S c c' /\ S' = without (xf_listen_fd x) S).
Proof.
  intros Hg Hfd. unfold receiver_thread. own_step.
  eapply owns_bind; [apply connect_peer_owns|]. intros [sock|] S1 Hy; [|by apply owns_ret].
  specialize (Hy sock eq_refl). own_step.
  eapply owns_bind with (R := fun r S' => tame S c r.2 /\ S' = S).
  { destruct (sock =? FT_INVALID_SOCK) eqn:E; boolify.
    - apply owns_ret. split; [by apply tame_refl|]. by destruct Hy as [[_ ->]|[? _]].
    - eapply owns_bind; [by apply receive_file_owns|]. intros [ok c1] S2 [Ht ->].
      apply (owns_close_new S); [done|]. by apply owns_ret. }
  intros [success c1] S2 [Ht ->]. cbn [snd] in Ht.
  eapply owns_bind with (R := fun c2 S' => tame S c c2 /\ S' = S).
  { destruct success; [by apply owns_ret|]. own_step. apply owns_ret. split; [by apply report_failure_tame|done]. }
  intros c2 S2 [Ht' ->]. apply owns_close; [done|]. apply owns_ret. by intros c' [= <-].
Qed.

Lemma send_to_peer_open x sock c (w : W) r w' : send_to_peer malloc_ok x sock c w = Some (r, w') -> open w' = open w.
Proof.
  unfold send_to_peer. destruct (negb _).
  - intros [= E]. by apply send_file_from_path_open in E.
  - destruct (xf_data x) as [l|].
    + destruct (g_heap c !! l); cbn [mbind option_bind]; [|done]. intros [= E]. by apply send_file_open in E.
    + intros [= E]. by apply send_file_open in E.
Qed.

Lemma serve_owns S race_fuel fuel x t0 sock n c S' :
  good base S c -> yields S sock S' ->
  owns S' (serve malloc_ok cfg race_fuel fuel x t0 sock n c)
    (fun out S'' => forall n' c', out = Some (n', c') -> tame S c c' /\ (g_crashed c' = false -> S'' = S)).
Proof.
  intros Hg. revert sock n S'. induction fuel as [|fuel IH]; intros sock n S' Hy; cbn [serve]; [by apply owns_ret|].
  destruct (sock =? FT_INVALID_SOCK) eqn:E; boolify.
  { apply owns_ret. intros n' c' [= <- <-]. split; [by apply tame_refl|]. by destruct Hy as [[_ ->]|[? _]]. }
  do 2 own_step.
  eapply owns_bind with (R := fun _ T => T = S').
  { intros w <-. destruct (send_to_peer _ _ _ _ w) as [[rc w1]|] eqn:Es; [|done]. by apply send_to_peer_open in Es. }
  intros [rc|] T ->.
  2:{ apply owns_ret. intros n' c' [= <- <-].
      assert (Hcr : g_crashed (crash c) = true) by by destruct c. split; [by left|]. congruence. }
  apply owns_keeps; [destruct rc; [eauto with sc|done]|]. intros n1.
  apply (owns_close_new S); [done|].
  assert (Hend : owns S (mret (Some (n1, c)))
    (fun out S'' => forall n' c', out = Some (n', c') -> tame S c c' /\ (g_crashed c' = false -> S'' = S))).
  { apply owns_ret. intros n' c' [= <- <-]. split; [by apply tame_refl|done]. }
  destruct (xf_listen_fd x =? FT_INVALID_SOCK); [done|]. own_step. destruct (_ <=? 0); [done|].
  eapply owns_bind; [apply ft_lan_transfer_auth_owns, held_invalid, held_nil|].
  intros [sock'|] T Hy'; [|by apply owns_ret]. apply IH. by destruct (Hy' sock' eq_refl).
Qed.

Lemma sender_thread_owns S race_fuel fuel x c :
  good base S c ->
  owns S (sender_thread malloc_ok cfg race_fuel fuel x c)
    (fun out S' => forall c', out = Some c' -> tame S c c' /\ (g_crashed c' = false -> S' = S)).
Proof.
  intros Hg. unfold sender_thread. own_step.
  eapply owns_bind; [apply connect_peer_owns|]. intros [sock|] S1 Hy; [|by apply owns_ret].
  eapply owns_bind; [apply serve_owns; [done|by apply Hy]|]. intros [[n c1]|] S2 Ho; [|by apply owns_ret].
  apply owns_ret. intros c' [= <-]. by apply (Ho n c1).
Qed.
End ThreadSafe.
