(* ===== verification/History.v ===== *)
(** * Every history of the Linux client (linux/main.c)

    The steps of the client's threads - [main]'s loop, the WebSocket callback,
    the clipboard monitor, the transfer threads - in any order, as a relation
    on the globals and the kernel; what holds in every state they reach. *)

From S2P Require Import Prelude CString Double Codec Rfc4648 Crypto Config FtSocket FtProto FtAuth FtOs.
From S2P Require Import FtAddr FtNat FtLan RecvBuf Json JsonParse JsonPrint Msg Clip FileUri Client Threads.
From S2P Require Import ClientSafe.
From stdpp Require Import gmap relations.
Local Open Scope Z_scope.

(** ** The loops of [main] and of the monitor *)

(** [main] before [lws_service]: [jwt] is whether [ws_acquire_tokens]
    returned 0, [wsi] whether [lws_client_connect_via_info] gave a
    connection. *)
Definition main_connect (jwt wsi : bool) (c : Client) : Client :=
  if negb (g_connected c) && negb (g_wsi c) then
    let d := g_reconnect_delay c in
    let d2 := if d <? 60 then d * 2 else d in
    if negb jwt then set_delay d2 c
    else if wsi then set_session (g_authenticated c) (g_logged_in c) (g_connected c) true c
    else set_delay (if 60 <? d2 then 60 else d2) c
  else c.

(** The first read of [clipboard_monitor]. *)
Definition monitor_start (ops : ClipboardOps) `{Sha256} (c : Client) : Client :=
  match get_text ops with
  | Some initial => set_clip_hash (ft_sha256 (cstr initial)) c
  | None => c
  end.

(** ** The life of a transfer thread *)

(** [__sync_add_and_fetch(&g_xfer_active_count, 1)], the first thing a thread
    does. *)
Definition start_thread (i : nat) (c : Client) : option Client :=
  t ← g_threads c !! i;
  if th_running t then None
  else Some (set_active (g_xfer_active_count c + 1) (set_threads (<[i := MkThread (th_state t) true]> (g_threads c)) c)).

(** [free(st)] and [__sync_sub_and_fetch(&g_xfer_active_count, 1)]. *)
Definition finish_thread (i : nat) (c : Client) : Client :=
  set_active (g_xfer_active_count c - 1) (set_threads (delete i (g_threads c)) c).

Section History.
Context `{OL : OsLaws W} `{Base64Engine, Evp, Sha256, Hmac}.
Context (cfg : ClientConfig).

(** The body of a running thread; [None] while it has not ended. *)
Definition run_thread malloc_ok uninit (race_fuel fuel : nat) (ops : ClipboardOps) (i : nat) (c : Client)
    : st W (option Client) :=
  match g_threads c !! i with
  | Some (MkThread x true) =>
      out ← (if xf_is_sender x then sender_thread malloc_ok cfg race_fuel fuel x c
             else receiver_thread malloc_ok uninit cfg race_fuel ops x c);
      mret (finish_thread i <$> out)
  | _ => mret None
  end.

(** What is outside the program and may change from step to step. *)
Record Env := MkEnv {
  env_malloc_ok : Z -> bool; env_uninit : nat -> bytes; env_indet : nat -> Z;
  env_ops : ClipboardOps; env_now : Z; env_ifs : option (list ifaddr) }.

(** What may happen next: a turn of [main]'s loop, the cases of
    [ws_callback], the monitor's start, its events and the two halves of
    [process_clipboard_change] after its wait, the start and the end of
    transfer thread [i]. *)
Inductive event :=
| EConnect (jwt wsi : bool) | EMonitorStart | EEstablished | EDisconnected | EWrite
| EReceive (frag : bytes) (final : bool)
| EClipboard | EPrimary (data : option bytes) | ECheck | EOffer (uuid : bytes)
| EStart (i : nat) | EThread (i : nat) (race_fuel fuel : nat).

(** [None] for an event that cannot happen in this state. *)
Definition exec (env : Env) (e : event) (c : Client) : st W (option Client) :=
  let 'MkEnv malloc_ok uninit indet ops now ifs := env in
  match e with
  | EConnect jwt wsi => mret (Some (main_connect jwt wsi c))
  | EMonitorStart => mret (Some (monitor_start ops c))
  | EEstablished => mret (Some (on_established malloc_ok uninit cfg c))
  | EDisconnected => mret (Some (on_disconnected c))
  | EWrite => mret (Some (on_write malloc_ok c))
  | EReceive frag final => c' ← on_receive malloc_ok uninit indet cfg ops now ifs frag final c; mret (Some c')
  | EClipboard => mret (Some (on_clipboard_event malloc_ok uninit cfg ops now c))
  | EPrimary data => mret (Some (on_primary_event malloc_ok uninit cfg data now c))
  | ECheck => mret (Some (check_transfers c))
  | EOffer uuid => c' ← offer_pending malloc_ok uninit ifs uuid c; mret (Some c')
  | EStart i => mret (start_thread i c)
  | EThread i race_fuel fuel => run_thread malloc_ok uninit race_fuel fuel ops i c
  end.

(** A process that has crashed does nothing more. The kernel has a life of its
    own, but the client's descriptors are the client's. *)
Inductive step : Client * W -> Client * W -> Prop :=
| step_event env e c w c' w' :
    g_crashed c = false -> ops_ok (env_ops env) -> exec env e c w = (Some c', w') -> step (c, w) (c', w')
| step_kernel c w w' : open w' = open w -> step (c, w) (c, w').

(** A history, played from a state. *)
Fixpoint play (h : list (Env * event)) (s : Client * W) : option (Client * W) :=
  match h with
  | [] => Some s
  | (env, e) :: h =>
      if g_crashed s.1 then None
      else match exec env e s.1 s.2 with
           | (Some c, w) => play h (c, w)
           | (None, _) => None
           end
  end.

Lemma play_reaches h s s' :
  Forall (fun ee => ops_ok (env_ops ee.1)) h -> play h s = Some s' -> rtc step s s'.
Proof.
  revert s. induction h as [|[env e] h IH]; intros [c w] Hok; cbn [play fst snd]; [by intros [= <-]|].
  apply Forall_cons in Hok as [He Hok]. destruct (g_crashed c) eqn:Hc; [done|].
  destruct (exec env e c w) as [[c1|] w1] eqn:E; [|done]. intros Hp.
  eapply rtc_l; [by eapply step_event|]. by apply IH.
Qed.

(** ** The invariant *)

Section Invariant.
Context (base : gset Z).

Lemma main_connect_good S jwt wsi c : good base S c -> good base S (main_connect jwt wsi c).
Proof.
  intros Hg. pose proof (good_delay _ _ _ Hg) as Hd. unfold main_connect. destruct (_ && _); [|done].
  assert (Hdelay : forall d, In d delays -> good base S (set_delay d c)) by (intros; destruct c, Hg; by constructor).
  destruct jwt; cbn [negb]; [destruct wsi; [same_good c|]|]; apply Hdelay;
    repeat (destruct Hd as [<-|Hd]; [cbn; tauto|]); done.
Qed.

Lemma running_insert ts i x :
  ts !! i = Some (MkThread x false) -> running (<[i := MkThread x true]> ts) = running ts + 1.
Proof.
  intros Hi. unfold running. assert (Hlt : (i < length ts)%nat) by (by eapply lookup_lt_Some).
  rewrite insert_take_drop by done. rewrite <- (take_drop_middle _ _ _ Hi) at 3.
  rewrite !filter_app, !length_app. rewrite filter_cons_True, filter_cons_False by (cbn; congruence).
  cbn [length]. lia.
Qed.

Lemma receivers_insert ts i x b b' :
  ts !! i = Some (MkThread x b) -> receivers (<[i := MkThread x b']> ts) = receivers ts.
Proof.
  intros Hi. unfold receivers. rewrite list_fmap_insert. f_equal. apply list_insert_id.
  by rewrite list_lookup_fmap, Hi.
Qed.

Lemma threads_delete ts i x :
  ts !! i = Some (MkThread x true) ->
  running (delete i ts) = running ts - 1
  /\ receivers ts ≡ₚ (if xf_is_sender x then [] else [x]) ++ receivers (delete i ts).
Proof.
  intros Hi. pose proof (delete_Permutation _ _ _ Hi) as Hp. revert Hp. generalize (delete i ts) as us. intros us Hp. split.
  - unfold running. assert (Hf : filter (fun t => th_running t = true) ts ≡ₚ filter (fun t => th_running t = true) (MkThread x true :: us))
      by (by rewrite Hp). apply Permutation_length in Hf. rewrite Hf, filter_cons_True by done. cbn [length]. lia.
  - unfold receivers. rewrite Hp. cbn [map th_state]. destruct (xf_is_sender x) eqn:E.
    + rewrite filter_cons_False by congruence. done.
    + rewrite filter_cons_True by congruence. done.
Qed.

Lemma start_thread_good S i c c' : good base S c -> start_thread i c = Some c' -> good base S c'.
Proof.
  intros Hg. unfold start_thread. destruct (g_threads c !! i) as [[x [|]]|] eqn:Hi; cbn [mbind option_bind th_running th_state]; try done.
  intros [= <-]. pose proof (running_insert _ _ _ Hi) as Hr. pose proof (receivers_insert _ _ _ _ true Hi) as Hrc.
  assert (Hx : xfer_ok x) by (by apply (Forall_lookup_1 _ _ _ _ (good_threads _ _ _ Hg) Hi)).
  destruct c. destruct Hg. constructor; cbn in *; try done.
  - by apply Forall_insert.
  - lia.
  - unfold listeners in *. cbn [Client.g_threads Client.g_xfer] in *. by rewrite Hrc.
Qed.

Lemma finish_thread_good S S' i x c :
  good base S c -> g_threads c !! i = Some (MkThread x true) ->
  S' = (if xf_is_sender x then S else without (xf_listen_fd x) S) ->
  good base S' (finish_thread i c).
Proof.
  intros Hg Hi ->. destruct (threads_delete _ _ _ Hi) as [Hr Hp].
  pose proof (good_fds _ _ _ Hg) as Hh. unfold listeners in Hh. rewrite Hp, map_app in Hh.
  unfold finish_thread. destruct c. destruct Hg. constructor; cbn in *; try done.
  - by apply Forall_delete.
  - lia.
  - unfold listeners. cbn. destruct (xf_is_sender x); [done|].
    apply (held_drop base (xf_listen_fd x)). cbn in Hh. by rewrite (Permutation_swap _ (xf_listen_fd x)).
Qed.

Lemma receiver_listener S i x b c :
  good base S c -> g_threads c !! i = Some (MkThread x b) -> xf_is_sender x = false ->
  xf_listen_fd x <> FT_INVALID_SOCK -> xf_listen_fd x ∈ S.
Proof.
  intros Hg Hi Hs Hn. destruct (good_fds _ _ _ Hg) as (-> & _ & _).
  apply elem_of_union_r, elem_of_list_to_set. unfold valid, listeners.
  apply list_elem_of_filter. split; [done|]. right. apply list_elem_of_fmap. exists x. split; [done|].
  unfold receivers. apply list_elem_of_filter. split; [done|]. apply list_elem_of_fmap.
  exists (MkThread x b). split; [done|]. by eapply list_elem_of_lookup_2.
Qed.

Lemma run_thread_safe malloc_ok uninit race_fuel fuel ops i S c :
  good base S c ->
  owns S (run_thread malloc_ok uninit race_fuel fuel ops i c) (fun out S' => forall c', out = Some c' -> safe base c' S').
Proof.
  intros Hg. unfold run_thread. destruct (g_threads c !! i) as [[x [|]]|] eqn:Hi; try by apply owns_ret.
  assert (Hend : forall c1 S', tame base S c c1 ->
    (g_crashed c1 = false -> S' = if xf_is_sender x then S else without (xf_listen_fd x) S) ->
    safe base (finish_thread i c1) S').
  { intros c1 S' [Hc|(Hg1 & Ht & Hx)] HS.
    - left. unfold finish_thread. by destruct c1.
    - right. apply (finish_thread_good S _ i x); [done|by rewrite Ht|]. apply HS, Hg1. }
  eapply owns_bind with (R := fun out S' => forall c1, out = Some c1 -> tame base S c c1 /\
    (g_crashed c1 = false -> S' = if xf_is_sender x then S else without (xf_listen_fd x) S)).
  - destruct (xf_is_sender x) eqn:Es; [by apply sender_thread_owns|].
    eapply owns_conseq; [apply receiver_thread_owns; [done|]|].
    + by eapply receiver_listener.
    + cbn. intros out S' Ho c1 E. by destruct (Ho c1 E).
  - intros out S' Ho. apply owns_ret. intros c' E. destruct out as [c1|]; [|done].
    injection E as <-. destruct (Ho c1 eq_refl). by apply Hend.
Qed.

Lemma owns_some S (m : st W Client) :
  owns S m (safe base) -> owns S (c' ← m; mret (Some c')) (fun out S' => forall c', out = Some c' -> safe base c' S').
Proof. intros Hm. eapply owns_bind; [exact Hm|]. intros c' S' Hs. apply owns_ret. by intros ? [= <-]. Qed.

Lemma owns_now S c : safe base c S ->
  owns S (mret (Some c)) (fun out S' => forall c', out = Some c' -> safe base c' S').
Proof. intros Hs. apply owns_ret. by intros ? [= <-]. Qed.

Lemma exec_safe env e S c :
  max_transfer_size cfg <= INT_MAX -> ops_ok (env_ops env) -> good base S c ->
  owns S (exec env e c) (fun out S' => forall c', out = Some c' -> safe base c' S').
Proof.
  intros Hmax Hops Hg. destruct env as [malloc_ok uninit indet ops now ifs]. cbn [env_ops] in Hops.
  destruct e; cbn [exec]; try (apply owns_now); try (apply owns_some); try (by apply run_thread_safe).
  - right. by apply main_connect_good.
  - right. unfold monitor_start. destruct (get_text ops); eauto with sc.
  - by apply on_established_safe.
  - right. by apply on_disconnected_good.
  - right. by apply on_write_good.
  - by apply on_receive_safe.
  - unfold on_clipboard_event. destruct (negb _); [by right|]. destruct (is_suppressed _ _); [by right|].
    destruct (g_pending c); [by right|]. by apply process_clipboard_change_safe.
  - unfold on_primary_event. destruct (_ && _); [|by right]. by apply process_primary_change_safe.
  - right. by apply check_transfers_good.
  - by apply (offer_pending_safe malloc_ok uninit).
  - apply owns_ret. intros c' Hs. right. by eapply start_thread_good.
Qed.

Lemma steps_safe s s' :
  max_transfer_size cfg <= INT_MAX -> rtc step s s' -> safe base s.1 (open s.2) -> safe base s'.1 (open s'.2).
Proof.
  intros Hmax Hs. induction Hs as [s|s s1 s2 H12 _ IH]; [done|]. intros Hsafe. apply IH.
  destruct H12 as [env e c w c' w' Hrun Hops E|c w w' Ho]; cbn [fst snd] in *; [|by rewrite Ho].
  destruct Hsafe as [?|Hg]; [congruence|].
  pose proof (exec_safe env e _ c Hmax Hops Hg w eq_refl) as He. rewrite E in He. by apply He.
Qed.
End Invariant.

Lemma client_zero_good S d : 0 ∈ S -> good (S ∖ {[0]}) S (client_zero d).
Proof.
  intros Hin. constructor; cbn; try done; try lia; try (by split; left); try by left.
  - apply xfer_zero_ok.
  - unfold listeners. cbn. apply held_cons; [done|]. split; [set_solver|].
    replace ({[0]} ∪ S ∖ {[0]}) with S; [apply held_nil|]. apply set_eq. intros x.
    destruct (decide (x = 0)) as [->|]; set_solver.
Qed.
End History.

Lemma held_one_size S fd S' x : x ∈ S -> held (S ∖ {[x]}) [fd] S' -> (size S' <= size S)%nat.
Proof.
  intros Hx (-> & _ & _). rewrite size_union_alt.
  assert (Hs : size (S ∖ {[x]}) = (size S - 1)%nat).
  { rewrite size_difference by set_solver. by rewrite size_singleton. }
  assert (H1 : (1 <= size S)%nat).
  { apply Nat.neq_0_lt_0. intros E%size_empty_inv. set_solver. }
  enough (size ((list_to_set (FtAddr.valid [fd]) : gset Z) ∖ (S ∖ {[x]})) <= 1)%nat by lia.
  transitivity (size (list_to_set (FtAddr.valid [fd]) : gset Z)); [apply subseteq_size; set_solver|].
  unfold FtAddr.valid. destruct (decide (fd <> FT_INVALID_SOCK)).
  - rewrite filter_cons_True by done. transitivity (size ({[fd]} : gset Z)); [apply subseteq_size; set_solver|]. by rewrite size_singleton.
  - rewrite filter_cons_False by done. cbn. rewrite size_empty. lia.
Qed.

(** ** Property *)

(** C5: The globals of the client are consistent in every history.  Whatever
    the server sends, whatever the clipboard, the allocator, the disk and the
    network do, and however the threads interleave, a client that has not
    crashed keeps every array of [g_xfer] and of every transfer thread's copy
    terminated and in bounds, no live block besides [g_xfer.data], a count of
    active transfers that is the number of running threads, hashes that are
    SHA-256 texts or empty, flags that agree with the connection, and a
    reconnection delay among 1, 2, 4 ... 64 and 60; and its descriptors are
    exactly the listeners of [g_xfer] and of the receiver threads, each owned
    once: between transfers it has no more open than when it started. The
    zero that [g_xfer] starts with is taken for a listener: descriptor 0 is
    given up at the first transfer. *)
Theorem client_invariant `{OL : OsLaws W} `{Base64Engine, Evp, Sha256, Hmac} cfg disk (w0 w : W) c
    (Hmax : max_transfer_size cfg <= INT_MAX) (Hstdin : 0 ∈ open w0)
    (Hreach : rtc (step cfg) (client_zero disk, w0) (c, w)) :
  g_crashed c = true
  \/ good (open w0 ∖ {[0]}) (open w) c /\ (receivers (g_threads c) = [] -> (size (open w) <= size (open w0))%nat).
Proof.
  destruct (steps_safe cfg (open w0 ∖ {[0]}) _ _ Hmax Hreach) as [Hc|Hg]; [|by left|right].
  - right. by apply client_zero_good.
  - cbn [fst snd] in Hg. split; [done|]. intros Hr. pose proof (good_fds _ _ _ Hg) as Hh. unfold listeners in Hh. rewrite Hr in Hh.
    by apply (held_one_size _ _ _ _ Hstdin Hh).
Qed.

(** ** A concrete world *)

#[export] Instance toy_sha256 : Sha256.
Proof.
  refine {| sha256 d := replicate 32 (zb (fold_left (fun a b => 31 * a + bz b) d 5)) |}.
  intros d. apply length_replicate.
Defined.

Definition dq (s : bytes) : bytes := map (fun b => if beq b "'" then x22 else b) s.

(** A clipboard that holds a small PNG image. *)
Definition image_ops : ClipboardOps :=
  MkOps None (fun t => [MkPiped (str "xclip") t]) (fun _ => str "image/png")
    (fun mime => if bool_decide (mime = str "image/png") then Some (MkBlock (str "PNG!") 3) else None)
    (fun data mime => []) (fun path => []).

Lemma image_ops_ok : ops_ok image_ops.
Proof. intros mime b. cbn. case_match; [|done]. intros [= <-]. cbn. lia. Qed.

Definition calm_env : Env :=
  MkEnv (fun _ => true) (fun n => replicate n NUL) (fun _ => 0) image_ops 5000 None.

(** A peer that connects at once and answers the handshake. *)
Definition calm_kernel : Kernel :=
  {| net := {| out_ := ∅; in_ := {[4 := str "AKOK"]}; cut := fun _ => 0%nat; tick := 0; down := false |};
     fds := {[0; 1; 2]}; next_fd := 3; clock := 1000;
     ready := fun fd => if fd =? 4 then POLLOUT else 0; so_error := fun _ => 0; backlog := 0 |}.

Definition calm_config : ClientConfig := set_aes_key (strncpy (zeros 65) (replicate 64 "a"%byte) 64) config_set_defaults.

Definition notify : bytes :=
  dq (str "{'type':'file_notify','fileId':'f-2','fileName':'b.png','mimeType':'image/png','fileSize':3}").
Definition peer_info : bytes :=
  dq (str "{'type':'file_peer_info','fileId':'u-1','peerLocalAddresses':['10.0.0.2:9000'],'sameLan':true}").

(** An image is copied and offered; another device announces a file. *)
Definition calm_history : list (Env * event) :=
  map (pair calm_env)
    [EConnect true true; EEstablished; EWrite; EClipboard; ECheck; EOffer (str "u-1"); EReceive notify true].

Definition start_state : Client * Kernel := (client_zero (MkDisk ∅ (fun _ => true) 100), calm_kernel).

Lemma calm_env_ok l : Forall (fun ee => ops_ok (env_ops ee.1)) (map (pair calm_env) l : list (Env * event)).
Proof. induction l as [|e l IH]; [constructor|]. cbn [map]. constructor; [apply image_ops_ok|exact IH]. Qed.

(** The image is announced, then dropped for the file; the listener has become
    descriptor 3, and descriptor 0 is closed. *)
Lemma client_invariant_witness :
  match play calm_config calm_history start_state with
  | Some (c, w) =>
      (g_crashed c = true
       \/ good (fds calm_kernel ∖ {[0]}) (fds w) c
          /\ (receivers (g_threads c) = [] -> (size (fds w) <= size (fds calm_kernel))%nat))
      /\ g_crashed c = false /\ xf_listen_fd (g_xfer c) = 3 /\ bool_decide (0 ∈ fds w) = false
      /\ cstr (xf_file_id (g_xfer c)) = str "f-2" /\ length (g_send c) = 2%nat
  | None => False
  end.
Proof.
  destruct (play calm_config calm_history start_state) as [[c w]|] eqn:E.
  - split.
    + refine (client_invariant calm_config _ calm_kernel w c _ _ (play_reaches calm_config calm_history start_state _ _ E)).
      * vm_compute. discriminate.
      * apply (bool_decide_eq_true_1 (0 ∈ ({[0; 1; 2]} : gset Z))). vm_compute. reflexivity.
      * apply calm_env_ok.
    + revert E. vm_compute. intros E. injection E as <- <-. repeat split.
  - revert E. vm_compute. discriminate.
Defined.

(** ** A transfer replaced while it is sent *)

Lemma free_data_gone c l : xf_data (g_xfer c) = Some l -> g_heap (free_data c) !! l = None.
Proof.
  intros Hl. unfold free_data. rewrite Hl. destruct (g_heap c !! l) eqn:E; destruct c; cbn in *; [|done].
  by rewrite lookup_delete_eq.
Qed.

Lemma free_data_threads c : g_threads (free_data c) = g_threads c.
Proof. unfold free_data. destruct (xf_data _); [|done]. destruct (g_heap c !! _); by destruct c. Qed.

Lemma enqueue_frame malloc_ok m c :
  g_heap (enqueue malloc_ok m c) = g_heap c /\ g_threads (enqueue malloc_ok m c) = g_threads c.
Proof.
  unfold enqueue. destruct (negb _); [done|]. destruct m; [destruct (malloc_ok _)|]; by destruct c.
Qed.

(** C21: A new transfer pulls the data from under a running one.  When a
    [file_notify] arrives while a sender thread is still serving the image
    that [g_xfer] holds, the handler frees the block without looking at
    [g_xfer_active_count]; the thread keeps running with its copy of the
    pointer, and the next peer it serves makes it read freed memory. *)
Theorem notify_frees_data_being_sent `{Os W, Base64Engine} malloc_ok uninit cfg ifs j (c c' : Client) (w w' : W) l i x
    (Hlevel : 0 < effective_file_level cfg c) (Hdata : xf_data (g_xfer c) = Some l)
    (Hthread : g_threads c !! i = Some (MkThread x true)) (Hx : xf_data x = Some l)
    (Himage : hd NUL (xf_source_path x) = NUL)
    (Hrun : on_file_notify malloc_ok uninit cfg ifs j c w = (c', w')) :
  g_threads c' !! i = Some (MkThread x true)
  /\ forall (SO : SockOps W) sock (w1 : W), send_to_peer malloc_ok x sock c' w1 = None.
Proof.
  assert (Hc' : g_heap c' !! l = None /\ g_threads c' = g_threads c).
  { revert Hrun. unfold on_file_notify. destruct (_ <=? 0) eqn:E; boolify; [lia|].
    unfold mbind, st_bind, drop_xfer. unfold mbind, st_bind. destruct (ft_close _ w) as [u w1]. cbn.
    destruct (ft_start_server w1) as [[fd port] w2]. intros [= <- _].
    edestruct (enqueue_frame malloc_ok) as [-> ->].
    pose proof (free_data_gone c l Hdata) as Hf. pose proof (free_data_threads c) as Ht.
    by destruct (free_data c). }
  destruct Hc' as [Hh ->]. split; [done|]. intros S0 sock w1. unfold send_to_peer.
  rewrite Himage. cbn [negb]. by rewrite Hx, Hh.
Qed.

(** The image is being sent to the peer that asked for it; the notification
    comes; the peer connects; the process dies. *)
Definition stale_history : list (Env * event) :=
  map (pair calm_env)
    [EConnect true true; EEstablished; EWrite; EClipboard; ECheck; EOffer (str "u-1"); EReceive peer_info true; EStart 0].

(** What the witness computes: the state before the notification. *)
Lemma stale_state :
  match play calm_config stale_history start_state, cJSON_Parse (fun _ => true) (Some notify) with
  | Some (c, w), Some j =>
      match g_threads c !! 0%nat with
      | Some (MkThread x true) =>
          xf_data (g_xfer c) = Some 0%nat /\ xf_data x = Some 0%nat /\ hd NUL (xf_source_path x) = NUL
          /\ (0 <? effective_file_level calm_config c) = true
          /\ g_crashed (on_file_notify (fun _ => true) (fun n => replicate n NUL) calm_config None j c w).1 = false
      | _ => False
      end
  | _, _ => False
  end.
Proof. vm_compute. repeat split. Qed.

Lemma notify_frees_data_being_sent_witness :
  match play calm_config stale_history start_state, cJSON_Parse (fun _ => true) (Some notify) with
  | Some (c, w), Some j =>
      match on_file_notify (fun _ => true) (fun n => replicate n NUL) calm_config None j c w, g_threads c !! 0%nat with
      | (c', w'), Some (MkThread x true) =>
          (g_threads c' !! 0%nat = Some (MkThread x true)
           /\ forall (SO : SockOps Kernel) sock w1, send_to_peer (fun _ => true) x sock c' w1 = None)
          /\ g_crashed c' = false
      | _, _ => False
      end
  | _, _ => False
  end
  /\ option_map (fun s => g_crashed s.1)
       (play calm_config (stale_history ++ map (pair calm_env) [EReceive notify true; EThread 0 10 10]) start_state)
     = Some true.
Proof.
  split; [|vm_compute; reflexivity]. generalize stale_state.
  destruct (play calm_config stale_history start_state) as [[c w]|]; [|done].
  destruct (cJSON_Parse _ (Some notify)) as [j|]; [|done].
  destruct (g_threads c !! 0%nat) as [[x [|]]|] eqn:Et; [|done..].
  destruct (on_file_notify _ _ calm_config None j c w) as [c' w'] eqn:Er. intros (H1 & H2 & H3 & H4 & H5).
  split; [|exact H5].
  exact (notify_frees_data_being_sent _ _ calm_config None j c c' w w' 0%nat 0%nat x (proj1 (Z.ltb_lt _ _) H4) H1 Et H2 H3 Er).
Defined.
