(* ===== verification/WinSafe.v ===== *)
(** * Every history of the Windows client (windows/main.c)

    The invariant of [ClientSafe] holds of the globals the Windows client
    shares with the Linux one, whatever its threads, the window procedure and
    the other users of the clipboard do. *)

From S2P Require Import Prelude CString Double Codec Rfc4648 Crypto Config FtSocket FtProto FtAuth FtOs.
From S2P Require Import FtAddr FtNat FtLan RecvBuf Json JsonParse JsonPrint Msg Clip FileUri Client Threads.
From S2P Require Import ClientSafe History Dib WinClient.
From stdpp Require Import gmap relations.
Local Open Scope Z_scope.

(** What is found and not offered yet fits [uint64_t]. *)
Definition found_ok (p : option (WinChange * bool)) : Prop :=
  match p with Some (WFile _ _ data, _) => Z.of_nat (length data) < 2 ^ 64 | _ => True end.

Definition win_good (base S : gset Z) (c : WinClient) : Prop := good base S (shared c) /\ found_ok (found c).
Definition win_safe (base : gset Z) (c : WinClient) (S : gset Z) : Prop :=
  g_crashed (shared c) = true \/ win_good base S c.

Section WinSafe.
Context `{OL : OsLaws W} `{Base64Engine, Evp, Sha256, Hmac} `{Win32, StbLaws}.
Context (base : gset Z).

Lemma lift_safe S f c : win_good base S c -> safe base (f (shared c)) S -> win_safe base (lift f c) S.
Proof. destruct c. intros [_ Hp] [Hc|Hg]; [by left|by right]. Qed.

Lemma lift_good S f c : win_good base S c -> good base S (f (shared c)) -> win_good base S (lift f c).
Proof. destruct c. intros [_ Hp] Hg. by split. Qed.

Lemma place_good S snap x c : win_good base S c -> win_good base S (place snap x c).
Proof. by destruct c. Qed.

Lemma set_suppress_next_good S v c : win_good base S c -> win_good base S (set_suppress_next v c).
Proof. by destruct c. Qed.

Lemma set_file_hash_good S v c : win_good base S c -> win_good base S (set_file_hash v c).
Proof. by destruct c. Qed.

Lemma set_found_good S p c : win_good base S c -> found_ok p -> win_good base S (set_found p c).
Proof. destruct c. intros [Hg _] Hp. by split. Qed.

Hint Resolve place_good set_suppress_next_good set_file_hash_good set_found_good : sc.

Section Handlers.
Context (malloc_ok : Z -> bool) (uninit : nat -> bytes) (cfg : ClientConfig).

(** Delivering keeps the threads and the transfer, too. *)
Definition win_tame (S : gset Z) (c c' : WinClient) : Prop :=
  tame base S (shared c) (shared c') /\ found c' = found c.

Lemma lift_tame S f c c' :
  win_tame S c c' -> (tame base S (shared c) (shared c') -> tame base S (shared c) (f (shared c'))) ->
  win_tame S c (lift f c').
Proof. destruct c'. intros [Ht Hf] Hl. split; [by apply Hl|done]. Qed.

Lemma win_deliver_tame S snap mime name data c :
  win_good base S c -> win_tame S c (win_deliver malloc_ok snap mime name data c).
Proof.
  intros Hg. unfold win_deliver. set (c1 := set_suppress_next true c).
  assert (Ht : win_tame S c c1) by (destruct c; split; [apply tame_refl, Hg|done]).
  assert (Hpl : forall x c', win_tame S c c' -> win_tame S c (place snap x c')) by (by intros x []).
  destruct (match mime with Some _ => _ | None => _ end).
  - unfold win_set_image. destruct (clipboard_set_image _ _); [by apply Hpl|done|].
    apply lift_tame; [done|]. intros _. left. by destruct (shared c1).
  - unfold win_set_file. destruct (fopen_wb _ _); [|done]. apply Hpl, lift_tame; [done|apply set_disk_tame].
Qed.

Lemma tame_safe S c c' : win_good base S c -> win_tame S c c' -> win_safe base c' S.
Proof. intros [Hg Hf] [[Hc|(Hg' & _)] Hp]; [by left|right]. split; [done|by rewrite Hp]. Qed.

Lemma win_on_established_safe S c : good base S c -> safe base (win_on_established malloc_ok uninit cfg c) S.
Proof.
  intros Hg. unfold win_on_established. apply enqueue_safe. destruct c, Hg. constructor; cbn in *; auto; lia.
Qed.

Lemma win_on_clipboard_good S indet snap j c :
  win_good base S c -> win_good base S (win_on_clipboard malloc_ok indet cfg snap j c).
Proof.
  intros Hg. unfold win_on_clipboard. destruct (str_field j "content"); [|done].
  destruct (decrypt _ _ _ _); [|done]. apply place_good, lift_good; [eauto with sc|].
  destruct c. apply set_clip_hash_good; [apply Hg|apply hash_ok_sha256].
Qed.

(** Freeing before closing makes no difference. *)
Lemma win_drop_xfer_owns S c :
  good base S c ->
  owns S (win_drop_xfer c) (fun c' S' => c' = set_heap ∅ c /\ held base (map xf_listen_fd (receivers (g_threads c))) S').
Proof.
  intros Hg w Hw. pose proof (drop_xfer_owns base S c Hg w Hw) as Ho. revert Ho.
  unfold win_drop_xfer, drop_xfer, mbind, st_bind.
  rewrite (free_data_good _ _ _ Hg). replace (g_xfer (set_heap ∅ c)) with (g_xfer c) by by destruct c.
  by destruct (ft_close _ w).
Qed.

Lemma win_on_file_notify_safe S ifs j c :
  good base S c -> owns S (win_on_file_notify malloc_ok uninit cfg ifs j c) (safe base).
Proof.
  intros Hg. unfold win_on_file_notify. destruct (_ <=? 0); [apply owns_ret; by right|].
  eapply owns_bind; [by apply win_drop_xfer_owns|]. intros c1 S1 [-> Hh].
  eapply owns_bind; [apply ft_start_server_owns|]. intros [fd port] S2 Hy. apply owns_ret.
  apply enqueue_safe. apply (install_good _ S _ _ ∅ c Hg).
  - constructor; cbn; try (by apply arr_opt_copy; lia); try (by apply arr_zeros; lia);
      try apply replicate_addrs_ok; try apply u64_of_range; try apply int_of_range; lia.
  - cbn. by rewrite dom_empty_L.
  - cbn [xf_listen_fd]. by eapply held_new.
Qed.

Lemma win_on_file_peer_info_good S j c : good base S c -> good base S (win_on_file_peer_info malloc_ok cfg j c).
Proof.
  intros Hg. unfold win_on_file_peer_info. destruct (peer_info_ignored j c); [done|].
  destruct (with_peer_frame cfg j c) as (Hd & Hl & _).
  pose proof (spawn_good base S _ c Hg (with_peer_ok cfg j c (good_xfer _ _ _ Hg)) Hd Hl) as [H1' H2'].
  destruct (malloc_ok WIN_SIZEOF_XFER); [|done]. destruct (xf_is_sender _); [done|].
  by replace (g_threads (set_xfer (set_listen_fd FT_INVALID_SOCK (with_peer cfg j c)) (set_xfer (with_peer cfg j c) c)))
    with (g_threads (set_xfer (with_peer cfg j c) c)) by by destruct c.
Qed.

Lemma win_on_relay_data_safe S snap j c :
  win_good base S c -> win_safe base (win_on_relay_data malloc_ok uninit snap j c) S.
Proof.
  intros Hg. unfold win_on_relay_data. destruct (str_field j "data"); [|by right].
  destruct (ft_base64_decode malloc_ok _); [|by right]. eapply tame_safe; [exact Hg|].
  apply lift_tame; [by apply win_deliver_tame|]. intros Ht. by apply enqueue_tame.
Qed.

Lemma on_shared_safe S f c :
  win_good base S c -> owns S (f (shared c)) (safe base) -> owns S (on_shared f c) (win_safe base).
Proof.
  intros Hg Hf. unfold on_shared. eapply owns_bind; [exact Hf|]. intros c' S' Hs. apply owns_ret.
  destruct c, Hg. destruct Hs; [by left|by right].
Qed.

Lemma win_dispatch_safe S indet snap ifs type j c :
  win_good base S c -> owns S (win_dispatch malloc_ok uninit indet cfg snap ifs type j c) (win_safe base).
Proof.
  intros Hg. unfold win_dispatch. pose proof (proj1 Hg) as Hc.
  repeat match goal with
  | |- owns _ (if ?b then _ else _) _ => destruct b
  | |- owns _ (mret _) _ => apply owns_ret
  end; try (by right).
  - right. apply lift_good; [done|]. unfold on_hello_ack. destruct (cJSON_GetObjectItem _ _); eauto with sc.
  - right. by apply win_on_clipboard_good.
  - apply on_shared_safe; [done|]. by apply win_on_file_notify_safe.
  - right. apply lift_good; [done|]. by apply win_on_file_peer_info_good.
  - apply lift_safe; [done|]. by apply on_relay_request_safe.
  - by apply win_on_relay_data_safe.
Qed.

Lemma win_on_receive_safe S indet snap ifs frag final c :
  win_good base S c -> owns S (win_on_receive malloc_ok uninit indet cfg snap ifs frag final c) (win_safe base).
Proof.
  intros Hg. unfold win_on_receive. destruct (good_recv _ _ _ (proj1 Hg)) as [Hb Hc].
  destruct (on_fragment malloc_ok frag final _) as [r b] eqn:E.
  destruct (on_fragment_recv_ok _ _ _ _ _ _ Hb Hc E) as [Hb' Hc'].
  assert (win_good base S (lift (set_recv b) c)) by (apply lift_good; [done|apply set_recv_good; [apply Hg|done|done]]).
  destruct r as [| |data|]; try (apply owns_ret; by right).
  - destruct (cJSON_Parse malloc_ok _) as [j|]; [|apply owns_ret; by right].
    destruct (str_field j "type"); [by apply win_dispatch_safe|apply owns_ret; by right].
  - apply owns_ret. left. by destruct c as [[]].
Qed.

(** ** The window procedure *)

Lemma win_change_text_safe S snap c : win_good base S c -> win_safe base (win_change_text malloc_ok uninit cfg snap c) S.
Proof.
  intros Hg. unfold win_change_text. destruct (clipboard_get _ _); [|by right]. destruct (_ =? _)%nat; [by right|].
  apply lift_safe; [done|]. apply offer_text_safe, Hg.
Qed.

Lemma read_back_length content : (forall n, length (uninit n) = n) -> length (read_back uninit content) = length content.
Proof. intros Hu. unfold read_back. rewrite length_app, length_drop, Hu, length_take. lia. Qed.

Lemma win_change_file_safe S snap c :
  (forall n, length (uninit n) = n) -> max_transfer_size cfg <= INT_MAX ->
  win_good base S c -> win_safe base (win_change_file malloc_ok uninit cfg snap c) S.
Proof.
  intros Hu Hmax Hg. unfold win_change_file. case_match; [|by apply win_change_text_safe].
  destruct (files _ !! _) as [content|]; [|by right]. destruct (_ || _) eqn:E; [by right|]. boolify.
  destruct (ft_sha256_file (Some content)) as [h|]; [|left; by destruct c as [[]]].
  case_bool_decide; [by right|]. right. destruct (malloc_ok _); [|eauto with sc].
  apply set_found_good; [eauto with sc|]. cbn. rewrite read_back_length by done. unfold INT_MAX in *. lia.
Qed.

Lemma on_clipboard_changed_safe S snap c :
  (forall n, length (uninit n) = n) -> max_transfer_size cfg <= INT_MAX ->
  win_good base S c -> win_safe base (on_clipboard_changed malloc_ok uninit cfg snap c) S.
Proof.
  intros Hu Hmax Hg. unfold on_clipboard_changed. destruct (negb _); [by right|].
  destruct (g_suppress_next c); [right; eauto with sc|].
  destruct (_ && _); [|by apply win_change_file_safe].
  destruct (clipboard_get_image _ _) as [img| |]; [|by apply win_change_file_safe|left; by destruct c as [[]]].
  case_bool_decide; [by right|]. right. apply set_found_good; [|done]. apply lift_good; [done|].
  apply set_img_hash_good; [apply Hg|apply hash_ok_sha256].
Qed.

Lemma win_check_transfers_good S c : win_good base S c -> win_good base S (win_check_transfers c).
Proof.
  intros Hg. unfold win_check_transfers. pose proof (proj2 Hg) as Hp.
  destruct (found c) as [[ch []]|]; [done| |done]. destruct (0 <? _); apply set_found_good; done.
Qed.

Lemma win_offer_safe S S' ifs uuid name mime checksum data c :
  Z.of_nat (length data) < 2 ^ 64 -> good base S c -> held base (map xf_listen_fd (receivers (g_threads c))) S' ->
  owns S' (win_offer malloc_ok uninit ifs uuid name mime checksum data (set_heap ∅ c)) (safe base).
Proof.
  intros Hl Hg Hh. unfold win_offer.
  eapply owns_bind; [apply ft_start_server_owns|]. intros [fd port] S2 Hy. apply owns_ret.
  unfold send_offer. apply enqueue_safe.
  set (l := fresh (dom (g_heap (set_heap ∅ c)))).
  replace (set_heap (<[l:=data]> (g_heap (set_heap ∅ c))) (set_heap ∅ c)) with (set_heap {[l := data]} c) by by destruct c.
  apply (install_good _ S _ _ {[l := data]} c Hg).
  - constructor; cbn; try (by apply arr_copy; lia); try (by apply arr_zeros; lia);
      try apply replicate_addrs_ok; unfold INT_MIN, INT_MAX; lia.
  - cbn. by rewrite dom_singleton_L.
  - cbn [xf_listen_fd]. by eapply held_new.
Qed.

Lemma offered_nothing_good S S' uuid c :
  good base S c -> held base (map xf_listen_fd (receivers (g_threads c))) S' ->
  good base S' (set_xfer (offered_nothing uuid) (set_heap ∅ c)).
Proof.
  intros Hg Hh. apply (install_good _ S _ _ ∅ c Hg).
  - constructor; cbn; try (by apply arr_copy; lia); try (by apply arr_zeros; lia);
      try apply replicate_addrs_ok; unfold INT_MIN, INT_MAX; lia.
  - cbn. by rewrite dom_empty_L.
  - cbn [xf_listen_fd offered_nothing]. by apply held_invalid.
Qed.

Lemma win_offer_found_safe S ifs uuid c :
  win_good base S c -> owns S (win_offer_found malloc_ok uninit ifs uuid c) (win_safe base).
Proof.
  intros Hg. unfold win_offer_found. pose proof (proj2 Hg) as Hp.
  destruct (found c) as [[ch []]|]; [|apply owns_ret; by right..].
  apply on_shared_safe; [by apply set_found_good|]. destruct c as [s ? ? ? ?]. cbn [shared set_found]. destruct Hg as [Hs _].
  eapply owns_bind; [by apply win_drop_xfer_owns|]. intros c1 S1 [-> Hh].
  destruct ch as [img|path hash data].
  - destruct (bmp_to_png malloc_ok uninit img) as [png| |] eqn:E.
    + apply (win_offer_safe S); [|done|done]. apply bmp_to_png_size in E. unfold INT_MAX in *. lia.
    + apply owns_ret. right. by apply (offered_nothing_good S).
    + apply owns_ret. left. by destruct s.
  - by apply (win_offer_safe S).
Qed.
End Handlers.

(** ** Transfer threads *)

Section ThreadSafe.
Context (malloc_ok : Z -> bool) (uninit : nat -> bytes) (cfg : ClientConfig).

Lemma recv_file_open max sock info (w : W) r i w' :
  ft_recv_file malloc_ok max sock info w = (r, i, w') -> open w' = open w.
Proof.
  unfold ft_recv_file. intros E. destruct (recv_header max sock info w) as [[r1 i1] w1] eqn:E1.
  apply recv_header_open in E1. destruct r1; [|by simplify_eq]. destruct (negb _); [by simplify_eq|].
  destruct (ft_recv_all sock _ w1) as [r2 w2] eqn:E2. apply recv_all_open in E2. destruct r2; simplify_eq; congruence.
Qed.

Lemma win_receive_owns S T snap x conn_ms sock c :
  win_good base S c ->
  owns T (win_receive malloc_ok uninit cfg snap x conn_ms sock c) (fun r T' => win_tame S c r.2 /\ T' = T).
Proof.
  intros Hg. unfold win_receive. own_step.
  assert (Hrefl : win_tame S c c) by (split; [apply tame_refl, Hg|done]).
  eapply owns_bind with (R := fun _ T' => T' = T).
  { intros w <-. destruct (ft_recv_file _ _ _ _ w) as [[r i] w1] eqn:E. by apply recv_file_open in E. }
  intros [rc info] T' ->. destruct rc; [|by apply owns_ret]. destruct (data info); [|by apply owns_ret].
  own_step. apply owns_ret. split; [|done]. apply lift_tame; [by apply win_deliver_tame|].
  intros Ht. by apply enqueue_tame.
Qed.

Lemma win_receiver_thread_owns S fuel snap x c :
  win_good base S c -> (xf_listen_fd x <> FT_INVALID_SOCK -> xf_listen_fd x ∈ S) ->
  owns S (win_receiver_thread malloc_ok uninit cfg fuel snap x c)
    (fun out S' => forall c', out = Some c' -> win_tame S c c' /\ S' = without (xf_listen_fd x) S).
Proof.
  intros Hg Hfd. unfold win_receiver_thread. own_step.
  assert (Hrefl : win_tame S c c) by (split; [apply tame_refl, Hg|done]).
  eapply owns_bind; [apply connect_peer_owns|]. intros [sock|] S1 Hy; [|by apply owns_ret].
  specialize (Hy sock eq_refl). own_step.
  eapply owns_bind with (R := fun r S' => win_tame S c r.2 /\ S' = S).
  { destruct (sock =? FT_INVALID_SOCK) eqn:E; boolify.
    - apply owns_ret. split; [done|]. by destruct Hy as [[_ ->]|[? _]].
    - eapply owns_bind; [by apply win_receive_owns|]. intros [ok c1] S2 [Ht ->].
      apply (owns_close_new S); [done|]. by apply owns_ret. }
  intros [success c1] S2 [Ht ->]. cbn [snd] in Ht.
  eapply owns_bind with (R := fun c2 S' => win_tame S c c2 /\ S' = S).
  { destruct success; [by apply owns_ret|]. own_step. apply owns_ret. split; [|done].
    apply lift_tame; [done|]. intros. by apply report_failure_tame. }
  intros c2 S2 [Ht' ->]. apply owns_close; [done|]. apply owns_ret. by intros c' [= <-].
Qed.

Lemma sender_thread_func_owns S race_fuel fuel x c :
  win_good base S c ->
  owns S (sender_thread_func malloc_ok cfg race_fuel fuel x c)
    (fun out S' => forall c', out = Some c' -> win_tame S c c' /\ (g_crashed (shared c') = false -> S' = S)).
Proof.
  intros Hg. unfold sender_thread_func.
  eapply owns_bind; [by apply sender_thread_owns, Hg|]. intros [s|] S' Ho; apply owns_ret; intros c' E; [|done].
  destruct (Ho s eq_refl) as [Ht HS]. destruct c. injection E as <-. by split.
Qed.
End ThreadSafe.
End WinSafe.
