(* ===== verification/WinHistory.v ===== *)
(** * Every history of the Windows client (windows/main.c)

    The steps of [ws_thread], of the window procedure and of the transfer
    threads, in any order, and the invariant of [WinSafe] over all of them. *)

From S2P Require Import Prelude CString Double Codec Rfc4648 Crypto Config FtSocket FtProto FtAuth FtOs.
From S2P Require Import FtAddr FtNat FtLan RecvBuf Json JsonParse JsonPrint Msg Clip FileUri Client Threads.
From S2P Require Import ClientSafe History Dib WinClient WinSafe.
From stdpp Require Import gmap relations.
Local Open Scope Z_scope.

Section WinHistory.
Context `{OL : OsLaws W} `{Base64Engine, Evp, Sha256, Hmac} `{Win32, StbLaws}.
Context (cfg : ClientConfig).

(** The body of a running thread; [None] while it has not ended. *)
Definition win_run_thread malloc_ok uninit (race_fuel fuel : nat) (snap : Snapshot) (i : nat) (c : WinClient)
    : st W (option WinClient) :=
  match g_threads (shared c) !! i with
  | Some (MkThread x true) =>
      out ← (if xf_is_sender x then sender_thread_func malloc_ok cfg race_fuel fuel x c
             else win_receiver_thread malloc_ok uninit cfg race_fuel snap x c);
      mret (lift (finish_thread i) <$> out)
  | _ => mret None
  end.

(** What is outside the program and may change from step to step. *)
Record WinEnv := MkWinEnv {
  win_malloc_ok : Z -> bool; win_uninit : nat -> bytes; win_indet : nat -> Z;
  win_snap : Snapshot; win_ifs : option (list ifaddr) }.

(** What may happen next: a turn of [ws_thread]'s loop, the cases of
    [ws_callback], WM_DRAWCLIPBOARD and the two halves of its handler after
    the wait, the start and the end of transfer thread [i]. *)
Inductive win_event :=
| WConnect (jwt wsi : bool) | WEstablished | WDisconnected | WWrite | WReceive (frag : bytes) (final : bool)
| WDrawClipboard | WCheck | WOffer (uuid : bytes)
| WStart (i : nat) | WThread (i : nat) (race_fuel fuel : nat).

(** [None] for an event that cannot happen in this state: the window
    procedure takes one message at a time. *)
Definition win_exec (env : WinEnv) (e : win_event) (c : WinClient) : st W (option WinClient) :=
  let 'MkWinEnv malloc_ok uninit indet snap ifs := env in
  match e with
  | WConnect jwt wsi => mret (Some (lift (main_connect jwt wsi) c))
  | WEstablished => mret (Some (lift (win_on_established malloc_ok uninit cfg) c))
  | WDisconnected => mret (Some (lift on_disconnected c))
  | WWrite => mret (Some (lift (on_write malloc_ok) c))
  | WReceive frag final =>
      c' ← win_on_receive malloc_ok uninit indet cfg snap ifs frag final c; mret (Some c')
  | WDrawClipboard =>
      match found c with
      | None => mret (Some (on_clipboard_changed malloc_ok uninit cfg snap c))
      | Some _ => mret None
      end
  | WCheck => mret (Some (win_check_transfers c))
  | WOffer uuid => c' ← win_offer_found malloc_ok uninit ifs uuid c; mret (Some c')
  | WStart i => mret ((fun s => lift (fun _ => s) c) <$> start_thread i (shared c))
  | WThread i race_fuel fuel => win_run_thread malloc_ok uninit race_fuel fuel snap i c
  end.

(** Memory that is not initialised is memory, all the same. *)
Definition env_ok (env : WinEnv) : Prop := forall n, length (win_uninit env n) = n.

Inductive win_step : WinClient * W -> WinClient * W -> Prop :=
| win_step_event env e c w c' w' :
    g_crashed (shared c) = false -> env_ok env -> win_exec env e c w = (Some c', w') -> win_step (c, w) (c', w')
| win_step_kernel c w w' : open w' = open w -> win_step (c, w) (c, w').

(** A history, played from a state. *)
Fixpoint win_play (h : list (WinEnv * win_event)) (s : WinClient * W) : option (WinClient * W) :=
  match h with
  | [] => Some s
  | (env, e) :: h =>
      if g_crashed (shared s.1) then None
      else match win_exec env e s.1 s.2 with
           | (Some c, w) => win_play h (c, w)
           | (None, _) => None
           end
  end.

Lemma win_play_reaches h s s' :
  Forall (fun ee => env_ok ee.1) h -> win_play h s = Some s' -> rtc win_step s s'.
Proof.
  revert s. induction h as [|[env e] h IH]; intros [c w] Hok; cbn [win_play fst snd]; [by intros [= <-]|].
  apply Forall_cons in Hok as [He Hok]. destruct (g_crashed (shared c)) eqn:Hc; [done|].
  destruct (win_exec env e c w) as [[c1|] w1] eqn:E; [|done]. intros Hp.
  eapply rtc_l; [by eapply win_step_event|]. by apply IH.
Qed.

Section Invariant.
Context (base : gset Z).

(** A step that may not happen. *)
Definition win_after (out : option WinClient) (S : gset Z) : Prop := forall c, out = Some c -> win_safe base c S.

Lemma owns_after_now S c : win_safe base c S -> owns S (mret (Some c)) win_after.
Proof. intros Hs. apply owns_ret. by intros ? [= <-]. Qed.

Lemma owns_after S (m : st W WinClient) : owns S m (win_safe base) -> owns S (c' ← m; mret (Some c')) win_after.
Proof. intros Hm. eapply owns_bind; [exact Hm|]. intros c' S' Hs. by apply owns_after_now. Qed.

Lemma win_run_thread_safe malloc_ok uninit race_fuel fuel snap i S c :
  win_good base S c -> owns S (win_run_thread malloc_ok uninit race_fuel fuel snap i c) win_after.
Proof.
  intros Hg. unfold win_run_thread. destruct (g_threads (shared c) !! i) as [[x [|]]|] eqn:Hi; try by apply owns_ret.
  set (left_fds := fun c1 : WinClient => if xf_is_sender x then S else without (xf_listen_fd x) S).
  assert (Hend : forall c1 S', win_tame base S c c1 -> (g_crashed (shared c1) = false -> S' = left_fds c1) ->
    win_safe base (lift (finish_thread i) c1) S').
  { intros c1 S' [[Hc|(Hg1 & Ht & _)] Hf] HS.
    - left. by destruct c1 as [[]].
    - right. apply (finish_thread_good base S S' i x (shared c1)) in Hg1; [|by rewrite Ht|apply HS, Hg1].
      destruct c1. split; [done|]. cbn in Hf |- *. rewrite Hf. apply Hg. }
  eapply owns_bind with (R := fun out S' => forall c1, out = Some c1 -> win_tame base S c c1 /\
    (g_crashed (shared c1) = false -> S' = left_fds c1)).
  - unfold left_fds. destruct (xf_is_sender x) eqn:Es; [by apply sender_thread_func_owns|].
    eapply owns_conseq; [apply win_receiver_thread_owns; [done|]|].
    + eapply receiver_listener; [apply Hg|done|done].
    + cbn. intros out S' Ho c1 E. by destruct (Ho c1 E).
  - intros out S' Ho. apply owns_ret. intros c' E. destruct out as [c1|]; [|done].
    injection E as <-. destruct (Ho c1 eq_refl). by apply Hend.
Qed.

Lemma win_exec_safe env e S c :
  max_transfer_size cfg <= INT_MAX -> env_ok env -> win_good base S c -> owns S (win_exec env e c) win_after.
Proof.
  intros Hmax Henv Hg. destruct env as [malloc_ok uninit indet snap ifs]. unfold env_ok in Henv. cbn in Henv.
  destruct e; cbn [win_exec]; try (apply owns_after_now); try (apply owns_after); try (by apply win_run_thread_safe).
  - right. apply lift_good; [done|]. apply main_connect_good, Hg.
  - apply lift_safe; [done|]. apply win_on_established_safe, Hg.
  - right. apply lift_good; [done|]. apply on_disconnected_good, Hg.
  - right. apply lift_good; [done|]. apply on_write_good, Hg.
  - by apply win_on_receive_safe.
  - destruct (found c); [by apply owns_ret|]. apply owns_after_now. by apply on_clipboard_changed_safe.
  - right. by apply win_check_transfers_good.
  - by apply win_offer_found_safe.
  - apply owns_ret. intros c'. destruct (start_thread i (shared c)) as [s|] eqn:E; [|done]. intros [= <-].
    right. apply lift_good; [done|]. eapply start_thread_good; [apply Hg|done].
Qed.

Lemma win_steps_safe s s' :
  max_transfer_size cfg <= INT_MAX -> rtc win_step s s' -> win_safe base s.1 (open s.2) -> win_safe base s'.1 (open s'.2).
Proof.
  intros Hmax Hs. induction Hs as [s|s s1 s2 H12 _ IH]; [done|]. intros Hsafe. apply IH.
  destruct H12 as [env e c w c' w' Hrun Henv E|c w w' Ho]; cbn [fst snd] in *; [|by rewrite Ho].
  destruct Hsafe as [?|Hg]; [congruence|].
  pose proof (win_exec_safe env e _ c Hmax Henv Hg w eq_refl) as He. rewrite E in He. by apply He.
Qed.
End Invariant.
End WinHistory.

Lemma win_zero_good S d : 0 ∈ S -> win_good (S ∖ {[0]}) S (win_zero d).
Proof. intros Hin. split; [by apply client_zero_good|done]. Qed.

(** ** Property *)


(** ** A concrete world *)

#[export] Instance toy_win32 : Win32 := {| utf8_of := map zb; wide_of := map bz |}.

(** The clipboard holds the picture of an [images_cross_clipboards] example. *)
Definition picture_snap : Snapshot :=
  MkSnap None true (match clipboard_set_image (fun _ => true) toy_png with Converted d => Some d | _ => None end)
    false None true (str "C:\Temp\").

Definition win_calm_env : WinEnv := MkWinEnv (fun _ => true) (fun n => replicate n NUL) (fun _ => 0) picture_snap None.

Definition win_calm_history : list (WinEnv * win_event) :=
  map (pair win_calm_env)
    [WConnect true true; WEstablished; WWrite; WDrawClipboard; WCheck; WOffer (str "u-1"); WReceive notify true].

Definition win_start : WinClient * Kernel := (win_zero (MkDisk ∅ (fun _ => true) 100), calm_kernel).

Lemma win_calm_env_ok l : Forall (fun ee => env_ok ee.1) (map (pair win_calm_env) l : list (WinEnv * win_event)).
Proof. induction l as [|e l IH]; [constructor|]. cbn [map]. constructor; [intros n; apply length_replicate|exact IH]. Qed.

