(* ===== verification/WinMain.v ===== *)
(** * Start-up of the Windows client and its place among the viewers (windows/main.c)

    What [main] does with its arguments, the registry entry that starts the
    client at logon, and [WndProc]: the client is one of the clipboard
    viewers, windows that pass on to each other what the system tells the
    first of them.  The calls of Win32 do what their documentation says;
    every other viewer is taken to follow the documented protocol, which
    [WndProc] is an instance of. *)

From stdpp Require Import gmap.
From S2P Require Import Prelude CString WinClient.
Local Open Scope Z_scope.

(** ** [main] *)

Inductive Command := CInstall | CUninstall | CRun (cfg : bytes).

(** The two loops over [argv], from [argv[1]] on. *)
Fixpoint win_command (args : list bytes) : option Command :=
  match args with
  | [] => None
  | a :: args =>
      if bool_decide (cstr a = str "--install") then Some CInstall
      else if bool_decide (cstr a = str "--uninstall") then Some CUninstall
      else win_command args
  end.
Definition win_cfg (args : list bytes) : bytes :=
  default (str "config.ini") (List.find (fun a => negb (bool_decide (hd NUL a = "-"%byte))) args).
Definition win_main (args : list bytes) : Command := default (CRun (win_cfg args)) (win_command args).

(** What [SetCurrentDirectoryA] is given, if it is called. *)
Definition set_exe_directory (exe_path : bytes) : option bytes :=
  last_sep ← strrchr exe_path "\"; Some (take last_sep (cstr exe_path)).

(** ** The registry entry *)

(** The value [SyncClipboard] of the key [Run], the processes with the names
    of their files, and the command lines [CreateProcessA] started. *)
Record Host := MkHost { run_value : option bytes; processes : list (Z * bytes); launched : list bytes }.

(** What the system allows. *)
Record Rights := MkRights { can_open_key : bool; can_write : bool; can_create : bool; can_kill : Z -> bool }.

Definition quoted (exe_path : bytes) : bytes := [x22] ++ cstr exe_path ++ [x22].

Definition install_autostart (r : Rights) (exe_path : bytes) (h : Host) : Z * Host :=
  let cmd := quoted exe_path in
  if negb (can_open_key r) then (1, h)
  else if negb (can_write r) then (1, h)
  else
    let h := MkHost (Some cmd) (processes h) (launched h) in
    (0, if can_create r then MkHost (run_value h) (processes h) (launched h ++ [cmd]) else h).

Definition exe_name (my_name : bytes) : bytes :=
  match strrchr my_name "\" with Some i => drop (S i) (cstr my_name) | None => cstr my_name end.

Definition kill_other_instances (r : Rights) (my_pid : Z) (my_name : bytes) (h : Host) : Host :=
  MkHost (run_value h)
    (List.filter (fun p => negb (negb (p.1 =? my_pid) && strcaseeq p.2 (exe_name my_name) && can_kill r p.1)) (processes h))
    (launched h).

(** [RegDeleteValueA] fails when there is no value. *)
Definition uninstall_autostart (r : Rights) (my_pid : Z) (my_name : bytes) (h : Host) : Z * Host :=
  let h := kill_other_instances r my_pid my_name h in
  if negb (can_open_key r) then (1, h)
  else match run_value h with
  | Some _ => if can_write r then (0, MkHost None (processes h) (launched h)) else (1, h)
  | None => (1, h)
  end.

(** ** The chain of viewers *)

Inductive message := WM_CHANGECBCHAIN (w l : Z) | WM_DRAWCLIPBOARD | WM_DESTROY | WM_OTHER.

(** The window the system notifies (0 for none), [g_next_clipboard_viewer] of
    every viewer, and the calls of [on_clipboard_changed]. *)
Record Desktop := MkDesktop { first_viewer : Z; next_viewer : gmap Z Z; notified : list Z }.

(** The calls of Win32 that keep the chain; [send] is [SendMessage]. *)
Class Viewing := {
  SetClipboardViewer : Z -> Desktop -> Z * Desktop;
  ChangeClipboardChain : (Z -> message -> Desktop -> option Desktop) -> Z -> Z -> Desktop -> option Desktop }.

(** A new viewer is the first and gets the handle of the next one; when a
    window leaves, the first of the others is told, or is the new first. *)
Class ViewingLaws `{Viewing} := {
  viewer_set : forall h d, SetClipboardViewer h d = (first_viewer d, MkDesktop h (next_viewer d) (notified d));
  first_removed : forall send next d,
    ChangeClipboardChain send (first_viewer d) next d = Some (MkDesktop next (next_viewer d) (notified d));
  other_removed : forall send h next d, first_viewer d <> h -> first_viewer d <> 0 ->
    ChangeClipboardChain send h next d = send (first_viewer d) (WM_CHANGECBCHAIN h next) d }.

Section Procedure.
Context `{Viewing}.
(** [SendMessage], synchronous. *)
Variable send : Z -> message -> Desktop -> option Desktop.

Definition WndProc (hwnd : Z) (msg : message) (d : Desktop) : option Desktop :=
  let next := default 0 (next_viewer d !! hwnd) in
  match msg with
  | WM_CHANGECBCHAIN w l =>
      if w =? next then Some (MkDesktop (first_viewer d) (<[hwnd := l]> (next_viewer d)) (notified d))
      else if negb (next =? 0) then send next msg d
      else Some d
  | WM_DRAWCLIPBOARD =>
      let d := MkDesktop (first_viewer d) (next_viewer d) (notified d ++ [hwnd]) in
      if negb (next =? 0) then send next msg d else Some d
  | WM_DESTROY => ChangeClipboardChain send hwnd next d
  | WM_OTHER => Some d
  end.
End Procedure.

(** The procedure of the window is called. [None]: a message that is passed
    on for ever. *)
Fixpoint SendMessage `{Viewing} (fuel : nat) (hwnd : Z) (msg : message) (d : Desktop) : option Desktop :=
  match fuel with O => None | S fuel => WndProc (SendMessage fuel) hwnd msg d end.

(** A viewer starts, ends, or the clipboard changes. *)
Inductive viewer_event := VJoin (h : Z) | VLeave (h : Z) | VChange.

Definition viewer_fuel (d : Desktop) : nat := S (S (size (next_viewer d))).

(** The end of [main]'s set-up. *)
Definition join_viewers `{Viewing} (hwnd : Z) (d : Desktop) : Desktop :=
  let '(next, d) := SetClipboardViewer hwnd d in MkDesktop (first_viewer d) (<[hwnd := next]> (next_viewer d)) (notified d).

Definition viewer_step `{Viewing} (d : Desktop) (e : viewer_event) : option Desktop :=
  match e with
  | VJoin h => Some (join_viewers h d)
  | VLeave h =>
      d ← SendMessage (viewer_fuel d) h WM_DESTROY d;
      Some (MkDesktop (first_viewer d) (delete h (next_viewer d)) (notified d))
  | VChange => if first_viewer d =? 0 then Some d else SendMessage (viewer_fuel d) (first_viewer d) WM_DRAWCLIPBOARD d
  end.

Fixpoint viewer_steps `{Viewing} (d : Desktop) (es : list viewer_event) : option Desktop :=
  match es with [] => Some d | e :: es => d ← viewer_step d e; viewer_steps d es end.

(** ** What the chain promises *)

(** From window [h] on, the viewers are [ws]. *)
Fixpoint linked (h : Z) (ws : list Z) (nx : gmap Z Z) : Prop :=
  match ws with
  | [] => h = 0
  | w :: ws => h = w /\ w <> 0 /\ exists n, nx !! w = Some n /\ linked n ws nx
  end.

(** The viewers, the last to join first, and who is told of each change. *)
Definition viewers : Type := list Z * list Z.
Definition viewers_step '((ws, log) : viewers) (e : viewer_event) : viewers :=
  match e with
  | VJoin h => (h :: ws, log)
  | VLeave h => (List.filter (fun w => negb (w =? h)) ws, log)
  | VChange => (ws, log ++ ws)
  end.

(** A window joins once, and only a viewer leaves. *)
Definition event_ok (ws : list Z) (e : viewer_event) : Prop :=
  match e with VJoin h => h <> 0 /\ h ∉ ws | VLeave h => h ∈ ws | VChange => True end.
Fixpoint events_ok (s : viewers) (es : list viewer_event) : Prop :=
  match es with [] => True | e :: es => event_ok s.1 e /\ events_ok (viewers_step s e) es end.

(** The windows on the desktop are the viewers. *)
Definition in_chain (d : Desktop) '((ws, log) : viewers) : Prop :=
  linked (first_viewer d) ws (next_viewer d) /\ NoDup ws /\ dom (next_viewer d) = list_to_set ws /\ notified d = log.

Lemma linked_frame nx h v ws : h ∉ ws -> forall f, linked f ws nx -> linked f ws (<[h := v]> nx).
Proof.
  induction ws as [|w ws IH]; intros Hh f; cbn [linked]; [done|]. apply not_elem_of_cons in Hh as [Hne Hh]. intros (-> & H0 & n & Hn & Hl).
  split; [done|]. split; [done|]. exists n. split; [by rewrite lookup_insert_ne|by apply IH].
Qed.

Lemma linked_delete nx h ws : h ∉ ws -> forall f, linked f ws nx -> linked f ws (delete h nx).
Proof.
  induction ws as [|w ws IH]; intros Hh f; cbn [linked]; [done|]. apply not_elem_of_cons in Hh as [Hne Hh]. intros (-> & H0 & n & Hn & Hl).
  split; [done|]. split; [done|]. exists n. split; [by rewrite lookup_delete_ne|by apply IH].
Qed.

Section Chain.
Context {VW : Viewing} {VL : ViewingLaws}.

(** A change reaches every viewer once, in the order of the chain. *)
Lemma draw_reaches nx f : forall ws fuel h seen, linked h ws nx -> ws <> [] -> (length ws <= fuel)%nat ->
  SendMessage fuel h WM_DRAWCLIPBOARD (MkDesktop f nx seen) = Some (MkDesktop f nx (seen ++ ws)).
Proof.
  induction ws as [|w ws IH]; intros [|fuel] h seen Hl Hne Hf; cbn [length] in Hf; try lia; [done|done|].
  cbn [SendMessage WndProc next_viewer first_viewer notified]. destruct Hl as (-> & H0 & n & Hn & Hl). rewrite Hn. cbn [default from_option id].
  destruct ws as [|v ws]; [by rewrite (Hl : n = 0)|]. pose proof Hl as (-> & Hv & _). rewrite (proj2 (Z.eqb_neq v 0) Hv). cbn [negb].
  rewrite IH by (done || (cbn [length] in *; lia)). by rewrite <- app_assoc.
Qed.

(** The window before the one to remove takes its successor over. *)
Lemma removal_reaches f w l nx seen post : linked w (w :: post) nx -> nx !! w = Some l -> forall pre p fuel h,
  linked h (pre ++ p :: w :: post) nx -> NoDup (pre ++ p :: w :: post) -> (length pre < fuel)%nat ->
  SendMessage fuel h (WM_CHANGECBCHAIN w l) (MkDesktop f nx seen) = Some (MkDesktop f (<[p := l]> nx) seen).
Proof.
  intros Hw Hwl. induction pre as [|v pre IH]; intros p [|fuel] h Hl Hnd Hf; cbn [length] in Hf; try lia;
    cbn [SendMessage WndProc next_viewer first_viewer notified]; destruct Hl as (-> & H0 & n & Hn & Hl); rewrite Hn; cbn [default from_option id].
  - destruct Hl as (-> & _). by rewrite Z.eqb_refl.
  - apply NoDup_cons in Hnd as [Hv Hnd]. assert (Hhead : exists u us, pre ++ p :: w :: post = u :: us /\ u <> w).
    { destruct pre as [|u pre]; cbn [app]; eexists _, _; (split; [done|]); apply NoDup_cons in Hnd as [Hu _]; set_solver. }
    destruct Hhead as (u & us & Hus & Hne). pose proof Hl as Hl'. rewrite Hus in Hl'. destruct Hl' as (-> & Hu0 & _).
    rewrite (proj2 (Z.eqb_neq w u)), (proj2 (Z.eqb_neq u 0)) by done. cbn [negb]. apply IH; [done|done|lia].
Qed.

(** The chain without a window that is not the first. *)
Lemma linked_removed nx w l post : nx !! w = Some l -> forall pre p h, linked h (pre ++ p :: w :: post) nx -> NoDup (pre ++ p :: w :: post) ->
  linked h (pre ++ p :: post) (delete w (<[p := l]> nx)).
Proof.
  intros Hwl. induction pre as [|v pre IH]; intros p h Hl Hnd.
  - destruct Hl as (-> & H0 & n & Hn & (-> & Hw0 & n2 & Hn2 & Hl)). rewrite Hwl in Hn2. injection Hn2 as <-.
    apply NoDup_cons in Hnd as [Hp Hnd]. apply NoDup_cons in Hnd as [Hw Hnd]. apply not_elem_of_cons in Hp as [Hpw Hp].
    cbn [app linked]. split; [done|]. split; [done|]. exists l. split; [by rewrite lookup_delete_ne, lookup_insert_eq|].
    by apply linked_delete, linked_frame.
  - destruct Hl as (-> & H0 & n & Hn & Hl). cbn [app] in Hnd. apply NoDup_cons in Hnd as [Hv Hnd].
    cbn [app linked]. split; [done|]. split; [done|]. exists n. split; [|by apply IH].
    rewrite lookup_delete_ne, lookup_insert_ne; [done|set_solver|set_solver].
Qed.

Lemma filter_absent (h : Z) l : h ∉ l -> List.filter (fun w => negb (w =? h)) l = l.
Proof.
  induction l as [|w l IH]; intros Hh; [done|]. apply not_elem_of_cons in Hh as [Hne Hh]. cbn [List.filter].
  rewrite (proj2 (Z.eqb_neq w h)) by done. cbn [negb]. by rewrite IH.
Qed.

Lemma linked_lookup nx a : forall ws h, linked h ws nx -> a ∈ ws -> exists n, nx !! a = Some n.
Proof.
  induction ws as [|w ws IH]; intros h Hl Ha; [by apply elem_of_nil in Ha|]. destruct Hl as (-> & _ & n & Hn & Hl).
  apply elem_of_cons in Ha as [->|Ha]; [by exists n|by apply (IH n)].
Qed.

Lemma linked_from nx : forall pre h w post, linked h (pre ++ w :: post) nx -> linked w (w :: post) nx.
Proof.
  induction pre as [|v pre IH]; intros h w post Hl; [by pose proof Hl as (-> & _)|]. destruct Hl as (_ & _ & n & _ & Hl). by apply (IH n).
Qed.

Lemma chain_size d s : in_chain d s -> size (next_viewer d) = length s.1.
Proof.
  destruct s as [ws log]. intros (_ & Hnd & Hdom & _). cbn [fst]. rewrite <- size_dom, Hdom. by apply size_list_to_set.
Qed.

Lemma join_refines d s h : in_chain d s -> event_ok s.1 (VJoin h) -> exists d', viewer_step d (VJoin h) = Some d' /\ in_chain d' (viewers_step s (VJoin h)).
Proof.
  destruct s as [ws log]. intros (Hl & Hnd & Hdom & Hlog) [H1 Hh]. cbn [fst] in *. eexists. split; [done|]. unfold join_viewers. rewrite viewer_set.
  cbn [viewers_step in_chain first_viewer next_viewer notified linked]. split_and!; [done|done| |by constructor|set_solver|done].
  exists (first_viewer d). split; [by rewrite lookup_insert_eq|by apply linked_frame].
Qed.

Lemma change_refines d s : in_chain d s -> exists d', viewer_step d VChange = Some d' /\ in_chain d' (viewers_step s VChange).
Proof.
  intros Hs. pose proof (chain_size d s Hs) as Hsize. destruct s as [ws log]. destruct Hs as (Hl & Hnd & Hdom & Hlog). cbn [fst] in Hsize. unfold viewer_step, viewers_step.
  destruct ws as [|w ws].
  - rewrite (Hl : first_viewer d = 0). cbn [Z.eqb]. exists d. rewrite app_nil_r. done.
  - pose proof Hl as (Hf & H0 & _). rewrite (proj2 (Z.eqb_neq (first_viewer d) 0)) by congruence. destruct d as [f nx seen]. cbn [first_viewer next_viewer notified] in *.
    rewrite (draw_reaches nx f (w :: ws)) by (done || (unfold viewer_fuel; cbn [next_viewer]; lia)). eexists. split; [done|]. cbn. by rewrite Hlog.
Qed.

Lemma leave_refines d s h : in_chain d s -> event_ok s.1 (VLeave h) -> exists d', viewer_step d (VLeave h) = Some d' /\ in_chain d' (viewers_step s (VLeave h)).
Proof.
  intros Hs. pose proof (chain_size d s Hs) as Hsize. destruct s as [ws log]. destruct Hs as (Hl & Hnd & Hdom & Hlog). cbn [fst event_ok] in *. intros Hh.
  destruct (linked_lookup _ _ _ _ Hl Hh) as [n Hn]. destruct d as [f nx seen]. cbn [first_viewer next_viewer notified] in *.
  unfold viewer_step, viewer_fuel. cbn [next_viewer]. assert (Hfuel : (size nx < S (size nx))%nat) by lia. revert Hfuel. generalize (S (size nx)) as fuel. intros fuel Hfuel.
  cbn [SendMessage WndProc next_viewer first_viewer]. rewrite Hn. cbn [default from_option id].
  apply list_elem_of_split in Hh as (pre & post & ->).
  assert (Hdom' : forall nx' : gmap Z Z, dom nx' = list_to_set (pre ++ h :: post) -> dom (delete h nx') = (list_to_set (pre ++ post) : gset Z)).
  { intros nx' Hd. rewrite dom_delete_L, Hd. apply NoDup_app in Hnd as (_ & Hpre & Hpost). apply NoDup_cons in Hpost as [Hpost _]. specialize (Hpre h). set_solver. }
  assert (Hfilter : List.filter (fun w => negb (w =? h)) (pre ++ h :: post) = pre ++ post).
  { apply NoDup_app in Hnd as (_ & Hpre & Hpost). apply NoDup_cons in Hpost as [Hpost _]. rewrite List.filter_app. cbn [List.filter]. rewrite Z.eqb_refl. cbn [negb].
    rewrite !filter_absent; [done|done|set_solver]. }
  assert (Hnd' : NoDup (pre ++ post)).
  { rewrite <- Hfilter. apply NoDup_ListNoDup, List.NoDup_filter. by apply NoDup_ListNoDup. }
  cbn [viewers_step]. rewrite Hfilter. destruct pre as [|v pre _] using rev_ind.
  - destruct Hl as (-> & _ & m & Hm & Hl). rewrite Hn in Hm. injection Hm as <-.
    rewrite (first_removed (SendMessage fuel) n (MkDesktop h nx seen)). eexists. split; [done|].
    cbn [in_chain first_viewer next_viewer notified app]. split_and!; [|done|by apply (Hdom' nx)|done]. apply linked_delete; [|done]. by apply NoDup_cons in Hnd as [? _].
  - rewrite <- app_assoc in Hl, Hnd. cbn [app] in Hl, Hnd.
    assert (Hfh : f <> h /\ f <> 0).
    { destruct pre as [|u pre]; cbn [app] in Hl, Hnd; destruct Hl as (-> & H0 & _); (split; [|done]); apply NoDup_cons in Hnd as [Hu _]; set_solver. }
    rewrite other_removed by apply Hfh. cbn [first_viewer].
    assert (Hw : linked h (h :: post) nx) by (apply (linked_from nx (pre ++ [v]) f); by rewrite <- app_assoc).
    rewrite (removal_reaches f h n nx seen post Hw Hn pre v) by (done || (rewrite !length_app in Hsize; cbn [length] in Hsize; lia)).
    cbn [mbind option_bind]. eexists. split; [done|]. cbn [in_chain first_viewer next_viewer notified]. rewrite <- app_assoc. cbn [app].
    split_and!; [by apply linked_removed|by rewrite <- app_assoc in Hnd'| |done].
    rewrite (Hdom' (<[v := n]> nx)); [by rewrite <- app_assoc|]. rewrite dom_insert_L, Hdom, <- app_assoc. set_solver.
Qed.

Lemma viewer_step_refines d s e : in_chain d s -> event_ok s.1 e -> exists d', viewer_step d e = Some d' /\ in_chain d' (viewers_step s e).
Proof. destruct e; [apply join_refines|apply leave_refines|intros ? _; by apply change_refines]. Qed.

Definition desktop_start : Desktop := MkDesktop 0 ∅ [].

(** C36: However the viewers come and go, none is lost and none is told twice.
    In every history in which windows that run [WndProc] join the chain,
    leave it and the clipboard changes, every message comes to an end and
    each change is handled exactly once by exactly those who joined and have
    not left, the last to join first. *)
Theorem viewers_notified es : events_ok ([], []) es ->
  exists d, viewer_steps desktop_start es = Some d /\ notified d = (foldl viewers_step ([], []) es).2
    /\ in_chain d (foldl viewers_step ([], []) es).
Proof.
  assert (Hgen : forall es d s, in_chain d s -> events_ok s es -> exists d', viewer_steps d es = Some d' /\ in_chain d' (foldl viewers_step s es)).
  { clear es. induction es as [|e es IH]; intros d s Hs Hok; cbn [viewer_steps foldl]; [by exists d|]. destruct Hok as [He Hok].
    destruct (viewer_step_refines d s e Hs He) as (d' & -> & Hs'). cbn [mbind option_bind]. by apply IH. }
  intros Hok. destruct (Hgen es desktop_start ([], [])) as (d & Hd & Hs); [|done|].
  - cbn. split_and!; [done|apply NoDup_nil_2|by rewrite dom_empty_L|done].
  - exists d. split; [done|]. split; [|done]. destruct (foldl viewers_step ([], []) es) as [ws log]. by destruct Hs as (_ & _ & _ & ->).
Qed.

End Chain.

(** The calls as documented. *)
#[export] Instance documented_viewing : Viewing := {|
  SetClipboardViewer h d := (first_viewer d, MkDesktop h (next_viewer d) (notified d));
  ChangeClipboardChain send h next d :=
    if first_viewer d =? h then Some (MkDesktop next (next_viewer d) (notified d))
    else if first_viewer d =? 0 then Some d
    else send (first_viewer d) (WM_CHANGECBCHAIN h next) d |}.

#[export] Instance documented_viewing_laws : ViewingLaws.
Proof.
  split; cbn; [done|by intros; rewrite Z.eqb_refl|].
  intros send h next d Hh H0. by rewrite (proj2 (Z.eqb_neq _ _) Hh), (proj2 (Z.eqb_neq _ _) H0).
Qed.

Lemma viewers_notified_witness :
  let es := [VJoin 10; VJoin 20; VJoin 30; VChange; VLeave 20; VChange; VLeave 30; VChange] in
  exists d, viewer_steps desktop_start es = Some d /\ notified d = [30; 20; 10; 30; 10; 10].
Proof.
  cbv zeta. destruct (viewers_notified [VJoin 10; VJoin 20; VJoin 30; VChange; VLeave 20; VChange; VLeave 30; VChange]) as (d & Hd & Hn & _).
  - cbn. repeat split; try set_solver; try lia.
  - exists d. split; [exact Hd|]. rewrite Hn. reflexivity.
Defined.

(** ** The entry for the logon *)

(** What [--install] sets up [--uninstall] takes away: the entry, and every
    other process of the same program, whatever its letters' case. *)
Lemma autostart_removed r pid exe h :
  can_open_key r = true -> can_write r = true -> (forall p, can_kill r p = true) ->
  let '(rc1, h1) := install_autostart r exe h in
  let '(rc2, h2) := uninstall_autostart r pid exe h1 in
  rc1 = 0 /\ run_value h1 = Some (quoted exe) /\ rc2 = 0 /\ run_value h2 = None
  /\ forall p, In p (processes h2) <-> In p (processes h) /\ (p.1 = pid \/ strcaseeq p.2 (exe_name exe) = false).
Proof.
  intros Ho Hw Hk. unfold install_autostart, uninstall_autostart. rewrite Ho, Hw. cbn [negb].
  assert (Hin : forall p : Z * bytes, In p (List.filter (fun p => negb (negb (p.1 =? pid) && strcaseeq p.2 (exe_name exe) && can_kill r p.1)) (processes h))
    <-> In p (processes h) /\ (p.1 = pid \/ strcaseeq p.2 (exe_name exe) = false)).
  { intros p. by rewrite List.filter_In, Hk, andb_true_r, negb_true_iff, andb_false_iff, negb_false_iff, Z.eqb_eq. }
  by destruct (can_create r).
Qed.
