(* ===== verification/Sync.v ===== *)
(** * Text from one Linux client to another

    The monitor of one device, the wire format, the cipher, the reassembly of
    fragments and the WebSocket handler of another device, put together. *)

From S2P Require Import Prelude CString Double Codec Rfc4648 Crypto Config FtSocket FtProto FtOs FtAddr.
From S2P Require Import RecvBuf Json JsonParse JsonPrint Msg Clip FileUri Client ClientSafe History.
From stdpp Require Import gmap.
Local Open Scope Z_scope.

(** ** Keys are C strings *)

Lemma sc_hex_to_bytes_cstr s n : sc_hex_to_bytes (cstr s) n = sc_hex_to_bytes s n.
Proof. unfold sc_hex_to_bytes, strlen. by rewrite cstr_idemp. Qed.

Lemma aes_gcm_encrypt_cstr `{Base64Engine, Evp} malloc_ok p key :
  aes_gcm_encrypt malloc_ok p (cstr key) = aes_gcm_encrypt malloc_ok p key.
Proof. unfold aes_gcm_encrypt. by rewrite sc_hex_to_bytes_cstr. Qed.

Lemma aes_gcm_decrypt_cstr `{Base64Engine, Evp} malloc_ok s key :
  aes_gcm_decrypt malloc_ok s (cstr key) = aes_gcm_decrypt malloc_ok s key.
Proof. unfold aes_gcm_decrypt. by rewrite sc_hex_to_bytes_cstr. Qed.

(** What [config_load] accepts as [aes_key]. *)
Definition key_ok (cfg : ClientConfig) : Prop :=
  xdigits (cstr (aes_key cfg)) /\ strlen (aes_key cfg) = 64%nat.

(** ** The clipboard message *)

Definition MAX_TEXT : Z := 2 ^ 24.

Section Text.
Context `{Base64Laws, EvpLaws, Sha256}.
Context (malloc_ok : Z -> bool) (uninit : nat -> bytes).
Hypothesis malloc_all : forall n, malloc_ok n = true.
Hypothesis uninit_length : forall n, length (uninit n) = n.
Hypothesis evp_all : forall c, evp_ok c = true.

(** A text as the queue holds it, and what it says. *)
Lemma clipboard_message cfg p :
  key_ok cfg -> Z.of_nat (length p) <= MAX_TEXT ->
  exists enc text root,
    aes_gcm_encrypt malloc_ok p (aes_key cfg) = Some enc
    /\ aes_gcm_decrypt malloc_ok enc (aes_key cfg) = Some p
    /\ build_clipboard_msg malloc_ok uninit (Some enc) = Some text
    /\ cJSON_Parse malloc_ok (Some (cstr text)) = Some root
    /\ str_field root "type" = Some (str "clipboard") /\ str_field root "content" = Some enc.
Proof.
  intros [Hk Hkl] Hp.
  destruct (gcm_text malloc_ok p (cstr (aes_key cfg)) malloc_all evp_all Hk Hkl) as (enc & He & Hsh & Hd).
  { unfold GCM_OVERHEAD, GCM_NONCE_LEN, GCM_TAG_LEN, FRAME_MAX, MAX_TEXT in *. lia. }
  specialize (Hd id 0%nat (or_introl eq_refl) (Nat.le_0_l _)).
  rewrite Nat.sub_0_r, take_ge, map_id, aes_gcm_decrypt_cstr in Hd by lia.
  rewrite aes_gcm_encrypt_cstr in He.
  pose proof (b64_shape_no_nul _ _ Hsh) as Hn. pose proof (b64_shape_length _ _ Hsh) as Hl.
  assert (Hok : message_ok (MClipboard enc)) by (split; [by repeat constructor|done]).
  assert (Hf : fields_ok (fields (MClipboard enc))) by (split; [apply fields_keys|apply Hok]).
  destruct (unformatted_all malloc_ok uninit malloc_all (fields (MClipboard enc)) Hf uninit_length)
    as (text & root & Ht & Hr & Hfs).
  { pose proof (render_message_length _ Hf) as Hm.
    assert (Hs : (message_size (fields (MClipboard enc)) <= 6 * length enc + 200)%nat).
    { unfold message_size, fields. cbn [map list_sum fold_right field_size].
      change (length (str "type")) with 4%nat. change (length (str "content")) with 7%nat.
      change (length (str "clipboard")) with 9%nat. lia. }
    unfold GCM_OVERHEAD, GCM_NONCE_LEN, GCM_TAG_LEN, MAX_TEXT, INT_MAX in *. dlia. }
  exists enc, text, root. split_and!; [done|done| | |apply Forall_cons in Hfs; apply Hfs|].
  - pose proof (build_fields malloc_ok uninit (MClipboard enc) malloc_all Hok) as Hb. cbn [build] in Hb.
    by rewrite Hb.
  - unfold cJSON_Parse, cJSON_ParseWithOpts in *. by rewrite cstr_idemp.
  - apply Forall_cons in Hfs as [_ Hfs]. apply Forall_cons in Hfs. apply Hfs.
Qed.

Lemma enqueue_all m c : enqueue malloc_ok (Some m) c = set_send (g_send c ++ [cstr m]) c.
Proof. unfold enqueue. by rewrite !malloc_all. Qed.

(** ** Receiving *)

Context `{Os W}.

Lemma on_receive_whole indet cfg ops now ifs m root (c : Client) (w : W) :
  recv_ok (g_recv c) -> 0 <= g_recv_cap (g_recv c) -> g_recv_buf (g_recv c) = [] ->
  Z.of_nat (length m) <> g_recv_cap (g_recv c) -> cJSON_Parse malloc_ok (Some m) = Some root ->
  exists cap, on_receive malloc_ok uninit indet cfg ops now ifs m true c w
    = match str_field root "type" with
      | Some type => dispatch malloc_ok uninit indet cfg ops now ifs type root (set_recv (MkRecv [] cap) c) w
      | None => (set_recv (MkRecv [] cap) c, w)
      end.
Proof.
  intros Hb Hc He Hn Hp. unfold on_receive.
  destruct (on_fragment_spec malloc_ok m true (g_recv c) Hb Hc malloc_all) as (cap & _ & _ & _ & _ & ->).
  rewrite He. cbn [app]. destruct (_ =? _) eqn:E; boolify; [done|]. exists cap.
  unfold on_text. rewrite Hp. by destruct (str_field root "type").
Qed.
End Text.

(** ** Property *)


(** The clipboard of the sender holds a text; that of the receiver prints what
    it is given. *)
Definition text_ops (text : bytes) : ClipboardOps :=
  MkOps (Some text) (fun t => [MkPiped (str "xclip") t]) (fun _ => []) (fun _ => None) (fun _ _ => []) (fun _ => []).

Definition text_client : Client := client_zero (MkDisk ∅ (fun _ => true) 0).

