(* ===== verification/Deliver.v ===== *)
(** * What a receiver thread delivers (linux/main.c, receiver_thread) *)

From S2P Require Import Prelude CString Double Codec Rfc4648 Crypto Config FtSocket FtProto FtAuth FtOs.
From S2P Require Import FtAddr FtNat FtLan RecvBuf Json JsonParse JsonPrint Msg Clip FileUri Client Threads.
From S2P Require Import ClientSafe History.
From stdpp Require Import gmap.
Local Open Scope Z_scope.

Section Deliver.
Context `{SO : SockOps W, SL : !SockLaws W, O : Os W, OL : !OsLaws W} `{Base64Engine, Sha256, Hmac}.
Context (malloc_ok : Z -> bool) (uninit : nat -> bytes) (cfg : ClientConfig) (ops : ClipboardOps).
Hypothesis malloc_all : forall n, malloc_ok n = true.

(** The client after a file with these bytes has been delivered: [c1] is [c]
    with the clipboard fed, the hash recorded and the monitor held back. *)
Record delivered (x : TransferState) (data : bytes) (c c1 : Client) : Prop := {
  del_hash : g_last_img_hash c1 = ft_sha256 data;
  del_text_hash : g_last_clip_hash c1 = g_last_clip_hash c;
  del_suppress : exists now, g_suppress_until_ms c1 = now + 2000;
  del_send : g_send c1 = g_send c;
  del_clipboard :
    let path := tmp_path (xf_file_name x) in
    if is_image (xf_mime_type x)
    then g_piped c1 = g_piped c ++ set_image ops data (xf_mime_type x)
         /\ files (g_disk c1) = delete path (files (g_disk c))
    else g_piped c1 = g_piped c ++ set_file ops path /\ files (g_disk c1) = <[path := data]> (files (g_disk c)) }.

Lemma deliver_file_delivered now x data d c :
  let path := tmp_path (xf_file_name x) in
  files d = <[path := data]> (files (g_disk c)) ->
  delivered x data c (deliver_file malloc_ok ops now x path (Z.of_nat (length data)) (set_disk d c)).
Proof.
  cbv zeta. set (path := tmp_path (xf_file_name x)). intros Hd.
  assert (Hf : files d !! path = Some data) by (rewrite Hd; apply lookup_insert_eq).
  assert (Hsha : ft_sha256_file (Some data) = Some (ft_sha256 data)).
  { unfold ft_sha256_file, ft_sha256. by rewrite digest_chunks_spec by lia. }
  unfold deliver_file. replace (g_disk (set_disk d c)) with d by by destruct c. rewrite Hf, Hsha.
  destruct (is_image (xf_mime_type x)) eqn:Ei.
  - rewrite malloc_all, Nat2Z.id, take_ge, Z.eqb_refl by lia. cbn [andb].
    destruct c. constructor; cbn; rewrite ?Ei; eauto. split; [done|]. fold path. rewrite Hd. apply delete_insert_eq.
  - destruct c. constructor; cbn; rewrite ?Ei; eauto.
Qed.

Lemma delete_files_id path d d0 :
  d = d0 \/ files d = delete path (files d0) -> files d = files d0 \/ files d = delete path (files d0).
Proof. intros [->|?]; auto. Qed.

(** The connected part: a whole file, or nothing but perhaps a file less. *)
Lemma receive_file_spec x conn_ms t_conn sock c w ok c' w' :
  receive_file malloc_ok uninit cfg ops x conn_ms t_conn sock c w = ((ok, c'), w') ->
  let path := tmp_path (xf_file_name x) in
  if ok then exists data c1 xfer,
       1 <= Z.of_nat (length data) <= ft_max_size cfg
       /\ (exists fid w1, incoming w sock = frame fid (Z.of_nat (length data)) data ++ incoming w1 sock)
       /\ delivered x data c c1
       /\ c' = enqueue malloc_ok (build_transfer_result malloc_ok uninit (Some (cstr (xf_file_id x)))
                 (Some (str "p2p")) true conn_ms xfer) c1
  else exists d, c' = set_disk d c
       /\ (files d = files (g_disk c) \/ files d = delete path (files (g_disk c))).
Proof.
  cbv zeta. unfold receive_file. set (path := tmp_path (xf_file_name x)).
  pose proof (recv_to_path_spec malloc_ok (ft_max_size cfg) sock file_zero path w (g_disk c) (malloc_all _)) as Hs.
  destruct (ft_recv_file_to_path _ _ _ _ _ w _) as [[[r info] w1] d]. destruct r as [[]|].
  - destruct Hs as (fid & data & Hfid & Hlen & Hin & Hsize & Hd).
    destruct (ft_now_ms w1) as [t_end w2]. destruct (ft_now_ms w2) as [now w3]. intros [= <- <- _].
    eexists data, _, _. split_and!; [lia|lia|by exists fid, w1| |done].
    rewrite Hsize. by apply deliver_file_delivered.
  - intros [= <- <- _]. exists d. split; [done|]. by apply delete_files_id.
Qed.

Lemma connect_peer_authenticated fuel x is_sender w r w' :
  connect_peer cfg fuel x is_sender w = (Some r, w') ->
  default NUL (aes_key cfg !! 0%nat) <> NUL -> r <> FT_INVALID_SOCK ->
  authenticated (W := W) (xf_file_id x) (aes_key cfg) is_sender r.
Proof.
  intros Hc Hkey Hr.
  assert (Ho : owns (open w) (connect_peer cfg fuel x is_sender) (fun out _ => forall r, out = Some r ->
    default NUL (aes_key cfg !! 0%nat) <> NUL -> r <> FT_INVALID_SOCK ->
    authenticated (W := W) (xf_file_id x) (aes_key cfg) is_sender r)).
  { unfold connect_peer. eapply owns_bind; [apply nat_candidate_owns|]. intros nat S1 Hn.
    eapply owns_conseq; [apply ft_lan_transfer_auth_owns, yields_held, Hn|].
    intros out S2 Ho r0 Hr0. by destruct (Ho r0 Hr0). }
  specialize (Ho w eq_refl). rewrite Hc in Ho. by apply Ho.
Qed.

Lemma receiver_thread_spec fuel x c w c' w' :
  default NUL (aes_key cfg !! 0%nat) <> NUL ->
  receiver_thread malloc_ok uninit cfg fuel ops x c w = (Some c', w') ->
  (exists sock data c1 conn_ms xfer_ms,
     authenticated (W := W) (xf_file_id x) (aes_key cfg) false sock
     /\ 1 <= Z.of_nat (length data) <= ft_max_size cfg
     /\ (exists fid w0 w1, incoming w0 sock = frame fid (Z.of_nat (length data)) data ++ incoming w1 sock)
     /\ delivered x data c c1
     /\ c' = enqueue malloc_ok (build_transfer_result malloc_ok uninit (Some (cstr (xf_file_id x)))
               (Some (str "p2p")) true conn_ms xfer_ms) c1)
  \/ (exists d now t0,
       (files d = files (g_disk c) \/ files d = delete (tmp_path (xf_file_name x)) (files (g_disk c)))
       /\ c' = report_failure malloc_ok uninit now t0 x (set_disk d c)).
Proof.
  intros Hkey. unfold receiver_thread. unfold mbind, st_bind.
  destruct (ft_now_ms w) as [t0 w1]. destruct (connect_peer cfg fuel x false w1) as [[sock|] w2] eqn:Ec; [|done].
  destruct (ft_now_ms w2) as [t_conn w3]. destruct (sock =? FT_INVALID_SOCK) eqn:Es; boolify.
  - cbn [mret st_ret]. destruct (ft_now_ms w3) as [now w4]. cbn.
    destruct (ft_close (xf_listen_fd x) w4) as [u w5]. intros [= <- _]. right. exists (g_disk c), now, t0.
    split; [by left|]. by destruct c.
  - pose proof (connect_peer_authenticated fuel x false w1 sock w2 Ec Hkey Es) as Ha.
    destruct (receive_file _ _ cfg ops x _ t_conn sock c w3) as [[ok c1] w4] eqn:Er.
    apply receive_file_spec in Er. cbv zeta in Er. destruct (ft_close sock w4) as [u w5]. cbn [mret st_ret].
    destruct ok.
    + destruct Er as (data & c2 & xfer & Hl & (fid & w6 & Hin) & Hd & ->).
      cbn. destruct (ft_close (xf_listen_fd x) w5) as [? ?]. intros [= <- _]. left.
      exists sock, data, c2, (t_conn - t0), xfer. split; [done|]. split; [done|].
      split; [by exists fid, w3, w6|]. by split.
    + destruct Er as (d & -> & Hd). destruct (ft_now_ms w5) as [now w6]. cbn.
      destruct (ft_close (xf_listen_fd x) w6) as [? ?]. intros [= <- _]. right. by exists d, now, t0.
Qed.
End Deliver.

(** ** Property *)


(** Three bytes of image from a peer that connects, proves the key and sends. *)
Definition expected_image : TransferState :=
  MkXfer (strncpy (zeros 64) (str "u-1") 63) (strncpy (zeros 256) (str "a.png") 255)
    (strncpy (zeros 64) (str "image/png") 63) 3 (zeros 65) None 0 (zeros 512) false 3 9000
    [strncpy (zeros 64) (str "10.0.0.2:9000") 63] 1 (zeros 64) (zeros 128) 0 0 2 false 3 true.

Definition peer_kernel : Kernel :=
  let hmac := default [] (ft_compute_hmac (xf_file_id expected_image) (aes_key calm_config)) in
  {| net := {| out_ := ∅; in_ := {[4 := str "AUTH" ++ hmac ++ frame (zeros 36) 3 (str "PNG")]};
               cut := fun _ => 7%nat; tick := 0; down := false |};
     fds := {[0; 1; 2; 3]}; next_fd := 4; clock := 1000;
     ready := fun fd => if fd =? 4 then POLLOUT else 0; so_error := fun _ => 0; backlog := 0 |}.

Definition show_ops : ClipboardOps :=
  MkOps None (fun _ => []) (fun _ => []) (fun _ => None) (fun data mime => [MkPiped (cstr mime) data])
    (fun path => [MkPiped (str "path") path]).

Definition idle_client : Client := client_zero (MkDisk ∅ (fun _ => true) 1000).

